(* ===== verification/_CoqProject ===== *)
-Q . S2P
Prelude.v
Float.v
Storage.v
Maintenance.v
Locker.v
GoStrings.v
FilePath.v
Sha256.v
Url.v
Escaping.v
Origin.v
Http.v
HttpPolicy.v
Strconv.v
Config.v
Time.v
Json.v
JsonTotal.v
Metadata.v
Fs.v
Store.v
StoreFacts.v
StoreOps.v
StorePut.v
StoreStream.v
StoreSystem.v
StoreSafety.v
StoreRuns.v
StoreEnds.v
StoreTheorems.v
StoreExamples.v
Handler.v
HandlerFacts.v
HandlerExamples.v
Order.v
Oci.v
OciTheorems.v
OciExamples.v
Mime.v
Fuel.v
Npm.v
NpmTheorems.v
NpmExamples.v
PyPiText.v
PyPiTextFacts.v
LocalPackages.v
Decoding.v
LocalPackagesFacts.v
LocalIndex.v
PyPi.v
PyPiTheorems.v
PyPiPrivate.v
PyPiOrder.v
PyPiUploads.v
PyPiExamples.v
Mux.v
Server.v
ServerNew.v
ServerHttp.v
ServerFacts.v
ServerKeeps.v
ServerInvariant.v
ServerTheorems.v
ServerStart.v
ServerExamples.v
Main.v
MainExamples.v
