(* ===== verification/Prelude.v ===== *)
(** * n0ding: a verified model of the artifact cache

    n0ding is a pull-through cache for npm, OCI and PyPI repositories with a private PyPI
    index, written in Go.  This library models the code under [src/] file by file, in
    executable definitions, and proves what makes it correct.  This file is its root and
    its prelude: machine integers, results of fallible code, sums over finite maps and the
    tactics the other files share.

    ** How the program is put together

    A configuration file ([internal/config]) names the repositories.  [internal/httpserver]
    builds for each of them a store on disk ([internal/cache]) and a proxy
    ([internal/npmproxy], [internal/ociproxy], [internal/pypiproxy]), puts all stores under
    one byte budget ([internal/storage]) and runs collections over all of them, one at a
    time ([internal/maintenance]).  A proxy answers from its store or asks its upstream, by
    the header rules of [internal/httppolicy]; requests for the same key wait for one
    another ([keyedLocker], a copy in each proxy).  [cmd/n0ding] loads, starts and serves.

    ** Files and what they model

    The Go standard library, as far as the code uses it:
    - [GoStrings], [Strconv], [FilePath], [Url], [Escaping], [Origin], [Http], [Mime],
      [Json], [Time], [Float], [Sha256]: strings and conversions, paths, URLs and their
      laws, headers, media types, JSON, instants, IEEE doubles and the hash;
    - [JsonTotal], [Fuel]: the fuel of the recursions over text is enough;
    - [Fs]: [os] on a map from paths to nodes, with an [oracle] that refuses calls;
    - [Mux]: [http.ServeMux] for patterns that are plain paths.

    The budget, the coordinator and the lock, each a state with one function per critical
    section and a relation [step] that interleaves them:
    - [Storage]: [Controller] and [Reservation] of [internal/storage/controller.go], with
      the abstract ledger they refine; [FreeBytes_unix], [FreeBytes_windows];
    - [Maintenance]: [Coordinator.Run], [Snapshot]; the runs live in a shared heap;
    - [Locker]: [keyedLocker.lock] and the function it returns.

    The configuration and the header policy:
    - [Config]: [Parse], [Validate], [Load] of [internal/config/config.go];
    - [HttpPolicy]: all of [internal/httppolicy/policy.go].

    The store, [internal/cache/store.go]:
    - [Metadata]: the record on disk and its JSON; [MetadataCodec] is the interface the
      store's theorems are proved against, [json_codec] its instance;
    - [Store]: [Store.Store] is the struct with the files below its root; [New], [Lookup],
      [Candidates], [RemoveCandidate], [PutStreamVerified], [PutBytes], [Size],
      [Reconcile], [CleanupStaleTemps] and [GC] are the methods of these names;
    - [StoreSystem]: puts in flight over one store, cut where [PutStreamVerified] takes and
      gives back the mutex; [step] is the interleaving, [Inv] the invariant;
    - [StoreFacts], [StoreOps], [StorePut], [StoreStream]: lemmas about entries, operations,
      the commit and the copy; [StoreSafety], [StoreRuns], [StoreEnds], [StoreTheorems]:
      what holds of every run; [StoreExamples]: concrete stores.

    The proxies:
    - [Handler]: a request as a state monad [M] over a [World] of store, counters, reply and
      events, in an [Env] of upstream answers, clocks and what other requests do meanwhile;
    - [HandlerFacts]: [effects], closed under the monad, and the interface [StoreInvariant]
      a property of stores must satisfy to be kept by requests; [trusted_invariant] and
      [Order.orderly_invariant] are its instances, and the theorems about the three
      handlers hold for every instance;
    - [Oci], [Npm], [PyPi] with [PyPiText] and [LocalPackages]: the three handlers, branch
      by branch; [OciTheorems], [NpmTheorems], [PyPiTheorems], [PyPiPrivate], [PyPiUploads],
      [PyPiOrder], [PyPiTextFacts], [LocalPackagesFacts], [LocalIndex], [Decoding]: theorems.

    The server, [internal/httpserver/server.go], and the command:
    - [Server]: the struct, [collect], [collectPressure], [RunMaintenance] over a [Pool] of
      stores with the budget they share; [ServerNew]: [New]; [ServerHttp]: the server's own
      handlers, the dispatch, and a request from its arrival to its reply ([respond]);
    - [ServerFacts], [ServerTheorems], [ServerKeeps], [ServerInvariant], [ServerStart]:
      what collections take and what they leave alone, the invariant of the server and that
      it starts in it; [ServerExamples]: a server at work;
    - [Main], [MainExamples]: [run] and [main] of [cmd/n0ding/main.go].

    ** What the theorems show

    The whole: from its start on, through every sequence of requests and collections,
    the server stays in order and answers what it passes on
    ([started_server_stays_in_order]); [New] builds what is configured ([New_builds]); a run
    of the command ends with such a server ([run_in_order]).

    The store: a put is a run of the concurrent system, on every path and whatever fails
    ([put_refines_system]); counters are exact in every reachable state; a hit was
    committed whole; a put is read back; temporary files are safe while in flight, all puts
    can end and leave none ([puts_can_end]); a restart finds the same entries; the client
    sees what it would without a cache.

    The budget refines a ledger in unbounded integers and is never overcommitted by
    admission; collections run one at a time; a keyed lock excludes.

    The proxies: what a request may send upstream and what it may store; an OCI hit is
    confirmed by the upstream for the client that asks; private projects are never looked
    up upstream; uploads need the token, are confined, immutable, listed or undone, settled
    with the budget and served as they were sent.

    Maintenance: pressure evicts the oldest entries of all stores down to the watermark and
    no further; a collection takes exactly the expired ones; neither touches the
    distributions of a private index; only the operator starts one.

    Text: validation accepts exactly the valid configurations, and what loads is valid;
    metadata and rewritten file links read back; decoding ends on every text.

    ** Conventions and bounds

    Go's integers are [Z] with the wrap-around written out ([wrap64], [wrapU64]).  Time is
    nanoseconds since the epoch.  Maps that Go iterates over in any order are finite maps,
    and a loop over one takes the entries in an order that is an argument.  A store's files
    are a map from cleaned paths to nodes; a path not in it does not exist, and the
    directories the program makes are not entered in it.
    Others that keep bytes under the same budget are the class [Elsewhere] of [StoreSystem]:
    the other repositories, when a store is one of a server.

    Fuel appears only in recursions over text, where it is the length of the text (plus
    two per byte for the JSON parser, which descends and moves on), and in [format_digits],
    where twenty digits hold any [int64].  [Fuel], [JsonTotal] and [decoding_terminates]
    prove that more changes nothing.  Candidates, walks and ticks are lists, and the loops
    over them structural.

    ** What is assumed of the surroundings

    Each theorem names what it needs: that the random suffix of a temporary file is one of
    no other file of the key ([step_open], [upload_apart]); that a put's metadata can be
    encoded and is not larger than what a read accepts ([put_assumptions]); that reads of
    present files succeed where a theorem says what is found ([reads_ok], [undisturbed]).
    The upstream answers anything; calls that change files fail at will.

    ** Not modelled

    - Logging, and what the texts of errors say beyond what a caller reads.
    - [net/http] itself: connections, [ServeContent]'s ranges and conditions (the file it
      is given is recorded), multipart parsing (a parsed form is an input), timeouts.
      [Main] takes serving as a function that runs the steps of the server.
    - [golang.org/x/net/html]: the class [HtmlLib] of [PyPi], of which the code uses a tree
      of nodes.
    - The rendering of status documents and of the dashboard's template; the fields they
      show are computed.
    - Patterns of [http.ServeMux] with hosts, methods or wildcards, which braces in a
      repository's path would make.
    - Requests to different repositories interleave as whole steps in [ServerInvariant];
      requests to one store interleave by critical sections in [StoreSystem].
    - A distribution of a private index whose name starts like the hash that names a cache
      file is taken by the store's walk for an entry; theorems that keep entries and
      distributions apart exclude such names ([looks_hashed]).
    - Case folding outside ASCII; durability of renames; the making of directories, beyond
      whether the system allows it.
    - The programs below [testdata/], which belong to the tests. *)

From Stdlib Require Export ZArith Lia.
From stdpp Require Export base tactics numbers list gmap strings sorting fin_maps.

#[global] Set Default Goal Selector "!".

#[global] Set Warnings "-clear-no-such-hyp".

Open Scope Z_scope.

(** ** Machine integers

    Go's [int64] and [uint64] are [Z] values; every operation of the source that
    can leave the range is written with its wrap-around. *)

Definition maxInt64 : Z := 9223372036854775807.
Definition minInt64 : Z := -9223372036854775808.

Definition int64 (z : Z) : Prop := minInt64 <= z <= maxInt64.

Definition wrap64 (z : Z) : Z :=
  (z + 9223372036854775808) mod 18446744073709551616 - 9223372036854775808.

Definition wrapU64 (z : Z) : Z := z mod 18446744073709551616.

Lemma wrap64_id (z : Z) : int64 z -> wrap64 z = z.
Proof. unfold int64, wrap64, minInt64, maxInt64. intros. rewrite Z.mod_small; lia. Qed.

Lemma wrap64_range (z : Z) : int64 (wrap64 z).
Proof.
  unfold int64, wrap64, minInt64, maxInt64.
  pose proof (Z.mod_pos_bound (z + 9223372036854775808) 18446744073709551616). lia.
Qed.

Lemma wrapU64_id (z : Z) : 0 <= z < 18446744073709551616 -> wrapU64 z = z.
Proof. intros. by apply Z.mod_small. Qed.

(** [int64_lia] proves bounds of expressions over [int64] values. *)
Ltac int64_lia := unfold int64, minInt64, maxInt64 in *; lia.

(** [wrap64_simpl] removes every [wrap64] whose argument is in range. *)
Ltac wrap64_simpl := repeat (rewrite wrap64_id in * by int64_lia).

(** ** Results of fallible code *)

Inductive result (E A : Type) : Type :=
  | Ok (a : A)
  | Err (e : E).
Arguments Ok {E A} a.
Arguments Err {E A} e.

Definition result_bind {E A B : Type} (m : result E A) (k : A -> result E B) : result E B :=
  match m with Ok a => k a | Err e => Err e end.

Definition isOk {E A : Type} (m : result E A) : bool :=
  match m with Ok _ => true | Err _ => false end.

Declare Scope go_scope.
Delimit Scope go_scope with go.
Notation "'let?' x ':=' m 'in' k" := (result_bind m (fun x => k))
  (at level 10, x pattern, m at level 100, k at level 200) : go_scope.

Lemma result_bind_assoc {E A B C : Type} (m : result E A) (f : A -> result E B)
    (g : B -> result E C) :
  result_bind m (fun a => result_bind (f a) g) = result_bind (result_bind m f) g.
Proof. by destruct m. Qed.

Lemma result_bind_Ok {E A B : Type} (m : result E A) (k : A -> result E B) (b : B) :
  result_bind m k = Ok b <-> exists a, m = Ok a /\ k a = Ok b.
Proof. destruct m; simpl; naive_solver. Qed.

(** ** Lists *)

Lemma foldr_ext_in {A : Type} (g h : A -> Z -> Z) (l : list A) :
  (forall x, x ∈ l -> forall z, g x z = h x z) -> fold_right g 0 l = fold_right h 0 l.
Proof.
  induction l as [|x l IH]; intros E; [done|]. cbn [fold_right].
  rewrite IH by (intros; apply E; by right). apply E. by left.
Qed.

(** ** Sums over finite maps *)

Section MapSum.
Context {K V : Type} `{Countable K} (f : V -> Z).

Definition map_sum (m : gmap K V) : Z := map_fold (fun _ v acc => f v + acc) 0 m.

Lemma map_sum_empty : map_sum ∅ = 0.
Proof. apply map_fold_empty. Qed.

Lemma map_sum_insert (m : gmap K V) (k : K) (v : V) :
  m !! k = None -> map_sum (<[k:=v]> m) = f v + map_sum m.
Proof.
  intros Hk. unfold map_sum. rewrite map_fold_insert_L; [done | intros; lia | done].
Qed.

Lemma map_sum_delete (m : gmap K V) (k : K) (v : V) :
  m !! k = Some v -> map_sum m = f v + map_sum (delete k m).
Proof.
  intros Hk. rewrite <- (insert_delete_id m k v Hk) at 1.
  apply map_sum_insert, lookup_delete_eq.
Qed.

Lemma map_sum_update (m : gmap K V) (k : K) (v v' : V) :
  m !! k = Some v -> map_sum (<[k:=v']> m) = map_sum m - f v + f v'.
Proof.
  intros Hk. rewrite <- insert_delete_eq, map_sum_insert by apply lookup_delete_eq.
  rewrite (map_sum_delete m k v Hk). lia.
Qed.

Lemma map_sum_nonneg (m : gmap K V) :
  (forall k v, m !! k = Some v -> 0 <= f v) -> 0 <= map_sum m.
Proof.
  induction m as [|k v m Hk IH] using map_ind; intros Hpos.
  - by rewrite map_sum_empty.
  - rewrite map_sum_insert by done.
    assert (0 <= f v) by (apply (Hpos k); by simplify_map_eq).
    assert (0 <= map_sum m); [|lia].
    apply IH. intros j w Hj. apply (Hpos j). by rewrite lookup_insert_ne by congruence.
Qed.

Lemma map_sum_elem_le (m : gmap K V) (k : K) (v : V) :
  (forall k v, m !! k = Some v -> 0 <= f v) -> m !! k = Some v -> f v <= map_sum m.
Proof.
  intros Hpos Hk. rewrite (map_sum_delete m k v Hk).
  assert (0 <= map_sum (delete k m)); [|lia].
  apply map_sum_nonneg. intros j w [_ Hj]%lookup_delete_Some. by apply (Hpos j).
Qed.

(** The sum along any list that covers the keys once. *)
Definition at_key (m : gmap K V) (k : K) : Z := match m !! k with Some v => f v | None => 0 end.

Lemma map_sum_subseteq (m1 m2 : gmap K V) :
  (forall k v, m2 !! k = Some v -> 0 <= f v) -> m1 ⊆ m2 -> map_sum m1 <= map_sum m2.
Proof.
  revert m2. induction m1 as [|k v m1 Hk IH] using map_ind; intros m2 Hpos Hsub.
  - rewrite map_sum_empty. by apply map_sum_nonneg.
  - assert (m2 !! k = Some v) as Hv by (eapply lookup_weaken; [apply lookup_insert_eq|done]).
    rewrite map_sum_insert, (map_sum_delete m2 k v) by done.
    assert (m1 ⊆ delete k m2) as Hd.
    { apply map_subseteq_spec. intros j w Hj. assert (k <> j) as Hne by congruence.
      rewrite lookup_delete_ne by done. eapply lookup_weaken; [|done].
      by rewrite lookup_insert_ne. }
    assert (map_sum m1 <= map_sum (delete k m2)); [|lia].
    apply IH; [|done]. intros j w [_ Hj]%lookup_delete_Some. eauto.
Qed.

Lemma map_sum_list (m : gmap K V) (l : list K) :
  NoDup l -> (forall k, is_Some (m !! k) -> k ∈ l) ->
  map_sum m = fold_right (fun k acc => at_key m k + acc) 0 l.
Proof.
  intros Hl. revert m. induction Hl as [|k l Hk Hl IH]; intros m Hm.
  - assert (m = ∅) as ->; [|apply map_sum_empty]. apply map_eq. intros k.
    rewrite lookup_empty. destruct (m !! k) eqn:E; [|done].
    assert (k ∈ []) as H1 by (apply Hm; eauto). by apply elem_of_nil in H1.
  - cbn [fold_right]. assert (map_sum m = at_key m k + map_sum (delete k m)) as ->.
    { unfold at_key. destruct (m !! k) as [v|] eqn:E; [by apply map_sum_delete|].
      by rewrite delete_id. }
    f_equal. rewrite IH.
    + apply foldr_ext_in. intros j Hj z. f_equal. unfold at_key. rewrite lookup_delete_ne; [done|].
      by intros ->.
    + intros j [v Hj]. apply lookup_delete_Some in Hj as [Hne Hj].
      assert (j ∈ k :: l) as [->|?]%elem_of_cons by (apply Hm; eauto); done.
Qed.
End MapSum.

Lemma map_sum_fmap {K V W : Type} `{Countable K} (g : V -> W) (f : W -> Z) (m : gmap K V) :
  map_sum f (g <$> m) = map_sum (fun v => f (g v)) m.
Proof.
  induction m as [|k v m Hk IH] using map_ind; [by rewrite fmap_empty, !map_sum_empty|].
  rewrite fmap_insert, !map_sum_insert by (done || by rewrite lookup_fmap, Hk). by rewrite IH.
Qed.

Lemma map_sum_ones {K V : Type} `{Countable K} (m : gmap K V) :
  map_sum (fun _ => 1) m = Z.of_nat (size m).
Proof.
  induction m as [|k v m Hk IH] using map_ind; [by rewrite map_sum_empty, map_size_empty|].
  rewrite map_sum_insert, map_size_insert_None by done. lia.
Qed.

(** ** In-place updates of a finite map *)

Section MapAlter.
Context {K V : Type} `{Countable K} (f : V -> V) (m : gmap K V).

Lemma map_size_alter (k : K) : size (alter f k m) = size m.
Proof. by rewrite <- !size_dom, dom_alter_L. Qed.

Lemma lookup_alter_case (k j : K) :
  alter f k m !! j = if decide (k = j) then f <$> m !! j else m !! j.
Proof. rewrite lookup_alter. by case_decide; subst. Qed.

Lemma is_Some_alter (k j : K) : is_Some (alter f k m !! j) <-> is_Some (m !! j).
Proof. rewrite lookup_alter_case. case_decide; [by rewrite fmap_is_Some | done]. Qed.
End MapAlter.

(** ** Automation shared by the components *)

Create HintDb go discriminated.
#[export] Hint Resolve wrap64_id wrap64_range : go.

(** [split_bool] turns boolean connectives and comparisons into propositions. *)
Ltac split_bool :=
  repeat match goal with
  | H : _ && _ = true |- _ => apply andb_true_iff in H; destruct H
  | H : _ || _ = false |- _ => apply orb_false_iff in H; destruct H
  | H : _ && _ = false |- _ => apply andb_false_iff in H
  | H : _ || _ = true |- _ => apply orb_true_iff in H
  | H : negb _ = true |- _ => apply negb_true_iff in H
  | H : negb _ = false |- _ => apply negb_false_iff in H
  | H : (_ <=? _)%Z = true |- _ => apply Z.leb_le in H
  | H : (_ <=? _)%Z = false |- _ => apply Z.leb_gt in H
  | H : (_ <? _)%Z = true |- _ => apply Z.ltb_lt in H
  | H : (_ <? _)%Z = false |- _ => apply Z.ltb_ge in H
  | H : (_ =? _)%Z = true |- _ => apply Z.eqb_eq in H
  | H : (_ =? _)%Z = false |- _ => apply Z.eqb_neq in H
  | H : bool_decide _ = true |- _ => apply bool_decide_eq_true in H
  | H : bool_decide _ = false |- _ => apply bool_decide_eq_false in H
  end.

(** [destruct_ifs] analyses every conditional of the goal and cleans up. *)
Ltac destruct_ifs :=
  repeat match goal with
  | |- context [if ?b then _ else _] => destruct b eqn:?
  end; split_bool.
