(* ===== verification/Float.v ===== *)
(** * IEEE 754 doubles

    Go's [float64] as [SpecFloat] values at precision 53: the operations the
    program uses, each correctly rounded to nearest even. *)

From S2P Require Import Prelude.
From Stdlib Require Import SpecFloat.

Definition float64 := spec_float.

Definition f64_of_Z (z : Z) : float64 := binary_normalize 53 1024 z 0 false.
Definition f64_mul (x y : float64) : float64 := SFmul 53 1024 x y.
Definition f64_div (x y : float64) : float64 := SFdiv 53 1024 x y.
Definition f64_add (x y : float64) : float64 := SFadd 53 1024 x y.
Definition f64_ltb (x y : float64) : bool := SFltb x y.
Definition f64_leb (x y : float64) : bool := SFleb x y.

(** The double nearest to [m * 2^e]. *)
Definition f64_scaled (neg : bool) (m : Z) (e : Z) : float64 :=
  match m with
  | Zpos m => binary_round 53 1024 neg m e
  | _ => S754_zero neg
  end.

(** The double nearest to [m / d]. *)
Definition f64_quotient (neg : bool) (m d : positive) : float64 :=
  let '(q, e, l) := SFdiv_core_binary 53 1024 (Zpos m) 0 (Zpos d) 0 in
  binary_round_aux 53 1024 neg q e l.

(** Conversion to an integer, towards zero, of a finite double. *)
Definition f64_trunc (x : float64) : Z :=
  match x with
  | S754_finite s m e => let v := Z.shiftl (Zpos m) e in if s then - v else v
  | _ => 0
  end.

Definition IsNaN (x : float64) : bool := match x with S754_nan => true | _ => false end.
Definition IsInf (x : float64) : bool := match x with S754_infinity _ => true | _ => false end.
