(* ===== verification/Storage.v ===== *)
(** * The shared byte budget: [internal/storage]

    [Controller] is the budget all repositories share.  Every method of the
    source holds the controller's mutex for its whole body, so each method is
    one atomic transition; the [step] relation interleaves them in any order.
    A [*Reservation] is an [option Reservation] (nil is [None]); its [sync.Once]
    is the flag [once]. *)

From S2P Require Import Prelude Float.
From Stdlib Require Import SpecFloat.

(** ** Arithmetic helpers *)

Definition saturatingAdd (left right : Z) : Z :=
  if (0 <? right) && (wrap64 (maxInt64 - right) <? left) then maxInt64
  else wrap64 (left + right).

Definition exceedsAvailable (limit used requested : Z) : bool :=
  (limit <? 0) || (limit <? used) || (wrap64 (limit - used) <? requested).

Definition scaleBasisPoints (value basisPoints : Z) : Z :=
  wrap64 (wrap64 (Z.quot value 10000 * basisPoints)
          + Z.quot (wrap64 (Z.rem value 10000 * basisPoints)) 10000).

(** ** State *)

Record Controller := mkController {
  maxBytes : Z;
  highBasisPoints : Z;
  lowBasisPoints : Z;
  minFreeBytes : Z;
  committedBytes : Z;
  reservedBytes : Z;
  bypassObjects : Z;
  bypassBytes : Z
}.

Record Snapshot := mkSnapshot {
  MaxBytes : Z;
  HighBytes : Z;
  LowBytes : Z;
  MinFreeBytes : Z;
  CommittedBytes : Z;
  ReservedBytes : Z;
  BypassObjects : Z;
  BypassBytes : Z;
  Pressure : bool
}.

Record Reservation := mkReservation {
  bytes : Z;
  once : bool (* whether the [sync.Once] has fired *)
}.

Definition set_reserved (z : Z) (c : Controller) : Controller :=
  mkController (maxBytes c) (highBasisPoints c) (lowBasisPoints c) (minFreeBytes c)
    (committedBytes c) z (bypassObjects c) (bypassBytes c).

Definition set_committed (z : Z) (c : Controller) : Controller :=
  mkController (maxBytes c) (highBasisPoints c) (lowBasisPoints c) (minFreeBytes c)
    z (reservedBytes c) (bypassObjects c) (bypassBytes c).

Definition set_bypass (objects bytes : Z) (c : Controller) : Controller :=
  mkController (maxBytes c) (highBasisPoints c) (lowBasisPoints c) (minFreeBytes c)
    (committedBytes c) (reservedBytes c) objects bytes.

(** ** Watermarks

    The watermarks are IEEE 754 doubles. [math.Round] rounds half away from zero; the conversion to [int64] of a value
    outside its range is left to the implementation by the language, and the
    amd64 compiler yields the smallest [int64]. *)

Definition int64_of_round (x : float64) : Z :=
  match x with
  | S754_zero _ => 0
  | S754_finite s m e =>
      let magnitude :=
        if 0 <=? e then Z.shiftl (Zpos m) e
        else Z.shiftr (Zpos m + Z.shiftl 1 (- e - 1)) (- e) in
      let v := if s then - magnitude else magnitude in
      if (minInt64 <=? v) && (v <=? maxInt64) then v else minInt64
  | _ => minInt64
  end.

Definition NewController (maxBytes : Z) (highWatermark lowWatermark : float64)
    (minFreeBytes committedBytes : Z) : Controller :=
  mkController maxBytes
    (int64_of_round (f64_mul highWatermark (f64_of_Z 10000)))
    (int64_of_round (f64_mul lowWatermark (f64_of_Z 10000)))
    minFreeBytes committedBytes 0 0 0.

(** ** Methods *)

Definition RecordBypass (c : Controller) (bytes : Z) : Controller :=
  set_bypass (saturatingAdd (bypassObjects c) 1)
    (if 0 <? bytes then saturatingAdd (bypassBytes c) bytes else bypassBytes c) c.

Definition Reserve (c : Controller) (bytes filesystemFreeBytes : Z)
    : option Reservation * Controller :=
  let budgetUsed := saturatingAdd (committedBytes c) (reservedBytes c) in
  let availableFilesystem :=
    wrap64 (filesystemFreeBytes - Z.min (reservedBytes c) filesystemFreeBytes) in
  if (bytes <=? 0)
     || ((0 <? maxBytes c) && exceedsAvailable (maxBytes c) budgetUsed bytes)
     || ((0 <? minFreeBytes c)
         && exceedsAvailable availableFilesystem (minFreeBytes c) bytes)
  then (None,
        set_bypass (saturatingAdd (bypassObjects c) 1)
          (if 0 <? bytes then saturatingAdd (bypassBytes c) bytes else bypassBytes c) c)
  else (Some (mkReservation bytes false),
        set_reserved (saturatingAdd (reservedBytes c) bytes) c).

(** The body of the closure given to [once.Do] by [Commit]. *)
Definition commitOnce (c : Controller) (reserved actualBytes replacedBytes : Z)
    : bool * Controller :=
  let c := set_reserved (wrap64 (reservedBytes c - reserved)) c in
  if (0 <=? actualBytes) && (actualBytes <=? reserved)
     && (0 <=? replacedBytes) && (replacedBytes <=? committedBytes c)
  then (true,
        set_committed
          (saturatingAdd (wrap64 (committedBytes c - replacedBytes)) actualBytes) c)
  else (false, c).

Definition Commit (c : Controller) (r : option Reservation) (actualBytes replacedBytes : Z)
    : bool * option Reservation * Controller :=
  match r with
  | None => (false, None, c)
  | Some r =>
      if once r then (false, Some r, c)
      else
        let '(committed, c') := commitOnce c (bytes r) actualBytes replacedBytes in
        (committed, Some (mkReservation (bytes r) true), c')
  end.

Definition Release (c : Controller) (r : option Reservation)
    : option Reservation * Controller :=
  match r with
  | None => (None, c)
  | Some r =>
      if once r then (Some r, c)
      else (Some (mkReservation (bytes r) true),
            set_reserved (wrap64 (reservedBytes c - bytes r)) c)
  end.

Definition Remove (c : Controller) (bytes : Z) : Controller :=
  if bytes <=? 0 then c
  else
    let c := set_committed (wrap64 (committedBytes c - bytes)) c in
    if committedBytes c <? 0 then set_committed 0 c else c.

Definition SnapshotOf (c : Controller) : Snapshot :=
  let highBytes := scaleBasisPoints (maxBytes c) (highBasisPoints c) in
  let lowBytes := scaleBasisPoints (maxBytes c) (lowBasisPoints c) in
  mkSnapshot (maxBytes c) highBytes lowBytes (minFreeBytes c)
    (committedBytes c) (reservedBytes c) (bypassObjects c) (bypassBytes c)
    ((0 <? maxBytes c)
     && (highBytes <=? saturatingAdd (committedBytes c) (reservedBytes c))).

(** [FreeBytes] of [free_unix.go] on the two words [statfs] returns: the product
    of two [uint64], saturated to [MaxInt64]. *)
Definition FreeBytes_unix (blocks blockSize : Z) : Z :=
  if negb (blockSize =? 0) && (maxInt64 / blockSize <? blocks) then maxInt64
  else wrap64 (wrapU64 (blocks * blockSize)).

(** [FreeBytes] of [free_windows.go] on the [uint64] the system call stores. *)
Definition FreeBytes_windows (available : Z) : Z :=
  if maxInt64 <? available then maxInt64 else wrap64 available.

(** ** Interleavings

    The controller with every reservation handed out so far, by identity. *)

Record System := mkSystem {
  controller : Controller;
  reservations : gmap nat Reservation
}.

Inductive step : System -> System -> Prop :=
  | step_reserve c rs b free r c' i :
      int64 b -> int64 free ->
      Reserve c b free = (Some r, c') -> rs !! i = None ->
      step (mkSystem c rs) (mkSystem c' (<[i:=r]> rs))
  | step_refuse c rs b free c' :
      int64 b -> int64 free ->
      Reserve c b free = (None, c') ->
      step (mkSystem c rs) (mkSystem c' rs)
  | step_bypass c rs b :
      int64 b -> step (mkSystem c rs) (mkSystem (RecordBypass c b) rs)
  | step_commit c rs i r actual replaced ok r' c' :
      int64 actual -> int64 replaced -> rs !! i = Some r ->
      Commit c (Some r) actual replaced = (ok, Some r', c') ->
      step (mkSystem c rs) (mkSystem c' (<[i:=r']> rs))
  | step_release c rs i r r' c' :
      rs !! i = Some r -> Release c (Some r) = (Some r', c') ->
      step (mkSystem c rs) (mkSystem c' (<[i:=r']> rs))
  | step_remove c rs b :
      int64 b -> step (mkSystem c rs) (mkSystem (Remove c b) rs).

(** Reachable from a controller as [NewController] returns it. *)
Inductive reachable (c0 : Controller) : System -> Prop :=
  | reach_init : reachable c0 (mkSystem c0 ∅)
  | reach_step s s' : reachable c0 s -> step s s' -> reachable c0 s'.

(** A fresh controller as [httpserver.New] builds one: at least one of the two
    bounds is set, neither is negative ([config.Validate]) and the usage it starts
    from is a non-negative [int64]. *)
Definition bounded_start (c : Controller) : Prop :=
  0 <= maxBytes c <= maxInt64 /\ 0 <= minFreeBytes c <= maxInt64
  /\ (0 < maxBytes c \/ 0 < minFreeBytes c)
  /\ 0 <= committedBytes c <= maxInt64
  /\ reservedBytes c = 0.

(** The bytes of the reservations neither committed nor released. *)
Definition outstanding (r : Reservation) : Z := if once r then 0 else bytes r.
Definition outstanding_total (s : System) : Z := map_sum outstanding (reservations s).

(** ** The abstract ledger

    What the controller promises, in unbounded integers: [used] bytes are
    committed, [pending] maps each open reservation to its size. *)

Record Ledger := mkLedger {
  budget : Z;
  freeFloor : Z;
  used : Z;
  pending : gmap nat Z
}.

Definition pending_total (l : Ledger) : Z := map_sum id (pending l).

(** When a request for [b] bytes is admitted, with [free] bytes on the disk. *)
Definition admits (l : Ledger) (b free : Z) : bool :=
  (0 <? b)
  && (negb (0 <? budget l) || (used l + pending_total l + b <=? budget l))
  && (negb (0 <? freeFloor l)
      || (freeFloor l + b <=? free - Z.min (pending_total l) free)).

Inductive ledger_step : Ledger -> Ledger -> Prop :=
  | ledger_open B F u p i b free :
      admits (mkLedger B F u p) b free = true -> p !! i = None ->
      ledger_step (mkLedger B F u p) (mkLedger B F u (<[i:=b]> p))
  | ledger_settle B F u p i b actual replaced :
      p !! i = Some b -> 0 <= actual <= b -> 0 <= replaced <= u ->
      ledger_step (mkLedger B F u p)
        (mkLedger B F (Z.min maxInt64 (u - replaced + actual)) (delete i p))
  | ledger_cancel B F u p i b :
      p !! i = Some b -> ledger_step (mkLedger B F u p) (mkLedger B F u (delete i p))
  | ledger_discard B F u p b :
      0 < b -> ledger_step (mkLedger B F u p) (mkLedger B F (Z.max 0 (u - b)) p)
  | ledger_idle l : ledger_step l l.

Definition open_bytes (r : Reservation) : option Z :=
  if once r then None else Some (bytes r).

Definition abs (s : System) : Ledger :=
  mkLedger (maxBytes (controller s)) (minFreeBytes (controller s))
    (committedBytes (controller s)) (omap open_bytes (reservations s)).

(** ** The well-formedness invariant *)

Record wf (c0 : Controller) (s : System) : Prop := {
  wf_max : maxBytes (controller s) = maxBytes c0;
  wf_min : minFreeBytes (controller s) = minFreeBytes c0;
  wf_high : highBasisPoints (controller s) = highBasisPoints c0;
  wf_low : lowBasisPoints (controller s) = lowBasisPoints c0;
  wf_committed : 0 <= committedBytes (controller s) <= maxInt64;
  wf_bytes : forall i r, reservations s !! i = Some r -> 0 < bytes r <= maxInt64;
  wf_reserved : reservedBytes (controller s) = outstanding_total s;
  wf_reserved_le : reservedBytes (controller s) <= maxInt64;
  wf_budget : 0 < maxBytes c0 ->
    committedBytes (controller s) + reservedBytes (controller s)
    <= Z.max (maxBytes c0) (committedBytes c0)
}.

(** ** Arithmetic lemmas *)

Lemma saturatingAdd_spec (l r : Z) :
  int64 l -> int64 r -> minInt64 <= l + r -> saturatingAdd l r = Z.min maxInt64 (l + r).
Proof.
  intros Hl Hr Hsum. unfold saturatingAdd.
  destruct (Z.ltb_spec 0 r); simpl.
  - rewrite (wrap64_id (maxInt64 - r)) by int64_lia.
    destruct (Z.ltb_spec (maxInt64 - r) l); [int64_lia|].
    rewrite wrap64_id; int64_lia.
  - rewrite wrap64_id; int64_lia.
Qed.

Lemma exceedsAvailable_spec (limit used requested : Z) :
  int64 limit -> 0 <= used <= maxInt64 -> 0 < requested ->
  exceedsAvailable limit used requested = negb (used + requested <=? limit).
Proof.
  intros Hl Hu Hr. unfold exceedsAvailable.
  destruct (Z.ltb_spec limit 0), (Z.ltb_spec limit used); simpl;
    try (symmetry; apply negb_true_iff, Z.leb_gt; lia).
  rewrite wrap64_id by int64_lia.
  destruct (Z.ltb_spec (limit - used) requested), (Z.leb_spec (used + requested) limit);
    simpl; lia.
Qed.

Lemma outstanding_nonneg (rs : gmap nat Reservation) :
  (forall i r, rs !! i = Some r -> 0 < bytes r <= maxInt64) -> 0 <= map_sum outstanding rs.
Proof.
  intros H. apply map_sum_nonneg. intros i r Hi. specialize (H i r Hi).
  unfold outstanding. destruct (once r); lia.
Qed.

Lemma wf_reserved_nonneg (c0 : Controller) (s : System) :
  wf c0 s -> 0 <= reservedBytes (controller s).
Proof.
  intros W. rewrite (wf_reserved _ _ W). apply outstanding_nonneg, (wf_bytes _ _ W).
Qed.

(** Closing one open reservation frees exactly its bytes. *)
Lemma outstanding_close (rs : gmap nat Reservation) (i : nat) (r : Reservation) :
  rs !! i = Some r -> once r = false ->
  map_sum outstanding (<[i:=mkReservation (bytes r) true]> rs)
  = map_sum outstanding rs - bytes r.
Proof.
  intros Hi Ho. rewrite (map_sum_update _ _ _ r) by done.
  unfold outstanding. rewrite Ho. simpl. lia.
Qed.

Lemma outstanding_le (rs : gmap nat Reservation) (i : nat) (r : Reservation) :
  (forall i r, rs !! i = Some r -> 0 < bytes r <= maxInt64) ->
  rs !! i = Some r -> once r = false -> bytes r <= map_sum outstanding rs.
Proof.
  intros Hb Hi Ho.
  assert (outstanding r <= map_sum outstanding rs) as Hle.
  { apply (map_sum_elem_le outstanding rs i r); [|done].
    intros j w Hj. specialize (Hb j w Hj). unfold outstanding. destruct (once w); lia. }
  unfold outstanding in Hle. by rewrite Ho in Hle.
Qed.

Lemma abs_pending_total (s : System) : pending_total (abs s) = outstanding_total s.
Proof.
  unfold pending_total, outstanding_total. simpl.
  induction (reservations s) as [|i r rs Hi IH] using map_ind.
  - by rewrite omap_empty, !map_sum_empty.
  - rewrite map_sum_insert by done. unfold outstanding at 1.
    destruct (once r) eqn:Ho.
    + rewrite omap_insert_None by (unfold open_bytes; by rewrite Ho).
      rewrite delete_id by (by rewrite lookup_omap, Hi). rewrite IH. lia.
    + rewrite (omap_insert_Some _ _ _ _ (bytes r)) by (unfold open_bytes; by rewrite Ho).
      rewrite map_sum_insert by (by rewrite lookup_omap, Hi). unfold id at 1. lia.
Qed.

(** [Reserve], on a well-formed controller, decides exactly [admits]. *)
Lemma Reserve_wf (c0 : Controller) (s : System) (b free : Z) :
  bounded_start c0 -> wf c0 s -> int64 b -> int64 free ->
  Reserve (controller s) b free =
  if admits (abs s) b free
  then (Some (mkReservation b false),
        set_reserved (reservedBytes (controller s) + b) (controller s))
  else (None,
        set_bypass (saturatingAdd (bypassObjects (controller s)) 1)
          (if 0 <? b then saturatingAdd (bypassBytes (controller s)) b
           else bypassBytes (controller s)) (controller s)).
Proof.
  intros (Hmax & Hmin & Hbound & Hcom & _) W Hb Hfree.
  pose proof (wf_reserved_nonneg _ _ W) as Hr0. pose proof (wf_reserved_le _ _ W) as Hr1.
  pose proof (wf_committed _ _ W) as Hc. pose proof (wf_budget _ _ W) as Hbud.
  unfold Reserve, admits. rewrite abs_pending_total, <- (wf_reserved _ _ W). simpl.
  rewrite (wf_max _ _ W), (wf_min _ _ W) in *.
  set (c := controller s) in *.
  destruct (Z.leb_spec b 0) as [Hb0|Hb0]; simpl.
  { destruct (Z.ltb_spec 0 b); [lia|done]. }
  destruct (Z.ltb_spec 0 b); [simpl|lia].
  rewrite (wrap64_id (free - _)) by int64_lia.
  rewrite (exceedsAvailable_spec (free - _)) by int64_lia.
  rewrite (saturatingAdd_spec (committedBytes c)) by int64_lia.
  rewrite exceedsAvailable_spec by int64_lia.
  destruct (Z.ltb_spec 0 (maxBytes c0)); simpl.
  - rewrite Z.min_r by int64_lia.
    destruct (Z.leb_spec (committedBytes c + reservedBytes c + b) (maxBytes c0)); simpl; [|done].
    destruct (Z.ltb_spec 0 (minFreeBytes c0)); simpl.
    + destruct (Z.leb_spec (minFreeBytes c0 + b) (free - Z.min (reservedBytes c) free)); simpl; [|done].
      rewrite saturatingAdd_spec, Z.min_r by int64_lia. done.
    + rewrite saturatingAdd_spec, Z.min_r by int64_lia. done.
  - destruct (Z.ltb_spec 0 (minFreeBytes c0)); simpl; [|lia].
    destruct (Z.leb_spec (minFreeBytes c0 + b) (free - Z.min (reservedBytes c) free)); simpl; [|done].
    rewrite saturatingAdd_spec, Z.min_r by int64_lia. done.
Qed.

(** ** Preservation *)

Lemma ledger_wf_init (c0 : Controller) : bounded_start c0 -> wf c0 (mkSystem c0 ∅).
Proof.
  intros (? & ? & ? & ? & Hr). split; simpl; try done; int64_lia.
Qed.

(** The effect of closing an open reservation without committing bytes. *)
Lemma wf_close (c0 : Controller) (c : Controller) (rs : gmap nat Reservation)
    (i : nat) (r : Reservation) :
  wf c0 (mkSystem c rs) -> rs !! i = Some r -> once r = false ->
  wrap64 (reservedBytes c - bytes r) = reservedBytes c - bytes r
  /\ wf c0 (mkSystem (set_reserved (reservedBytes c - bytes r) c)
              (<[i:=mkReservation (bytes r) true]> rs)).
Proof.
  intros W Hi Ho.
  pose proof (wf_bytes _ _ W i r Hi) as Hb. simpl in Hb.
  pose proof (outstanding_le rs i r (wf_bytes _ _ W) Hi Ho) as Hle.
  pose proof (wf_reserved _ _ W) as Hres. unfold outstanding_total in Hres. simpl in Hres.
  pose proof (wf_reserved_le _ _ W) as Hmax. simpl in Hmax.
  split; [apply wrap64_id; int64_lia|].
  destruct W as [? ? ? ? Hc Hbs _ _ Hbud]; simpl in *.
  split; simpl; try done; try lia.
  - intros j w Hj. rewrite lookup_insert in Hj. case_decide; simplify_eq/=; eauto.
  - unfold outstanding_total. simpl. rewrite outstanding_close by done. lia.
Qed.

Lemma wf_step_reserve (c0 c c' : Controller) (rs : gmap nat Reservation)
    (b free : Z) (r : Reservation) (i : nat) :
  bounded_start c0 -> wf c0 (mkSystem c rs) -> int64 b -> int64 free ->
  Reserve c b free = (Some r, c') -> rs !! i = None ->
  admits (abs (mkSystem c rs)) b free = true
  /\ r = mkReservation b false
  /\ c' = set_reserved (reservedBytes c + b) c
  /\ wf c0 (mkSystem c' (<[i:=r]> rs)).
Proof.
  intros B W Hb Hf HR Hi.
  pose proof (Reserve_wf c0 _ b free B W Hb Hf) as E. simpl in E. rewrite HR in E.
  destruct (admits _ b free) eqn:A; simplify_eq. split_and!; try done.
  pose proof (wf_reserved_nonneg _ _ W) as Hr0. simpl in Hr0.
  unfold admits in A. rewrite abs_pending_total, <- (wf_reserved _ _ W) in A. simpl in A.
  destruct B as (Hm & Hn & Hor & _).
  destruct W as [E1 E2 ? ? Hc Hbs Hres Hle Hbud]; simpl in *.
  apply andb_true_iff in A as [[Hpos%Z.ltb_lt Hbudget]%andb_true_iff Hfree].
  rewrite E1 in Hbudget. rewrite E2 in Hfree.
  assert (0 < maxBytes c0 -> committedBytes c + reservedBytes c + b <= maxBytes c0).
  { intros ?. destruct (Z.ltb_spec 0 (maxBytes c0)); [|lia]. by apply Z.leb_le. }
  assert (0 < minFreeBytes c0 -> minFreeBytes c0 + b <= free - Z.min (reservedBytes c) free).
  { intros ?. destruct (Z.ltb_spec 0 (minFreeBytes c0)); [|lia]. by apply Z.leb_le. }
  split; simpl; try done; try int64_lia.
  - intros j w Hj. rewrite lookup_insert in Hj. case_decide; simplify_eq/=; [int64_lia|eauto].
  - unfold outstanding_total in *. simpl in *. rewrite map_sum_insert by done.
    unfold outstanding at 1. simpl. lia.
Qed.

Lemma wf_step_commit (c0 c c' : Controller) (rs : gmap nat Reservation) (i : nat)
    (r r' : Reservation) (actual replaced : Z) (ok : bool) :
  wf c0 (mkSystem c rs) -> int64 actual -> int64 replaced -> rs !! i = Some r ->
  Commit c (Some r) actual replaced = (ok, Some r', c') ->
  wf c0 (mkSystem c' (<[i:=r']> rs))
  /\ (once r = true -> ok = false /\ r' = r /\ c' = c)
  /\ (once r = false ->
      r' = mkReservation (bytes r) true
      /\ ok = (0 <=? actual) && (actual <=? bytes r)
              && (0 <=? replaced) && (replaced <=? committedBytes c)
      /\ committedBytes c' =
         if ok then Z.min maxInt64 (committedBytes c - replaced + actual)
         else committedBytes c).
Proof.
  intros W Ha Hr Hi HC. unfold Commit in HC. destruct (once r) eqn:Ho.
  { simplify_eq. rewrite insert_id by done. split_and!; done. }
  destruct (commitOnce c (bytes r) actual replaced) as [ok' c''] eqn:E. simplify_eq.
  destruct (wf_close c0 c rs i r W Hi Ho) as [Hw W'].
  pose proof (wf_committed _ _ W) as Hc. simpl in Hc.
  unfold commitOnce in E. simpl in E. rewrite Hw in E.
  destruct ((0 <=? actual) && (actual <=? bytes r) && (0 <=? replaced)
            && (replaced <=? committedBytes c)) eqn:G; simplify_eq.
  2: split_and!; done.
  split_bool. pose proof (wf_bytes _ _ W i r Hi) as Hb. simpl in Hb.
  rewrite (wrap64_id (_ - replaced)) by int64_lia.
  rewrite saturatingAdd_spec by int64_lia.
  split_and!; try done.
  destruct W' as [E1 E2 ? ? Hc' Hbs Hres Hle Hbud]; simpl in *.
  pose proof (wf_budget _ _ W) as Hb0. simpl in Hb0.
  split; simpl; try done; try int64_lia.
Qed.

Lemma ledger_wf_step (c0 : Controller) (s s' : System) :
  bounded_start c0 -> wf c0 s -> step s s' -> wf c0 s'.
Proof.
  intros B W Hs.
  destruct Hs as [c rs b free r c' i Hb Hf HR Hi | c rs b free c' Hb Hf HR | c rs b Hb
                 | c rs i r a p ok r' c' Ha Hp Hi HC | c rs i r r' c' Hi HR | c rs b Hb].
  - by destruct (wf_step_reserve _ _ _ _ _ _ _ _ B W Hb Hf HR Hi) as (_ & _ & _ & ?).
  - pose proof (Reserve_wf c0 _ b free B W Hb Hf) as E. simpl in E. rewrite HR in E.
    destruct (admits _ b free); simplify_eq. by destruct W.
  - by destruct W.
  - by destruct (wf_step_commit _ _ _ _ _ _ _ _ _ _ W Ha Hp Hi HC) as [? _].
  - unfold Release in HR. destruct (once r) eqn:Ho; simplify_eq.
    + by rewrite insert_id.
    + destruct (wf_close c0 c rs i r W Hi Ho) as [-> W']. exact W'.
  - unfold Remove. destruct (Z.leb_spec b 0); [done|].
    destruct W as [E1 E2 ? ? Hc Hbs Hres Hle Hbud]; simpl in *.
    rewrite wrap64_id by int64_lia.
    destruct (Z.ltb_spec (committedBytes c - b) 0); split; simpl; try done; lia.
Qed.

Lemma ledger_wf_reachable (c0 : Controller) (s : System) :
  bounded_start c0 -> reachable c0 s -> wf c0 s.
Proof. intros B. induction 1; eauto using ledger_wf_init, ledger_wf_step. Qed.

#[export] Hint Resolve ledger_wf_init ledger_wf_step ledger_wf_reachable : go.

(** ** Facts shared by the properties *)

Lemma scaleBasisPoints_div (value basisPoints : Z) :
  0 <= value <= maxInt64 -> 0 <= basisPoints <= 10000 ->
  scaleBasisPoints value basisPoints = value * basisPoints / 10000.
Proof.
  intros Hv Hb. unfold scaleBasisPoints.
  rewrite Z.quot_div_nonneg, Z.rem_mod_nonneg by lia.
  pose proof (Z.div_mod value 10000 ltac:(lia)) as E.
  pose proof (Z.mod_pos_bound value 10000 ltac:(lia)) as Hr.
  set (q := value / 10000) in *. set (r := value mod 10000) in *.
  assert (0 <= q <= 922337203685477) by int64_lia.
  assert (0 <= r * basisPoints <= 9999 * 10000) by nia.
  assert (0 <= q * basisPoints <= 922337203685477 * 10000) by nia.
  rewrite (wrap64_id (r * _)) by int64_lia. rewrite Z.quot_div_nonneg by lia.
  assert (value * basisPoints / 10000 = q * basisPoints + r * basisPoints / 10000) as ->.
  { rewrite E. replace ((10000 * q + r) * basisPoints)
      with (q * basisPoints * 10000 + r * basisPoints) by lia.
    by rewrite Z.div_add_l by lia. }
  rewrite (wrap64_id (q * _)) by int64_lia.
  assert (q * basisPoints <= q * 10000) by nia.
  assert (0 <= r * basisPoints / 10000 <= r); [|rewrite wrap64_id; int64_lia].
  split; [apply Z.div_pos; lia | apply Z.div_le_upper_bound; nia].
Qed.

Lemma omap_close (rs : gmap nat Reservation) (i : nat) (b : Z) :
  omap open_bytes (<[i:=mkReservation b true]> rs) = delete i (omap open_bytes rs).
Proof. by rewrite omap_insert_None. Qed.

Lemma omap_lookup_open (rs : gmap nat Reservation) (i : nat) (r : Reservation) :
  rs !! i = Some r -> once r = false -> omap open_bytes rs !! i = Some (bytes r).
Proof. intros Hi Ho. rewrite lookup_omap, Hi. simpl. unfold open_bytes. by rewrite Ho. Qed.

(** ** Properties *)

(** C6: every interleaving of the controller's methods is a run of the abstract
    ledger: each step of the Go controller, with its [int64] wrap-around and
    saturation, is a ledger step in unbounded integers (admission, settlement of
    a reservation, cancellation, discard, or no change). *)
Theorem controller_refines_ledger (c0 : Controller) (s s' : System) :
  bounded_start c0 -> reachable c0 s -> step s s' -> ledger_step (abs s) (abs s').
Proof.
  intros B R Hs. pose proof (ledger_wf_reachable _ _ B R) as W.
  destruct Hs as [c rs b free r c' i Hb Hf HR Hi | c rs b free c' Hb Hf HR | c rs b Hb
                 | c rs i r a p ok r' c' Ha Hp Hi HC | c rs i r r' c' Hi HR | c rs b Hb].
  - destruct (wf_step_reserve _ _ _ _ _ _ _ _ B W Hb Hf HR Hi) as (A & -> & -> & _).
    unfold abs. simpl. rewrite (omap_insert_Some _ _ _ _ b) by done.
    apply (ledger_open _ _ _ _ _ _ free); [exact A | by rewrite lookup_omap, Hi].
  - pose proof (Reserve_wf c0 _ b free B W Hb Hf) as E. simpl in E. rewrite HR in E.
    destruct (admits _ b free); simplify_eq. apply ledger_idle.
  - apply ledger_idle.
  - destruct (wf_step_commit _ _ _ _ _ _ _ _ _ _ W Ha Hp Hi HC) as (W' & H1 & H2).
    pose proof (wf_max _ _ W) as E1. pose proof (wf_max _ _ W') as E1'.
    pose proof (wf_min _ _ W) as E2. pose proof (wf_min _ _ W') as E2'. simpl in *.
    destruct (once r) eqn:Ho.
    { destruct (H1 eq_refl) as (_ & -> & ->). rewrite insert_id by done. apply ledger_idle. }
    destruct (H2 eq_refl) as (-> & -> & Hc). unfold abs. simpl.
    rewrite omap_close, E1', E2', <- E1, <- E2, Hc.
    pose proof (omap_lookup_open rs i r Hi Ho).
    destruct (_ && _) eqn:G; split_bool.
    + by apply (ledger_settle _ _ _ _ _ (bytes r)).
    + by apply (ledger_cancel _ _ _ _ _ (bytes r)).
  - unfold Release in HR. destruct (once r) eqn:Ho; simplify_eq.
    { rewrite insert_id by done. apply ledger_idle. }
    unfold abs. simpl. rewrite omap_close.
    apply (ledger_cancel _ _ _ _ _ (bytes r)). by apply omap_lookup_open.
  - pose proof (wf_committed _ _ W). simpl in *. unfold Remove, abs. simpl.
    destruct (Z.leb_spec b 0); [apply ledger_idle|]. simpl.
    rewrite wrap64_id by int64_lia.
    destruct (Z.ltb_spec (committedBytes c - b) 0); simpl.
    + replace 0 with (Z.max 0 (committedBytes c - b)) by lia. by apply ledger_discard.
    + replace (committedBytes c - b) with (Z.max 0 (committedBytes c - b)) by lia.
      by apply ledger_discard.
Qed.

(** C7: in every reachable state the reserved counter is exactly the sum of the
    reservations still open, so it is zero once all are closed, and with a budget
    configured committed plus reserved bytes never pass the budget (or the usage
    found at start-up, when that was already larger). *)
Theorem budget_never_overcommitted (c0 : Controller) (s : System) :
  bounded_start c0 -> reachable c0 s ->
  reservedBytes (controller s) = outstanding_total s
  /\ 0 <= reservedBytes (controller s)
  /\ 0 <= committedBytes (controller s)
  /\ (0 < maxBytes c0 ->
      committedBytes (controller s) + outstanding_total s
      <= Z.max (maxBytes c0) (committedBytes c0)).
Proof.
  intros B R. pose proof (ledger_wf_reachable _ _ B R) as W.
  pose proof (wf_reserved_nonneg _ _ W). destruct W. split_and!; [done..|lia|].
  intros. rewrite <- wf_reserved0. auto.
Qed.

(** [Reserve] hands out a reservation of exactly the requested size when the
    ledger admits the request in exact arithmetic, whatever the wrap-around of the
    source's [int64] tests, and otherwise changes no byte count and records one
    bypassed object. *)
Theorem Reserve_decides_admission (c0 : Controller) (s : System) (b free : Z) :
  bounded_start c0 -> reachable c0 s -> int64 b -> int64 free ->
  let '(r, c') := Reserve (controller s) b free in
  (admits (abs s) b free = true ->
     r = Some (mkReservation b false)
     /\ reservedBytes c' = reservedBytes (controller s) + b
     /\ committedBytes c' = committedBytes (controller s)
     /\ bypassObjects c' = bypassObjects (controller s))
  /\ (admits (abs s) b free = false ->
     r = None
     /\ reservedBytes c' = reservedBytes (controller s)
     /\ committedBytes c' = committedBytes (controller s)
     /\ bypassObjects c' = saturatingAdd (bypassObjects (controller s)) 1).
Proof.
  intros B R Hb Hf. rewrite (Reserve_wf c0 s b free B (ledger_wf_reachable _ _ B R) Hb Hf).
  destruct (admits _ b free); split; intros; try done.
Qed.

(** A reservation takes effect at most once: after any [Commit] or [Release],
    a further [Commit] returns false and a further [Release] is a no-op, and
    neither changes the controller; a nil reservation is always inert. *)
Theorem reservation_effective_once (c c1 c2 : Controller) (r r1 : option Reservation)
    (actual replaced actual' replaced' : Z) (ok : bool) :
  (Commit c r actual replaced = (ok, r1, c1) \/ Release c r = (r1, c1)) ->
  Commit c2 r1 actual' replaced' = (false, r1, c2) /\ Release c2 r1 = (r1, c2).
Proof.
  intros H. assert (match r1 with None => True | Some r1 => once r1 = true end) as Hr1.
  { destruct H as [H|H]; destruct r as [r|]; simpl in H; simplify_eq; try done.
    - destruct (once r) eqn:Ho; simplify_eq; [done|].
      destruct (commitOnce c (bytes r) actual replaced). by simplify_eq.
    - destruct (once r) eqn:Ho; by simplify_eq. }
  destruct r1 as [r1|]; simpl; [rewrite Hr1|]; done.
Qed.

(** C39: the watermarks of a snapshot are the exact fractions of the budget, rounded
    down, with no overflow at any [int64] budget; they are ordered low, high,
    budget; and pressure is reported exactly when a budget is set and committed
    plus outstanding bytes have reached the high watermark. *)
Theorem snapshot_watermarks_exact (c0 : Controller) (s : System) :
  bounded_start c0 -> reachable c0 s ->
  0 <= lowBasisPoints c0 <= highBasisPoints c0 -> highBasisPoints c0 <= 10000 ->
  let snap := SnapshotOf (controller s) in
  HighBytes snap = maxBytes c0 * highBasisPoints c0 / 10000
  /\ LowBytes snap = maxBytes c0 * lowBasisPoints c0 / 10000
  /\ LowBytes snap <= HighBytes snap <= MaxBytes snap
  /\ (Pressure snap = true <->
      0 < maxBytes c0
      /\ HighBytes snap <= committedBytes (controller s) + outstanding_total s).
Proof.
  intros B R Hl Hh. pose proof (ledger_wf_reachable _ _ B R) as W.
  pose proof (wf_reserved_nonneg _ _ W) as Hr. destruct B as (Hm & _ & _ & Hc0 & _).
  destruct W as [E1 E2 E3 E4 Hc _ Hres Hle Hbud]. unfold SnapshotOf. simpl.
  rewrite E1, E3, E4, !scaleBasisPoints_div by lia. rewrite <- Hres.
  assert (maxBytes c0 * highBasisPoints c0 / 10000 <= maxBytes c0)
    by (apply Z.div_le_upper_bound; nia).
  split_and!; [done | done | apply Z.div_le_mono; nia | done |].
  rewrite saturatingAdd_spec, andb_true_iff, Z.ltb_lt, Z.leb_le by int64_lia.
  split; intros [? ?]; (split; [done|]); int64_lia.
Qed.

(** On Unix [FreeBytes] is the free space in bytes, saturated at [MaxInt64],
    for every pair of [uint64] words [statfs] can return; it never wraps. *)
Theorem FreeBytes_saturates (blocks blockSize : Z) :
  0 <= blocks < 2 ^ 64 -> 0 <= blockSize < 2 ^ 64 ->
  FreeBytes_unix blocks blockSize = Z.min maxInt64 (blocks * blockSize).
Proof.
  intros Hb Hs. unfold FreeBytes_unix.
  destruct (Z.eqb_spec blockSize 0) as [->|Hne]; simpl.
  { rewrite Z.mul_0_r. reflexivity. }
  destruct (Z.ltb_spec (maxInt64 / blockSize) blocks) as [Hlt|Hge].
  - assert (maxInt64 < blocks * blockSize); [|lia].
    pose proof (Z.mul_succ_div_gt maxInt64 blockSize ltac:(lia)). nia.
  - assert (blocks * blockSize <= maxInt64).
    { pose proof (Z.mul_div_le maxInt64 blockSize ltac:(lia)). nia. }
    rewrite wrapU64_id, wrap64_id by int64_lia. lia.
Qed.

(** ** Witnesses *)

Definition demo_controller : Controller := mkController 100 9000 7500 10 20 0 0 0.

Definition demo_reserved : System :=
  mkSystem (set_reserved 60 demo_controller) {[0%nat := mkReservation 60 false]}.

Lemma demo_start : bounded_start demo_controller.
Proof. unfold bounded_start. simpl. int64_lia. Qed.

Lemma demo_step : step (mkSystem demo_controller ∅) demo_reserved.
Proof.
  apply (step_reserve demo_controller ∅ 60 1000 (mkReservation 60 false)
           (set_reserved 60 demo_controller) 0); done.
Qed.

Lemma demo_ledger_reachable : reachable demo_controller demo_reserved.
Proof. eapply reach_step; [apply reach_init | apply demo_step]. Qed.

Lemma controller_refines_ledger_witness :
  ledger_step (abs (mkSystem demo_controller ∅)) (abs demo_reserved).
Proof.
  exact (controller_refines_ledger demo_controller _ _ demo_start
           (reach_init _) demo_step).
Defined.

Lemma budget_never_overcommitted_witness :
  reservedBytes (controller demo_reserved) = outstanding_total demo_reserved
  /\ 20 + outstanding_total demo_reserved <= 100.
Proof.
  destruct (budget_never_overcommitted demo_controller demo_reserved demo_start
              demo_ledger_reachable) as (H1 & _ & _ & H2).
  split; [exact H1 | exact (H2 eq_refl)].
Defined.

Lemma Reserve_decides_admission_witness :
  fst (Reserve (controller demo_reserved) 21 1000) = None
  /\ reservedBytes (snd (Reserve (controller demo_reserved) 20 1000)) = 80.
Proof.
  pose proof (Reserve_decides_admission demo_controller demo_reserved 21 1000
                demo_start demo_ledger_reachable ltac:(done) ltac:(done)) as [_ H1].
  pose proof (Reserve_decides_admission demo_controller demo_reserved 20 1000
                demo_start demo_ledger_reachable ltac:(done) ltac:(done)) as [H2 _].
  split; [apply (H1 eq_refl) | apply (H2 eq_refl)].
Defined.

Lemma reservation_effective_once_witness :
  Commit demo_controller (Some (mkReservation 60 true)) 5 5
  = (false, Some (mkReservation 60 true), demo_controller).
Proof.
  exact (proj1 (reservation_effective_once (controller demo_reserved)
    (set_reserved 0 demo_controller) demo_controller
    (Some (mkReservation 60 false)) (Some (mkReservation 60 true)) 0 0 5 5 false
    (or_intror eq_refl))).
Defined.

Lemma snapshot_watermarks_exact_witness :
  HighBytes (SnapshotOf (controller demo_reserved)) = 90
  /\ Pressure (SnapshotOf (controller demo_reserved)) = false.
Proof.
  destruct (snapshot_watermarks_exact demo_controller demo_reserved demo_start
              demo_ledger_reachable ltac:(done) ltac:(done)) as (H & _ & _ & [Hp _]).
  split; [exact H | reflexivity].
Defined.

Lemma FreeBytes_saturates_witness : FreeBytes_unix (2 ^ 60) 4096 = maxInt64.
Proof. rewrite FreeBytes_saturates; [reflexivity | lia | lia]. Defined.

(** The default watermarks 0.90 and 0.75 become 9000 and 7500 basis points. *)
Example NewController_default_watermarks :
  let c := NewController 100 (S754_finite false 8106479329266893 (-53))
             (S754_finite false 6755399441055744 (-53)) 0 0 in
  (highBasisPoints c, lowBasisPoints c) = (9000, 7500).
Proof. reflexivity. Qed.
