(* ===== verification/Maintenance.v ===== *)
(** * Coalescing of collection runs: [internal/maintenance]

    [Coordinator.Run] publishes a pointer to its own result variable as
    [c.current] and keeps writing through it after it has released the mutex, so
    the runs live in a shared heap and [current]/[last] are locations.  The
    critical sections and the unlocked writes between them are separate
    transitions; [step] interleaves any number of callers. *)

From S2P Require Import Prelude.

(** ** Data *)

Inductive Trigger := TriggerStartup | TriggerSchedule | TriggerPressure | TriggerOperator.

Record Result := mkResult {
  RemovedObjects : Z;
  RemovedBytes : Z;
  SkippedObjects : Z;
  Errors : Z
}.

Record Run := mkRun {
  ID : Z;
  RunTrigger : Trigger;
  StartedAt : Z;
  FinishedAt : option Z;
  RunResult : Result;
  Error : string
}.

Inductive State := Idle | Running.

Record Snapshot := mkSnapshot {
  SnapState : State;
  Current : option Run;
  Last : option Run
}.

(** [current] and [last] point into [runs]; locations are allocated in order. *)
Record Coordinator := mkCoordinator {
  nextID : Z;
  current : option nat;
  last : option nat;
  runs : gmap nat Run
}.

Definition zeroResult : Result := mkResult 0 0 0 0.

Definition New : Coordinator := mkCoordinator 0 None None ∅.

(** ** The pieces of [Run] *)

(** First critical section, no run in progress: the new run and its location. *)
Definition enter (c : Coordinator) (trigger : Trigger) (now : Z) : nat * Coordinator :=
  let id := wrapU64 (nextID c + 1) in
  let l := size (runs c) in
  (l, mkCoordinator id (Some l) (last c)
        (<[l := mkRun id trigger now None zeroResult EmptyString]> (runs c))).

(** First critical section, a run in progress: a copy of it. *)
Definition coalesce (c : Coordinator) : option Run :=
  match current c with Some l => runs c !! l | None => None end.

Definition update (c : Coordinator) (l : nat) (f : Run -> Run) : Coordinator :=
  mkCoordinator (nextID c) (current c) (last c) (alter f l (runs c)).

Definition writeResult (result : Result) (r : Run) : Run :=
  mkRun (ID r) (RunTrigger r) (StartedAt r) (FinishedAt r) result (Error r).

Definition writeFinished (finished : Z) (r : Run) : Run :=
  mkRun (ID r) (RunTrigger r) (StartedAt r) (Some finished) (RunResult r) (Error r).

Definition writeError (err : option string) (r : Run) : Run :=
  match err with
  | None => r
  | Some e =>
      let res := RunResult r in
      mkRun (ID r) (RunTrigger r) (StartedAt r) (FinishedAt r)
        (mkResult (RemovedObjects res) (RemovedBytes res) (SkippedObjects res)
           (wrap64 (Errors res + 1))) e
  end.

(** Second critical section. *)
Definition publish (c : Coordinator) (l : nat) : Coordinator :=
  mkCoordinator (nextID c) None (Some l) (runs c).

(** [Run] by a single caller, with the runner's outcome and the two clock
    readings: what the method returns and leaves behind when nobody interferes. *)
Definition RunOnce (c : Coordinator) (trigger : Trigger) (started : Z)
    (outcome : Result * option string) (finished : Z) : option Run * bool * Coordinator :=
  match current c with
  | Some _ => (coalesce c, false, c)
  | None =>
      let (l, c) := enter c trigger started in
      let c := update c l (writeResult (fst outcome)) in
      let c := update c l (writeFinished finished) in
      let c := update c l (writeError (snd outcome)) in
      let c := publish c l in
      (runs c !! l, true, c)
  end.

Definition SnapshotOf (c : Coordinator) : Snapshot :=
  let look (p : option nat) := match p with Some l => runs c !! l | None => None end in
  mkSnapshot (match current c with Some _ => Running | None => Idle end)
    (look (current c)) (look (last c)).

(** ** Interleavings *)

(** Where a caller of [Run] is. *)
Inductive Pc :=
  | Collecting (l : nat)                            (* inside [c.runner] *)
  | ResultWritten (l : nat) (err : option string)   (* after [run.Result = result] *)
  | FinishWritten (l : nat) (err : option string)   (* after [run.FinishedAt = ...] *)
  | ErrorWritten (l : nat)                          (* before the second section *)
  | Returned (r : option Run) (accepted : bool).

Definition active (p : Pc) : option nat :=
  match p with
  | Collecting l | ResultWritten l _ | FinishWritten l _ | ErrorWritten l => Some l
  | Returned _ _ => None
  end.

Record System := mkSystem { coord : Coordinator; callers : gmap nat Pc }.

Inductive step : System -> System -> Prop :=
  | step_enter c ps t trigger now l c' :
      ps !! t = None -> current c = None -> enter c trigger now = (l, c') ->
      step (mkSystem c ps) (mkSystem c' (<[t := Collecting l]> ps))
  | step_coalesce c ps t l :
      ps !! t = None -> current c = Some l ->
      step (mkSystem c ps) (mkSystem c (<[t := Returned (coalesce c) false]> ps))
  | step_result c ps t l result err :
      ps !! t = Some (Collecting l) ->
      step (mkSystem c ps)
        (mkSystem (update c l (writeResult result)) (<[t := ResultWritten l err]> ps))
  | step_finished c ps t l err now :
      ps !! t = Some (ResultWritten l err) ->
      step (mkSystem c ps)
        (mkSystem (update c l (writeFinished now)) (<[t := FinishWritten l err]> ps))
  | step_error c ps t l err :
      ps !! t = Some (FinishWritten l err) ->
      step (mkSystem c ps)
        (mkSystem (update c l (writeError err)) (<[t := ErrorWritten l]> ps))
  | step_publish c ps t l :
      ps !! t = Some (ErrorWritten l) ->
      step (mkSystem c ps)
        (mkSystem (publish c l) (<[t := Returned (runs c !! l) true]> ps)).

Definition init : System := mkSystem New ∅.

Definition reachable (s : System) : Prop := rtc step init s.

(** ** The invariant *)

Definition finished (r : Run) : Prop := is_Some (FinishedAt r).

Record wf (s : System) : Prop := {
  wf_active : forall t p l, callers s !! t = Some p -> active p = Some l ->
    current (coord s) = Some l;
  wf_unique : forall t t' p p' l l', callers s !! t = Some p -> callers s !! t' = Some p' ->
    active p = Some l -> active p' = Some l' -> t = t';
  wf_owner : forall l, current (coord s) = Some l ->
    exists t p, callers s !! t = Some p /\ active p = Some l;
  wf_runs : forall l, is_Some (runs (coord s) !! l) <-> (l < size (runs (coord s)))%nat;
  wf_ids : forall l r, runs (coord s) !! l = Some r -> ID r = wrapU64 (Z.of_nat l + 1);
  wf_nextID : nextID (coord s) = wrapU64 (Z.of_nat (size (runs (coord s))));
  wf_current : forall l, current (coord s) = Some l -> S l = size (runs (coord s));
  wf_past : forall l r, runs (coord s) !! l = Some r -> current (coord s) <> Some l -> finished r;
  wf_last : forall l, last (coord s) = Some l ->
    is_Some (runs (coord s) !! l) /\ current (coord s) <> Some l;
  wf_late : forall t p l, callers s !! t = Some p ->
    (exists e, p = FinishWritten l e) \/ p = ErrorWritten l ->
    forall r, runs (coord s) !! l = Some r -> finished r;
  wf_returned : forall t r a, callers s !! t = Some (Returned r a) ->
    exists run, r = Some run /\ (a = true -> finished run)
}.

(** ** Preservation *)

Lemma wf_fresh (s : System) : wf s -> runs (coord s) !! size (runs (coord s)) = None.
Proof.
  intros W. apply eq_None_not_Some. intros H%(wf_runs _ W). lia.
Qed.

Lemma wf_active_run (s : System) (t : nat) (p : Pc) (l : nat) :
  wf s -> callers s !! t = Some p -> active p = Some l ->
  exists r, runs (coord s) !! l = Some r /\ S l = size (runs (coord s)).
Proof.
  intros W Hp Ha. pose proof (wf_current _ W _ (wf_active _ W _ _ _ Hp Ha)) as Hl.
  destruct (proj2 (wf_runs _ W l) ltac:(lia)) as [r Hr]. eauto.
Qed.

(** A write through the caller's own pointer, moving it to the next point. *)
Lemma wf_write (c : Coordinator) (ps : gmap nat Pc) (t l : nat) (p p' : Pc) (f : Run -> Run) :
  wf (mkSystem c ps) -> ps !! t = Some p -> active p = Some l -> active p' = Some l ->
  (forall r, ID (f r) = ID r) ->
  ((exists e, p' = FinishWritten l e) \/ p' = ErrorWritten l ->
   forall r, runs c !! l = Some r -> finished (f r)) ->
  wf (mkSystem (update c l f) (<[t := p']> ps)).
Proof.
  intros W Hp Ha Ha' Hid Hlate.
  pose proof (wf_active _ W t p l Hp Ha) as Hcur. simpl in Hcur.
  destruct W as [W1 W2 W3 W4 W5 W6 W7 W8 W9 W10 W11]; simpl in *.
  split; simpl; rewrite ?map_size_alter; try done.
  - intros t' q k Hq Hk. rewrite lookup_insert in Hq. case_decide; simplify_eq; eauto.
  - intros t1 t2 p1 p2 l1 l2 H1 H2 A1 A2. rewrite lookup_insert in H1, H2.
    repeat case_decide; simplify_eq; try done; eauto.
  - intros k Hk. exists t, p'. rewrite lookup_insert_eq. simplify_eq. done.
  - intros k. rewrite is_Some_alter. apply W4.
  - intros k r Hr. rewrite lookup_alter_case in Hr. case_decide; simplify_option_eq; [|eauto].
    rewrite Hid. eauto.
  - intros k r Hr Hne. rewrite lookup_alter_case in Hr. case_decide; simplify_eq/=; eauto.
  - intros k Hk. rewrite is_Some_alter. eauto.
  - intros t' q k Hq Hshape r Hr. rewrite lookup_alter_case in Hr.
    rewrite lookup_insert in Hq. destruct (decide (t = t')) as [<-|Ht]; simplify_eq.
    + assert (k = l) as -> by (destruct Hshape as [[e ->]| ->]; by simplify_eq/=).
      rewrite decide_True in Hr by done. destruct (runs c !! l) eqn:E; simplify_eq/=. eauto.
    + assert (active q = Some k) as Hq' by (destruct Hshape as [[e ->]| ->]; done).
      destruct Ht. eapply W2; eauto.
  - intros t' r a Hr. rewrite lookup_insert in Hr. case_decide; simplify_eq/=; eauto.
Qed.

Lemma wf_enter (c : Coordinator) (ps : gmap nat Pc) (t : nat) (trigger : Trigger) (now : Z) :
  wf (mkSystem c ps) -> ps !! t = None -> current c = None ->
  wf (mkSystem (snd (enter c trigger now))
        (<[t := Collecting (fst (enter c trigger now))]> ps)).
Proof.
  intros W Ht Hc. pose proof (wf_fresh _ W) as Hfresh. simpl in Hfresh.
  destruct W as [W1 W2 W3 W4 W5 W6 W7 W8 W9 W10 W11]; simpl in *.
  assert (forall t' p l, ps !! t' = Some p -> active p = Some l -> False) as Hnone.
  { intros t' p l Hp Ha. rewrite (W1 _ _ _ Hp Ha) in Hc. done. }
  split; simpl; try rewrite map_size_insert_None by done; try done.
  - intros t' p l Hp Ha. rewrite lookup_insert in Hp. case_decide; simplify_eq/=; [done|].
    destruct (Hnone _ _ _ Hp Ha).
  - intros t1 t2 p1 p2 l1 l2 H1 H2 A1 A2. rewrite lookup_insert in H1, H2.
    repeat case_decide; simplify_eq; try done; exfalso; eauto.
  - intros l [= <-]. exists t, (Collecting (size (runs c))). by rewrite lookup_insert_eq.
  - intros l. rewrite lookup_insert. case_decide; [split; intros; [lia|done]|].
    rewrite W4. lia.
  - intros l r Hr. rewrite lookup_insert in Hr. case_decide; simplify_eq/=; [|eauto].
    rewrite W6. unfold wrapU64. by rewrite Zplus_mod_idemp_l.
  - rewrite W6. unfold wrapU64. rewrite Zplus_mod_idemp_l. f_equal. lia.
  - intros l [= <-]. done.
  - intros l r Hr Hne. rewrite lookup_insert in Hr.
    case_decide; simplify_eq/=; eapply W8; [done | by rewrite Hc].
  - intros l Hl. destruct (W9 l Hl) as [Hs _]. rewrite lookup_insert_ne.
    + split; [done|]. intros [= <-]. rewrite Hfresh in Hs. by destruct Hs.
    + intros <-. rewrite Hfresh in Hs. by destruct Hs.
  - intros t' p l Hp Hshape. rewrite lookup_insert in Hp. case_decide; simplify_eq/=.
    + destruct Hshape as [[? ?]|?]; done.
    + destruct (Hnone t' p l Hp). by destruct Hshape as [[e ->]| ->].
  - intros t' r a Hr. rewrite lookup_insert in Hr. case_decide; simplify_eq/=; eauto.
Qed.

Lemma wf_publish (c : Coordinator) (ps : gmap nat Pc) (t l : nat) :
  wf (mkSystem c ps) -> ps !! t = Some (ErrorWritten l) ->
  wf (mkSystem (publish c l) (<[t := Returned (runs c !! l) true]> ps)).
Proof.
  intros W Hp. destruct (wf_active_run _ _ _ l W Hp eq_refl) as (r & Hr & Hsz).
  pose proof (wf_late _ W t _ l Hp (or_intror eq_refl) r Hr) as Hfin.
  pose proof (wf_active _ W t _ l Hp eq_refl) as Hcur. simpl in *.
  destruct W as [W1 W2 W3 W4 W5 W6 W7 W8 W9 W10 W11]; simpl in *.
  split; simpl; try done.
  - intros t' p k Hq Ha. rewrite lookup_insert in Hq. case_decide; simplify_eq/=.
    destruct H. by eapply W2.
  - intros t1 t2 p1 p2 l1 l2 H1 H2 A1 A2. rewrite lookup_insert in H1, H2.
    repeat case_decide; simplify_eq/=; eauto.
  - intros k q Hq _. destruct (decide (k = l)) as [->|Hne]; [by simplify_eq|].
    eapply W8; [done|]. rewrite Hcur. congruence.
  - intros k [= <-]. by rewrite Hr.
  - intros t' p k Hq Hshape. rewrite lookup_insert in Hq. case_decide; simplify_eq/=.
    + by destruct Hshape as [[? ?]|?].
    + eauto.
  - intros t' r' a Hq. rewrite lookup_insert in Hq. case_decide; simplify_eq/=; [|eauto].
    exists r. by rewrite Hr.
Qed.

Lemma run_wf_init : wf init.
Proof.
  split; simpl; intros; simplify_map_eq; try done.
  split; [intros [? ?]; simplify_map_eq | rewrite map_size_empty; lia].
Qed.

Lemma run_wf_step (s s' : System) : wf s -> step s s' -> wf s'.
Proof.
  intros W Hs. destruct Hs as [c ps t trigger now l c' Ht Hc He | c ps t l Ht Hc
    | c ps t l result err Hp | c ps t l err now Hp | c ps t l err Hp | c ps t l Hp].
  - pose proof (wf_enter c ps t trigger now W Ht Hc) as H. by rewrite He in H.
  - pose proof (wf_current _ W l Hc) as Hsz.
    destruct (proj2 (wf_runs _ W l) ltac:(lia)) as [r Hr]. simpl in *.
    unfold coalesce. rewrite Hc, Hr.
    destruct W as [W1 W2 W3 W4 W5 W6 W7 W8 W9 W10 W11]; split; simpl in *; try done.
    + intros t' p k Hq Ha. rewrite lookup_insert in Hq. case_decide; simplify_eq/=; eauto.
    + intros t1 t2 p1 p2 l1 l2 H1 H2 A1 A2. rewrite lookup_insert in H1, H2.
      repeat case_decide; simplify_eq/=; eauto.
    + intros k Hk. destruct (W3 k Hk) as (t' & p & Hp & Ha). exists t', p.
      rewrite lookup_insert_ne; [done|]. intros <-. congruence.
    + intros t' p k Hq Hshape. rewrite lookup_insert in Hq. case_decide; simplify_eq/=;
        [by destruct Hshape as [[? ?]|?] | eauto].
    + intros t' r' a Hq. rewrite lookup_insert in Hq. case_decide; simplify_eq/=; eauto.
  - eapply wf_write; eauto. by intros [[? ?]|?].
  - eapply wf_write; eauto. intros _ r _. by eexists.
  - eapply wf_write; eauto.
    + intros r. by destruct err.
    + intros _ r Hr. destruct err; [|by eapply (wf_late _ W); eauto].
      pose proof (wf_late _ W t _ l Hp (or_introl (ex_intro _ _ eq_refl)) r Hr) as [z Hz].
      by exists z.
  - by apply wf_publish.
Qed.

Lemma run_wf_reachable (s : System) : reachable s -> wf s.
Proof.
  unfold reachable. generalize run_wf_init. generalize init. intros s0 W.
  induction 1; eauto using run_wf_step.
Qed.

(** ** Properties *)

(** C36: at most one collection runs at a time: in every interleaving of [Run]
    callers no two of them are between the two critical sections, and a snapshot
    says "running" exactly when one is. *)
Theorem at_most_one_collection (s : System) :
  reachable s ->
  (forall t t' p p', callers s !! t = Some p -> callers s !! t' = Some p' ->
     is_Some (active p) -> is_Some (active p') -> t = t')
  /\ (SnapState (SnapshotOf (coord s)) = Running <->
      exists t p, callers s !! t = Some p /\ is_Some (active p)).
Proof.
  intros W%run_wf_reachable. split.
  - intros t t' p p' Hp Hp' [l Hl] [l' Hl']. exact (wf_unique _ W t t' p p' l l' Hp Hp' Hl Hl').
  - unfold SnapshotOf. simpl. split.
    + intros Hs. destruct (current (coord s)) as [l|] eqn:Hc; [|done].
      destruct (wf_owner _ W l Hc) as (t & p & ? & ?). eauto.
    + intros (t & p & Hp & [l Hl]). by rewrite (wf_active _ W t p l Hp Hl).
Qed.

(** While a run is in progress every further [Run] call changes nothing and
    returns a copy of that run with accepted = false; the run it sees carries the
    latest ID handed out. *)
Theorem busy_run_is_coalesced (s s' : System) (t l : nat) (p : Pc) :
  reachable s -> current (coord s) = Some l ->
  callers s !! t = None -> step s s' -> callers s' !! t = Some p ->
  exists r, p = Returned (Some r) false
    /\ coord s' = coord s
    /\ Current (SnapshotOf (coord s)) = Some r
    /\ ID r = nextID (coord s).
Proof.
  intros W%run_wf_reachable Hc Ht Hs Hp.
  pose proof (wf_current _ W l Hc) as Hsz.
  destruct (proj2 (wf_runs _ W l) ltac:(lia)) as [r Hr].
  assert (ID r = nextID (coord s)) as Hid.
  { rewrite (wf_ids _ W l r Hr), (wf_nextID _ W). f_equal. lia. }
  destruct Hs as [c ps t' trigger now k c' Ht' Hc' He | c ps t' k Ht' Hc'
    | c ps t' k result err Hq | c ps t' k err now Hq | c ps t' k err Hq | c ps t' k Hq];
    simpl in *; try congruence.
  all: rewrite lookup_insert in Hp; case_decide; simplify_eq.
  exists r. unfold coalesce, SnapshotOf. simpl. by rewrite Hc, Hr.
Qed.

(** An accepted call returns exactly the run it publishes: when the second
    critical section ends the coordinator is idle, its last run is the value the
    caller gets, and that run is finished. *)
Theorem accepted_run_is_last (s s' : System) (t l : nat) :
  reachable s -> callers s !! t = Some (ErrorWritten l) -> step s s' ->
  callers s' !! t <> Some (ErrorWritten l) ->
  exists r, callers s' !! t = Some (Returned (Some r) true)
    /\ SnapshotOf (coord s') = mkSnapshot Idle None (Some r)
    /\ finished r /\ ID r = nextID (coord s').
Proof.
  intros W%run_wf_reachable Hp Hs Hne.
  destruct (wf_active_run _ _ _ l W Hp eq_refl) as (r & Hr & Hsz).
  pose proof (wf_late _ W t _ l Hp (or_intror eq_refl) r Hr) as Hfin.
  assert (ID r = nextID (coord s)) as Hid.
  { rewrite (wf_ids _ W l r Hr), (wf_nextID _ W). f_equal. lia. }
  destruct Hs as [c ps t' trigger now k c' Ht' Hc' He | c ps t' k Ht' Hc'
    | c ps t' k result err Hq | c ps t' k err now Hq | c ps t' k err Hq | c ps t' k Hq];
    simpl in *; (destruct (decide (t' = t)) as [->|];
      [|rewrite lookup_insert_ne in Hne by done; congruence]); simplify_eq.
  exists r. rewrite lookup_insert_eq, Hr. unfold SnapshotOf. simpl. by rewrite Hr.
Qed.

(** Run identifiers are unique for the first 2^64 - 1 runs: two recorded runs
    with the same ID are the same run. *)
Theorem run_ids_unique (s : System) (l l' : nat) (r r' : Run) :
  reachable s -> Z.of_nat (size (runs (coord s))) < 2 ^ 64 ->
  runs (coord s) !! l = Some r -> runs (coord s) !! l' = Some r' ->
  ID r = ID r' -> l = l'.
Proof.
  intros W%run_wf_reachable Hsz Hl Hl' E.
  rewrite (wf_ids _ W l r Hl), (wf_ids _ W l' r' Hl') in E.
  pose proof (proj1 (wf_runs _ W l) ltac:(eauto)).
  pose proof (proj1 (wf_runs _ W l') ltac:(eauto)).
  unfold wrapU64 in E.
  destruct (decide (Z.of_nat (size (runs (coord s))) < 18446744073709551616)); [|lia].
  destruct (decide (Z.of_nat l + 1 = 18446744073709551616)); [lia|].
  rewrite !Z.mod_small in E by lia. lia.
Qed.

(** A run never gets stuck: from every reachable state the coordinator can go
    back to idle, by steps of the caller that owns the run alone. *)
Theorem collection_can_finish (s : System) :
  reachable s -> exists s', rtc step s s' /\ current (coord s') = None.
Proof.
  intros W%run_wf_reachable. destruct s as [c ps].
  destruct (current c) as [l|] eqn:Hc; [|exists (mkSystem c ps); by split].
  destruct (wf_owner _ W l Hc) as (t & p & Hp & Ha). simpl in Hp.
  assert (forall c ps, ps !! t = Some (ErrorWritten l) ->
    exists s', rtc step (mkSystem c ps) s' /\ current (coord s') = None) as H3.
  { intros. eexists. split; [by apply rtc_once, step_publish|done]. }
  assert (forall c ps e, ps !! t = Some (FinishWritten l e) ->
    exists s', rtc step (mkSystem c ps) s' /\ current (coord s') = None) as H2.
  { intros c' ps' e H. destruct (H3 (update c' l (writeError e)) (<[t:=ErrorWritten l]> ps'))
      as (s' & ? & ?); [apply lookup_insert_eq|].
    exists s'. split; [eapply rtc_l; [by eapply step_error|done]|done]. }
  assert (forall c ps e, ps !! t = Some (ResultWritten l e) ->
    exists s', rtc step (mkSystem c ps) s' /\ current (coord s') = None) as H1.
  { intros c' ps' e H. destruct (H2 (update c' l (writeFinished 0)) (<[t:=FinishWritten l e]> ps') e)
      as (s' & ? & ?); [apply lookup_insert_eq|].
    exists s'. split; [eapply rtc_l; [by apply (step_finished c' ps' t l e 0)|done]|done]. }
  destruct p; simplify_eq/=; eauto.
  destruct (H1 (update c l (writeResult zeroResult)) (<[t:=ResultWritten l None]> ps) None)
    as (s' & ? & ?); [apply lookup_insert_eq|].
  exists s'. split; [eapply rtc_l; [by eapply (step_result _ _ _ _ zeroResult None)|done]|done].
Qed.

(** The sequential reading of [Run]: on an idle coordinator it is accepted, its
    run has the next ID, both timestamps, the runner's counts with one more error
    exactly when the runner failed, and becomes the last run; and the concurrent
    system can execute it in one go. *)
Theorem RunOnce_spec (c : Coordinator) (ps : gmap nat Pc) (t : nat) (trigger : Trigger)
    (started finishedAt : Z) (res : Result) (err : option string) :
  current c = None -> ps !! t = None ->
  let run := writeError err
    (mkRun (wrapU64 (nextID c + 1)) trigger started (Some finishedAt) res EmptyString) in
  exists c', RunOnce c trigger started (res, err) finishedAt = (Some run, true, c')
    /\ SnapshotOf c' = mkSnapshot Idle None (Some run)
    /\ Errors (RunResult run)
       = match err with None => Errors res | Some _ => wrap64 (Errors res + 1) end
    /\ rtc step (mkSystem c ps) (mkSystem c' (<[t := Returned (Some run) true]> ps)).
Proof.
  intros Hc Ht run. set (l := size (runs c)).
  set (c1 := snd (enter c trigger started)).
  set (c2 := update c1 l (writeResult res)).
  set (c3 := update c2 l (writeFinished finishedAt)).
  set (c4 := update c3 l (writeError err)).
  assert (runs c4 !! l = Some run) as Hrun.
  { unfold c4, c3, c2, c1, update. simpl. by rewrite !lookup_alter_eq, lookup_insert_eq. }
  exists (publish c4 l). split_and!.
  - rewrite <- Hrun. unfold RunOnce. by rewrite Hc.
  - rewrite <- Hrun. done.
  - by destruct err.
  - eapply rtc_l; [by apply (step_enter c ps t trigger started l c1)|].
    eapply rtc_l; [apply (step_result _ _ t l res err), lookup_insert_eq|].
    eapply rtc_l; [apply (step_finished _ _ t l err finishedAt), lookup_insert_eq|].
    eapply rtc_l; [apply (step_error _ _ t l err), lookup_insert_eq|].
    apply rtc_once. rewrite !insert_insert_eq, <- Hrun.
    pose proof (step_publish c4 (<[t:=ErrorWritten l]> ps) t l (lookup_insert_eq _ _ _)) as H.
    by rewrite insert_insert_eq in H.
Qed.

(** The unlocked writes of [Run] are visible to a concurrent [Snapshot]: it can
    report a run that is still current and already has a finish time. *)
Lemma snapshot_can_show_finished_current :
  exists s r, reachable s /\ SnapState (SnapshotOf (coord s)) = Running
    /\ Current (SnapshotOf (coord s)) = Some r /\ finished r.
Proof.
  eexists (mkSystem _ _), _. split_and!.
  - eapply rtc_l; [by apply (step_enter New ∅ 0 TriggerOperator 5 0)|].
    eapply rtc_l; [apply (step_result _ _ 0 0 zeroResult None), lookup_insert_eq|].
    apply rtc_once. apply (step_finished _ _ 0 0 None 7), lookup_insert_eq.
  - done.
  - reflexivity.
  - by eexists.
Qed.

(** ** Witnesses *)

Definition demo_busy : System :=
  mkSystem (snd (enter New TriggerOperator 5)) {[0%nat := Collecting 0]}.

Lemma demo_busy_reachable : reachable demo_busy.
Proof. apply rtc_once. by apply (step_enter New ∅ 0 TriggerOperator 5 0). Qed.

Definition demo_error_written : System :=
  mkSystem (update (update (update (coord demo_busy) 0 (writeResult zeroResult)) 0
              (writeFinished 7)) 0 (writeError None))
    (<[0%nat := ErrorWritten 0]> (<[0%nat := FinishWritten 0 None]>
       (<[0%nat := ResultWritten 0 None]> (callers demo_busy)))).

Lemma demo_error_written_reachable : reachable demo_error_written.
Proof.
  unfold reachable. etrans; [apply demo_busy_reachable|].
  eapply rtc_l; [apply (step_result _ _ 0 0 zeroResult None), lookup_insert_eq|].
  eapply rtc_l; [apply (step_finished _ _ 0 0 None 7), lookup_insert_eq|].
  apply rtc_once. apply (step_error _ _ 0 0 None), lookup_insert_eq.
Qed.

Lemma at_most_one_collection_witness : SnapState (SnapshotOf (coord demo_busy)) = Running.
Proof.
  apply (proj2 (at_most_one_collection demo_busy demo_busy_reachable)).
  exists 0%nat, (Collecting 0). split; [reflexivity | by eexists].
Defined.

Lemma busy_run_is_coalesced_witness :
  exists r, coalesce (coord demo_busy) = Some r /\ ID r = 1.
Proof.
  destruct (busy_run_is_coalesced demo_busy
    (mkSystem (coord demo_busy)
       (<[1%nat := Returned (coalesce (coord demo_busy)) false]> (callers demo_busy)))
    1 0 (Returned (coalesce (coord demo_busy)) false) demo_busy_reachable eq_refl eq_refl
    (step_coalesce (coord demo_busy) (callers demo_busy) 1 0 eq_refl eq_refl) eq_refl) as (r & Hr & _ & _ & Hid).
  exists r. split; [congruence | exact Hid].
Defined.

Lemma accepted_run_is_last_witness :
  exists r, Last (SnapshotOf (publish (coord demo_error_written) 0)) = Some r /\ ID r = 1.
Proof.
  destruct (accepted_run_is_last demo_error_written
    (mkSystem (publish (coord demo_error_written) 0)
       (<[0%nat := Returned (runs (coord demo_error_written) !! 0%nat) true]>
          (callers demo_error_written)))
    0 0 demo_error_written_reachable eq_refl (step_publish (coord demo_error_written) (callers demo_error_written) 0 0 eq_refl) ltac:(done))
    as (r & _ & Hs & _ & Hid).
  exists r. split; [exact (f_equal Last Hs) | exact Hid].
Defined.

Lemma run_ids_unique_witness : (0 = 0)%nat.
Proof.
  exact (run_ids_unique demo_busy 0 0 _ _ demo_busy_reachable eq_refl eq_refl eq_refl eq_refl).
Defined.

Lemma collection_can_finish_witness :
  exists s', rtc step demo_busy s' /\ current (coord s') = None.
Proof. exact (collection_can_finish demo_busy demo_busy_reachable). Defined.

Lemma RunOnce_spec_witness :
  exists c' run, RunOnce New TriggerStartup 1 (zeroResult, Some "boom"%string) 2 = (Some run, true, c')
    /\ Errors (RunResult run) = 1.
Proof.
  destruct (RunOnce_spec New ∅ 0 TriggerStartup 1 2 zeroResult (Some "boom"%string) eq_refl (lookup_empty _))
    as (c' & H & _ & He & _).
  exists c'. eexists. split; [exact H | exact He].
Defined.
