(* ===== verification/Locker.v ===== *)
(** * The keyed lock of the three proxies

    [npmproxy], [ociproxy] and [pypiproxy] each contain the same [keyedLocker]:
    a map from keys to reference-counted mutexes.  [lock] registers interest under
    the map's mutex, then takes the item's mutex outside it; the function it
    returns unlocks the item and, in a second critical section, drops the
    reference and deletes the entry when it was the last one.  The items live in
    a heap, because an entry can be deleted and re-created while goroutines hold
    pointers to items. *)

From S2P Require Import Prelude.

(** ** State *)

Record lockRef := mkLockRef {
  mu : option nat;   (* the goroutine holding [item.mu] *)
  refs : Z           (* bounded by the number of goroutines, so never near 2^63 *)
}.

Record keyedLocker := mkLocker {
  items : gmap string nat;
  heap : gmap nat lockRef
}.

Definition newLocker : keyedLocker := mkLocker ∅ ∅.

Definition addRefs (d : Z) (r : lockRef) : lockRef := mkLockRef (mu r) (refs r + d).
Definition setMu (o : option nat) (r : lockRef) : lockRef := mkLockRef o (refs r).

(** ** Critical sections *)

(** [lock] up to [locker.mu.Unlock()]: the item to wait for. *)
Definition register (lk : keyedLocker) (key : string) : nat * keyedLocker :=
  match items lk !! key with
  | Some l => (l, mkLocker (items lk) (alter (addRefs 1) l (heap lk)))
  | None =>
      let l := fresh (dom (heap lk)) in
      (l, mkLocker (<[key := l]> (items lk)) (<[l := mkLockRef None 1]> (heap lk)))
  end.

(** [item.mu.Lock()], which can only proceed on a free mutex. *)
Definition acquire (lk : keyedLocker) (l t : nat) : option keyedLocker :=
  match heap lk !! l with
  | Some (mkLockRef None _) =>
      Some (mkLocker (items lk) (alter (setMu (Some t)) l (heap lk)))
  | _ => None
  end.

(** [item.mu.Unlock()]. *)
Definition unlockItem (lk : keyedLocker) (l : nat) : keyedLocker :=
  mkLocker (items lk) (alter (setMu None) l (heap lk)).

(** The section of the returned function that drops the reference. *)
Definition unregister (lk : keyedLocker) (key : string) (l : nat) : keyedLocker :=
  let h := alter (addRefs (-1)) l (heap lk) in
  match h !! l with
  | Some r => if refs r =? 0 then mkLocker (delete key (items lk)) h
              else mkLocker (items lk) h
  | None => mkLocker (items lk) h
  end.

(** ** Interleavings *)

Inductive Pc :=
  | Waiting (key : string) (l : nat)    (* registered, before [item.mu.Lock()] *)
  | Holding (key : string) (l : nat)    (* inside the protected section *)
  | Unlocked (key : string) (l : nat)   (* after [item.mu.Unlock()] *)
  | Done.

Definition at_item (p : Pc) : option (string * nat) :=
  match p with
  | Waiting k l | Holding k l | Unlocked k l => Some (k, l)
  | Done => None
  end.

Record System := mkSystem { locker : keyedLocker; goroutines : gmap nat Pc }.

Inductive step : System -> System -> Prop :=
  | step_register lk ps t key l lk' :
      ps !! t = None -> register lk key = (l, lk') ->
      step (mkSystem lk ps) (mkSystem lk' (<[t := Waiting key l]> ps))
  | step_acquire lk ps t key l lk' :
      ps !! t = Some (Waiting key l) -> acquire lk l t = Some lk' ->
      step (mkSystem lk ps) (mkSystem lk' (<[t := Holding key l]> ps))
  | step_unlock lk ps t key l :
      ps !! t = Some (Holding key l) ->
      step (mkSystem lk ps) (mkSystem (unlockItem lk l) (<[t := Unlocked key l]> ps))
  | step_unregister lk ps t key l :
      ps !! t = Some (Unlocked key l) ->
      step (mkSystem lk ps) (mkSystem (unregister lk key l) (<[t := Done]> ps)).

Definition init : System := mkSystem newLocker ∅.
Definition reachable (s : System) : Prop := rtc step init s.

(** ** The invariant *)

Definition uses (l : nat) (p : Pc) : Z :=
  match at_item p with Some (_, l') => if decide (l' = l) then 1 else 0 | None => 0 end.

Record wf (s : System) : Prop := {
  wf_items : forall t p k l, goroutines s !! t = Some p -> at_item p = Some (k, l) ->
    items (locker s) !! k = Some l;
  wf_refs : forall k l, items (locker s) !! k = Some l ->
    exists r, heap (locker s) !! l = Some r
      /\ refs r = map_sum (uses l) (goroutines s) /\ 0 < refs r;
  wf_inj : forall k k' l, items (locker s) !! k = Some l ->
    items (locker s) !! k' = Some l -> k = k';
  wf_held : forall l r t, heap (locker s) !! l = Some r -> mu r = Some t ->
    exists k, goroutines s !! t = Some (Holding k l);
  wf_holding : forall t k l, goroutines s !! t = Some (Holding k l) ->
    exists r, heap (locker s) !! l = Some r /\ mu r = Some t
}.

(** ** Lemmas *)

Lemma uses_nonneg (l : nat) (p : Pc) : 0 <= uses l p.
Proof. unfold uses. destruct (at_item p) as [[? ?]|]; [case_decide|]; lia. Qed.

Lemma uses_self (p : Pc) (k : string) (l : nat) : at_item p = Some (k, l) -> uses l p = 1.
Proof. intros E. unfold uses. rewrite E. by rewrite decide_True. Qed.

Lemma uses_other (p : Pc) (k : string) (l l' : nat) :
  at_item p = Some (k, l) -> l <> l' -> uses l' p = 0.
Proof. intros E Hne. unfold uses. rewrite E. by rewrite decide_False. Qed.

(** Moving a goroutine between points of the same item keeps the counts. *)
Lemma uses_move (ps : gmap nat Pc) (t l : nat) (p p' : Pc) :
  ps !! t = Some p -> at_item p' = at_item p ->
  map_sum (uses l) (<[t := p']> ps) = map_sum (uses l) ps.
Proof.
  intros Hp E. rewrite (map_sum_update _ _ _ p) by done.
  unfold uses. rewrite E. lia.
Qed.

Lemma wf_item_heap (s : System) (t : nat) (p : Pc) (k : string) (l : nat) :
  wf s -> goroutines s !! t = Some p -> at_item p = Some (k, l) ->
  exists r, heap (locker s) !! l = Some r
    /\ refs r = map_sum (uses l) (goroutines s) /\ 0 < refs r.
Proof. intros W Hp Ha. exact (wf_refs _ W k l (wf_items _ W t p k l Hp Ha)). Qed.

Lemma lock_wf_init : wf init.
Proof. split; simpl; intros; simplify_map_eq. Qed.

(** Whoever holds an item's mutex is not the goroutine that has just come. *)
Lemma held_before (lk : keyedLocker) (ps : gmap nat Pc) (t : nat) (p : Pc) (l u : nat) (r : lockRef) :
  wf (mkSystem lk ps) -> ps !! t = None -> heap lk !! l = Some r -> mu r = Some u ->
  exists k, <[t := p]> ps !! u = Some (Holding k l).
Proof.
  intros [_ _ _ W4 _] Ht Hl Hu. destruct (W4 l r u Hl Hu) as [k Hk]. exists k.
  rewrite lookup_insert_ne; [done|]. intros <-. simpl in Hk. congruence.
Qed.

Lemma wf_register_known (lk : keyedLocker) (ps : gmap nat Pc) (t l : nat) (key : string) :
  wf (mkSystem lk ps) -> ps !! t = None -> items lk !! key = Some l ->
  wf (mkSystem (mkLocker (items lk) (alter (addRefs 1) l (heap lk))) (<[t := Waiting key l]> ps)).
Proof.
  intros W Ht Hkey. pose proof (fun p l u r => held_before lk ps t p l u r W Ht) as Hheld.
  destruct W as [W1 W2 W3 W4 W5].
  destruct (W2 key l Hkey) as (r & Hr & Hrefs & Hpos). simpl in *.
  split; simpl in *.
  - intros u p k m Hp Ha. rewrite lookup_insert in Hp. case_decide; simplify_eq/=; eauto.
  - intros k m Hm. destruct (W2 k m Hm) as (q & Hq & Hqr & Hq0). simpl in *.
    rewrite lookup_alter_case, map_sum_insert by done.
    case_decide; simplify_eq.
    + exists (addRefs 1 r). rewrite Hr. simpl. split; [done|].
      rewrite (uses_self _ key) by done. lia.
    + exists q. split; [done|]. rewrite (uses_other (Waiting key l) key l m) by done. lia.
  - exact W3.
  - intros m q u Hm Hu. rewrite lookup_alter_case in Hm. case_decide; simplify_option_eq; eauto.
  - intros u k m Hu. rewrite lookup_insert in Hu. case_decide; simplify_eq.
    destruct (W5 u k m Hu) as (q & Hq & Hmu). rewrite lookup_alter_case.
    case_decide; [|eauto]. exists (addRefs 1 q). by rewrite Hq.
Qed.

(** An item that is not in the heap is used by nobody. *)
Lemma uses_none (ps : gmap nat Pc) (l : nat) :
  (forall u p k m, ps !! u = Some p -> at_item p = Some (k, m) -> m <> l) -> map_sum (uses l) ps = 0.
Proof.
  intros Hun. induction ps as [|u p ps Hu IH] using map_ind; [apply map_sum_empty|].
  rewrite map_sum_insert by done. rewrite IH.
  - assert (uses l p = 0) as ->; [|done]. destruct (at_item p) as [[k m]|] eqn:Ha; [|unfold uses; by rewrite Ha].
    apply (uses_other p k m l Ha). apply (Hun u p k m); [apply lookup_insert_eq|done].
  - intros v q k m Hv. apply (Hun v q k m). rewrite lookup_insert_ne; [done|]. congruence.
Qed.

Lemma wf_register_fresh (lk : keyedLocker) (ps : gmap nat Pc) (t l : nat) (key : string) :
  wf (mkSystem lk ps) -> ps !! t = None -> items lk !! key = None -> heap lk !! l = None ->
  wf (mkSystem (mkLocker (<[key := l]> (items lk)) (<[l := mkLockRef None 1]> (heap lk))) (<[t := Waiting key l]> ps)).
Proof.
  intros W Ht Hkey Hfresh. pose proof (fun p l u r => held_before lk ps t p l u r W Ht) as Hheld.
  destruct W as [W1 W2 W3 W4 W5].
  assert (map_sum (uses l) ps = 0) as Hsum.
  { apply uses_none. intros u p k m Hp Ha ->. destruct (W2 k l (W1 u p k l Hp Ha)) as (q & Hq & _). simpl in *. congruence. }
  split; simpl in *.
  - intros u p k m Hp Ha. rewrite lookup_insert in Hp.
    case_decide; simplify_eq/=; [apply lookup_insert_eq|].
    rewrite lookup_insert_ne; [eauto|]. intros <-. by rewrite (W1 _ _ _ _ Hp Ha) in Hkey.
  - intros k m Hm. rewrite map_sum_insert by done. rewrite lookup_insert in Hm.
    case_decide; simplify_eq.
    + exists (mkLockRef None 1). rewrite lookup_insert_eq. split; [done|].
      rewrite (uses_self _ k), Hsum by done. simpl. lia.
    + destruct (W2 k m Hm) as (q & Hq & Hqr & Hq0). simpl in *.
      assert (l <> m) by congruence. exists q. rewrite lookup_insert_ne by done.
      rewrite (uses_other (Waiting key l) key l m) by done. split; [done|lia].
  - assert (forall k, items lk !! k <> Some l) as Hno.
    { intros k Hk. destruct (W2 k l Hk) as (q & Hq & _). simpl in Hq. congruence. }
    intros k k' m Hk Hk'. rewrite lookup_insert in Hk, Hk'.
    repeat case_decide; simplify_eq; try done; try (by destruct (Hno _ Hk));
      try (by destruct (Hno _ Hk')); eauto.
  - intros m q u Hm Hu. rewrite lookup_insert in Hm. case_decide; simplify_eq/=; eauto.
  - intros u k m Hu. rewrite lookup_insert in Hu. case_decide; simplify_eq.
    destruct (W5 u k m Hu) as (q & Hq & Hmu). exists q.
    rewrite lookup_insert_ne; [done|]. intros <-. simpl in *. congruence.
Qed.

Lemma wf_register (lk : keyedLocker) (ps : gmap nat Pc) (t : nat) (key : string) :
  wf (mkSystem lk ps) -> ps !! t = None ->
  wf (mkSystem (snd (register lk key)) (<[t := Waiting key (fst (register lk key))]> ps)).
Proof.
  intros W Ht. unfold register. destruct (items lk !! key) as [l|] eqn:Hkey; simpl.
  - by apply wf_register_known.
  - apply wf_register_fresh; [done..|]. apply not_elem_of_dom, is_fresh.
Qed.

(** Changing an item's mutex together with the point of one of its goroutines. *)
Lemma wf_move (lk : keyedLocker) (ps : gmap nat Pc) (t l : nat) (k : string)
    (p p' : Pc) (o : option nat) (r : lockRef) :
  wf (mkSystem lk ps) -> ps !! t = Some p ->
  at_item p = Some (k, l) -> at_item p' = Some (k, l) ->
  heap lk !! l = Some r -> (mu r = None \/ mu r = Some t) ->
  (p' = Holding k l /\ o = Some t \/ (forall k l, p' <> Holding k l) /\ o = None) ->
  wf (mkSystem (mkLocker (items lk) (alter (setMu o) l (heap lk))) (<[t := p']> ps)).
Proof.
  intros [W1 W2 W3 W4 W5] Hp Ha Ha' Hr Hmu Ho. simpl in *. split; simpl.
  - intros u q j m Hq Hj. rewrite lookup_insert in Hq. case_decide; simplify_eq; eauto.
  - intros j m Hm. destruct (W2 j m Hm) as (q & Hq & Hqr & Hq0).
    rewrite (uses_move _ _ _ p) by (done || congruence). rewrite lookup_alter_case.
    case_decide; [|eauto]. exists (setMu o q). by rewrite Hq.
  - exact W3.
  - intros m q u Hm Hu. rewrite lookup_alter_case in Hm. case_decide as Hd.
    + subst m. rewrite Hr in Hm. simplify_eq/=.
      destruct Ho as [[-> E]|[_ ?]]; simplify_eq. exists k. apply lookup_insert_eq.
    + destruct (W4 m q u Hm Hu) as [j Hj]. exists j. rewrite lookup_insert_ne; [done|].
      intros <-. rewrite Hp in Hj. simplify_eq/=.
  - intros u j m Hu. rewrite lookup_insert in Hu. rewrite lookup_alter_case.
    case_decide as Hd; simplify_eq.
    + destruct Ho as [[E ->]|[E _]]; [|by destruct (E j m)]. simplify_eq.
      rewrite decide_True by done. exists (setMu (Some u) r). by rewrite Hr.
    + destruct (W5 u j m Hu) as (q & Hq & Hqu). case_decide; [|eauto]. subst m.
      rewrite Hr in Hq. simplify_eq. destruct Hmu as [E|E]; rewrite E in Hqu; congruence.
Qed.

(** What is left once [t] has given up its reference to [l]: the counts without it, and
    who holds what. *)
Lemma reference_given_up (lk : keyedLocker) (ps : gmap nat Pc) (t l : nat) (key : string) (r : lockRef) :
  wf (mkSystem lk ps) -> ps !! t = Some (Unlocked key l) -> heap lk !! l = Some r ->
  let h := alter (addRefs (-1)) l (heap lk) in
  (forall m, map_sum (uses m) (<[t := Done]> ps) = map_sum (uses m) ps - uses m (Unlocked key l))
  /\ (forall m q u, h !! m = Some q -> mu q = Some u -> exists k, <[t := Done]> ps !! u = Some (Holding k m))
  /\ (forall u k m, <[t := Done]> ps !! u = Some (Holding k m) -> exists q, h !! m = Some q /\ mu q = Some u)
  /\ (forall k m, m <> l -> items lk !! k = Some m ->
        exists q, h !! m = Some q /\ refs q = map_sum (uses m) (<[t := Done]> ps) /\ 0 < refs q).
Proof.
  intros [W1 W2 W3 W4 W5] Ht Hr h. simpl in *.
  assert (forall m, map_sum (uses m) (<[t := Done]> ps)
                    = map_sum (uses m) ps - uses m (Unlocked key l)) as Hsum.
  { intros m. rewrite (map_sum_update _ _ _ (Unlocked key l)) by done.
    change (uses m Done) with 0. lia. }
  assert (h !! l = Some (addRefs (-1) r)) as Hl by (unfold h; by rewrite lookup_alter_eq, Hr).
  assert (forall m, m <> l -> h !! m = heap lk !! m) as Hne
    by (intros; unfold h; by rewrite lookup_alter_ne).
  split_and!; [done|..].
  - intros m q u Hq Hu. assert (exists k, ps !! u = Some (Holding k m)) as [k Hk].
    { destruct (decide (m = l)) as [->|]; [|rewrite Hne in Hq by done; eauto].
      rewrite Hl in Hq. simplify_eq/=. eauto. }
    exists k. rewrite lookup_insert_ne; [done|]. intros <-. congruence.
  - intros u k m Hu. rewrite lookup_insert in Hu. case_decide; simplify_eq.
    destruct (W5 u k m Hu) as (q & Hq & Hmu).
    destruct (decide (m = l)) as [->|]; [|rewrite Hne by done; eauto].
    rewrite Hr in Hq. simplify_eq. rewrite Hl. by exists (addRefs (-1) q).
  - intros k m Hm Hi. destruct (W2 k m Hi) as (q & Hq & Hqr & Hq0). exists q.
    rewrite Hne, Hsum, (uses_other _ key l) by (done || congruence).
    split; [done|]. rewrite Z.sub_0_r. done.
Qed.

Lemma wf_unregister (lk : keyedLocker) (ps : gmap nat Pc) (t l : nat) (key : string) :
  wf (mkSystem lk ps) -> ps !! t = Some (Unlocked key l) ->
  wf (mkSystem (unregister lk key l) (<[t := Done]> ps)).
Proof.
  intros W Ht.
  destruct (wf_item_heap _ _ _ _ _ W Ht eq_refl) as (r & Hr & Hrefs & Hpos).
  pose proof (wf_items _ W t _ key l Ht eq_refl) as Hkey.
  destruct (reference_given_up lk ps t l key r W Ht Hr) as (Hsum & Hheld & Hholding & Hother).
  destruct W as [W1 W2 W3 W4 W5]. simpl in *. unfold unregister.
  set (h := alter (addRefs (-1)) l (heap lk)) in *.
  assert (h !! l = Some (addRefs (-1) r)) as Hl by (unfold h; by rewrite lookup_alter_eq, Hr). rewrite Hl. simpl.
  destruct (Z.eqb_spec (refs r + -1) 0) as [Hz|Hz]; split; simpl; try done.
  - intros u p k m Hp Ha. rewrite lookup_insert in Hp. case_decide as Hd; simplify_eq/=.
    pose proof (W1 u p k m Hp Ha) as Hi.
    rewrite lookup_delete_ne; [done|]. intros <-. simplify_eq.
    (* the last reference is [t]'s, so no other goroutine can be at [l] *)
    assert (uses l p = 1) as Hu by (by apply (uses_self _ key)).
    rewrite (map_sum_delete _ _ t _ Ht), (map_sum_delete _ _ u p) in Hrefs
      by (by rewrite lookup_delete_ne).
    rewrite (uses_self (Unlocked key l) key l eq_refl) in Hrefs.
    pose proof (map_sum_nonneg (uses l) (delete u (delete t ps))
      (fun _ v _ => uses_nonneg l v)). lia.
  - intros k m Hi. rewrite lookup_delete in Hi. case_decide; simplify_eq.
    apply (Hother k m); [|done]. intros ->. eauto.
  - intros k k' m Hk Hk'. rewrite lookup_delete in Hk, Hk'.
    repeat case_decide; simplify_eq; eauto.
  - intros u p k m Hp Ha. rewrite lookup_insert in Hp. case_decide; simplify_eq/=; eauto.
  - intros k m Hi. destruct (decide (m = l)) as [->|]; [|by eapply Hother].
    exists (addRefs (-1) r). rewrite Hl, Hsum, (uses_self (Unlocked key l) key l eq_refl). simpl.
    split; [done|]. lia.
Qed.

Lemma acquire_Some (lk lk' : keyedLocker) (l t : nat) :
  acquire lk l t = Some lk' ->
  exists r, heap lk !! l = Some r /\ mu r = None
    /\ lk' = mkLocker (items lk) (alter (setMu (Some t)) l (heap lk)).
Proof.
  unfold acquire. intros H. destruct (heap lk !! l) as [[[u|] n]|]; simplify_eq. by eexists.
Qed.

Lemma lock_wf_step (s s' : System) : wf s -> step s s' -> wf s'.
Proof.
  intros W Hs. destruct Hs as [lk ps t key l lk' Ht Hr | lk ps t key l lk' Ht Ha
    | lk ps t key l Ht | lk ps t key l Ht].
  - pose proof (wf_register lk ps t key W Ht) as H. by rewrite Hr in H.
  - apply acquire_Some in Ha as (r & Hr & Hmu & ->).
    eapply wf_move; eauto; done.
  - destruct (wf_holding _ W t key l Ht) as (r & Hr & Hmu). simpl in *.
    eapply wf_move; eauto; done.
  - by apply wf_unregister.
Qed.

Lemma lock_wf_reachable (s : System) : reachable s -> wf s.
Proof.
  unfold reachable. generalize lock_wf_init. generalize init. intros s0 W.
  induction 1; eauto using lock_wf_step.
Qed.

(** ** Properties *)

(** C37: mutual exclusion: in every interleaving at most one goroutine is inside the
    section protected by a key, although entries are deleted and re-created while
    other goroutines wait. *)
Theorem keyed_lock_exclusive (s : System) (t t' : nat) (key : string) (l l' : nat) :
  reachable s ->
  goroutines s !! t = Some (Holding key l) -> goroutines s !! t' = Some (Holding key l') ->
  t = t'.
Proof.
  intros W%lock_wf_reachable Ht Ht'.
  pose proof (wf_items _ W _ _ key l Ht eq_refl) as Hl.
  pose proof (wf_items _ W _ _ key l' Ht' eq_refl) as Hl'. simplify_eq.
  destruct (wf_holding _ W _ _ _ Ht) as (r & Hr & Hmu).
  destruct (wf_holding _ W _ _ _ Ht') as (r' & Hr' & Hmu'). congruence.
Qed.

(** No entry leaks and none disappears early: a key has an entry exactly when
    some goroutine is using it, so the map is empty once every call has returned. *)
Theorem keyed_lock_entries (s : System) (key : string) :
  reachable s ->
  is_Some (items (locker s) !! key) <->
  exists t p l, goroutines s !! t = Some p /\ at_item p = Some (key, l).
Proof.
  intros W%lock_wf_reachable. split.
  - intros [l Hl]. destruct (wf_refs _ W key l Hl) as (r & _ & Hrefs & Hpos).
    assert (exists t p k, goroutines s !! t = Some p /\ at_item p = Some (k, l))
      as (t & p & k & Hp & Ha).
    { rewrite Hrefs in Hpos. clear -Hpos.
      induction (goroutines s) as [|t p ps Ht IH] using map_ind.
      - rewrite map_sum_empty in Hpos. lia.
      - rewrite map_sum_insert in Hpos by done.
        destruct (decide (uses l p = 0)) as [E|E].
        + rewrite E in Hpos. destruct IH as (u & q & k & Hq & Ha); [lia|].
          exists u, q, k. rewrite lookup_insert_ne; [done|]. congruence.
        + exists t, p. unfold uses in E. destruct (at_item p) as [[k l']|]; [|done].
          case_decide; [|done]. subst. exists k. by rewrite lookup_insert_eq. }
    pose proof (wf_items _ W t p k l Hp Ha) as Hk.
    rewrite (wf_inj _ W key k l Hl Hk). eauto.
  - intros (t & p & l & Hp & Ha). exists l. by apply (wf_items _ W t p).
Qed.

(** No deadlock: whenever a goroutine has not finished, some goroutine using the
    same key can take its next step, whatever happens on other keys. *)
Theorem keyed_lock_progress (s : System) (t : nat) (p : Pc) (key : string) (l : nat) :
  reachable s -> goroutines s !! t = Some p -> at_item p = Some (key, l) ->
  exists u q s', goroutines s !! u = Some q /\ at_item q = Some (key, l)
    /\ step s s' /\ goroutines s' !! u <> Some q.
Proof.
  intros W%lock_wf_reachable Hp Ha. destruct s as [lk ps]; simpl in *.
  destruct p as [k m|k m|k m|]; simplify_eq/=.
  - destruct (wf_item_heap _ _ _ _ _ W Hp eq_refl) as ([o n] & Hr & _). simpl in Hr.
    destruct o as [u|].
    + destruct (wf_held _ W l _ u Hr eq_refl) as [k Hk]. simpl in Hk.
      assert (k = key) as ->.
      { apply (wf_inj _ W k key l);
          [exact (wf_items _ W u _ k l Hk eq_refl) | exact (wf_items _ W t _ key l Hp eq_refl)]. }
      exists u, (Holding key l). eexists. split_and!; [done|done|by apply step_unlock|].
      simpl. by rewrite lookup_insert_eq.
    + exists t, (Waiting key l). eexists. split_and!; [done|done| |].
      * eapply step_acquire; [done|]. unfold acquire. by rewrite Hr.
      * simpl. by rewrite lookup_insert_eq.
  - exists t, (Holding key l). eexists. split_and!; [done|done|by apply step_unlock|].
    simpl. by rewrite lookup_insert_eq.
  - exists t, (Unlocked key l). eexists. split_and!; [done|done|by apply step_unregister|].
    simpl. by rewrite lookup_insert_eq.
Qed.

(** ** Witnesses *)

Definition demo_waiting : System :=
  mkSystem (snd (register newLocker "k")) {[0%nat := Waiting "k" 0]}.

Lemma demo_waiting_reachable : reachable demo_waiting.
Proof. apply rtc_once. by apply (step_register newLocker ∅ 0 "k"). Qed.

Definition demo_holding : System :=
  mkSystem (mkLocker (items (locker demo_waiting))
              (alter (setMu (Some 0%nat)) 0%nat (heap (locker demo_waiting))))
    (<[0%nat := Holding "k" 0]> (goroutines demo_waiting)).

Lemma demo_holding_reachable : reachable demo_holding.
Proof.
  unfold reachable. etrans; [apply demo_waiting_reachable|]. apply rtc_once.
  by apply (step_acquire (locker demo_waiting) (goroutines demo_waiting) 0 "k" 0).
Qed.

Lemma keyed_lock_exclusive_witness : (0 = 0)%nat.
Proof.
  exact (keyed_lock_exclusive demo_holding 0 0 "k" 0 0 demo_holding_reachable eq_refl eq_refl).
Defined.

Lemma keyed_lock_entries_witness :
  is_Some (items (locker demo_holding) !! "k"%string).
Proof.
  apply (proj2 (keyed_lock_entries demo_holding "k" demo_holding_reachable)).
  by exists 0%nat, (Holding "k" 0), 0%nat.
Defined.

Lemma keyed_lock_progress_witness :
  exists u q s', goroutines demo_waiting !! u = Some q /\ at_item q = Some ("k"%string, 0%nat)
    /\ step demo_waiting s' /\ goroutines s' !! u <> Some q.
Proof.
  exact (keyed_lock_progress demo_waiting 0 (Waiting "k" 0) "k" 0
           demo_waiting_reachable eq_refl eq_refl).
Defined.
