(* ===== verification/GoStrings.v ===== *)
(** * What the sources use of [strings], [strconv] and [encoding/hex]

    A Go string is a sequence of bytes, here [string].  The functions are exact on
    every byte sequence except for letter case outside ASCII: [ToLower] and the
    folding behind [EqualFold] change the ASCII letters and the three non-ASCII
    runes whose case mapping is an ASCII letter (U+0130, U+017F, U+212A), and leave
    the other bytes alone.  Every comparison the sources make after a case mapping
    has an ASCII constant, an ASCII digest or a lower-cased ASCII scheme on one
    side, so the other case pairs cannot change its outcome. *)

From S2P Require Import Prelude.
From Stdlib Require Import Ascii String.
Local Open Scope string_scope.
Local Open Scope Z_scope.

(** ** Bytes *)

Definition byte (c : ascii) : Z := Z.of_N (N_of_ascii c).
Definition chr (z : Z) : ascii := ascii_of_N (Z.to_N z).

Definition between (lo hi z : Z) : bool := (lo <=? z) && (z <=? hi).

Definition isUpper (c : ascii) : bool := between 65 90 (byte c).
Definition isLower (c : ascii) : bool := between 97 122 (byte c).
Definition isDigit (c : ascii) : bool := between 48 57 (byte c).
Definition lower (c : ascii) : ascii := if isUpper c then chr (byte c + 32) else c.
Definition upper (c : ascii) : ascii := if isLower c then chr (byte c - 32) else c.

Fixpoint str_forall (P : ascii -> bool) (s : string) : bool :=
  match s with
  | EmptyString => true
  | String c s => P c && str_forall P s
  end.

Fixpoint str_map (f : ascii -> ascii) (s : string) : string :=
  match s with
  | EmptyString => EmptyString
  | String c s => String (f c) (str_map f s)
  end.

Definition is_ascii (s : string) : bool := str_forall (fun c => byte c <? 128) s.

(** ** [strings] *)

Definition HasPrefix (s prefix : string) : bool := String.prefix prefix s.

Fixpoint HasSuffix (s suffix : string) : bool :=
  (s =? suffix)%string
  || match s with EmptyString => false | String _ s' => HasSuffix s' suffix end.

(** The rest of [s] after [p], when [s] starts with [p]. *)
Fixpoint after_prefix (p s : string) : option string :=
  match p, s with
  | EmptyString, _ => Some s
  | String a p', String b s' => if Ascii.eqb a b then after_prefix p' s' else None
  | _, _ => None
  end.

Definition TrimPrefix (s prefix : string) : string :=
  match after_prefix prefix s with Some rest => rest | None => s end.

Fixpoint TrimSuffix (s suffix : string) : string :=
  if (s =? suffix)%string then EmptyString
  else match s with
       | EmptyString => EmptyString
       | String c s' => String c (TrimSuffix s' suffix)
       end.

(** [Index], with [None] for -1. *)
Fixpoint Index (s substr : string) : option nat :=
  if String.prefix substr s then Some 0%nat
  else match s with EmptyString => None | String _ s' => S <$> Index s' substr end.

Definition Contains (s substr : string) : bool :=
  match Index s substr with Some _ => true | None => false end.

(** [bytes.ReplaceAll] of a non-empty [old]; [skip] bytes of a match are left to drop. *)
Fixpoint replace_from (skip : nat) (s old new : string) : string :=
  match s with
  | EmptyString => EmptyString
  | String c s' =>
      match skip with
      | S skip => replace_from skip s' old new
      | O =>
          if String.prefix old s then new ++ replace_from (String.length old - 1) s' old new
          else String c (replace_from 0 s' old new)
      end
  end.

(** [Cut]: before, after, found. *)
Fixpoint Cut (s sep : string) : string * string * bool :=
  match after_prefix sep s with
  | Some after => (EmptyString, after, true)
  | None =>
      match s with
      | EmptyString => (EmptyString, EmptyString, false)
      | String c s' =>
          let '(before, after, found) := Cut s' sep in (String c before, after, found)
      end
  end.

(** [Split] by a one-byte separator. *)
Fixpoint Split (s : string) (sep : ascii) : list string :=
  match s with
  | EmptyString => [EmptyString]
  | String c s' =>
      let rest := Split s' sep in
      if Ascii.eqb c sep then EmptyString :: rest
      else match rest with
           | [] => [String c EmptyString]
           | part :: parts => String c part :: parts
           end
  end.

Fixpoint Join (parts : list string) (sep : string) : string :=
  match parts with
  | [] => EmptyString
  | [part] => part
  | part :: parts => part ++ sep ++ Join parts sep
  end.

Fixpoint contains_byte (c : ascii) (s : string) : bool :=
  match s with
  | EmptyString => false
  | String a s' => Ascii.eqb a c || contains_byte c s'
  end.

Definition ContainsAny (s chars : string) : bool :=
  negb (str_forall (fun c => negb (contains_byte c chars)) s).

Fixpoint TrimLeft (s cutset : string) : string :=
  match s with
  | EmptyString => EmptyString
  | String c s' => if contains_byte c cutset then TrimLeft s' cutset else s
  end.

Fixpoint TrimRight (s cutset : string) : string :=
  match s with
  | EmptyString => EmptyString
  | String c s' =>
      if str_forall (fun c => contains_byte c cutset) s then EmptyString
      else String c (TrimRight s' cutset)
  end.

Definition Trim (s cutset : string) : string := TrimRight (TrimLeft s cutset) cutset.

(** The Unicode white-space runes, as UTF-8 byte sequences. *)
Definition space1 (a : ascii) : bool := between 9 13 (byte a) || (byte a =? 32).
Definition space2 (a b : ascii) : bool :=
  (byte a =? 194) && ((byte b =? 133) || (byte b =? 160)).
Definition space3 (a b c : ascii) : bool :=
  let '(a, b, c) := (byte a, byte b, byte c) in
  ((a =? 225) && (b =? 154) && (c =? 128))
  || ((a =? 226) && (b =? 128)
      && (between 128 138 c || (c =? 168) || (c =? 169) || (c =? 175)))
  || ((a =? 226) && (b =? 129) && (c =? 159))
  || ((a =? 227) && (b =? 128) && (c =? 128)).

Fixpoint TrimLeftSpace (s : string) : string :=
  match s with
  | EmptyString => EmptyString
  | String a s1 =>
      if space1 a then TrimLeftSpace s1
      else match s1 with
           | EmptyString => s
           | String b s2 =>
               if space2 a b then TrimLeftSpace s2
               else match s2 with
                    | EmptyString => s
                    | String c s3 => if space3 a b c then TrimLeftSpace s3 else s
                    end
           end
  end.

Definition all_space (s : string) : bool := (TrimLeftSpace s =? EmptyString)%string.

Fixpoint TrimRightSpace (s : string) : string :=
  match s with
  | EmptyString => EmptyString
  | String c s' => if all_space s then EmptyString else String c (TrimRightSpace s')
  end.

Definition TrimSpace (s : string) : string := TrimRightSpace (TrimLeftSpace s).

Fixpoint ToLower (s : string) : string :=
  match s with
  | EmptyString => EmptyString
  | String a s1 =>
      match s1 with
      | String b s2 =>
          if (byte a =? 196) && (byte b =? 176) then String "i" (ToLower s2)
          else match s2 with
               | String c s3 =>
                   if (byte a =? 226) && (byte b =? 132) && (byte c =? 170)
                   then String "k" (ToLower s3)
                   else String (lower a) (ToLower s1)
               | EmptyString => String (lower a) (ToLower s1)
               end
      | EmptyString => String (lower a) EmptyString
      end
  end.

(** The representative of a string under simple case folding. *)
Fixpoint Fold (s : string) : string :=
  match s with
  | EmptyString => EmptyString
  | String a s1 =>
      match s1 with
      | String b s2 =>
          if (byte a =? 197) && (byte b =? 191) then String "s" (Fold s2)
          else match s2 with
               | String c s3 =>
                   if (byte a =? 226) && (byte b =? 132) && (byte c =? 170)
                   then String "k" (Fold s3)
                   else String (lower a) (Fold s1)
               | EmptyString => String (lower a) (Fold s1)
               end
      | EmptyString => String (lower a) EmptyString
      end
  end.

Definition EqualFold (s t : string) : bool := (Fold s =? Fold t)%string.

(** The rest of a string after a given first byte. *)
Definition expect (c : ascii) (s : string) : option string :=
  match s with
  | String d rest => if Ascii.eqb d c then Some rest else None
  | EmptyString => None
  end.

Definition nonempty (s : string) : bool := negb (s =? EmptyString)%string.
Definition is_Some_b {A : Type} (o : option A) : bool :=
  match o with Some _ => true | None => false end.

(** ** [encoding/hex] *)

Definition hexDigit (z : Z) : ascii := if z <? 10 then chr (48 + z) else chr (87 + z).

Definition hexValue (c : ascii) : option Z :=
  let z := byte c in
  if between 48 57 z then Some (z - 48)
  else if between 97 102 z then Some (z - 87)
  else if between 65 70 z then Some (z - 55)
  else None.

Fixpoint hex_EncodeToString (bytes : list Z) : string :=
  match bytes with
  | [] => EmptyString
  | b :: bytes =>
      String (hexDigit (b / 16)) (String (hexDigit (b mod 16)) (hex_EncodeToString bytes))
  end.

Fixpoint hex_DecodeString (s : string) : option (list Z) :=
  match s with
  | EmptyString => Some []
  | String a (String b s') =>
      match hexValue a, hexValue b, hex_DecodeString s' with
      | Some x, Some y, Some bytes => Some (16 * x + y :: bytes)
      | _, _, _ => None
      end
  | String _ EmptyString => None
  end.

(** ** [strconv] *)

(** No caller looks at which error a number was rejected with. *)
Inductive NumError := ErrNum.

Fixpoint digits_value (acc : Z) (s : string) : option Z :=
  match s with
  | EmptyString => Some acc
  | String c s' => if isDigit c then digits_value (10 * acc + (byte c - 48)) s' else None
  end.

(** [ParseInt(s, 10, 64)]. *)
Definition ParseInt (s : string) : result NumError Z :=
  let parse (neg : bool) (digits : string) :=
    match digits with
    | EmptyString => Err ErrNum
    | _ =>
        match digits_value 0 digits with
        | None => Err ErrNum
        | Some v =>
            let v := if neg then - v else v in
            if (minInt64 <=? v) && (v <=? maxInt64) then Ok v else Err ErrNum
        end
    end in
  match s with
  | String "+" digits => parse false digits
  | String "-" digits => parse true digits
  | _ => parse false s
  end.

Definition ParseBool (s : string) : option bool :=
  if existsb (String.eqb s) ["1"; "t"; "T"; "TRUE"; "true"; "True"] then Some true
  else if existsb (String.eqb s) ["0"; "f"; "F"; "FALSE"; "false"; "False"] then Some false
  else None.

(** Decimal digits of a non-negative number; [fuel] bounds the digit count. *)
Fixpoint format_digits (fuel : nat) (z : Z) (acc : string) : string :=
  match fuel with
  | O => acc
  | S fuel =>
      let acc := String (chr (48 + z mod 10)) acc in
      if z <? 10 then acc else format_digits fuel (z / 10) acc
  end.

(** [FormatInt(z, 10)] and [Itoa]: an [int64] has at most 19 digits. *)
Definition FormatInt (z : Z) : string :=
  if z <? 0 then String "-" (format_digits 20 (- z) EmptyString)
  else format_digits 20 z EmptyString.

(** ** Lemmas *)

#[global] Arguments String.append !_ _ / : simpl nomatch.

#[global] Instance ascii_eq_dec : EqDecision ascii := ascii_dec.

Lemma app_empty_r (s : string) : s ++ EmptyString = s.
Proof. induction s; simpl; congruence. Qed.

Lemma app_assoc_str (s t u : string) : (s ++ t) ++ u = s ++ (t ++ u).
Proof. induction s; simpl; congruence. Qed.

Lemma str_forall_app (P : ascii -> bool) (s t : string) :
  str_forall P (s ++ t) = str_forall P s && str_forall P t.
Proof. induction s as [|c s IH]; [done|]. cbn. by rewrite IH, andb_assoc. Qed.

Lemma app_inj_l (s t u : string) : s ++ t = s ++ u -> t = u.
Proof. induction s; simpl; [done|]. intros [= ?]. auto. Qed.

Lemma length_app_str (s t : string) :
  String.length (s ++ t) = (String.length s + String.length t)%nat.
Proof. induction s; simpl; congruence. Qed.

Lemma app_inj_r (s t u : string) : s ++ u = t ++ u -> s = t.
Proof.
  revert t. induction s as [|a s IH]; intros [|b t] E; simpl in *; try done.
  - apply (f_equal String.length) in E. simpl in E. rewrite length_app_str in E. lia.
  - apply (f_equal String.length) in E. simpl in E. rewrite length_app_str in E. lia.
  - injection E as -> E. f_equal. auto.
Qed.

Lemma after_prefix_Some (p s r : string) : after_prefix p s = Some r <-> s = p ++ r.
Proof.
  revert s. induction p as [|a p IH]; intros s; simpl; [by split; intros; simplify_eq|].
  destruct s as [|b s]; [done|]. destruct (Ascii.eqb_spec a b) as [->|Hne].
  - rewrite IH. split; [by intros -> | by intros [= ->]].
  - split; [done | by intros [= <- _]].
Qed.

Lemma after_prefix_app (p r : string) : after_prefix p (p ++ r) = Some r.
Proof. by apply after_prefix_Some. Qed.

Lemma prefix_spec (p s : string) : String.prefix p s = true <-> exists r, s = p ++ r.
Proof.
  revert s. induction p as [|a p IH]; intros s.
  { split; [intros _; by exists s | by destruct s]. }
  destruct s as [|b s]; [split; [done | by intros [r ?]]|]. cbn [String.prefix].
  destruct (ascii_dec a b) as [->|Hne].
  - rewrite IH. split; intros [r E]; exists r; simpl in *; congruence.
  - split; [done | intros [r [= ? _]]; congruence].
Qed.

Lemma HasPrefix_spec (s p : string) : HasPrefix s p = true <-> exists r, s = p ++ r.
Proof. apply prefix_spec. Qed.

Lemma HasSuffix_spec (s t : string) : HasSuffix s t = true <-> exists p, s = p ++ t.
Proof.
  induction s as [|c s IH]; cbn [HasSuffix]; rewrite orb_true_iff, String.eqb_eq.
  - split; [intros [<-|?]; [by exists EmptyString|done]|].
    intros [[|a p] E]; [by left|done].
  - rewrite IH. split.
    + intros [<-|[p ->]]; [by exists EmptyString | by exists (String c p)].
    + intros [[|a p] E]; [by left|]. right. injection E as _ ->. by exists p.
Qed.

Lemma TrimSuffix_app (p t : string) : TrimSuffix (p ++ t) t = p.
Proof.
  induction p as [|c p IH]; cbn [append].
  - destruct t; cbn [TrimSuffix]; by rewrite String.eqb_refl.
  - cbn [TrimSuffix].
    destruct (String.eqb_spec (String c (p ++ t)) t) as [E|_]; [|by rewrite IH].
    apply (f_equal String.length) in E. simpl in E. rewrite length_app_str in E. lia.
Qed.

Lemma TrimPrefix_app (p r : string) : TrimPrefix (p ++ r) p = r.
Proof. unfold TrimPrefix. by rewrite after_prefix_app. Qed.

Lemma Cut_true (s sep b a : string) : Cut s sep = (b, a, true) -> s = b ++ sep ++ a.
Proof.
  revert b a. induction s as [|c s IH]; intros b a; simpl;
    destruct (after_prefix sep _) eqn:E.
  1,3: intros [= <- <-]; by apply after_prefix_Some in E.
  - done.
  - destruct (Cut s sep) as [[b' a'] f]. intros [= <- <- ->]. simpl. f_equal. by apply IH.
Qed.

Lemma Cut_false (s sep b a : string) : Cut s sep = (b, a, false) -> b = s /\ a = EmptyString.
Proof.
  revert b a. induction s as [|c s IH]; intros b a; simpl;
    destruct (after_prefix sep _) eqn:E; try done.
  - by intros [= <- <-].
  - destruct (Cut s sep) as [[b' a'] f]. intros [= <- <- ->].
    by destruct (IH b' a' eq_refl) as [-> ->].
Qed.

(** [Cut] stops at the first occurrence. *)
Lemma Cut_byte_app (b a : string) (c : ascii) :
  contains_byte c b = false -> Cut (b ++ String c a) (String c EmptyString) = (b, a, true).
Proof.
  induction b as [|x b IH]; simpl.
  - by rewrite Ascii.eqb_refl.
  - intros [Hx Hb]%orb_false_iff. rewrite Ascii.eqb_sym, Hx, IH by done. done.
Qed.

Lemma Split_nonempty (s : string) (c : ascii) : Split s c <> [].
Proof.
  destruct s; simpl; [done|]. destruct (Ascii.eqb _ _); [done|]. by destruct (Split s c).
Qed.

Lemma Join_Split (s : string) (c : ascii) : Join (Split s c) (String c EmptyString) = s.
Proof.
  induction s as [|x s IH]; [done|]. cbn [Split]. pose proof (Split_nonempty s c) as Hne.
  destruct (Split s c) as [|part parts] eqn:E; [done|].
  destruct (Ascii.eqb_spec x c) as [->|Hx].
  - change (String c (Join (part :: parts) (String c EmptyString)) = String c s).
    by rewrite IH.
  - destruct parts as [|q parts]; simpl in IH |- *; by rewrite IH.
Qed.

Lemma Split_parts (s : string) (c : ascii) (part : string) :
  part ∈ Split s c -> contains_byte c part = false.
Proof.
  revert part. induction s as [|x s IH]; intros part; simpl; [by intros ->%list_elem_of_singleton|].
  destruct (Ascii.eqb_spec x c) as [->|Hx].
  - intros [->|H]%elem_of_cons; auto.
  - destruct (Split s c) as [|q parts] eqn:E; [by destruct (Split_nonempty s c)|].
    intros [->|H]%elem_of_cons; simpl.
    + apply orb_false_iff. split; [by apply Ascii.eqb_neq|]. apply IH. by left.
    + apply IH. by right.
Qed.

Lemma Split_no_sep (s : string) (c : ascii) : contains_byte c s = false -> Split s c = [s].
Proof.
  induction s as [|x s IH]; simpl; [done|]. intros [-> H]%orb_false_iff. by rewrite IH.
Qed.

Lemma Split_app (s t : string) (c : ascii) :
  contains_byte c s = false -> Split (s ++ String c t) c = s :: Split t c.
Proof.
  induction s as [|x s IH]; simpl; [by rewrite Ascii.eqb_refl|].
  intros [-> H]%orb_false_iff. by rewrite IH.
Qed.

(** *** Bytes and digits *)

Lemma byte_range (c : ascii) : 0 <= byte c < 256.
Proof.
  unfold byte. pose proof (N_ascii_bounded c). split; [lia|].
  change 256 with (Z.of_N 256). lia.
Qed.

Lemma byte_chr (z : Z) : 0 <= z < 256 -> byte (chr z) = z.
Proof. intros. unfold byte, chr. rewrite N_ascii_embedding by lia. lia. Qed.

Lemma chr_byte (c : ascii) : chr (byte c) = c.
Proof. unfold byte, chr. rewrite N2Z.id. apply ascii_N_embedding. Qed.

Lemma byte_inj (c d : ascii) : byte c = byte d -> c = d.
Proof. intros E. by rewrite <- (chr_byte c), <- (chr_byte d), E. Qed.

Lemma hexValue_hexDigit (z : Z) : 0 <= z < 16 -> hexValue (hexDigit z) = Some z.
Proof.
  intros Hz. unfold hexValue, hexDigit, between.
  destruct (Z.ltb_spec z 10); rewrite byte_chr by lia;
    repeat (match goal with |- context [?a <=? ?b] => destruct (Z.leb_spec a b) end; simpl);
    try (f_equal; lia); lia.
Qed.

Lemma hex_decode_encode (bs : list Z) :
  Forall (fun b => 0 <= b < 256) bs -> hex_DecodeString (hex_EncodeToString bs) = Some bs.
Proof.
  induction 1 as [|b bs Hb Hbs IH]; [done|]. cbn [hex_EncodeToString hex_DecodeString].
  pose proof (Z.mod_pos_bound b 16). pose proof (Z.div_mod b 16).
  assert (0 <= b / 16 < 16) by (split; [apply Z.div_pos | apply Z.div_lt_upper_bound]; lia).
  rewrite !hexValue_hexDigit, IH by lia. do 2 f_equal. lia.
Qed.

Lemma length_hex (bs : list Z) :
  String.length (hex_EncodeToString bs) = (2 * List.length bs)%nat.
Proof. induction bs; simpl; [done|]. rewrite IHbs. lia. Qed.

Lemma hex_decode_length (s : string) (bs : list Z) :
  hex_DecodeString s = Some bs -> String.length s = (2 * List.length bs)%nat.
Proof.
  revert bs. induction s as [s IH] using (induction_ltof1 _ String.length).
  intros bs E. destruct s as [|a [|b s]]; simpl in E; [by simplify_eq|done|].
  destruct (hexValue a), (hexValue b), (hex_DecodeString s) as [t|] eqn:Et; simplify_eq.
  simpl. rewrite (IH s) with (bs := t); [simpl; lia | unfold ltof; simpl; lia | done].
Qed.

Lemma isDigit_chr (d : Z) : 0 <= d < 10 -> isDigit (chr (48 + d)) = true.
Proof.
  intros. unfold isDigit, between. rewrite byte_chr by lia.
  apply andb_true_iff. split; apply Z.leb_le; lia.
Qed.

(** The digits written before [acc] read back to the number, then [acc] follows. *)
Lemma digits_value_format (fuel : nat) (z x : Z) (acc : string) :
  0 <= z < 10 ^ Z.of_nat fuel ->
  exists w, format_digits fuel z acc = w ++ acc
    /\ (fuel <> O -> exists c s, w = String c s /\ isDigit c = true)
    /\ forall t, digits_value x (w ++ t)
                 = digits_value (x * 10 ^ Z.of_nat (String.length w) + z) t.
Proof.
  revert z x acc. induction fuel as [|fuel IH]; intros z x acc Hz.
  { exists EmptyString. split_and!; [done|done|]. intros t. simpl.
    replace (10 ^ Z.of_nat 0) with 1 in Hz by done. f_equal. lia. }
  rewrite Nat2Z.inj_succ, Z.pow_succ_r in Hz by lia.
  pose proof (Z.mod_pos_bound z 10 ltac:(lia)) as Hm.
  assert (Hone : forall y d t, 0 <= d < 10 ->
    digits_value y (String (chr (48 + d)) t) = digits_value (10 * y + d) t).
  { intros y d t Hd. cbn [digits_value]. rewrite isDigit_chr, byte_chr by lia. f_equal. lia. }
  cbn [format_digits]. destruct (Z.ltb_spec z 10).
  - exists (String (chr (48 + z mod 10)) EmptyString). split_and!; [done| |].
    + intros _. eexists _, _. split; [done|]. by apply isDigit_chr.
    + intros t. cbn [append]. rewrite Hone by done. rewrite Z.mod_small by lia.
      f_equal. simpl. lia.
  - destruct (IH (z / 10) x (String (chr (48 + z mod 10)) acc)) as (w & -> & Hw & Hv).
    { split; [apply Z.div_pos; lia | apply Z.div_lt_upper_bound; lia]. }
    exists (w ++ String (chr (48 + z mod 10)) EmptyString). split_and!.
    + by rewrite app_assoc_str.
    + intros _. destruct fuel as [|fuel].
      * change (10 * 10 ^ Z.of_nat 0) with 10 in Hz. lia.
      * destruct Hw as (c & s & -> & Hc); [done|]. eexists _, _. by split.
    + intros t. rewrite app_assoc_str, Hv. cbn [append]. rewrite Hone by done.
      f_equal. rewrite length_app_str. simpl.
      rewrite Nat2Z.inj_add, Z.pow_add_r by lia. simpl (10 ^ Z.of_nat 1).
      change (Z.pow_pos 10 1) with 10. pose proof (Z.div_mod z 10 ltac:(lia)). lia.
Qed.

Definition check_int64 (v : option Z) : result NumError Z :=
  match v with
  | None => Err ErrNum
  | Some v => if (minInt64 <=? v) && (v <=? maxInt64) then Ok v else Err ErrNum
  end.

Lemma ParseInt_digit (c : ascii) (s : string) :
  isDigit c = true -> ParseInt (String c s) = check_int64 (digits_value 0 (String c s)).
Proof. destruct c as [[] [] [] [] [] [] [] []]; try discriminate; reflexivity. Qed.

Lemma ParseInt_minus (c : ascii) (s : string) :
  ParseInt (String "-" (String c s)) = check_int64 (Z.opp <$> digits_value 0 (String c s)).
Proof. unfold ParseInt. by destruct (digits_value 0 (String c s)). Qed.

Lemma digits_value_range (s : string) (x v : Z) :
  0 <= x -> digits_value x s = Some v -> 0 <= v.
Proof.
  revert x. induction s as [|c s IH]; intros x Hx; simpl; [by intros; simplify_eq|].
  unfold isDigit, between. destruct (Z.leb_spec 48 (byte c)); simpl; [|done].
  destruct (byte c <=? 57); [|done]. apply IH. lia.
Qed.

(** Decimal formatting of an [int64] is read back by [ParseInt]. *)
Lemma ParseInt_FormatInt_id (z : Z) : int64 z -> ParseInt (FormatInt z) = Ok z.
Proof.
  intros Hz. unfold FormatInt.
  assert (forall y, 0 <= y < 10 ^ 20 -> exists c s, format_digits 20 y EmptyString = String c s
    /\ isDigit c = true /\ digits_value 0 (String c s) = Some y) as Hfmt.
  { intros y Hy. destruct (digits_value_format 20 y 0 EmptyString Hy) as (w & -> & Hw & Hv).
    destruct Hw as (c & s & -> & Hc); [done|]. exists c, s.
    specialize (Hv EmptyString). rewrite app_empty_r in *. by rewrite Hv. }
  destruct (Z.ltb_spec z 0).
  - destruct (Hfmt (- z)) as (c & s & -> & _ & Hv); [int64_lia|].
    rewrite ParseInt_minus, Hv. simpl. rewrite Z.opp_involutive.
    destruct (Z.leb_spec minInt64 z), (Z.leb_spec z maxInt64); simpl; (done || int64_lia).
  - destruct (Hfmt z) as (c & s & -> & Hc & Hv); [int64_lia|].
    rewrite ParseInt_digit, Hv by done. simpl.
    destruct (Z.leb_spec minInt64 z), (Z.leb_spec z maxInt64); simpl; (done || int64_lia).
Qed.

(** *** White space *)

Lemma TrimRightSpace_sub (s : string) : exists t, s = TrimRightSpace s ++ t.
Proof.
  induction s as [|c s [t IH]]; [by exists EmptyString|]. cbn [TrimRightSpace].
  destruct (all_space (String c s)); [by eexists|]. exists t. simpl. congruence.
Qed.

Lemma TrimRightSpace_idem (s : string) : TrimRightSpace (TrimRightSpace s) = TrimRightSpace s.
Proof.
  induction s as [|c s IH]; [done|]. cbn [TrimRightSpace].
  destruct (all_space (String c s)) eqn:E; [done|]. cbn [TrimRightSpace]. rewrite IH.
  destruct (all_space (String c (TrimRightSpace s))) eqn:E'; [|done].
  exfalso. revert E. apply not_false_iff_true.
  (* what is trimmed on the right is all white space *)
  clear IH. revert c E'. assert (forall s t, all_space s = true -> all_space t = true ->
    all_space (s ++ t) = true) as Happ.
  { clear. intros s t. unfold all_space. rewrite !String.eqb_eq.
    induction s as [s IH] using (induction_ltof1 _ String.length). unfold ltof in IH.
    destruct s as [|a [|b [|c s]]]; cbn [TrimLeftSpace append]; intros Hs Ht.
    - done.
    - destruct (space1 a); [done|done].
    - destruct (space1 a); [by apply (IH (String b EmptyString)); [simpl; lia|..]|].
      destruct (space2 a b); done.
    - destruct (space1 a); [by apply (IH (String b (String c s))); [simpl; lia|..]|].
      destruct (space2 a b); [by apply (IH (String c s)); [simpl; lia|..]|].
      destruct (space3 a b c); [by apply (IH s); [simpl; lia|..]|done]. }
  assert (forall s, exists t, s = TrimRightSpace s ++ t /\ all_space t = true) as Hr.
  { clear s. induction s as [|c s (t & IH & Ht)]; [by exists EmptyString|].
    cbn [TrimRightSpace]. destruct (all_space (String c s)) eqn:E; [by exists (String c s)|].
    exists t. split; [simpl; congruence|done]. }
  intros c E'. destruct (Hr s) as (t & Hs & Ht). rewrite Hs.
  by apply (Happ (String c (TrimRightSpace s)) t).
Qed.

(** A byte that is no part of a white-space rune. *)
Definition visible (c : ascii) : Prop := 33 <= byte c < 128.

Lemma visible_spaces (c : ascii) : visible c ->
  space1 c = false /\ (forall a, space2 a c = false) /\ (forall b, space2 c b = false)
  /\ (forall a b, space3 a c b = false) /\ (forall a b, space3 a b c = false)
  /\ (forall a b, space3 c a b = false).
Proof.
  unfold visible, space1, space2, space3, between. intros H.
  split_and!; intros; repeat match goal with
    | |- context [?x <=? ?y] => destruct (Z.leb_spec x y); try lia
    | |- context [?x =? ?y] => destruct (Z.eqb_spec x y); try lia
    end; simpl; rewrite ?andb_false_r; try done; lia.
Qed.

Lemma TrimLeftSpace_visible (c : ascii) (s : string) :
  visible c -> TrimLeftSpace (String c s) = String c s.
Proof.
  intros (H1 & _ & H2 & _ & _ & H3)%visible_spaces. simpl. rewrite H1.
  destruct s as [|b [|d s]]; [done| |]; rewrite ?H2, ?H3; done.
Qed.

Lemma TrimLeftSpace_mark (c : ascii) (t s : string) :
  visible c -> exists r, TrimLeftSpace (s ++ String c t) = r ++ String c t.
Proof.
  intros Hc. pose proof (visible_spaces c Hc) as (H1 & Ha & _ & Hm & Hr & _).
  assert (forall n s, (String.length s <= n)%nat ->
    exists r, TrimLeftSpace (s ++ String c t) = r ++ String c t) as H; [|by eapply H].
  clear s. induction n as [|n IH]; intros [|a s] Hs; cbn [String.length] in Hs; try lia.
  1,2: exists EmptyString; by apply TrimLeftSpace_visible.
  cbn [String.append TrimLeftSpace]. destruct (space1 a); [apply IH; lia|].
  destruct s as [|b s]; cbn [String.append].
  { rewrite Ha. destruct t as [|d t]; [by exists (String a EmptyString)|].
    rewrite Hm. by exists (String a EmptyString). }
  destruct (space2 a b); [apply IH; cbn in Hs; lia|].
  destruct s as [|d s]; cbn [String.append].
  { rewrite Hr. by exists (String a (String b EmptyString)). }
  destruct (space3 a b d); [apply IH; cbn in Hs; lia|].
  by exists (String a (String b (String d s))).
Qed.

Lemma all_space_mark (c : ascii) (s t : string) : visible c -> all_space (s ++ String c t) = false.
Proof.
  intros Hc. unfold all_space. destruct (TrimLeftSpace_mark c t s Hc) as [r ->].
  by destruct r.
Qed.

Lemma TrimRightSpace_mark (c : ascii) (s t : string) :
  visible c -> TrimRightSpace (s ++ String c t) = s ++ String c (TrimRightSpace t).
Proof.
  intros Hc. induction s as [|d s IH]; cbn [String.append TrimRightSpace].
  - pose proof (all_space_mark c EmptyString t Hc) as E. cbn [String.append] in E. by rewrite E.
  - pose proof (all_space_mark c (String d s) t Hc) as E. cbn [String.append] in E.
    by rewrite E, IH.
Qed.

(** *** Lower case and hexadecimal *)

Lemma lower_not_upper (c : ascii) : isUpper (lower c) = false.
Proof. destruct c as [[] [] [] [] [] [] [] []]; reflexivity. Qed.

Lemma ToLower_no_upper (s : string) : str_forall (fun c => negb (isUpper c)) (ToLower s) = true.
Proof.
  enough (forall n, (String.length s <= n)%nat ->
    str_forall (fun c => negb (isUpper c)) (ToLower s) = true) as H by (by apply (H (String.length s))).
  intros n. revert s. induction n as [|n IH]; intros [|a [|b [|c s]]] Hn; cbn in Hn; try done; try lia.
  - cbn. by rewrite lower_not_upper.
  - cbn [ToLower]. destruct (_ && _); cbn [str_forall]; [done|]. rewrite lower_not_upper.
    apply (IH (String b EmptyString)). cbn. lia.
  - cbn [ToLower]. destruct (_ && _); [|destruct (_ && _ && _)]; cbn [str_forall].
    + apply (IH (String c s)). cbn. lia.
    + apply IH. lia.
    + rewrite lower_not_upper. apply (IH (String b (String c s))). cbn. lia.
Qed.

Lemma str_forall_impl (P Q : ascii -> bool) (s : string) :
  (forall c, P c = true -> Q c = true) -> str_forall P s = true -> str_forall Q s = true.
Proof.
  intros H. induction s as [|c s IH]; [done|]. cbn. intros [Hc Hs]%andb_true_iff.
  by rewrite (H c Hc), (IH Hs).
Qed.

Lemma str_forall_absent (P : ascii -> bool) (s : string) (c : ascii) :
  str_forall P s = true -> P c = false -> contains_byte c s = false.
Proof.
  intros H Hc. induction s as [|a s IH]; [done|]. cbn in *. apply andb_true_iff in H as [Ha Hs].
  rewrite (IH Hs), orb_false_r. apply Ascii.eqb_neq. congruence.
Qed.

Lemma TrimSpace_visible (s : string) :
  str_forall (fun c => between 33 127 (byte c)) s = true -> TrimSpace s = s.
Proof.
  unfold TrimSpace. intros H.
  assert (TrimLeftSpace s = s) as ->.
  { destruct s as [|c s]; [done|]. apply TrimLeftSpace_visible. cbn in H. unfold visible, between in *.
    apply andb_true_iff in H as [H _]. lia. }
  induction s as [|c s IH]; [done|]. cbn in H. apply andb_true_iff in H as [Hc Hs].
  rewrite <- (app_empty_r (String c s)) at 1. change (String c s ++ "") with ("" ++ String c (s ++ "")).
  rewrite TrimRightSpace_mark by (unfold visible, between in *; lia). rewrite app_empty_r. cbn. by rewrite IH.
Qed.

Lemma ToLower_ascii (s : string) : is_ascii s = true -> ToLower s = str_map lower s.
Proof.
  unfold is_ascii. induction s as [|a s IH]; [done|]. cbn [str_forall str_map]. intros [Ha Hs]%andb_true_iff.
  specialize (IH Hs). cbn [ToLower].
  assert ((byte a =? 196) = false /\ (byte a =? 226) = false) as [-> ->] by (rewrite !Z.eqb_neq; lia).
  destruct s as [|b [|c s]]; cbn [andb]; [done|by rewrite IH..].
Qed.

Lemma ToLower_lowered (s : string) :
  str_forall (fun c => negb (isUpper c) && (byte c <? 128)) s = true -> ToLower s = s.
Proof.
  intros H. rewrite ToLower_ascii by (eapply str_forall_impl; [|exact H]; intros c [_ ?]%andb_true_iff; done).
  induction s as [|c s IH]; [done|]. cbn in *. apply andb_true_iff in H as [[Hc _]%andb_true_iff Hs].
  rewrite (IH Hs). unfold lower. apply negb_true_iff in Hc. by rewrite Hc.
Qed.

Lemma hexDigit_hexValue (c : ascii) (v : Z) :
  isUpper c = false -> hexValue c = Some v -> hexDigit v = c /\ 0 <= v < 16.
Proof.
  destruct c as [[] [] [] [] [] [] [] []]; intros Hu Hv; vm_compute in Hu, Hv; try discriminate;
    injection Hv as <-; (split; [reflexivity|lia]).
Qed.

Lemma hex_encode_decode (s : string) (bs : list Z) :
  str_forall (fun c => negb (isUpper c)) s = true -> hex_DecodeString s = Some bs ->
  hex_EncodeToString bs = s.
Proof.
  enough (forall n, (String.length s <= n)%nat -> str_forall (fun c => negb (isUpper c)) s = true ->
    hex_DecodeString s = Some bs -> hex_EncodeToString bs = s) as H by (by apply (H (String.length s))).
  intros n. revert s bs. induction n as [|n IH]; intros [|a [|b s]] bs Hn Hs Hd; cbn in Hn, Hd, Hs;
    try done; try lia; try (by injection Hd as <-).
  destruct (hexValue a) as [x|] eqn:Ea, (hexValue b) as [y|] eqn:Eb, (hex_DecodeString s) as [t|] eqn:Et;
    try done. injection Hd as <-. rewrite !andb_true_iff, !negb_true_iff in Hs. destruct Hs as (Ha & Hb & Hs).
  destruct (hexDigit_hexValue _ _ Ha Ea) as [E1 R1], (hexDigit_hexValue _ _ Hb Eb) as [E2 R2].
  cbn [hex_EncodeToString]. rewrite (Z.add_comm (16 * x)), (Z.mul_comm 16), Z.div_add, Z.mod_add by lia.
  rewrite Z.div_small, Z.mod_small, Z.add_0_l, E1, E2 by lia.
  f_equal. f_equal. apply IH; [lia|done|done].
Qed.
