(* ===== verification/FilePath.v ===== *)
(** * What the sources use of [path/filepath], on Unix

    [Clean], [Join], [Dir], [Base] and [Ext], and the laws of paths built by
    appending plain names to a clean directory, which is how every path of the
    cache is built. *)

From S2P Require Import Prelude GoStrings.
From Stdlib Require Import Ascii String.
Local Open Scope string_scope.
Local Open Scope Z_scope.

Definition slash : ascii := "/".

Definition rooted (path : string) : bool := HasPrefix path "/".

(** One path element on the stack of elements kept so far (innermost first). *)
Definition push (root : bool) (stack : list string) (element : string) : list string :=
  if (element =? EmptyString)%string || (element =? ".")%string then stack
  else if (element =? "..")%string then
    match stack with
    | [] => if root then [] else [".."]
    | top :: rest => if (top =? "..")%string then ".." :: stack else rest
    end
  else element :: stack.

Definition elements_of (path : string) : list string :=
  foldl (push (rooted path)) [] (Split path slash).

Definition render (root : bool) (stack : list string) : string :=
  if root then "/" ++ Join (rev stack) "/"
  else match stack with [] => "." | _ => Join (rev stack) "/" end.

Definition Clean (path : string) : string :=
  if (path =? EmptyString)%string then "." else render (rooted path) (elements_of path).

Definition filepath_Join (parts : list string) : string :=
  match List.filter (fun p => negb (p =? EmptyString)%string) parts with
  | [] => EmptyString
  | parts => Clean (Join parts "/")
  end.

(** Everything up to and including the last slash. *)
Fixpoint upto_slash (path : string) : string :=
  match path with
  | EmptyString => EmptyString
  | String c rest =>
      if contains_byte slash path then String c (upto_slash rest) else EmptyString
  end.

Definition Dir (path : string) : string := Clean (upto_slash path).

Definition Base (path : string) : string :=
  if (path =? EmptyString)%string then "."
  else match TrimRight path "/" with
       | EmptyString => "/"
       | path => List.last (Split path slash) EmptyString
       end.

Fixpoint Ext (path : string) : string :=
  match path with
  | EmptyString => EmptyString
  | String c rest =>
      if Ascii.eqb c "." && negb (contains_byte slash rest) && negb (contains_byte "." rest)
      then path else Ext rest
  end.

Definition IsAbs (path : string) : bool := rooted path.

(** ** Laws *)

(** A plain file name. *)
Definition plain (name : string) : Prop :=
  name <> EmptyString /\ name <> "." /\ name <> ".." /\ contains_byte slash name = false.

(** A clean directory other than [.] and [/]. *)
Definition clean_dir (dir : string) : Prop := Clean dir = dir /\ dir <> "." /\ dir <> "/".

Definition child (dir name : string) : string := dir ++ "/" ++ name.

Lemma push_plain (root : bool) (stack : list string) (name : string) :
  plain name -> push root stack name = name :: stack.
Proof.
  intros (H1 & H2 & H3 & _). unfold push.
  apply String.eqb_neq in H1, H2, H3. by rewrite H1, H2, H3.
Qed.

Lemma Split_child (dir name : string) :
  contains_byte slash name = false -> Split (child dir name) slash = (Split dir slash ++ [name])%list.
Proof.
  intros Hn. unfold child. induction dir as [|c dir IH].
  - simpl. by rewrite Split_no_sep.
  - simpl in IH |- *. rewrite IH. destruct (Ascii.eqb c slash); [done|].
    pose proof (Split_nonempty dir slash). by destruct (Split dir slash).
Qed.

Lemma rooted_app (p q : string) : p <> EmptyString -> rooted (p ++ q) = rooted p.
Proof.
  destruct p as [|c p]; [done|]. intros _. unfold rooted, HasPrefix.
  cbn [append String.prefix].
  destruct (ascii_dec "/" c); [by destruct (p ++ q), p | done].
Qed.

Lemma Join_snoc (parts : list string) (p sep : string) :
  parts <> [] -> Join (parts ++ [p])%list sep = Join parts sep ++ sep ++ p.
Proof.
  induction parts as [|q parts IH]; [done|]. intros _. destruct parts as [|r parts]; [done|].
  change (Join ((q :: r :: parts) ++ [p])%list sep)
    with (q ++ sep ++ Join ((r :: parts) ++ [p])%list sep).
  rewrite IH by done. change (Join (q :: r :: parts) sep) with (q ++ sep ++ Join (r :: parts) sep).
  by rewrite !app_assoc_str.
Qed.

Lemma clean_dir_nonempty (dir : string) : clean_dir dir -> dir <> EmptyString.
Proof. intros (H & _ & _) ->. done. Qed.

Lemma clean_dir_render (dir : string) :
  clean_dir dir -> render (rooted dir) (elements_of dir) = dir /\ elements_of dir <> [].
Proof.
  intros Hc. pose proof (clean_dir_nonempty _ Hc) as Hne. destruct Hc as (Hc & H1 & H2).
  unfold Clean in Hc. apply String.eqb_neq in Hne. rewrite Hne in Hc. split; [done|].
  intros E. rewrite E in Hc. unfold render in Hc. destruct (rooted dir); simpl in Hc; congruence.
Qed.

Lemma elements_child (dir name : string) :
  clean_dir dir -> plain name ->
  rooted (child dir name) = rooted dir /\ elements_of (child dir name) = name :: elements_of dir.
Proof.
  intros Hc Hn. assert (rooted (child dir name) = rooted dir) as Hr
    by (apply rooted_app, clean_dir_nonempty, Hc).
  split; [done|]. unfold elements_of. rewrite Hr, Split_child by apply Hn.
  rewrite foldl_app. simpl. by apply push_plain.
Qed.

Lemma render_snoc (root : bool) (stack : list string) (name : string) :
  stack <> [] -> render root (name :: stack) = render root stack ++ "/" ++ name.
Proof.
  intros Hs. unfold render. cbn [rev]. assert (rev stack <> []) as Hr.
  { intros E. apply Hs. by rewrite <- (rev_involutive stack), E. }
  rewrite Join_snoc by done. destruct root; [by rewrite app_assoc_str|]. by destruct stack.
Qed.

Lemma Clean_child (dir name : string) :
  clean_dir dir -> plain name -> Clean (child dir name) = child dir name.
Proof.
  intros Hc Hn. destruct (elements_child dir name Hc Hn) as [Hr He].
  destruct (clean_dir_render dir Hc) as [Hd Hne]. unfold Clean.
  destruct (String.eqb_spec (child dir name) EmptyString) as [E|_].
  { pose proof (clean_dir_nonempty dir Hc). unfold child in E. by destruct dir. }
  rewrite Hr, He, render_snoc, Hd by done. done.
Qed.

Lemma clean_dir_child (dir name : string) :
  clean_dir dir -> plain name -> clean_dir (child dir name).
Proof.
  intros Hc Hn. split_and!; [by apply Clean_child| |].
  all: intros E; unfold child in E; apply (f_equal String.length) in E;
    rewrite !length_app_str in E; simpl in E;
    pose proof (clean_dir_nonempty dir Hc); destruct Hn as (? & _);
    destruct dir, name; simpl in *; (done || lia).
Qed.

Lemma Join_child (dir name : string) :
  clean_dir dir -> plain name -> filepath_Join [dir; name] = child dir name.
Proof.
  intros Hc Hn. unfold filepath_Join. cbn [List.filter].
  pose proof (clean_dir_nonempty dir Hc) as Hd. pose proof (proj1 Hn) as Hm.
  apply String.eqb_neq in Hd, Hm. rewrite Hd, Hm. by apply Clean_child.
Qed.

Lemma Join_child2 (dir a b : string) :
  clean_dir dir -> plain a -> plain b -> filepath_Join [dir; a; b] = child (child dir a) b.
Proof.
  intros Hc Ha Hb. unfold filepath_Join. cbn [List.filter].
  pose proof (clean_dir_nonempty dir Hc) as Hd. pose proof (proj1 Ha) as Ha'.
  pose proof (proj1 Hb) as Hb'. apply String.eqb_neq in Hd, Ha', Hb'.
  rewrite Hd, Ha', Hb'. cbn [negb]. change (Join [dir; a; b] "/") with (dir ++ "/" ++ a ++ "/" ++ b).
  replace (dir ++ "/" ++ a ++ "/" ++ b) with (child (child dir a) b)
    by (unfold child; by rewrite !app_assoc_str).
  apply Clean_child; [by apply clean_dir_child|done].
Qed.

(** *** Cleaning twice *)

(** The elements a cleaned path keeps: plain ones, above the [..] that lead out of a
    relative path. *)
Fixpoint stack_ok (root : bool) (stack : list string) : Prop :=
  match stack with
  | [] => True
  | top :: rest => (plain top /\ stack_ok root rest)
                   \/ (root = false /\ Forall (fun e => e = "..") stack)
  end.

Lemma push_ok (root : bool) (stack : list string) (element : string) :
  stack_ok root stack -> contains_byte slash element = false -> stack_ok root (push root stack element).
Proof.
  intros Hs He. unfold push. destruct (String.eqb_spec element EmptyString) as [|H1]; [done|].
  destruct (String.eqb_spec element ".") as [|H2]; [done|]. cbn [orb].
  destruct (String.eqb_spec element "..") as [->|H3]; [|left; by split].
  destruct stack as [|top rest]; [destruct root; [done|right; by repeat constructor]|].
  destruct Hs as [[Hp Hr]|[-> Hd]].
  - destruct (String.eqb_spec top "..") as [->|]; [by destruct Hp as (_ & _ & ? & _)|done].
  - inversion Hd as [|? ? -> Hrest]; subst. cbn. right. by repeat constructor.
Qed.

Lemma elements_ok (path : string) : stack_ok (rooted path) (elements_of path).
Proof.
  unfold elements_of. pose proof (fun part => Split_parts path slash part) as Hparts. revert Hparts.
  assert (stack_ok (rooted path) []) as H by done. revert H.
  generalize (@nil string). generalize (rooted path). intros root. induction (Split path slash) as [|e es IH]; [done|].
  intros stack Hs He. apply IH; [|by intros part Hp; apply He, list_elem_of_further].
  apply push_ok; [done|]. apply He, list_elem_of_here.
Qed.

Lemma push_top (root : bool) (top : string) (rest : list string) :
  stack_ok root (top :: rest) -> push root rest top = top :: rest.
Proof.
  intros [[Hp _]|[-> Hd]]; [by apply push_plain|]. inversion Hd as [|? ? -> Hrest]; subst.
  destruct Hrest as [|? ? ->]; done.
Qed.

Lemma stack_ok_rest (root : bool) (top : string) (rest : list string) :
  stack_ok root (top :: rest) -> stack_ok root rest /\ top <> EmptyString /\ contains_byte slash top = false.
Proof.
  intros [[(H1 & _ & _ & H2) H]|[-> Hd]]; [done|]. inversion Hd as [|? ? -> Hrest]; subst. split; [|done].
  destruct Hrest; [done|]. right. by repeat constructor.
Qed.

Lemma push_rev (root : bool) (stack : list string) :
  stack_ok root stack -> foldl (push root) [] (rev stack) = stack.
Proof.
  induction stack as [|top rest IH]; [done|]. intros Hs. pose proof (stack_ok_rest _ _ _ Hs) as [Hr _].
  cbn [rev]. rewrite foldl_app, IH by done. by apply push_top.
Qed.

Lemma snoc_not_nil {A : Type} (l : list A) (x : A) : (l ++ [x])%list <> [].
Proof. by destruct l. Qed.

Lemma Split_rev (root : bool) (stack : list string) :
  stack_ok root stack -> stack <> [] -> Split (Join (rev stack) "/") slash = rev stack.
Proof.
  induction stack as [|top rest IH]; [done|]. intros Hs _.
  pose proof (stack_ok_rest _ _ _ Hs) as (Hr & _ & Ht). cbn [rev].
  destruct rest as [|top' rest]; [by apply Split_no_sep|].
  rewrite Join_snoc; [|by apply snoc_not_nil]. fold (child (Join (rev (top' :: rest)) "/") top).
  by rewrite Split_child, IH.
Qed.

Lemma rooted_rev (root : bool) (stack : list string) :
  stack_ok root stack -> stack <> [] ->
  rooted (Join (rev stack) "/") = false /\ Join (rev stack) "/" <> EmptyString.
Proof.
  induction stack as [|top rest IH]; [done|]. intros Hs _.
  pose proof (stack_ok_rest _ _ _ Hs) as (Hr & Hne & Ht). cbn [rev]. destruct rest as [|top' rest].
  - cbn. split; [|done]. destruct top as [|c top]; [done|]. cbn in Ht. apply orb_false_iff in Ht as [Hc _].
    unfold rooted, HasPrefix. cbn [String.prefix]. by destruct (ascii_dec "/" c) as [<-|].
  - destruct (IH Hr ltac:(done)) as [H1 H2]. rewrite Join_snoc; [|by apply snoc_not_nil].
    rewrite rooted_app by done. split; [done|]. by destruct (Join _ _).
Qed.

Lemma Clean_render (root : bool) (stack : list string) :
  stack_ok root stack -> Clean (render root stack) = render root stack.
Proof.
  intros Hs. destruct stack as [|top rest]; [by destruct root|].
  assert (top :: rest <> []) as Hne by done. revert Hs Hne. generalize (top :: rest). intros stack Hs Hne.
  destruct (rooted_rev _ _ Hs Hne) as [H1 H2]. unfold Clean, elements_of.
  assert (render root stack = (if root then "/" else EmptyString) ++ Join (rev stack) "/") as E
    by (destruct root; [done|by destruct stack]).
  assert (rooted (render root stack) = root) as Er by (rewrite E; destruct root; [apply HasPrefix_spec; by eexists|exact H1]).
  rewrite Er. destruct (String.eqb_spec (render root stack) EmptyString) as [E0|_].
  { rewrite E in E0. destruct root; [done|by destruct (H2 E0)]. }
  rewrite E. destruct root; cbn [append].
  - change (Split (String "/" (Join (rev stack) "/")) slash)
      with (EmptyString :: Split (Join (rev stack) "/") slash).
    rewrite (Split_rev _ _ Hs Hne). cbn [foldl]. change (push true [] EmptyString) with (@nil string).
    by rewrite push_rev.
  - rewrite (Split_rev _ _ Hs Hne), push_rev by done. by destruct stack.
Qed.

(** A plain name below any path is a clean directory. *)
Lemma clean_dir_Join (dir name : string) :
  dir <> EmptyString -> plain name -> clean_dir (filepath_Join [dir; name]).
Proof.
  intros Hd Hn. assert (filepath_Join [dir; name] = render (rooted dir) (name :: elements_of dir)) as E.
  { unfold filepath_Join. cbn [List.filter]. pose proof (proj1 Hn) as Hm. pose proof Hd as Hd'.
    apply String.eqb_neq in Hd', Hm. rewrite Hd', Hm. cbn [negb]. change (Join [dir; name] "/") with (child dir name).
    unfold Clean, elements_of. rewrite Split_child by apply Hn.
    assert (rooted (child dir name) = rooted dir) as -> by by apply rooted_app.
    rewrite foldl_app. cbn [foldl]. rewrite push_plain by done.
    destruct (String.eqb_spec (child dir name) EmptyString) as [E0|]; [|done]. by destruct dir. }
  assert (stack_ok (rooted dir) (name :: elements_of dir)) as Hs by (left; split; [done|apply elements_ok]).
  rewrite E. split; [by apply Clean_render|]. clear E. pose proof Hn as (H1 & H2 & _ & H3).
  destruct (elements_of dir) as [|top rest].
  - destruct (rooted dir); cbn; [split; [done|by intros [=]]|]. split; [done|by intros ->].
  - rewrite render_snoc by done. split; intros E; apply (f_equal String.length) in E; rewrite !length_app_str in E;
      cbn in E; destruct name; [done|cbn in E; lia|done|cbn in E; lia].
Qed.

Lemma upto_slash_child (dir name : string) :
  contains_byte slash name = false -> upto_slash (child dir name) = dir ++ "/".
Proof.
  intros Hn. unfold child. induction dir as [|c dir IH].
  - simpl. destruct name as [|a name]; [done|]. cbn [upto_slash]. by rewrite Hn.
  - simpl in IH |- *. rewrite IH.
    assert (forall d, contains_byte slash (d ++ String "/" name) = true) as H.
    { intros d. induction d as [|x d IHd]; simpl; [done|]. rewrite IHd. by destruct (Ascii.eqb x slash). }
    rewrite H. by destruct (Ascii.eqb c slash).
Qed.

Lemma Dir_child (dir name : string) :
  clean_dir dir -> contains_byte slash name = false -> Dir (child dir name) = dir.
Proof.
  intros Hc Hn. unfold Dir. rewrite upto_slash_child by done.
  pose proof (clean_dir_nonempty dir Hc) as Hd. unfold Clean.
  destruct (String.eqb_spec (dir ++ "/") EmptyString) as [E|_]; [by destruct dir|].
  rewrite rooted_app by done. unfold elements_of. rewrite rooted_app by done.
  change (dir ++ "/") with (child dir EmptyString). rewrite Split_child by done.
  rewrite foldl_app. cbn [foldl]. unfold push at 1. cbn [String.eqb orb].
  apply (proj1 (clean_dir_render dir Hc)).
Qed.

Lemma contains_byte_app (c : ascii) (s t : string) :
  contains_byte c (s ++ t) = contains_byte c s || contains_byte c t.
Proof. induction s; simpl; [done|]. rewrite IHs. by destruct (Ascii.eqb _ _). Qed.

Lemma TrimRight_plain (s t : string) :
  t <> EmptyString -> contains_byte slash t = false -> TrimRight (s ++ t) "/" = s ++ t.
Proof.
  intros Ht Hs. assert (forall u, u <> EmptyString -> contains_byte slash u = false ->
    forall r, str_forall (fun c => contains_byte c "/") (r ++ u) = false) as Hf.
  { intros u Hu Hn r. induction r as [|x r IH]; cbn [append str_forall].
    - destruct u as [|y u]; [done|]. cbn [str_forall contains_byte] in *.
      apply orb_false_iff in Hn as [Hy _]. unfold slash in Hy. by rewrite Ascii.eqb_sym, Hy.
    - by rewrite IH, andb_false_r. }
  induction s as [|x s IH].
  - simpl. induction t as [|y t IHt]; [done|]. cbn [TrimRight].
    pose proof (Hf (String y t) Ht Hs EmptyString) as E. cbn [append] in E. rewrite E.
    destruct t as [|z t]; [done|]. f_equal. apply IHt; [done|].
    by apply orb_false_iff in Hs as [_ Hs].
  - cbn [append TrimRight]. pose proof (Hf t Ht Hs (String x s)) as E. cbn [append] in E.
    rewrite E. by rewrite IH.
Qed.

Lemma Base_child (dir name : string) :
  name <> EmptyString -> contains_byte slash name = false -> Base (child dir name) = name.
Proof.
  intros Hn Hs. unfold Base.
  destruct (String.eqb_spec (child dir name) EmptyString) as [E|_].
  { unfold child in E. destruct dir; done. }
  assert (TrimRight (child dir name) "/" = child dir name) as ->.
  { unfold child. rewrite <- app_assoc_str. by apply TrimRight_plain. }
  destruct (child dir name) eqn:E; [by destruct dir|]. rewrite <- E, Split_child by done.
  apply last_last.
Qed.

Lemma Base_plain (name : string) :
  name <> EmptyString -> contains_byte slash name = false -> Base name = name.
Proof.
  intros Hn Hs. unfold Base. pose proof Hn as Hn'. apply String.eqb_neq in Hn'. rewrite Hn'.
  pose proof (TrimRight_plain EmptyString name Hn Hs) as E. simpl in E. rewrite E.
  destruct name; [done|]. by rewrite Split_no_sep.
Qed.

Lemma Ext_app (p s : string) :
  contains_byte slash s = true \/ contains_byte "." s = true -> Ext (p ++ s) = Ext s.
Proof.
  intros H. induction p as [|c p IH]; [done|]. cbn [append Ext].
  rewrite !contains_byte_app. destruct H as [->| ->];
    rewrite ?orb_true_r, ?andb_false_r; simpl; rewrite ?andb_false_r; done.
Qed.

Lemma child_inj (dir name name' : string) : child dir name = child dir name' -> name = name'.
Proof. unfold child. intros E%app_inj_l. by injection E. Qed.
