(* ===== verification/Sha256.v ===== *)
(** * SHA-256 ([crypto/sha256])

    The hash the cache names its files with and the proxies verify bodies with,
    on 32-bit words kept in [Z], with the standard's test vectors. *)

From S2P Require Import Prelude GoStrings.
From Stdlib Require Import Ascii String.
Local Open Scope Z_scope.

Definition w32 (z : Z) : Z := z mod 4294967296.
Definition rotr (n x : Z) : Z := Z.lor (Z.shiftr x n) (w32 (Z.shiftl x (32 - n))).

Definition bigSigma0 (x : Z) : Z := Z.lxor (rotr 2 x) (Z.lxor (rotr 13 x) (rotr 22 x)).
Definition bigSigma1 (x : Z) : Z := Z.lxor (rotr 6 x) (Z.lxor (rotr 11 x) (rotr 25 x)).
Definition smallSigma0 (x : Z) : Z := Z.lxor (rotr 7 x) (Z.lxor (rotr 18 x) (Z.shiftr x 3)).
Definition smallSigma1 (x : Z) : Z := Z.lxor (rotr 17 x) (Z.lxor (rotr 19 x) (Z.shiftr x 10)).
Definition Ch (x y z : Z) : Z := Z.lxor (Z.land x y) (Z.land (4294967295 - x) z).
Definition Maj (x y z : Z) : Z := Z.lxor (Z.land x y) (Z.lxor (Z.land x z) (Z.land y z)).

Definition round_constants : list Z := [
  1116352408; 1899447441; 3049323471; 3921009573; 961987163; 1508970993; 2453635748;
  2870763221; 3624381080; 310598401; 607225278; 1426881987; 1925078388; 2162078206;
  2614888103; 3248222580; 3835390401; 4022224774; 264347078; 604807628; 770255983;
  1249150122; 1555081692; 1996064986; 2554220882; 2821834349; 2952996808; 3210313671;
  3336571891; 3584528711; 113926993; 338241895; 666307205; 773529912; 1294757372;
  1396182291; 1695183700; 1986661051; 2177026350; 2456956037; 2730485921; 2820302411;
  3259730800; 3345764771; 3516065817; 3600352804; 4094571909; 275423344; 430227734;
  506948616; 659060556; 883997877; 958139571; 1322822218; 1537002063; 1747873779;
  1955562222; 2024104815; 2227730452; 2361852424; 2428436474; 2756734187; 3204031479;
  3329325298].

(** The eight working words [a] to [h]. *)
Record words := mkWords { wa : Z; wb : Z; wc : Z; wd : Z; we : Z; wf : Z; wg : Z; wh : Z }.

Definition initial : words :=
  mkWords 1779033703 3144134277 1013904242 2773480762 1359893119 2600822924 528734635
    1541459225.

Definition round (s : words) (kw : Z * Z) : words :=
  let t1 := wh s + bigSigma1 (we s) + Ch (we s) (wf s) (wg s) + fst kw + snd kw in
  let t2 := bigSigma0 (wa s) + Maj (wa s) (wb s) (wc s) in
  mkWords (w32 (t1 + t2)) (wa s) (wb s) (wc s) (w32 (wd s + t1)) (we s) (wf s) (wg s).

(** The message schedule, most recent word first, extended by [n] words. *)
Fixpoint schedule (n : nat) (w : list Z) : list Z :=
  match n with
  | O => w
  | S n =>
      let get i := List.nth i w 0 in
      schedule n
        (w32 (smallSigma1 (get 1%nat) + get 6%nat + smallSigma0 (get 14%nat) + get 15%nat) :: w)
  end.

Definition compress (s : words) (block : list Z) : words :=
  let w := rev (schedule 48 (rev block)) in
  let t := foldl round s (combine round_constants w) in
  mkWords (w32 (wa s + wa t)) (w32 (wb s + wb t)) (w32 (wc s + wc t)) (w32 (wd s + wd t))
    (w32 (we s + we t)) (w32 (wf s + wf t)) (w32 (wg s + wg t)) (w32 (wh s + wh t)).

Fixpoint bytes_of (s : string) : list Z :=
  match s with
  | EmptyString => []
  | String c s => byte c :: bytes_of s
  end.

Fixpoint be_words (bs : list Z) : list Z :=
  match bs with
  | a :: b :: c :: d :: bs => (a * 16777216 + b * 65536 + c * 256 + d) :: be_words bs
  | _ => []
  end.

Definition be_bytes (w : Z) : list Z :=
  [w / 16777216 mod 256; w / 65536 mod 256; w / 256 mod 256; w mod 256].

(** Padding: a one bit, zeros, and the bit length in eight bytes. *)
Definition pad (bs : list Z) : list Z :=
  let n := Z.of_nat (List.length bs) in
  bs ++ [128] ++ repeat 0 (Z.to_nat ((55 - n) mod 64))
  ++ be_bytes (n * 8 / 4294967296) ++ be_bytes (w32 (n * 8)).

Fixpoint blocks (fuel : nat) (ws : list Z) (s : words) : words :=
  match fuel, ws with
  | S fuel, _ :: _ => blocks fuel (skipn 16 ws) (compress s (firstn 16 ws))
  | _, _ => s
  end.

(** [sha256.Sum256]: one unit of fuel per word is more than one per block. *)
Definition Sum256 (s : string) : list Z :=
  let ws := be_words (pad (bytes_of s)) in
  let t := blocks (List.length ws) ws initial in
  be_bytes (wa t) ++ be_bytes (wb t) ++ be_bytes (wc t) ++ be_bytes (wd t)
  ++ be_bytes (we t) ++ be_bytes (wf t) ++ be_bytes (wg t) ++ be_bytes (wh t).

Definition Size : nat := 32.

Definition sha256_hex (s : string) : string := hex_EncodeToString (Sum256 s).

(** ** Facts *)

Lemma be_bytes_range (w : Z) : Forall (fun b => 0 <= b < 256) (be_bytes w).
Proof. repeat constructor; apply Z.mod_pos_bound; lia. Qed.

Lemma Sum256_length (s : string) : List.length (Sum256 s) = Size.
Proof. reflexivity. Qed.

Lemma Sum256_range (s : string) : Forall (fun b => 0 <= b < 256) (Sum256 s).
Proof. unfold Sum256. rewrite !Forall_app. split_and!; apply be_bytes_range. Qed.

Lemma sha256_hex_length (s : string) : String.length (sha256_hex s) = 64%nat.
Proof. unfold sha256_hex. by rewrite length_hex. Qed.

Lemma sha256_hex_decode (s : string) : hex_DecodeString (sha256_hex s) = Some (Sum256 s).
Proof. apply hex_decode_encode, Sum256_range. Qed.

#[export] Hint Resolve Sum256_range Sum256_length sha256_hex_length sha256_hex_decode : go.

Example sha256_empty :
  sha256_hex EmptyString
  = "e3b0c44298fc1c149afbf4c8996fb92427ae41e4649b934ca495991b7852b855"%string.
Proof. vm_compute. reflexivity. Qed.

Example sha256_abc :
  sha256_hex "abc"
  = "ba7816bf8f01cfea414140de5dae2223b00361a396177a9cb410ff61f20015ad"%string.
Proof. vm_compute. reflexivity. Qed.

Example sha256_two_blocks :
  sha256_hex "abcdbcdecdefdefgefghfghighijhijkijkljklmklmnlmnomnopnopq"
  = "248d6a61d20638b8e5c026930c3e6039a33ce45964ff2167f6ecedd419db06c1"%string.
Proof. vm_compute. reflexivity. Qed.
