(* ===== verification/Url.v ===== *)
(** * What the sources use of [net/url]

    [Parse], [String], [ResolveReference], the escaping modes and query values, as
    in Go 1.25.0.  Error values carry no text: no caller of the package reads it. *)

From S2P Require Import Prelude GoStrings.
From Stdlib Require Import Ascii String.
Local Open Scope string_scope.
Local Open Scope Z_scope.

(** ** Data *)

Record Userinfo := mkUserinfo { username : string; password : option string }.

Record URL := mkURL {
  Scheme : string;
  Opaque : string;
  User : option Userinfo;
  Host : string;
  Path : string;
  RawPath : string;
  OmitHost : bool;
  ForceQuery : bool;
  RawQuery : string;
  Fragment : string;
  RawFragment : string
}.

Definition zeroURL : URL :=
  mkURL EmptyString EmptyString None EmptyString EmptyString EmptyString false false
    EmptyString EmptyString EmptyString.

Definition set_User (x : option Userinfo) (u : URL) : URL :=
  mkURL (Scheme u) (Opaque u) x (Host u) (Path u) (RawPath u) (OmitHost u) (ForceQuery u)
    (RawQuery u) (Fragment u) (RawFragment u).
Definition set_paths (path raw : string) (u : URL) : URL :=
  mkURL (Scheme u) (Opaque u) (User u) (Host u) path raw (OmitHost u) (ForceQuery u)
    (RawQuery u) (Fragment u) (RawFragment u).
Definition set_ForceQuery (x : bool) (u : URL) : URL :=
  mkURL (Scheme u) (Opaque u) (User u) (Host u) (Path u) (RawPath u) (OmitHost u) x
    (RawQuery u) (Fragment u) (RawFragment u).
Definition set_RawQuery (x : string) (u : URL) : URL :=
  mkURL (Scheme u) (Opaque u) (User u) (Host u) (Path u) (RawPath u) (OmitHost u)
    (ForceQuery u) x (Fragment u) (RawFragment u).
Definition set_Fragment (x : string) (u : URL) : URL :=
  mkURL (Scheme u) (Opaque u) (User u) (Host u) (Path u) (RawPath u) (OmitHost u)
    (ForceQuery u) (RawQuery u) x (RawFragment u).
Definition set_RawFragment (x : string) (u : URL) : URL :=
  mkURL (Scheme u) (Opaque u) (User u) (Host u) (Path u) (RawPath u) (OmitHost u)
    (ForceQuery u) (RawQuery u) (Fragment u) x.
Definition set_Opaque (x : string) (u : URL) : URL :=
  mkURL (Scheme u) x (User u) (Host u) (Path u) (RawPath u) (OmitHost u)
    (ForceQuery u) (RawQuery u) (Fragment u) (RawFragment u).
Definition set_Scheme (x : string) (u : URL) : URL :=
  mkURL x (Opaque u) (User u) (Host u) (Path u) (RawPath u) (OmitHost u)
    (ForceQuery u) (RawQuery u) (Fragment u) (RawFragment u).
Definition set_authority (user : option Userinfo) (host : string) (u : URL) : URL :=
  mkURL (Scheme u) (Opaque u) user host (Path u) (RawPath u) (OmitHost u)
    (ForceQuery u) (RawQuery u) (Fragment u) (RawFragment u).
Definition set_OmitHost (x : bool) (u : URL) : URL :=
  mkURL (Scheme u) (Opaque u) (User u) (Host u) (Path u) (RawPath u) x
    (ForceQuery u) (RawQuery u) (Fragment u) (RawFragment u).

(** ** Escaping *)

Inductive encoding :=
  | encodePath | encodePathSegment | encodeHost | encodeZone | encodeUserPassword
  | encodeQueryComponent | encodeFragment.

Definition isAlnum (c : ascii) : bool := isUpper c || isLower c || isDigit c.

Definition quote : ascii := "034".

Definition shouldEscape (c : ascii) (mode : encoding) : bool :=
  let is_host := match mode with encodeHost | encodeZone => true | _ => false end in
  if isAlnum c then false
  else if is_host && (contains_byte c "!$&'()*+,;=:[]<>" || Ascii.eqb c quote) then false
  else if contains_byte c "-_.~" then false
  else
    match mode with
    | encodeFragment => negb (contains_byte c "$&+,/:;=?@!()*")
    | encodePath => Ascii.eqb c "?" || negb (contains_byte c "$&+,/:;=?@")
    | encodePathSegment => contains_byte c "/;,?" || negb (contains_byte c "$&+,/:;=?@")
    | encodeUserPassword => contains_byte c "@/?:" || negb (contains_byte c "$&+,/:;=?@")
    | _ => true
    end.

Definition upperHex (z : Z) : ascii := if z <? 10 then chr (48 + z) else chr (55 + z).

Fixpoint escape (s : string) (mode : encoding) : string :=
  match s with
  | EmptyString => EmptyString
  | String c s =>
      if shouldEscape c mode then
        match mode, Ascii.eqb c " " with
        | encodeQueryComponent, true => String "+" (escape s mode)
        | _, _ =>
            String "%" (String (upperHex (byte c / 16))
              (String (upperHex (byte c mod 16)) (escape s mode)))
        end
      else String c (escape s mode)
  end.

Fixpoint unescape (s : string) (mode : encoding) : option string :=
  match s with
  | EmptyString => Some EmptyString
  | String c rest =>
      if Ascii.eqb c "%" then
        match rest with
        | String a (String b rest') =>
            match hexValue a, hexValue b with
            | Some x, Some y =>
                let v := chr (16 * x + y) in
                let percent25 := Ascii.eqb a "2" && Ascii.eqb b "5" in
                let bad :=
                  match mode with
                  | encodeHost => (x <? 8) && negb percent25
                  | encodeZone =>
                      negb percent25 && negb (Ascii.eqb v " ") && shouldEscape v encodeHost
                  | _ => false
                  end in
                if bad then None else String v <$> unescape rest' mode
            | _, _ => None
            end
        | _ => None
        end
      else
        let refused :=
          match mode with
          | encodeHost | encodeZone => (byte c <? 128) && shouldEscape c mode
          | _ => false
          end in
        if refused then None
        else
          let c' := match mode with
                    | encodeQueryComponent => if Ascii.eqb c "+" then " "%char else c
                    | _ => c
                    end in
          String c' <$> unescape rest mode
  end.

Definition PathEscape (s : string) : string := escape s encodePathSegment.
Definition PathUnescape (s : string) : option string := unescape s encodePathSegment.

Fixpoint validEncoded (s : string) (mode : encoding) : bool :=
  match s with
  | EmptyString => true
  | String c s =>
      (contains_byte c "!$&'()*+,;=:@[]%" || negb (shouldEscape c mode)) && validEncoded s mode
  end.

(** ** Authority *)

(** The parts before and after the last occurrence of a byte. *)
Fixpoint last_cut (s : string) (c : ascii) : option (string * string) :=
  match s with
  | EmptyString => None
  | String a s' =>
      match last_cut s' c with
      | Some (before, after) => Some (String a before, after)
      | None => if Ascii.eqb a c then Some (EmptyString, s') else None
      end
  end.

Definition validOptionalPort (port : string) : bool :=
  match port with
  | EmptyString => true
  | String c digits => Ascii.eqb c ":" && str_forall isDigit digits
  end.

(** Split at the first occurrence, keeping the separator in the second part. *)
Definition split_at (s sep : string) : option (string * string) :=
  match Cut s sep with
  | (before, after, true) => Some (before, sep ++ after)
  | _ => None
  end.

Definition parseHost (host : string) : option string :=
  if HasPrefix host "[" then
    match last_cut host "]" with
    | None => None
    | Some (inside, colonPort) =>
        if negb (validOptionalPort colonPort) then None
        else
          match split_at inside "%25" with
          | Some (before, zone) =>
              match unescape before encodeHost, unescape zone encodeZone,
                    unescape ("]" ++ colonPort) encodeHost with
              | Some h1, Some h2, Some h3 => Some (h1 ++ h2 ++ h3)
              | _, _, _ => None
              end
          | None => unescape host encodeHost
          end
    end
  else
    match last_cut host ":" with
    | Some (_, port) =>
        if validOptionalPort (":" ++ port) then unescape host encodeHost else None
    | None => unescape host encodeHost
    end.

Definition validUserinfo (s : string) : bool :=
  str_forall (fun c => isAlnum c || contains_byte c "-._:~!$&'()*+,;=%@") s.

Definition parseAuthority (authority : string) : option (option Userinfo * string) :=
  match last_cut authority "@" with
  | None => (fun h => (None, h)) <$> parseHost authority
  | Some (userinfo, host) =>
      match parseHost host with
      | None => None
      | Some host =>
          if negb (validUserinfo userinfo) then None
          else
            match Cut userinfo ":" with
            | (name, pass, true) =>
                match unescape name encodeUserPassword, unescape pass encodeUserPassword with
                | Some name, Some pass => Some (Some (mkUserinfo name (Some pass)), host)
                | _, _ => None
                end
            | _ =>
                (fun name => (Some (mkUserinfo name None), host))
                  <$> unescape userinfo encodeUserPassword
            end
      end
  end.

(** ** [Parse] *)

(** [getScheme]: scheme and rest; [None] for a missing scheme before the colon. *)
Fixpoint scheme_prefix (first : bool) (s : string) : option (string * string) :=
  match s with
  | EmptyString => None
  | String c s' =>
      if isUpper c || isLower c then
        match scheme_prefix false s' with
        | Some (scheme, rest) => Some (String c scheme, rest)
        | None => None
        end
      else if isDigit c || contains_byte c "+-." then
        if first then None
        else match scheme_prefix false s' with
             | Some (scheme, rest) => Some (String c scheme, rest)
             | None => None
             end
      else if Ascii.eqb c ":" then (if first then None else Some (EmptyString, s'))
      else None
  end.

Definition getScheme (s : string) : option (string * string) :=
  if HasPrefix s ":" then None
  else Some (match scheme_prefix true s with Some r => r | None => (EmptyString, s) end).

Fixpoint count_byte (c : ascii) (s : string) : nat :=
  match s with
  | EmptyString => 0
  | String a s => (if Ascii.eqb a c then 1 else 0) + count_byte c s
  end.

Definition setPath (p : string) (u : URL) : option URL :=
  path ← unescape p encodePath;
  Some (set_paths path (if (p =? escape path encodePath)%string then EmptyString else p) u).

Definition setFragment (f : string) (u : URL) : option URL :=
  frag ← unescape f encodeFragment;
  Some (set_RawFragment (if (f =? escape frag encodeFragment)%string then EmptyString else f)
          (set_Fragment frag u)).

Definition parse_body (rawURL : string) : option URL :=
  if negb (str_forall (fun c => (32 <=? byte c) && negb (byte c =? 127)) rawURL) then None
  else if (rawURL =? "*")%string then Some (set_paths "*" EmptyString zeroURL)
  else
    '(scheme, rest) ← getScheme rawURL;
    let scheme := ToLower scheme in
    let '(rest, force, query) :=
      if HasSuffix rest "?" && Nat.eqb (count_byte "?" rest) 1
      then (TrimSuffix rest "?", true, EmptyString)
      else let '(before, after, _) := Cut rest "?" in (before, false, after) in
    let u := set_RawQuery query (set_ForceQuery force (set_Scheme scheme zeroURL)) in
    let has_scheme := negb (scheme =? EmptyString)%string in
    if negb (HasPrefix rest "/") && has_scheme then Some (set_Opaque rest u)
    else if negb (HasPrefix rest "/") && Contains (fst (fst (Cut rest "/"))) ":" then None
    else if (has_scheme || negb (HasPrefix rest "///")) && HasPrefix rest "//" then
      let authority := TrimPrefix rest "//" in
      let '(authority, rest) :=
        match split_at authority "/" with Some p => p | None => (authority, EmptyString) end in
      '(user, host) ← parseAuthority authority;
      setPath rest (set_authority user host u)
    else if has_scheme && HasPrefix rest "/" then setPath rest (set_OmitHost true u)
    else setPath rest u.

Definition Parse (rawURL : string) : option URL :=
  let '(u, frag, _) := Cut rawURL "#" in
  url ← parse_body u;
  if (frag =? EmptyString)%string then Some url else setFragment frag url.

(** ** Printing *)

Definition EscapedPath (u : URL) : string :=
  let default := if (Path u =? "*")%string then "*" else escape (Path u) encodePath in
  if negb (RawPath u =? EmptyString)%string && validEncoded (RawPath u) encodePath then
    match unescape (RawPath u) encodePath with
    | Some p => if (p =? Path u)%string then RawPath u else default
    | None => default
    end
  else default.

Definition EscapedFragment (u : URL) : string :=
  let default := escape (Fragment u) encodeFragment in
  if negb (RawFragment u =? EmptyString)%string && validEncoded (RawFragment u) encodeFragment then
    match unescape (RawFragment u) encodeFragment with
    | Some f => if (f =? Fragment u)%string then RawFragment u else default
    | None => default
    end
  else default.

Definition Userinfo_String (u : Userinfo) : string :=
  match password u with
  | Some p => escape (username u) encodeUserPassword ++ ":" ++ escape p encodeUserPassword
  | None => escape (username u) encodeUserPassword
  end.

Definition URL_String (u : URL) : string :=
  let scheme := if nonempty (Scheme u) then Scheme u ++ ":" else EmptyString in
  let hier :=
    if nonempty (Opaque u) then Opaque u
    else
      let authority :=
        if nonempty (Scheme u) || nonempty (Host u) || is_Some_b (User u) then
          if OmitHost u && negb (nonempty (Host u)) && negb (is_Some_b (User u))
          then EmptyString
          else
            (if nonempty (Host u) || nonempty (Path u) || is_Some_b (User u)
             then "//" else EmptyString)
            ++ match User u with Some ui => Userinfo_String ui ++ "@" | None => EmptyString end
            ++ escape (Host u) encodeHost
        else EmptyString in
      let path := EscapedPath u in
      let sep :=
        if nonempty path && negb (HasPrefix path "/") && nonempty (Host u)
        then "/" else EmptyString in
      let written := scheme ++ authority ++ sep in
      let dot :=
        if negb (nonempty written) && Contains (fst (fst (Cut path "/"))) ":"
        then "./" else EmptyString in
      authority ++ sep ++ dot ++ path in
  scheme ++ hier
  ++ (if ForceQuery u || nonempty (RawQuery u) then "?" ++ RawQuery u else EmptyString)
  ++ (if nonempty (Fragment u) then "#" ++ EscapedFragment u else EmptyString).

(** ** Host and port *)

Definition splitHostPort (hostPort : string) : string * string :=
  let '(host, port) :=
    match last_cut hostPort ":" with
    | Some (h, p) => if validOptionalPort (":" ++ p) then (h, p) else (hostPort, EmptyString)
    | None => (hostPort, EmptyString)
    end in
  if HasPrefix host "[" && HasSuffix host "]"
  then (TrimSuffix (TrimPrefix host "[") "]", port) else (host, port).

Definition Hostname (u : URL) : string := fst (splitHostPort (Host u)).
Definition Port (u : URL) : string := snd (splitHostPort (Host u)).

(** ** References *)

(** The loop of [resolvePath]: [dst] is what was written after the leading slash. *)
Fixpoint resolve_elements (elements : list string) (first : bool) (dst : string) : string * string :=
  match elements with
  | [] => (dst, EmptyString)
  | elem :: rest =>
      let '(first, dst) :=
        if (elem =? ".")%string then (false, dst)
        else if (elem =? "..")%string then
          match last_cut dst "/" with
          | None => (true, EmptyString)
          | Some (before, _) => (first, before)
          end
        else (false, dst ++ (if first then EmptyString else "/") ++ elem) in
      match rest with [] => (dst, elem) | _ => resolve_elements rest first dst end
  end.

Definition resolvePath (base ref : string) : string :=
  let full :=
    if (ref =? EmptyString)%string then base
    else if HasPrefix ref "/" then ref
    else match last_cut base "/" with
         | Some (before, _) => before ++ "/" ++ ref
         | None => ref
         end in
  if (full =? EmptyString)%string then EmptyString
  else
    let '(dst, elem) := resolve_elements (Split full "/") true EmptyString in
    let dst := if (elem =? ".")%string || (elem =? "..")%string then dst ++ "/" else dst in
    if HasPrefix dst "/" then dst else "/" ++ dst.

(** [setPath] with its error ignored, as [ResolveReference] does. *)
Definition setPath_quiet (p : string) (u : URL) : URL :=
  match setPath p u with Some u' => u' | None => u end.

Definition ResolveReference (u ref : URL) : URL :=
  let url := if nonempty (Scheme ref) then ref else set_Scheme (Scheme u) ref in
  if nonempty (Scheme ref) || nonempty (Host ref) || is_Some_b (User ref) then
    setPath_quiet (resolvePath (EscapedPath ref) EmptyString) url
  else if nonempty (Opaque ref) then
    set_paths EmptyString (RawPath url) (set_authority None EmptyString url)
  else
    let url :=
      if negb (nonempty (Path ref)) && negb (ForceQuery ref) && negb (nonempty (RawQuery ref))
      then
        let url := set_RawQuery (RawQuery u) url in
        if nonempty (Fragment ref) then url
        else set_RawFragment (RawFragment u) (set_Fragment (Fragment u) url)
      else url in
    if negb (nonempty (Path ref)) && nonempty (Opaque u) then
      set_paths EmptyString (RawPath url)
        (set_authority None EmptyString (set_Opaque (Opaque u) url))
    else
      setPath_quiet (resolvePath (EscapedPath u) (EscapedPath ref))
        (set_authority (User u) (Host u) url).

(** ** Query values *)

(** Keys and values in the order of the query; the flag is an error seen. *)
Fixpoint parse_pairs (parts : list string) : list (string * string) * bool :=
  match parts with
  | [] => ([], false)
  | part :: parts =>
      let '(rest, err) := parse_pairs parts in
      if Contains part ";" then (rest, true)
      else if (part =? EmptyString)%string then (rest, err)
      else
        let '(key, value, _) := Cut part "=" in
        match unescape key encodeQueryComponent, unescape value encodeQueryComponent with
        | Some key, Some value => ((key, value) :: rest, err)
        | _, _ => (rest, true)
        end
  end.

Definition ParseQuery (query : string) : list (string * string) * bool :=
  parse_pairs (Split query "&").

(** [Values.Get]. *)
Definition values_get (vs : list (string * string)) (key : string) : string :=
  match List.find (fun p => (fst p =? key)%string) vs with
  | Some (_, v) => v
  | None => EmptyString
  end.

(** ** RFC 3986 examples *)

Definition resolved (base ref : string) : option string :=
  base ← Parse base; ref ← Parse ref; Some (URL_String (ResolveReference base ref)).

Example resolve_dot_segments :
  map (resolved "http://a/b/c/d;p?q") ["../g"; "../../../g"; "./"; "?y"; "//g"; ".."; "g:h"]
  = [Some "http://a/b/g"; Some "http://a/g"; Some "http://a/b/c/"; Some "http://a/b/c/d;p?y";
     Some "http://g"; Some "http://a/b/"; Some "g:h"].
Proof. vm_compute. reflexivity. Qed.
