(* ===== verification/Escaping.v ===== *)
(** * Laws of URL escaping

    Unescaping undoes escaping, escaped text can be cut at bytes that stand for
    themselves, and some bytes never occur in it. *)

From S2P Require Import Prelude GoStrings Url.
From Stdlib Require Import Ascii String.
Local Open Scope string_scope.
Local Open Scope Z_scope.

(** ** Escaping *)

Lemma hexValue_upperHex (z : Z) : 0 <= z < 16 -> hexValue (upperHex z) = Some z.
Proof.
  intros Hz. unfold hexValue, upperHex, between.
  destruct (Z.ltb_spec z 10); rewrite byte_chr by lia;
    repeat (match goal with |- context [?a <=? ?b] => destruct (Z.leb_spec a b) end; simpl);
    try (f_equal; lia); lia.
Qed.

Lemma byte_nibbles (c : ascii) :
  0 <= byte c / 16 < 16 /\ 0 <= byte c mod 16 < 16 /\ chr (16 * (byte c / 16) + byte c mod 16) = c.
Proof.
  pose proof (byte_range c). split_and!.
  - apply Z.div_pos; lia.
  - apply Z.div_lt_upper_bound; lia.
  - apply Z.mod_pos_bound; lia.
  - apply Z.mod_pos_bound; lia.
  - rewrite <- Z_div_mod_eq_full. apply chr_byte.
Qed.

Lemma escape_percent (m : encoding) : shouldEscape "%" m = true.
Proof. by destruct m. Qed.

Definition host_mode (m : encoding) : bool :=
  match m with encodeHost | encodeZone => true | _ => false end.

Definition is_query (m : encoding) : bool := match m with encodeQueryComponent => true | _ => false end.

(** The two cases of a byte that is escaped. *)
Lemma escape_cons (c : ascii) (s : string) (m : encoding) :
  shouldEscape c m = true ->
  escape (String c s) m =
    (if is_query m && Ascii.eqb c " " then String "+" (escape s m)
     else String "%" (String (upperHex (byte c / 16)) (String (upperHex (byte c mod 16)) (escape s m)))).
Proof. intros H. cbn [escape]. rewrite H. by destruct m, (Ascii.eqb c " "). Qed.

Lemma escape_keep (c : ascii) (s : string) (m : encoding) :
  shouldEscape c m = false -> escape (String c s) m = String c (escape s m).
Proof. intros H. cbn [escape]. by rewrite H. Qed.

(** Outside of the host, unescaping undoes escaping. *)
Lemma unescape_escape (s : string) (m : encoding) :
  host_mode m = false -> unescape (escape s m) m = Some s.
Proof.
  intros Hm. induction s as [|c s IH]; [done|]. destruct (shouldEscape c m) eqn:E.
  - rewrite escape_cons by done. destruct (is_query m && Ascii.eqb c " ") eqn:Eq.
    + apply andb_true_iff in Eq as [Eq ->%Ascii.eqb_eq]. destruct m; try done.
      cbn [unescape]. by rewrite IH.
    + cbn [unescape]. destruct (byte_nibbles c) as (Ha & Hb & Hc).
      change (Ascii.eqb "%" "%") with true. cbv iota. rewrite !hexValue_upperHex, Hc by done.
      rewrite IH. by destruct m.
  - rewrite escape_keep by done. cbn [unescape]. destruct (Ascii.eqb_spec c "%") as [->|];
      [by rewrite escape_percent in E|]. rewrite IH.
    destruct m; try done. destruct (Ascii.eqb_spec c "+") as [->|]; [discriminate E|done].
Qed.

(** Within a host it does so when it succeeds. *)
Lemma unescape_escape_host (s t : string) (m : encoding) :
  host_mode m = true -> unescape (escape s encodeHost) m = Some t -> t = s.
Proof.
  intros Hm. revert t. induction s as [|c s IH]; intros t; [by intros [= <-]|].
  destruct (shouldEscape c encodeHost) eqn:E.
  - rewrite escape_cons by done. cbn [is_query andb unescape]. destruct (byte_nibbles c) as (Ha & Hb & Hc).
    change (Ascii.eqb "%" "%") with true. cbv iota. rewrite !hexValue_upperHex, Hc by done.
    match goal with |- (if ?b then _ else _) = _ -> _ => destruct b; [done|] end.
    destruct (unescape _ m) as [t'|]; [|done]. intros [= <-]. by rewrite (IH t').
  - rewrite escape_keep by done. cbn [unescape]. destruct (Ascii.eqb_spec c "%") as [->|];
      [by rewrite escape_percent in E|].
    match goal with |- (if ?b then _ else _) = _ -> _ => destruct b; [done|] end.
    destruct (unescape _ m) as [t'|]; [|done]. destruct m; try done; intros [= <-]; by rewrite (IH t').
Qed.

Lemma escape_app (s t : string) (m : encoding) : escape (s ++ t) m = escape s m ++ escape t m.
Proof.
  induction s as [|c s IH]; [done|]. cbn [String.append escape]. rewrite IH.
  destruct (shouldEscape c m); [destruct m, (Ascii.eqb c " ")|]; done.
Qed.

(** A byte that is no hexadecimal digit starts an escaped byte or stands for itself. *)
Lemma escape_split (s A B : string) (d : ascii) (m : encoding) :
  hexValue d = None -> escape s m = A ++ String d B ->
  exists s1 s2, s = s1 ++ s2 /\ A = escape s1 m /\ String d B = escape s2 m.
Proof.
  intros Hd. revert A. induction s as [|c s IH]; intros A; [by destruct A|].
  assert (forall x A', escape (String c s) m = x ++ escape s m -> A = x ++ A' ->
    escape (String c s) m = A ++ String d B -> exists s1 s2, String c s = s1 ++ s2 /\ A = escape s1 m
      /\ String d B = escape s2 m) as Hstep.
  { intros x A' Ex -> E. rewrite Ex, app_assoc_str in E. apply app_inj_l in E.
    destruct (IH _ E) as (s1 & s2 & -> & -> & H2). exists (String c s1), s2. split_and!; [done| |done].
    change (String c (s1 ++ s2)) with (String c s1 ++ s2) in Ex. rewrite !escape_app in Ex.
    rewrite <- app_assoc_str in Ex. by apply app_inj_r in Ex. }
  intros E. destruct A as [|a A]; [by exists EmptyString, (String c s)|].
  destruct (byte_nibbles c) as (Ha & Hb & _).
  assert (forall z, 0 <= z < 16 -> upperHex z <> d) as Hne.
  { intros z Hz <-. by rewrite hexValue_upperHex in Hd. }
  destruct (shouldEscape c m) eqn:Es.
  - pose proof (escape_cons c s m Es) as Ec. destruct (is_query m && Ascii.eqb c " ").
    + eapply (Hstep (String "+" "") A); [done| |done]. rewrite Ec in E. by injection E as <- _.
    + pose proof E as E'. rewrite Ec in E'. injection E' as <- E'.
      destruct A as [|b A]; [injection E' as E' _; by destruct (Hne _ Ha)|]. injection E' as <- E'.
      destruct A as [|b' A]; [injection E' as E' _; by destruct (Hne _ Hb)|]. injection E' as <- E'.
      eapply (Hstep (String "%" (String _ (String _ ""))) A); [exact Ec|done|done].
  - pose proof (escape_keep c s m Es) as Ec. rewrite Ec in E. injection E as <- E.
    eapply (Hstep (String c "") A); [exact Ec|done|]. rewrite Ec. cbn. by rewrite E.
Qed.

(** Bytes that never occur in escaped text. *)
Lemma escape_absent (s : string) (c : ascii) (m : encoding) :
  shouldEscape c m = true -> hexValue c = None -> c <> "%"%char -> c <> "+"%char ->
  contains_byte c (escape s m) = false.
Proof.
  intros Hs Hh Hp Hplus. induction s as [|a s IH]; [done|].
  assert (forall z, 0 <= z < 16 -> Ascii.eqb (upperHex z) c = false) as Hne.
  { intros z Hz. apply Ascii.eqb_neq. intros <-. by rewrite hexValue_upperHex in Hh. }
  destruct (byte_nibbles a) as (Ha & Hb & _).
  apply not_eq_sym, Ascii.eqb_neq in Hp, Hplus.
  destruct (shouldEscape a m) eqn:E.
  - rewrite escape_cons by done. destruct (_ && _); cbn [contains_byte]; rewrite ?Hplus, ?Hp, ?Hne by done; done.
  - rewrite escape_keep by done. cbn [contains_byte]. rewrite IH, orb_false_r. apply Ascii.eqb_neq. congruence.
Qed.
