(* ===== verification/Origin.v ===== *)
(** * Where a printed URL points

    The text of an absolute URL, whatever is appended to it after its host, parses to the
    same scheme and host.  The proxies build their upstream URLs that way. *)

From S2P Require Import Prelude GoStrings FilePath Url Escaping.
From Stdlib Require Import Ascii String.
Local Open Scope string_scope.
Local Open Scope Z_scope.

Lemma Cut_absent (s : string) (c : ascii) :
  contains_byte c s = false -> Cut s (String c EmptyString) = (s, EmptyString, false).
Proof.
  induction s as [|a s IH]; [done|]. cbn [contains_byte]. intros [Ha Hs]%orb_false_iff.
  cbn [Cut after_prefix]. apply Ascii.eqb_neq in Ha.
  destruct (Ascii.eqb_spec c a) as [->|]; [congruence|]. by rewrite IH.
Qed.

(** ** Authorities *)

Lemma last_cut_app (b a : string) (c : ascii) :
  contains_byte c a = false -> last_cut (b ++ String c a) c = Some (b, a).
Proof.
  intros Ha. assert (last_cut a c = None) as Hn.
  { induction a as [|x a IH]; [done|]. cbn in *. apply orb_false_iff in Ha as [Hx Ha]. by rewrite (IH Ha), Hx. }
  induction b as [|x b IH]; cbn [String.append last_cut]; [by rewrite Hn, Ascii.eqb_refl|by rewrite IH].
Qed.

Lemma last_cut_None (s : string) (c : ascii) : contains_byte c s = false -> last_cut s c = None.
Proof.
  induction s as [|x s IH]; [done|]. cbn. intros [Hx Hs]%orb_false_iff. by rewrite (IH Hs), Hx.
Qed.

Lemma last_cut_Some (s b a : string) (c : ascii) : last_cut s c = Some (b, a) -> s = b ++ String c a.
Proof.
  revert b a. induction s as [|x s IH]; intros b a; [done|]. cbn [last_cut].
  destruct (last_cut s c) as [[b' a']|]; [intros [= <- <-]; by rewrite (IH b' a')|].
  destruct (Ascii.eqb_spec x c) as [->|]; [by intros [= <- <-]|done].
Qed.

Lemma split_at_Some (s sep a b : string) : split_at s sep = Some (a, b) -> s = a ++ b.
Proof.
  unfold split_at. destruct (Cut s sep) as [[x y] []] eqn:E; [|done]. intros [= <- <-]. by apply Cut_true in E.
Qed.

Lemma split_at_head (s rest a b : string) (d : ascii) :
  split_at s (String d rest) = Some (a, b) -> exists b', b = String d b'.
Proof.
  unfold split_at. destruct (Cut s _) as [[x y] []]; [|done]. intros [= _ <-]. by exists (rest ++ y).
Qed.

(** The host of a printed authority is the host it was printed from. *)
Lemma parseHost_escape (h h' : string) : parseHost (escape h encodeHost) = Some h' -> h' = h.
Proof.
  unfold parseHost. intros H.
  destruct (HasPrefix _ "["); cycle 1.
  { destruct (last_cut _ ":") as [[? port]|]; [destruct (validOptionalPort _); [|done]|];
      by apply (unescape_escape_host h h' encodeHost). }
  destruct (last_cut _ "]") as [[inside port]|] eqn:El; [|done]. apply last_cut_Some in El.
  destruct (validOptionalPort port); [|done]. cbn [negb] in H.
  destruct (split_at inside "%25") as [[before zone]|] eqn:Es;
    [|by apply (unescape_escape_host h h' encodeHost)].
  destruct (escape_split h inside port "]" encodeHost eq_refl El) as (h1 & h2 & -> & -> & E2).
  pose proof (split_at_head _ _ _ _ _ Es) as [zone' ->]. apply split_at_Some in Es.
  destruct (escape_split h1 before zone' "%" encodeHost eq_refl Es) as (h3 & h4 & -> & -> & E4).
  rewrite E4 in H. change ("]" ++ port) with (String "]" port) in H. rewrite E2 in H.
  destruct (unescape (escape h3 _) _) as [x|] eqn:E3'; [|done].
  destruct (unescape (escape h4 _) _) as [y|] eqn:E4'; [|done].
  destruct (unescape (escape h2 _) _) as [z|] eqn:E2'; [|done]. injection H as <-.
  apply unescape_escape_host in E3' as ->, E4' as ->, E2' as ->; try done. by rewrite app_assoc_str.
Qed.

Lemma parseAuthority_host (prefix h : string) (user : option Userinfo) (h' : string) :
  prefix = EmptyString \/ (exists info, prefix = info ++ "@") ->
  parseAuthority (prefix ++ escape h encodeHost) = Some (user, h') -> h' = h.
Proof.
  intros Hp. unfold parseAuthority.
  assert (contains_byte "@" (escape h encodeHost) = false) as Ha by (by apply escape_absent).
  destruct Hp as [->|[info ->]].
  { cbn [String.append]. rewrite last_cut_None by done.
    destruct (parseHost _) as [x|] eqn:E; [|done]. intros [= _ <-]. by apply parseHost_escape. }
  rewrite app_assoc_str. change ("@" ++ escape h encodeHost) with (String "@" (escape h encodeHost)).
  rewrite last_cut_app by done. destruct (parseHost _) as [x|] eqn:E; [|done]. apply parseHost_escape in E as ->.
  destruct (validUserinfo info); [|done]. cbn [negb]. destruct (Cut info ":") as [[n pw] []].
  - destruct (unescape n encodeUserPassword), (unescape pw encodeUserPassword); try done. by intros [= _ <-].
  - destruct (unescape info encodeUserPassword); [|done]. by intros [= _ <-].
Qed.

(** *** Schemes *)

Definition valid_scheme (s : string) : Prop :=
  s <> EmptyString /\ ToLower s = s /\ forall rest, scheme_prefix true (s ++ ":" ++ rest) = Some (s, rest).

Lemma scheme_ascii (first : bool) (s scheme rest : string) :
  scheme_prefix first s = Some (scheme, rest) -> is_ascii scheme = true.
Proof.
  revert first scheme rest. induction s as [|c s IH]; intros first scheme rest; [done|]. cbn [scheme_prefix].
  destruct (isUpper c || isLower c) eqn:E.
  { destruct (scheme_prefix false s) as [[sc r]|] eqn:Es; [|done]. intros [= <- <-]. unfold is_ascii in *.
    cbn. rewrite (IH _ _ _ Es), andb_true_r. unfold isUpper, isLower, between in E. split_bool; lia. }
  destruct (isDigit c || contains_byte c "+-.") eqn:E'.
  { destruct first; [done|]. destruct (scheme_prefix false s) as [[sc r]|] eqn:Es; [|done]. intros [= <- <-].
    unfold is_ascii in *. cbn. rewrite (IH _ _ _ Es), andb_true_r.
    revert E'. clear. destruct c as [[] [] [] [] [] [] [] []]; vm_compute; congruence. }
  destruct (Ascii.eqb c ":"); [|done]. destruct first; [done|]. by intros [= <- _].
Qed.

Lemma scheme_prefix_lower (first : bool) (s scheme rest rest' : string) :
  scheme_prefix first s = Some (scheme, rest) ->
  scheme_prefix first (str_map lower scheme ++ ":" ++ rest') = Some (str_map lower scheme, rest').
Proof.
  assert (forall c, (isUpper (lower c) || isLower (lower c) = isUpper c || isLower c)
    /\ (isUpper c || isLower c = false -> lower c = c)) as Hl.
  { intros c. destruct c as [[] [] [] [] [] [] [] []]; by vm_compute. }
  revert first scheme rest. induction s as [|c s IH]; intros first scheme rest; [done|]. cbn [scheme_prefix].
  destruct (Hl c) as [H1 H2]. destruct (isUpper c || isLower c) eqn:E.
  { destruct (scheme_prefix false s) as [[sc r]|] eqn:Es; [|done]. intros [= <- <-].
    specialize (IH _ _ _ Es). cbn [str_map String.append scheme_prefix] in *. by rewrite H1, IH. }
  destruct (isDigit c || contains_byte c "+-.") eqn:E'.
  { destruct first; [done|]. destruct (scheme_prefix false s) as [[sc r]|] eqn:Es; [|done]. intros [= <- <-].
    specialize (IH _ _ _ Es). cbn [str_map String.append scheme_prefix] in *.
    by rewrite H1, (H2 eq_refl), E', IH. }
  destruct (Ascii.eqb_spec c ":"); [|done]. destruct first; [done|]. by intros [= <- _].
Qed.

Lemma scheme_prefix_valid (s scheme rest : string) :
  scheme_prefix true s = Some (scheme, rest) -> valid_scheme (ToLower scheme).
Proof.
  intros H. pose proof (scheme_ascii _ _ _ _ H) as Ha. rewrite ToLower_ascii by done. split_and!.
  - destruct scheme; [|done]. destruct s as [|c s]; [done|]. cbn [scheme_prefix] in H.
    destruct (isUpper c || isLower c); [by destruct (scheme_prefix false s) as [[]|]|].
    destruct (isDigit c || _); [done|]. by destruct (Ascii.eqb c ":").
  - apply ToLower_lowered. unfold is_ascii in Ha. clear H. induction scheme as [|c w IH]; [done|].
    cbn in *. apply andb_true_iff in Ha as [Hc Hw]. rewrite (IH Hw), andb_true_r.
    revert Hc. clear. destruct c as [[] [] [] [] [] [] [] []]; by vm_compute.
  - intros rest'. by eapply scheme_prefix_lower.
Qed.

Lemma scheme_absent (first : bool) (s scheme rest : string) (d : ascii) :
  isUpper d || isLower d || isDigit d || contains_byte d "+-." = false ->
  scheme_prefix first s = Some (scheme, rest) -> contains_byte d scheme = false.
Proof.
  intros Hd. revert first scheme rest. induction s as [|c s IH]; intros first scheme rest; [done|].
  cbn [scheme_prefix]. destruct (isUpper c || isLower c) eqn:E.
  { destruct (scheme_prefix false s) as [[sc r]|] eqn:Es; [|done]. intros [= <- <-].
    cbn. rewrite (IH _ _ _ Es), orb_false_r. apply Ascii.eqb_neq. intros ->. by rewrite E in Hd. }
  destruct (isDigit c || contains_byte c "+-.") eqn:E'.
  { destruct first; [done|]. destruct (scheme_prefix false s) as [[sc r]|] eqn:Es; [|done]. intros [= <- <-].
    cbn [contains_byte]. rewrite (IH _ _ _ Es), orb_false_r. apply Ascii.eqb_neq. intros ->.
    by rewrite E, <- orb_assoc, E' in Hd. }
  destruct (Ascii.eqb c ":"); [|done]. destruct first; [done|]. by intros [= <- _].
Qed.

(** *** Cutting off query and fragment *)

(** Empty, or starting with the given byte. *)
Definition from_byte (c : ascii) (s : string) : Prop := s = EmptyString \/ exists r, s = String c r.

Lemma before_byte (p x q z : string) (c : ascii) :
  p ++ x = q ++ z -> contains_byte c p = false -> from_byte c z -> exists t, q = p ++ t /\ x = t ++ z.
Proof.
  revert q. induction p as [|a p IH]; intros q E Hp Hz; [by exists q|]. cbn in Hp.
  apply orb_false_iff in Hp as [Ha Hp]. destruct q as [|b q].
  - destruct Hz as [->|[r ->]]; [done|]. injection E as <- _. by rewrite Ascii.eqb_refl in Ha.
  - injection E as <- E. destruct (IH q E Hp Hz) as (t & -> & ->). by exists t.
Qed.

Lemma Cut_before (s b a : string) (c : ascii) (found : bool) :
  Cut s (String c EmptyString) = (b, a, found) ->
  contains_byte c b = false /\ exists z, s = b ++ z /\ from_byte c z.
Proof.
  intros E. split; cycle 1.
  { destruct found; [apply Cut_true in E as ->; exists (String c a); split; [done|right; by exists a]|].
    apply Cut_false in E as [-> _]. exists EmptyString. split; [by rewrite app_empty_r|by left]. }
  revert b a E. induction s as [|x s IH]; intros b a; [by intros [= <- _ _]|]. cbn [Cut after_prefix].
  destruct (Ascii.eqb_spec c x) as [->|Hx]; [by intros [= <- _ _]|].
  destruct (Cut s _) as [[b' a'] f]. intros [= <- <- ->]. cbn. rewrite (IH b' a') by done.
  apply orb_false_iff. split; [|done]. apply Ascii.eqb_neq. congruence.
Qed.

Lemma count_byte_app (c : ascii) (s t : string) :
  count_byte c (s ++ t) = (count_byte c s + count_byte c t)%nat.
Proof. induction s as [|x s IH]; cbn; [done|]. rewrite IH. lia. Qed.

Lemma count_byte_zero (c : ascii) (s : string) : count_byte c s = 0%nat -> contains_byte c s = false.
Proof.
  induction s as [|x s IH]; cbn; [done|]. destruct (Ascii.eqb x c); [done|]. intros H. by apply IH.
Qed.

(** How [parse_body] takes the query off the rest of the text. *)
Definition take_query (rest : string) : string * bool * string :=
  if HasSuffix rest "?" && Nat.eqb (count_byte "?" rest) 1
  then (TrimSuffix rest "?", true, EmptyString)
  else let '(before, after, _) := Cut rest "?" in (before, false, after).

Lemma take_query_spec (rest : string) :
  let '(before, _, query) := take_query rest in
  contains_byte "?" before = false
  /\ exists z, rest = before ++ z /\ from_byte "?" z /\ query = TrimPrefix z "?".
Proof.
  unfold take_query. destruct (HasSuffix rest "?" && _) eqn:E.
  - apply andb_true_iff in E as [[r ->]%HasSuffix_spec Hc%Nat.eqb_eq]. rewrite TrimSuffix_app.
    rewrite count_byte_app in Hc. cbn in Hc. split; [apply count_byte_zero; lia|].
    exists "?". split_and!; [done|right; by exists EmptyString|done].
  - destruct (Cut rest "?") as [[b a] f] eqn:Ec. split; [by destruct (Cut_before _ _ _ _ _ Ec)|].
    destruct f; [apply Cut_true in Ec as ->; exists (String "?" a); split_and!;
      [done|right; by exists a|symmetry; exact (TrimPrefix_app "?" a)]|].
    apply Cut_false in Ec as [-> ->]. exists EmptyString. split_and!; [by rewrite app_empty_r|by left|done].
Qed.

(** *** Parsing printed text *)

(** What may follow an authority. *)
Definition tail_text (s : string) : Prop := from_byte "/" s \/ from_byte "?" s \/ from_byte "#" s.

Lemma parse_body_site (scheme authority tail : string) (u : URL) :
  valid_scheme scheme -> contains_byte "/" authority = false -> contains_byte "?" authority = false ->
  from_byte "/" tail \/ from_byte "?" tail ->
  parse_body (scheme ++ ":" ++ "//" ++ authority ++ tail) = Some u ->
  Scheme u = scheme /\ parseAuthority authority = Some (User u, Host u)
  /\ Fragment u = EmptyString /\ exists path z, tail = path ++ z /\ contains_byte "?" path = false /\ from_byte "?" z
     /\ RawQuery u = TrimPrefix z "?" /\ unescape path encodePath = Some (Path u)
     /\ RawPath u = (if (path =? escape (Path u) encodePath)%string then EmptyString else path).
Proof.
  intros (Hne & Hl & Hs) Ha Hq Ht Hp. unfold parse_body in Hp.
  destruct (str_forall _ _); [|done]. cbn [negb] in Hp.
  destruct (_ =? "*")%string eqn:Est.
  { apply String.eqb_eq in Est. specialize (Hs ("//" ++ authority ++ tail)). by rewrite Est in Hs. }
  unfold getScheme in Hp.
  destruct (HasPrefix (scheme ++ _) ":") eqn:Epr.
  { specialize (Hs ("//" ++ authority ++ tail)). apply HasPrefix_spec in Epr as [r Er]. by rewrite Er in Hs. }
  rewrite Hs in Hp. cbn [mbind option_bind] in Hp. rewrite Hl in Hp.
  set (rest := "//" ++ authority ++ tail) in Hp. fold (take_query rest) in Hp.
  pose proof (take_query_spec rest) as Hb. destruct (take_query rest) as [[before force] query].
  destruct Hb as [Hb (z & Hz & Hfz & ->)].
  destruct (before_byte ("//" ++ authority) tail before z "?") as (t & -> & ->).
  { rewrite app_assoc_str. exact Hz. }
  { by rewrite contains_byte_app, Hq. }
  { done. }
  rewrite !contains_byte_app, !orb_false_iff in Hb. destruct Hb as [_ Hb].
  rewrite app_assoc_str in Hp.
  assert (HasPrefix ("//" ++ authority ++ t) "/" = true /\ HasPrefix ("//" ++ authority ++ t) "//" = true) as [H1 H2]
    by (split; apply HasPrefix_spec; [by exists ("/" ++ authority ++ t)|by exists (authority ++ t)]).
  apply String.eqb_neq in Hne. rewrite H1, H2, Hne in Hp. cbn [negb andb orb] in Hp. rewrite TrimPrefix_app in Hp.
  assert (from_byte "/" t) as Hcase.
  { destruct t as [|c t]; [by left|]. right. cbn in Hb. apply orb_false_iff in Hb as [Hc _].
    apply Ascii.eqb_neq in Hc. destruct Ht as [[?|[r ?]]|[?|[r ?]]]; try done; simplify_eq/=. by exists t. }
  assert (match split_at (authority ++ t) "/" with Some p => p | None => (authority ++ t, EmptyString) end
    = (authority, t)) as E.
  { unfold split_at. destruct Hcase as [->|[r ->]].
    - by rewrite app_empty_r, Cut_absent.
    - by rewrite Cut_byte_app. }
  rewrite E in Hp. destruct (parseAuthority authority) as [[user host]|]; [|done]. cbn in Hp.
  unfold setPath in Hp. destruct (unescape t encodePath) as [path|] eqn:Eu; [|done]. injection Hp as <-.
  split_and!; [done|done|done|]. by exists t, z.
Qed.

(** The text of a URL with an authority. *)
Definition authority_text (u : URL) : string :=
  match User u with Some ui => Userinfo_String ui ++ "@" | None => EmptyString end
  ++ escape (Host u) encodeHost.

Lemma URL_String_authority (u : URL) :
  nonempty (Scheme u) = true -> nonempty (Host u) = true -> Opaque u = EmptyString ->
  exists tail, URL_String u = Scheme u ++ ":" ++ "//" ++ authority_text u ++ tail /\ tail_text tail.
Proof.
  intros Hs Hh Ho. unfold URL_String. rewrite Hs, Hh, Ho, !orb_true_r. cbn [nonempty negb orb andb].
  rewrite andb_false_r. cbn [andb]. fold (authority_text u).
  set (path := EscapedPath u). set (query := if ForceQuery u || nonempty (RawQuery u) then _ else EmptyString).
  set (fragment := if nonempty (Fragment u) then _ else EmptyString).
  set (sep := if nonempty path && negb (HasPrefix path "/") && true then "/" else EmptyString).
  assert (nonempty ((Scheme u ++ ":") ++ ("//" ++ authority_text u) ++ sep) = true) as ->.
  { destruct (Scheme u); [discriminate Hs|done]. }
  change (nonempty EmptyString) with false. cbn [negb andb]. exists (sep ++ path ++ query ++ fragment). split; [by rewrite !app_assoc_str|].
  assert (from_byte "#" fragment) as Hf by (unfold fragment; destruct (nonempty (Fragment u)); [right; eexists; reflexivity|by left]).
  assert (from_byte "?" (query ++ fragment) \/ from_byte "#" (query ++ fragment)) as Hq.
  { unfold query. destruct (ForceQuery u || _); [left; right; eexists; reflexivity|by right]. }
  unfold tail_text, sep. clearbody path query fragment. clear sep. destruct path as [|c path].
  { cbn. by destruct Hq; auto. }
  left. right. cbn [nonempty String.eqb negb andb]. destruct (HasPrefix (String c path) "/") eqn:E.
  - apply HasPrefix_spec in E as [r E]. injection E as -> ->. eexists; reflexivity.
  - eexists; reflexivity.
Qed.

Lemma authority_text_absent (u : URL) (c : ascii) :
  c = "/"%char \/ c = "?"%char \/ c = "#"%char -> contains_byte c (authority_text u) = false.
Proof.
  intros Hc. unfold authority_text, Userinfo_String.
  assert (forall m, host_mode m = true \/ m = encodeUserPassword -> forall s, contains_byte c (escape s m) = false) as H.
  { intros m Hm s. destruct Hc as [-> |[-> | ->]]; apply escape_absent; try done; by destruct m, Hm. }
  assert (contains_byte c ":" = false /\ contains_byte c "@" = false) as [H1 H2]
    by (by destruct Hc as [-> |[-> | ->]]).
  rewrite contains_byte_app, (H encodeHost) by auto. rewrite orb_false_r.
  destruct (User u) as [ui|]; [|done]. rewrite contains_byte_app, H2, orb_false_r.
  destruct (password ui); rewrite ?contains_byte_app, ?H1, !H; auto.
Qed.

(** An absolute URL as parsing leaves it. *)
Lemma Parse_absolute (s : string) (u : URL) :
  Parse s = Some u -> nonempty (Scheme u) = true -> nonempty (Host u) = true ->
  valid_scheme (Scheme u) /\ Opaque u = EmptyString.
Proof.
  unfold Parse. destruct (Cut s "#") as [[t f] found]. destruct (parse_body t) as [v|] eqn:Eb; [|done].
  cbn [mbind option_bind]. intros Hp.
  assert (Scheme u = Scheme v /\ Host u = Host v /\ Opaque u = Opaque v) as (-> & -> & ->).
  { destruct (_ =? _)%string; [by injection Hp as <-|]. unfold setFragment in Hp.
    destruct (unescape f _); [|done]. by injection Hp as <-. }
  clear Hp. intros Hs Hh. unfold parse_body in Eb. destruct (str_forall _ t); [|done]. cbn [negb] in Eb.
  destruct (t =? "*")%string; [by injection Eb as <-|]. unfold getScheme in Eb.
  destruct (HasPrefix t ":"); [done|]. cbn [mbind option_bind] in Eb.
  assert (forall p w, setPath p w = Some v ->
    Scheme v = Scheme w /\ Host v = Host w /\ Opaque v = Opaque w) as Hset.
  { intros p w. unfold setPath. destruct (unescape p encodePath); cbn; [by intros [= <-]|done]. }
  assert (forall scheme, Scheme v = ToLower scheme ->
    (scheme = EmptyString \/ exists rest, scheme_prefix true t = Some (scheme, rest)) -> valid_scheme (Scheme v)) as Hv.
  { intros scheme E [-> |[rest Er]]; [by rewrite E in Hs|]. rewrite E. by eapply scheme_prefix_valid. }
  assert (exists scheme rest, match scheme_prefix true t with Some r => r | None => (EmptyString, t) end = (scheme, rest)
    /\ (scheme = EmptyString \/ exists rest, scheme_prefix true t = Some (scheme, rest))) as (scheme & rest & E & Hc).
  { destruct (scheme_prefix true t) as [[sc r]|]; [|by exists EmptyString, t; auto].
    exists sc, r. split; [done|right; by exists r]. }
  rewrite E in Eb. destruct (if HasSuffix rest "?" && _ then _ else _) as [[rest' force] query].
  destruct (_ && negb (ToLower scheme =? "")%string) in Eb at 1; [by injection Eb as <-|].
  destruct (_ && Contains _ _) in Eb; [done|]. destruct (_ && HasPrefix rest' "//") in Eb.
  - destruct (match split_at _ _ with Some p => p | None => _ end) as [authority path].
    destruct (parseAuthority authority) as [[user host]|]; [|done]. cbn in Eb.
    apply Hset in Eb as (E1 & _ & E3). split; [|exact E3]. by eapply (Hv scheme E1).
  - destruct (_ && HasPrefix rest' "/") in Eb; apply Hset in Eb as (_ & E2 & _); by rewrite E2 in Hh.
Qed.

Lemma TrimRight_tail (q a tail : string) :
  a <> EmptyString -> contains_byte "/" a = false ->
  TrimRight (q ++ a ++ tail) "/" = q ++ a ++ TrimRight tail "/".
Proof.
  intros Hne Ha.
  assert (forall c, Ascii.eqb c "/" = false -> contains_byte c "/" = false) as Hb.
  { intros c Hc. cbn [contains_byte]. by rewrite Ascii.eqb_sym, Hc. }
  assert (str_forall (fun c => contains_byte c "/") (a ++ tail) = false) as Hf.
  { destruct a as [|c a]; [done|]. cbn [contains_byte] in Ha. apply orb_false_iff in Ha as [Hc _].
    cbn [String.append str_forall]. by rewrite (Hb c Hc). }
  induction q as [|c q IH]; cbn [String.append].
  - clear Hne Hf. induction a as [|c a IH]; [done|]. cbn [contains_byte] in Ha.
    apply orb_false_iff in Ha as [Hc Ha].
    cbn [String.append TrimRight str_forall]. rewrite (Hb c Hc). cbn [andb]. by rewrite (IH Ha).
  - cbn [TrimRight str_forall]. by rewrite str_forall_app, Hf, !andb_false_r, IH.
Qed.

Lemma tail_text_join (tail path : string) :
  tail_text tail -> tail_text (TrimRight tail "/" ++ "/" ++ path).
Proof.
  assert (forall c s t, from_byte c s -> from_byte c (TrimRight s "/" ++ t) \/ TrimRight s "/" = EmptyString) as H.
  { intros c s t [-> |[r ->]]; [by right|]. cbn [TrimRight]. destruct (str_forall _ _); [by right|].
    left. right. eexists; reflexivity. }
  intros Ht. unfold tail_text in *.
  assert (from_byte "/" ("" ++ "/" ++ path)) as Hs by (right; by exists path).
  destruct Ht as [Ht|[Ht|Ht]]; (destruct (H _ _ ("/" ++ path) Ht) as [?|E]; [auto|rewrite E; auto]).
Qed.

(** A URL with a host, as parsing leaves it. *)
Definition located (u : URL) : Prop :=
  valid_scheme (Scheme u) /\ nonempty (Host u) = true /\ Opaque u = EmptyString.

Lemma Parse_located (s : string) (u : URL) :
  Parse s = Some u -> nonempty (Scheme u) && nonempty (Host u) = true -> located u.
Proof.
  intros Hp [Hs Hh]%andb_true_iff. destruct (Parse_absolute _ _ Hp Hs Hh). by split_and!.
Qed.

(** Whatever follows the authority, scheme and host stay. *)
Lemma Parse_site (u v : URL) (tail : string) :
  valid_scheme (Scheme u) -> tail_text tail ->
  Parse (Scheme u ++ ":" ++ "//" ++ authority_text u ++ tail) = Some v ->
  Scheme v = Scheme u /\ Host v = Host u.
Proof.
  intros Hs Ht Hp. unfold Parse in Hp. destruct (Cut _ "#") as [[s f] found] eqn:Ec.
  destruct (parse_body s) as [v'|] eqn:Eb; [|done]. cbn [mbind option_bind] in Hp.
  assert (Scheme v = Scheme v' /\ Host v = Host v') as [-> ->].
  { destruct (_ =? _)%string; [by injection Hp as <-|]. unfold setFragment in Hp.
    destruct (unescape f _); [|done]. by injection Hp as <-. }
  clear Hp. apply Cut_before in Ec as [Hn (z & Ez & Hz)].
  set (p := Scheme u ++ ":" ++ "//" ++ authority_text u).
  destruct (before_byte p tail s z "#") as (t & -> & ->).
  { unfold p. rewrite !app_assoc_str. exact Ez. }
  { unfold p. rewrite !contains_byte_app, authority_text_absent by auto.
    destruct Hs as (_ & _ & Hs). by rewrite (scheme_absent _ _ _ _ "#" eq_refl (Hs EmptyString)). }
  { done. }
  unfold p in Eb. rewrite !app_assoc_str in Eb.
  apply parse_body_site in Eb as (E1 & E2 & _); [|done|apply authority_text_absent; auto..|].
  - split; [done|]. unfold authority_text in E2. apply parseAuthority_host in E2; [done|].
    destruct (User u); [right; by eexists|by left].
  - unfold p in Hn. rewrite contains_byte_app, orb_false_iff in Hn. destruct Hn as [_ Hn].
    destruct t as [|c t]; [left; by left|].
    destruct Ht as [[?|[r ?]]|[[?|[r ?]]|[?|[r ?]]]]; try done; simplify_eq/=.
    + left. right. by eexists.
    + right. right. by eexists.
Qed.

(** The text of a URL leads back to its scheme and host. *)
Lemma Parse_URL_String (u v : URL) :
  located u -> Parse (URL_String u) = Some v -> Scheme v = Scheme u /\ Host v = Host u.
Proof.
  intros (Hs & Hh & Ho) Hp. assert (nonempty (Scheme u) = true) as Hne
    by (apply negb_true_iff, String.eqb_neq, Hs).
  destruct (URL_String_authority u Hne Hh Ho) as (tail & E & Ht). rewrite E in Hp. by eapply Parse_site.
Qed.

(** So does what is appended to it, after a slash. *)
Lemma Parse_join (u v : URL) (path : string) :
  located u -> Parse (TrimRight (URL_String u) "/" ++ "/" ++ path) = Some v ->
  Scheme v = Scheme u /\ Host v = Host u.
Proof.
  intros (Hs & Hh & Ho) Hp. assert (nonempty (Scheme u) = true) as Hne
    by (apply negb_true_iff, String.eqb_neq, Hs).
  destruct (URL_String_authority u Hne Hh Ho) as (tail & E & Ht). rewrite E in Hp. clear E.
  assert (authority_text u <> EmptyString) as Hau.
  { intros E. unfold authority_text in E. destruct (User u) as [ui|]; [by destruct (Userinfo_String ui)|].
    cbn [String.append] in E. destruct (Host u) as [|c h]; [done|]. cbn [escape] in E.
    by destruct (shouldEscape c encodeHost). }
  replace (Scheme u ++ ":" ++ "//" ++ authority_text u ++ tail)
    with ((Scheme u ++ ":" ++ "//") ++ authority_text u ++ tail) in Hp by (by rewrite !app_assoc_str).
  rewrite TrimRight_tail, !app_assoc_str in Hp by (auto using authority_text_absent).
  eapply Parse_site in Hp; [exact Hp|done|]. by apply tail_text_join.
Qed.

(** ** The whole text of a plain URL *)

Lemma EscapedPath_valid (u : URL) :
  validEncoded (EscapedPath u) encodePath = true /\ unescape (EscapedPath u) encodePath = Some (Path u).
Proof.
  assert (forall s, validEncoded (escape s encodePath) encodePath = true) as Hv.
  { induction s as [|c s IH]; [done|]. destruct (shouldEscape c encodePath) eqn:E.
    - rewrite escape_cons by done. cbn [is_query andb validEncoded]. rewrite IH.
      assert (forall z, 0 <= z < 16 -> shouldEscape (upperHex z) encodePath = false) as Hh.
      { intros z Hz. unfold shouldEscape, isAlnum, isUpper, isLower, isDigit, upperHex, between.
        destruct (Z.ltb_spec z 10); rewrite byte_chr by lia;
          repeat (match goal with |- context [?a <=? ?b] => destruct (Z.leb_spec a b) end; try lia); done. }
      destruct (byte_nibbles c) as (Ha & Hb & _). rewrite (Hh _ Ha), (Hh _ Hb), !orb_true_r. done.
    - rewrite escape_keep by done. cbn [validEncoded]. by rewrite IH, E, orb_true_r. }
  unfold EscapedPath. destruct (_ && _) eqn:E.
  - apply andb_true_iff in E as [_ E]. destruct (unescape (RawPath u) encodePath) as [q|] eqn:Eq.
    + destruct (String.eqb_spec q (Path u)) as [->|]; [done|].
      destruct (String.eqb_spec (Path u) "*") as [->|]; [done|]. by rewrite Hv, unescape_escape.
    + destruct (String.eqb_spec (Path u) "*") as [->|]; [done|]. by rewrite Hv, unescape_escape.
  - destruct (String.eqb_spec (Path u) "*") as [->|]; [done|]. by rewrite Hv, unescape_escape.
Qed.

Lemma validEncoded_absent (s : string) (c : ascii) :
  contains_byte c "!$&'()*+,;=:@[]%" || negb (shouldEscape c encodePath) = false ->
  validEncoded s encodePath = true -> contains_byte c s = false.
Proof.
  intros Hc. induction s as [|a s IH]; [done|]. cbn [validEncoded]. intros [Ha Hs]%andb_true_iff.
  change (contains_byte c (String a s)) with (Ascii.eqb a c || contains_byte c s).
  rewrite (IH Hs), orb_false_r. apply Ascii.eqb_neq. intros ->. by rewrite Ha in Hc.
Qed.

(** The escaped path is what a parsed URL was parsed from. *)
Lemma EscapedPath_parsed (u : URL) (path : string) :
  validEncoded path encodePath = true -> unescape path encodePath = Some (Path u) ->
  RawPath u = (if (path =? escape (Path u) encodePath)%string then EmptyString else path) ->
  from_byte "/" path -> EscapedPath u = path.
Proof.
  intros Hv Hu Hr Hp. assert (Path u <> "*") as Hs.
  { intros E. rewrite E in Hu. destruct Hp as [->|[r ->]]; [done|]. cbn [unescape Ascii.eqb Bool.eqb] in Hu.
    by destruct (unescape r encodePath). }
  apply String.eqb_neq in Hs. unfold EscapedPath. rewrite Hr, Hs.
  destruct (String.eqb_spec path (escape (Path u) encodePath)) as [->|E]; [done|].
  destruct path as [|c path]; [injection Hu as E'; by rewrite <- E' in E|].
  cbn [String.eqb negb andb]. by rewrite Hv, Hu, String.eqb_refl.
Qed.

(** A URL without user information, fragment or relative path, as text. *)
Record plain_url (u : URL) : Prop := {
  pl_located : located u;
  pl_user : User u = None;
  pl_fragment : Fragment u = EmptyString;
  pl_path : from_byte "/" (EscapedPath u);
  pl_query : contains_byte "#" (RawQuery u) = false
}.

Lemma plain_text (u : URL) :
  plain_url u ->
  exists query, URL_String u = Scheme u ++ ":" ++ "//" ++ escape (Host u) encodeHost ++ EscapedPath u ++ query
    /\ from_byte "?" query /\ TrimPrefix query "?" = RawQuery u.
Proof.
  intros [(Hs & Hh & Ho) Hu Hf Hp _]. assert (nonempty (Scheme u) = true) as Hne
    by (apply negb_true_iff, String.eqb_neq, Hs).
  unfold URL_String. rewrite Hne, Hh, Ho, Hu, Hf, !orb_true_r. cbn [nonempty negb orb andb is_Some_b].
  rewrite andb_false_r. change (nonempty EmptyString) with false. cbn [andb].
  assert ((nonempty (EscapedPath u) && negb (HasPrefix (EscapedPath u) "/") && true) = false) as ->.
  { destruct Hp as [->|[r ->]]; [done|]. by destruct r. }
  assert (nonempty ((Scheme u ++ ":") ++ ("//" ++ "" ++ escape (Host u) encodeHost) ++ "") = true) as ->
    by (destruct (Scheme u); [discriminate Hne|done]).
  cbn [negb andb]. eexists. split; [by rewrite app_empty_r, !app_assoc_str|]. split.
  - destruct (ForceQuery u || _); [right; eexists; reflexivity|by left].
  - destruct (ForceQuery u || _) eqn:E; [apply (TrimPrefix_app "?")|].
    apply orb_false_iff in E as [_ E]. by apply negb_false_iff, String.eqb_eq in E.
Qed.

(** The text of a plain URL parses to the same URL, as far as requests see it. *)
Lemma Parse_plain_text (u v : URL) :
  plain_url u -> Parse (URL_String u) = Some v ->
  Scheme v = Scheme u /\ Host v = Host u /\ User v = None /\ Fragment v = EmptyString
  /\ EscapedPath v = EscapedPath u /\ RawQuery v = RawQuery u.
Proof.
  intros Hpl. destruct (plain_text u Hpl) as (query & -> & Hq & Hqt).
  destruct Hpl as [(Hs & Hh & Ho) Hu Hf Hp Hn]. destruct (EscapedPath_valid u) as [Hv Hue].
  set (text := Scheme u ++ _). assert (contains_byte "#" text = false) as Ht.
  { unfold text. rewrite !contains_byte_app, escape_absent by done. destruct Hs as (_ & _ & Hs).
    rewrite (scheme_absent _ _ _ _ "#" eq_refl (Hs EmptyString)), (validEncoded_absent _ "#" eq_refl Hv).
    destruct Hq as [->|[r ->]]; [done|]. change (TrimPrefix (String "?" r) "?") with (TrimPrefix ("?" ++ r) "?") in Hqt.
    rewrite TrimPrefix_app in Hqt. by subst r. }
  unfold Parse. rewrite (Cut_absent text "#" Ht). destruct (parse_body text) as [w|] eqn:Eb; [|done].
  cbn [mbind option_bind]. change (_ =? _)%string with true at 1. cbv iota. intros [= <-]. unfold text in Eb.
  apply parse_body_site in Eb as (E1 & E2 & E3 & path & z & Ez & Hpq & Hz & Erq & Eup & Erp);
    [|done|by apply escape_absent..|destruct Hp as [->|[r ->]]; [right; exact Hq|left; right; by eexists]].
  assert (path = EscapedPath u /\ z = query) as [-> ->].
  { pose proof (validEncoded_absent _ "?" eq_refl Hv) as Hnq.
    destruct (before_byte _ _ _ _ _ Ez Hnq Hz) as (t & Et & Eq).
    destruct (before_byte _ _ _ _ _ (eq_sym Ez) Hpq Hq) as (t' & Et' & Eq').
    assert (t = EmptyString) as ->; [|by rewrite app_empty_r in Et].
    rewrite Et in Et'. rewrite app_assoc_str in Et'.
    assert (EmptyString = t ++ t') as E by (eapply (app_inj_l (EscapedPath u)); by rewrite app_empty_r).
    by destruct t. }
  split_and!; [done| | |exact E3| |by rewrite Erq].
  - apply (parseAuthority_host EmptyString _ (User w)); [by left|exact E2].
  - unfold parseAuthority in E2. rewrite last_cut_None in E2 by (by apply escape_absent).
    destruct (parseHost _); [|done]. by injection E2 as <-.
  - by apply EscapedPath_parsed.
Qed.
