(* ===== verification/Http.v ===== *)
(** * What the sources use of [net/http]: headers and requests

    A header is a finite map from names to value lists.  Go iterates over a map in
    an unspecified order, so every loop over a header is a function of the list of
    entries; the theorems about those loops hold for every order. *)

From S2P Require Import Prelude GoStrings Url.
From Stdlib Require Import Ascii String.
Local Open Scope string_scope.
Local Open Scope Z_scope.

Abbreviation Header := (gmap string (list string)).

(** ** Canonical names ([textproto.CanonicalMIMEHeaderKey]) *)

Definition validHeaderFieldByte (c : ascii) : bool :=
  isUpper c || isLower c || isDigit c || contains_byte c "!#$%&'*+-.^_`|~".

Fixpoint canonicalize (start : bool) (s : string) : string :=
  match s with
  | EmptyString => EmptyString
  | String c s =>
      let c := if start then upper c else lower c in
      String c (canonicalize (Ascii.eqb c "-") s)
  end.

Definition CanonicalHeaderKey (s : string) : string :=
  if str_forall validHeaderFieldByte s then canonicalize true s else s.

(** ** Header methods *)

Definition vals (h : Header) (name : string) : list string := default [] (h !! name).

Definition Values (h : Header) (key : string) : list string := vals h (CanonicalHeaderKey key).

Definition Get (h : Header) (key : string) : string :=
  match Values h key with v :: _ => v | [] => EmptyString end.

Definition Set_ (h : Header) (key value : string) : Header :=
  <[CanonicalHeaderKey key := [value]]> h.

Definition Add (h : Header) (key value : string) : Header :=
  <[CanonicalHeaderKey key := (Values h key ++ [value])%list]> h.

Definition Del (h : Header) (key : string) : Header := delete (CanonicalHeaderKey key) h.

Definition AddAll (h : Header) (key : string) (values : list string) : Header :=
  foldl (fun h v => Add h key v) h values.

(** Names as [net/http] delivers them: readers canonicalise every name. *)
Definition canonical (h : Header) : Prop := forall k, is_Some (h !! k) -> CanonicalHeaderKey k = k.

(** ** Requests *)

Record Request := mkRequest {
  Method : string;
  ReqURL : option URL;
  ReqHeader : Header
}.

(** ** Lemmas *)

Lemma upper_cases (c : ascii) :
  upper (upper c) = upper c /\ lower (lower c) = lower c
  /\ validHeaderFieldByte (upper c) = validHeaderFieldByte c
  /\ validHeaderFieldByte (lower c) = validHeaderFieldByte c
  /\ Ascii.eqb (upper c) "-" = Ascii.eqb c "-" /\ Ascii.eqb (lower c) "-" = Ascii.eqb c "-".
Proof. destruct c as [[] [] [] [] [] [] [] []]; vm_compute; done. Qed.

Lemma canonicalize_idem (b : bool) (s : string) :
  canonicalize b (canonicalize b s) = canonicalize b s.
Proof.
  revert b. induction s as [|c s IH]; intros b; [done|]. cbn [canonicalize].
  destruct (upper_cases c) as (Hu & Hl & _).
  destruct b; rewrite ?Hu, ?Hl, IH; done.
Qed.

Lemma canonicalize_valid (b : bool) (s : string) :
  str_forall validHeaderFieldByte (canonicalize b s) = str_forall validHeaderFieldByte s.
Proof.
  revert b. induction s as [|c s IH]; intros b; [done|]. cbn [canonicalize str_forall].
  destruct (upper_cases c) as (_ & _ & Hu & Hl & _).
  destruct b; rewrite ?Hu, ?Hl, IH; done.
Qed.

Lemma Canonical_idem (s : string) :
  CanonicalHeaderKey (CanonicalHeaderKey s) = CanonicalHeaderKey s.
Proof.
  unfold CanonicalHeaderKey at 2 3. destruct (str_forall validHeaderFieldByte s) eqn:E.
  - unfold CanonicalHeaderKey. by rewrite canonicalize_valid, E, canonicalize_idem.
  - unfold CanonicalHeaderKey. by rewrite E.
Qed.

Lemma vals_empty (k : string) : vals ∅ k = [].
Proof. unfold vals. by rewrite lookup_empty. Qed.

Lemma vals_Add (h : Header) (key v k : string) :
  vals (Add h key v) k
  = if decide (CanonicalHeaderKey key = k) then (vals h k ++ [v])%list else vals h k.
Proof.
  unfold vals, Add, Values. rewrite lookup_insert.
  case_decide as E; [|done]. by rewrite <- E.
Qed.

Lemma vals_AddAll (h : Header) (key : string) (vs : list string) (k : string) :
  vals (AddAll h key vs) k
  = if decide (CanonicalHeaderKey key = k) then (vals h k ++ vs)%list else vals h k.
Proof.
  unfold AddAll. revert h. induction vs as [|v vs IH]; intros h; simpl.
  - rewrite app_nil_r. by case_decide.
  - rewrite IH, vals_Add. case_decide; [by rewrite <- app_assoc | done].
Qed.

Lemma vals_Del (h : Header) (key k : string) :
  vals (Del h key) k = if decide (CanonicalHeaderKey key = k) then [] else vals h k.
Proof. unfold vals, Del. rewrite lookup_delete. by case_decide. Qed.

Lemma lookup_Del (h : Header) (key k : string) :
  Del h key !! k = if decide (CanonicalHeaderKey key = k) then None else h !! k.
Proof. unfold Del. rewrite lookup_delete. by case_decide. Qed.

Lemma lookup_AddAll_None (h : Header) (key : string) (vs : list string) (k : string) :
  CanonicalHeaderKey key <> k -> AddAll h key vs !! k = h !! k.
Proof.
  intros Hk. unfold AddAll. revert h. induction vs as [|v vs IH]; intros h; simpl; [done|].
  rewrite IH. unfold Add. by rewrite lookup_insert_ne.
Qed.

Lemma canonical_AddAll (h : Header) (key : string) (vs : list string) :
  canonical h -> canonical (AddAll h key vs).
Proof.
  unfold AddAll. revert h. induction vs as [|v vs IH]; intros h Hh; simpl; [done|].
  apply IH. intros k. unfold Add. rewrite lookup_insert.
  case_decide as E; [|apply Hh]. intros _. rewrite <- E. apply Canonical_idem.
Qed.

Lemma canonical_empty : canonical ∅.
Proof. intros k [? Hk]. by rewrite lookup_empty in Hk. Qed.

(** *** Loops over the entries of a header *)

(** A loop that adds the values of the entries it keeps.  [name] is the key it
    passes to [Add], and depends on the entry's name alone. *)
Definition add_kept (keep : string -> bool) (target : Header)
    (entries : list (string * list string)) : Header :=
  foldl (fun h '(name, values) =>
           let name := CanonicalHeaderKey name in
           if keep name then AddAll h name values else h) target entries.

(** The values a list of entries holds for one canonical name. *)
Definition collected (k : string) (entries : list (string * list string)) : list string :=
  List.concat (map (fun '(name, values) =>
                 if decide (CanonicalHeaderKey name = k) then values else []) entries).

Lemma vals_add_kept_collected (keep : string -> bool) (target : Header)
    (entries : list (string * list string)) (k : string) :
  vals (add_kept keep target entries) k
  = (vals target k ++ if keep k then collected k entries else [])%list.
Proof.
  unfold add_kept, collected. revert target.
  induction entries as [|[n vs] entries IH]; intros target; simpl.
  - destruct (keep k); by rewrite app_nil_r.
  - rewrite IH. destruct (decide (CanonicalHeaderKey n = k)) as [<-|Hne].
    + destruct (keep (CanonicalHeaderKey n)); [|done].
      rewrite vals_AddAll, Canonical_idem, decide_True, app_assoc by done. done.
    + destruct (keep (CanonicalHeaderKey n)); [|done].
      rewrite vals_AddAll, Canonical_idem, decide_False by done. done.
Qed.

Lemma collected_nodup (k : string) (entries : list (string * list string)) :
  NoDup entries.*1 -> (forall n vs, (n, vs) ∈ entries -> CanonicalHeaderKey n = n) ->
  (forall vs, (k, vs) ∈ entries -> collected k entries = vs)
  /\ (k ∉ entries.*1 -> collected k entries = []).
Proof.
  unfold collected. induction entries as [|[n vs] entries IH]; intros Hnd Hcan; simpl.
  { split; [by intros vs ?%elem_of_nil | done]. }
  apply NoDup_cons in Hnd as [Hn Hnd].
  destruct IH as [IH1 IH2]; [done | intros; eapply Hcan; by right |].
  rewrite (Hcan n vs) by (by left). split.
  - intros ws [[= <- <-]|Hin]%elem_of_cons.
    + rewrite decide_True, IH2, app_nil_r by done. done.
    + rewrite decide_False; [by apply IH1|]. intros ->. apply Hn.
      apply list_elem_of_fmap. by exists (k, ws).
  - intros [Hne Hin]%not_elem_of_cons. rewrite decide_False by done. by apply IH2.
Qed.

(** On a canonical source, whatever the order of the entries. *)
Lemma collected_any_order (source : Header) (entries : list (string * list string)) (k : string) :
  canonical source -> entries ≡ₚ map_to_list source -> collected k entries = vals source k.
Proof.
  intros Hc Hp. assert (forall n vs, (n, vs) ∈ entries <-> source !! n = Some vs) as Hin.
  { intros n vs. by rewrite Hp, elem_of_map_to_list. }
  destruct (collected_nodup k entries) as [H1 H2].
  - rewrite Hp. apply NoDup_fst_map_to_list.
  - intros n vs E%Hin. apply Hc. by rewrite E.
  - unfold vals. destruct (source !! k) as [vs|] eqn:E; simpl; [apply H1, Hin, E|].
    apply H2. intros ([n vs] & -> & E')%list_elem_of_fmap. apply Hin in E'. simpl in E. congruence.
Qed.

Lemma vals_add_kept (keep : string -> bool) (target source : Header)
    (entries : list (string * list string)) (k : string) :
  canonical source -> entries ≡ₚ map_to_list source ->
  vals (add_kept keep target entries) k
  = (vals target k ++ if keep k then vals source k else [])%list.
Proof.
  intros Hc Hp. rewrite vals_add_kept_collected. by rewrite (collected_any_order source).
Qed.

Lemma canonical_add_kept (keep : string -> bool) (target : Header)
    (entries : list (string * list string)) :
  canonical target -> canonical (add_kept keep target entries).
Proof.
  unfold add_kept. revert target. induction entries as [|[n vs] entries IH]; intros target Ht;
    simpl; [done|]. apply IH. destruct (keep _); [by apply canonical_AddAll | done].
Qed.

(** A name the loop does not keep is untouched, on any source. *)
Lemma lookup_add_kept_dropped (keep : string -> bool) (target : Header)
    (entries : list (string * list string)) (k : string) :
  keep k = false -> add_kept keep target entries !! k = target !! k.
Proof.
  intros Hk. unfold add_kept. revert target.
  induction entries as [|[n vs] entries IH]; intros target; simpl; [done|]. rewrite IH.
  destruct (keep (CanonicalHeaderKey n)) eqn:E; [|done].
  apply lookup_AddAll_None. rewrite Canonical_idem. intros <-. congruence.
Qed.
