(* ===== verification/HttpPolicy.v ===== *)
(** * The shared HTTP policy: [internal/httppolicy]

    Which headers travel upstream, downstream and to disk, when a response may be
    stored, and what a redirect keeps.  A loop over a header takes the entries of
    that header in the order the runtime happened to choose. *)

From S2P Require Import Prelude GoStrings Url Http.
From Stdlib Require Import Ascii String.
Local Open Scope string_scope.
Local Open Scope Z_scope.

(** ** Tables *)

Definition mem (name : string) (names : list string) : bool := existsb (String.eqb name) names.

Definition blockedRequestHeader (name : string) : bool :=
  mem name ["Cookie"; "Cookie2"; "Forwarded"; "Host"; "Npm-Otp"; "Proxy-Authorization";
            "X-Forwarded-For"; "X-Forwarded-Host"; "X-Forwarded-Port"; "X-Forwarded-Proto";
            "X-Npm-Otp"; "X-Registry-Auth"; "X-Registry-Config"].

Definition isHopByHop (name : string) : bool :=
  mem name ["Connection"; "Keep-Alive"; "Proxy-Authenticate"; "Proxy-Authorization";
            "Proxy-Connection"; "Te"; "Trailer"; "Transfer-Encoding"; "Upgrade"].

Definition isCookieHeader (name : string) : bool :=
  mem (CanonicalHeaderKey name) ["Cookie"; "Set-Cookie"; "Set-Cookie2"].

Definition sensitiveResponseHeaders : list string :=
  ["Authentication-Info"; "Authorization"; "Cookie"; "Proxy-Authentication-Info";
   "Proxy-Authorization"; "Set-Cookie"; "Set-Cookie2"; "WWW-Authenticate"].

(** ** Lists of tokens *)

(** The elements of comma-separated header values. *)
Definition list_parts (values : list string) : list string :=
  List.concat (map (fun value => Split value ",") values).

Definition namedConnectionHeaders (header : Header) : list string :=
  List.filter (fun canonical => negb (canonical =? EmptyString)%string)
    (map (fun name => CanonicalHeaderKey (TrimSpace name)) (list_parts (Values header "Connection"))).

Definition containsToken (values : list string) (token : string) : bool :=
  existsb (fun part => EqualFold (TrimSpace part) token) (list_parts values).

Record cacheDirective := mkDirective { name : string; value : string }.

Definition parse_directive (part : string) : cacheDirective :=
  let '(name, directiveValue, _) := Cut (TrimSpace part) "=" in
  mkDirective (ToLower (TrimSpace name)) (TrimSpace directiveValue).

Definition cacheDirectives (values : list string) : list cacheDirective :=
  List.filter (fun d => negb (name d =? EmptyString)%string)
    (map parse_directive (list_parts values)).

Definition hasCacheDirective (header : Header) (names : list string) : bool :=
  let wanted := map ToLower names in
  existsb (fun d => mem (name d) wanted) (cacheDirectives (Values header "Cache-Control")).

(** ** Copying headers *)

Definition CopyHeaders (target : Header) (source : list (string * list string)) : Header :=
  foldl (fun target '(name, values) => AddAll (Del target name) name values) target source.

Definition ForwardRequestHeaders (target source : Header) (entries : list (string * list string))
    (forwardAuthorization : bool) : Header :=
  let connectionHeaders := namedConnectionHeaders source in
  foldl (fun target '(name, values) =>
    let canonical := CanonicalHeaderKey name in
    if isHopByHop canonical || mem canonical connectionHeaders || blockedRequestHeader canonical
    then target
    else if (canonical =? "Authorization")%string && negb forwardAuthorization then target
    else AddAll target canonical values) target entries.

Definition ResponseHeaders (source : Header) (entries : list (string * list string)) : Header :=
  let connectionHeaders := namedConnectionHeaders source in
  foldl (fun target '(name, values) =>
    let canonical := CanonicalHeaderKey name in
    if isHopByHop canonical || mem canonical connectionHeaders then target
    else AddAll target canonical values) ∅ entries.

Definition CacheMetadataHeaders (source : Header) (entries : list (string * list string)) : Header :=
  let target := ResponseHeaders source entries in
  let target := foldl Del target sensitiveResponseHeaders in
  Del (Del target "Age") "X-N0ding-Cache".

(** ** Cache decisions *)

Definition quoteSet : string := String quote EmptyString.

Definition RequestBypassesCache (header : Header) : bool :=
  existsb (fun d =>
      if mem (name d) ["no-cache"; "no-store"] then true
      else if (name d =? "max-age")%string then (Trim (value d) quoteSet =? "0")%string
      else false)
    (cacheDirectives (Values header "Cache-Control"))
  || containsToken (Values header "Pragma") "no-cache".

(** The loop over [sensitiveResponseHeaders]: whether it returns false. *)
Definition sensitiveRefused (explicitlyPublic : bool) (responseHeader : Header) : bool :=
  existsb (fun name =>
      is_Some_b (responseHeader !! CanonicalHeaderKey name)
      && negb (explicitlyPublic && isCookieHeader name))
    sensitiveResponseHeaders.

(** The loop over the elements of [Vary]: whether it returns false. *)
Definition varyRefused (allowed : list string) (responseHeader : Header) : bool :=
  existsb (fun name =>
      let canonical := CanonicalHeaderKey (TrimSpace name) in
      if (canonical =? EmptyString)%string then false
      else if (canonical =? "*")%string then true
      else negb (mem canonical allowed))
    (list_parts (Values responseHeader "Vary")).

Definition ResponseAllowsStorage (requestHeader responseHeader : Header)
    (allowedVary : list string) : bool :=
  if hasCacheDirective requestHeader ["no-store"] then false
  else if hasCacheDirective responseHeader ["no-cache"; "no-store"; "private"] then false
  else if containsToken (Values responseHeader "Pragma") "no-cache" then false
  else
    let explicitlyPublic := hasCacheDirective responseHeader ["public"] in
    if sensitiveRefused explicitlyPublic responseHeader then false
    else negb (varyRefused (map CanonicalHeaderKey allowedVary) responseHeader).

(** ** URLs and errors *)

Definition PublicUpstreamURL (upstream : option URL) : string :=
  match upstream with
  | None => EmptyString
  | Some u => URL_String (set_Fragment EmptyString (set_ForceQuery false
                            (set_RawQuery EmptyString (set_User None u))))
  end.

(** Go errors: [context.Canceled], a message, possibly wrapping a cause, or a
    [*url.Error]. *)
Inductive error :=
  | Canceled
  | GoError (message : string) (cause : option error)
  | UrlError (op url : string) (err : option error).

(** Whether [errors.As] finds a [*url.Error] in the chain. *)
Fixpoint asUrlError (e : error) : bool :=
  match e with
  | UrlError _ _ _ => true
  | GoError _ (Some cause) => asUrlError cause
  | GoError _ None | Canceled => false
  end.

(** Whether [errors.Is] finds [context.Canceled] in the chain. *)
Fixpoint isCanceled (e : error) : bool :=
  match e with
  | Canceled => true
  | GoError _ (Some cause) | UrlError _ _ (Some cause) => isCanceled cause
  | GoError _ None | UrlError _ _ None => false
  end.

Fixpoint SafeError (e : error) : string :=
  match e with
  | Canceled => "context canceled"
  | UrlError op _ None => op
  | UrlError op _ (Some err) => op ++ ": " ++ SafeError err
  | GoError message None => message
  | GoError message (Some cause) => if asUrlError cause then SafeError cause else message
  end.

Definition effectivePort (value : URL) : string :=
  if nonempty (Port value) then Port value
  else
    let scheme := ToLower (Scheme value) in
    if (scheme =? "http")%string then "80"
    else if (scheme =? "https")%string then "443"
    else EmptyString.

Definition sameOrigin (l r : option URL) : bool :=
  match l, r with
  | Some l, Some r =>
      EqualFold (Scheme l) (Scheme r)
      && EqualFold (Hostname l) (Hostname r)
      && (effectivePort l =? effectivePort r)%string
  | _, _ => false
  end.

(** ** Redirects *)

Definition stripBlockedRequestHeaders (header : Header) : Header :=
  filter (fun e => blockedRequestHeader (CanonicalHeaderKey (fst e)) = false) header.

Definition stripAuthorizationHeader (header : Header) : Header :=
  filter (fun e => CanonicalHeaderKey (fst e) <> "Authorization") header.

(** [via] is oldest first, as [net/http] passes it. *)
Definition sanitizeRedirectRequest (request : Request) (via : list Request) : Request :=
  let hasUserinfo :=
    match ReqURL request with Some u => is_Some_b (User u) | None => false end in
  let url := if hasUserinfo then set_User None <$> ReqURL request else ReqURL request in
  let header := stripBlockedRequestHeaders (ReqHeader request) in
  let strip :=
    match last via with
    | None => true
    | Some previous => hasUserinfo || negb (sameOrigin (ReqURL previous) url)
    end in
  mkRequest (Method request) url
    (if strip then stripAuthorizationHeader header else header).

Definition redirectHook := Request -> list Request -> Request * option error.

(** The [CheckRedirect] installed by [ClientWithSafeRedirects] on a client whose own
    hook, if any, is [previousCheck]; the hook may rewrite the request. *)
Definition CheckRedirect (previousCheck : option redirectHook) (request : Request)
    (via : list Request) : Request * option error :=
  let request := sanitizeRedirectRequest request via in
  match previousCheck with
  | Some check =>
      let '(request, err) := check request via in
      match err with
      | Some e => (request, Some e)
      | None => (sanitizeRedirectRequest request via, None)
      end
  | None =>
      if (10 <=? List.length via)%nat
      then (request, Some (GoError "stopped after 10 redirects" None))
      else (request, None)
  end.

(** ** Lemmas *)

Lemma mem_spec (n : string) (names : list string) : mem n names = true <-> n ∈ names.
Proof.
  unfold mem. rewrite existsb_exists. split.
  - intros (m & Hm & ->%String.eqb_eq). by apply list_elem_of_In.
  - intros H. exists n. split; [by apply list_elem_of_In | apply String.eqb_refl].
Qed.

Lemma mem_false (n : string) (names : list string) : mem n names = false <-> n ∉ names.
Proof. rewrite <- mem_spec. by destruct (mem n names). Qed.

Definition forwarded (source : Header) (forwardAuthorization : bool) (canonical : string) : bool :=
  negb (isHopByHop canonical || mem canonical (namedConnectionHeaders source)
        || blockedRequestHeader canonical)
  && negb ((canonical =? "Authorization")%string && negb forwardAuthorization).

Lemma ForwardRequestHeaders_kept (target source : Header) (entries : list (string * list string))
    (fwd : bool) :
  ForwardRequestHeaders target source entries fwd
  = add_kept (forwarded source fwd) target entries.
Proof.
  unfold ForwardRequestHeaders, add_kept. revert target.
  induction entries as [|[n vs] entries IH]; intros target; simpl; [done|].
  rewrite <- IH. unfold forwarded. f_equal.
  destruct (isHopByHop _ || _ || _); simpl; [done|]. by destruct (_ && _).
Qed.

Definition end_to_end (source : Header) (canonical : string) : bool :=
  negb (isHopByHop canonical || mem canonical (namedConnectionHeaders source)).

Lemma ResponseHeaders_kept (source : Header) (entries : list (string * list string)) :
  ResponseHeaders source entries = add_kept (end_to_end source) ∅ entries.
Proof.
  unfold ResponseHeaders, add_kept. generalize (∅ : Header).
  induction entries as [|[n vs] entries IH]; intros target; simpl; [done|].
  rewrite <- IH. unfold end_to_end. f_equal. by destruct (_ || _).
Qed.

Lemma canonical_foldl_Del (names : list string) (h : Header) (k : string) :
  foldl Del h names !! k
  = if mem k (map CanonicalHeaderKey names) then None else h !! k.
Proof.
  revert h. induction names as [|n names IH]; intros h; simpl; [done|]. rewrite IH, lookup_Del.
  destruct (String.eqb_spec k (CanonicalHeaderKey n)) as [->|Hne]; simpl.
  - rewrite decide_True by done. by destruct (mem _ _).
  - by rewrite decide_False by done.
Qed.

Definition droppedFromMetadata : list string :=
  (map CanonicalHeaderKey sensitiveResponseHeaders ++ ["Age"; "X-N0ding-Cache"])%list.

Lemma CacheMetadataHeaders_lookup (source : Header) (entries : list (string * list string))
    (k : string) :
  CacheMetadataHeaders source entries !! k
  = if mem k droppedFromMetadata then None else ResponseHeaders source entries !! k.
Proof.
  unfold CacheMetadataHeaders, droppedFromMetadata, mem.
  rewrite !lookup_Del, canonical_foldl_Del, existsb_app.
  change (CanonicalHeaderKey "Age") with "Age".
  change (CanonicalHeaderKey "X-N0ding-Cache") with "X-N0ding-Cache".
  fold (mem k (map CanonicalHeaderKey sensitiveResponseHeaders)).
  destruct (mem k (map _ _)); simpl; [by repeat case_decide|].
  destruct (String.eqb_spec k "Age"); simpl; repeat case_decide; try congruence.
  all: destruct (String.eqb_spec k "X-N0ding-Cache"); simpl; congruence.
Qed.

Lemma canonical_ResponseHeaders (source : Header) (entries : list (string * list string)) :
  canonical (ResponseHeaders source entries).
Proof. rewrite ResponseHeaders_kept. apply canonical_add_kept, canonical_empty. Qed.

Lemma canonical_CacheMetadataHeaders (source : Header) (entries : list (string * list string)) :
  canonical (CacheMetadataHeaders source entries).
Proof.
  intros k. rewrite CacheMetadataHeaders_lookup. destruct (mem _ _); [by intros [? ?]|].
  apply canonical_ResponseHeaders.
Qed.

Lemma hasCacheDirective_spec (h : Header) (names : list string) :
  map ToLower names = names ->
  hasCacheDirective h names = true <->
  exists d, d ∈ cacheDirectives (Values h "Cache-Control") /\ name d ∈ names.
Proof.
  intros E. unfold hasCacheDirective. rewrite E, existsb_exists. setoid_rewrite mem_spec.
  setoid_rewrite <- list_elem_of_In. done.
Qed.

Lemma existsb_false {A : Type} (f : A -> bool) (l : list A) :
  existsb f l = false <-> forall x, x ∈ l -> f x = false.
Proof.
  rewrite <- not_true_iff_false, existsb_exists. split.
  - intros H x Hx%list_elem_of_In. apply not_true_iff_false. eauto.
  - intros H (x & Hx%list_elem_of_In & Hf). rewrite H in Hf by done. done.
Qed.

Lemma sensitiveRefused_false (explicitlyPublic : bool) (resp : Header) :
  sensitiveRefused explicitlyPublic resp = false <->
  forall n, n ∈ sensitiveResponseHeaders -> is_Some (resp !! CanonicalHeaderKey n) ->
  isCookieHeader n = true /\ explicitlyPublic = true.
Proof.
  unfold sensitiveRefused. rewrite existsb_false. split; intros H n Hn; specialize (H n Hn).
  - intros [v Hv]. rewrite Hv in H. simpl in H. apply negb_false_iff in H. by split_bool.
  - destruct (resp !! _); [|done]. by destruct (H ltac:(eauto)) as [-> ->].
Qed.

Lemma varyRefused_false (allowed : list string) (resp : Header) :
  varyRefused allowed resp = false <->
  forall part, part ∈ list_parts (Values resp "Vary") ->
    let dim := CanonicalHeaderKey (TrimSpace part) in
    dim = EmptyString \/ (dim <> "*" /\ dim ∈ allowed).
Proof.
  unfold varyRefused. rewrite existsb_false. split; intros H p Hp; specialize (H p Hp); simpl in *.
  - destruct (String.eqb_spec (CanonicalHeaderKey (TrimSpace p)) EmptyString); [by left|].
    destruct (String.eqb_spec (CanonicalHeaderKey (TrimSpace p)) "*"); [done|]. right.
    split; [done|]. apply mem_spec. by apply negb_false_iff.
  - destruct H as [-> | [Hne Hin]]; [done|]. destruct (String.eqb _ _); [done|].
    apply String.eqb_neq in Hne. rewrite Hne. apply mem_spec in Hin. by rewrite Hin.
Qed.

Lemma sanitize_header (request : Request) (via : list Request) (k : string) (vs : list string) :
  ReqHeader (sanitizeRedirectRequest request via) !! k = Some vs ->
  ReqHeader request !! k = Some vs
  /\ blockedRequestHeader (CanonicalHeaderKey k) = false
  /\ (CanonicalHeaderKey k = "Authorization" ->
      exists previous, last via = Some previous
        /\ sameOrigin (ReqURL previous) (ReqURL (sanitizeRedirectRequest request via)) = true).
Proof.
  unfold sanitizeRedirectRequest. cbn [ReqHeader ReqURL]. intros H.
  assert (stripBlockedRequestHeaders (ReqHeader request) !! k = Some vs) as Hb.
  { destruct (last via); [destruct (_ || _)|]; try done;
      by apply map_lookup_filter_Some in H as [? _]. }
  apply map_lookup_filter_Some in Hb as [Hk Hbl]. split_and!; [done|done|].
  intros Ha. assert (stripAuthorizationHeader (stripBlockedRequestHeaders (ReqHeader request)) !! k
    = None) as Hn by (apply map_lookup_filter_None; right; intros ? _ Hne; by apply Hne).
  destruct (last via) as [previous|]; [|congruence]. exists previous. split; [done|].
  destruct (match ReqURL request with Some u => is_Some_b (User u) | None => false end);
    simpl in H |- *; [congruence|].
  destruct (sameOrigin _ _); simpl in *; [done|congruence].
Qed.

Lemma sanitize_User (request : Request) (via : list Request) (u : URL) :
  ReqURL (sanitizeRedirectRequest request via) = Some u -> User u = None.
Proof.
  unfold sanitizeRedirectRequest. cbn [ReqURL].
  destruct (ReqURL request) as [v|]; simpl; [|done].
  destruct (User v) as [ui|] eqn:E; simpl; intros [= <-]; [done|exact E].
Qed.

(** [CopyHeaders] replaces each header named in the source and leaves the others. *)
Lemma lookup_CopyHeaders_notin (target : Header) (entries : list (string * list string)) (k : string) :
  k ∉ map (fun e => CanonicalHeaderKey (fst e)) entries ->
  CopyHeaders target entries !! k = target !! k.
Proof.
  unfold CopyHeaders. revert target.
  induction entries as [|[n vs] entries IH]; intros target Hk; simpl; [done|].
  simpl in Hk. apply not_elem_of_cons in Hk as [Hne Hk]. rewrite IH by done.
  rewrite lookup_AddAll_None, lookup_Del by done. by rewrite decide_False.
Qed.

Lemma vals_CopyHeaders (target source : Header) (entries : list (string * list string))
    (k : string) :
  canonical source -> entries ≡ₚ map_to_list source ->
  vals (CopyHeaders target entries) k
  = match source !! k with Some values => values | None => vals target k end.
Proof.
  intros Hc Hp. assert (forall n vs, (n, vs) ∈ entries <-> source !! n = Some vs) as Hin.
  { intros n vs. by rewrite Hp, elem_of_map_to_list. }
  assert (map (fun e => CanonicalHeaderKey (fst e)) entries = entries.*1) as Hkeys.
  { apply map_ext_in. intros [n vs] H%list_elem_of_In%Hin. apply Hc. simpl. by rewrite H. }
  assert (NoDup entries.*1) as Hnd by (rewrite Hp; apply NoDup_fst_map_to_list).
  destruct (source !! k) as [vs|] eqn:E.
  - apply Hin, list_elem_of_split in E as (l1 & l2 & ->).
    rewrite fmap_app in Hnd, Hkeys. simpl in Hnd. apply NoDup_app in Hnd as (_ & _ & Hnd).
    apply NoDup_cons in Hnd as [Hk _]. rewrite map_app in Hkeys.
    apply app_inj_1 in Hkeys as [_ [= Hk1 Hk2]]; [|by rewrite length_map, length_fmap].
    unfold CopyHeaders. rewrite foldl_app. simpl. unfold vals at 1.
    rewrite (lookup_CopyHeaders_notin _ l2) by exact (eq_ind_r (fun l => k ∉ l) Hk Hk2).
    fold (vals (AddAll (Del (foldl (fun t '(n, vs) => AddAll (Del t n) n vs) target l1) k) k vs) k).
    by rewrite vals_AddAll, vals_Del, Hk1, !decide_True.
  - unfold vals. rewrite lookup_CopyHeaders_notin; [done|]. rewrite Hkeys.
    intros ([n vs] & -> & H%Hin)%list_elem_of_fmap. simpl in E. congruence.
Qed.

(** Two errors that differ only in the URLs of their [*url.Error]s and in the messages
    wrapped around those. *)
Inductive same_but_urls : error -> error -> Prop :=
  | same_url op u1 u2 e1 e2 :
      same_but_urls e1 e2 -> same_but_urls (UrlError op u1 (Some e1)) (UrlError op u2 (Some e2))
  | same_url_nil op u1 u2 : same_but_urls (UrlError op u1 None) (UrlError op u2 None)
  | same_canceled : same_but_urls Canceled Canceled
  | same_leaf m : same_but_urls (GoError m None) (GoError m None)
  | same_wrap m e1 e2 :
      same_but_urls e1 e2 -> same_but_urls (GoError m (Some e1)) (GoError m (Some e2))
  | same_leaky m1 m2 e1 e2 :
      same_but_urls e1 e2 -> asUrlError e1 = true ->
      same_but_urls (GoError m1 (Some e1)) (GoError m2 (Some e2)).

Lemma same_but_urls_as (e1 e2 : error) : same_but_urls e1 e2 -> asUrlError e1 = asUrlError e2.
Proof. by induction 1. Qed.

(** ** Properties *)

(** C29: on any source header, in whatever order its entries are visited, forwarding
    never adds a cookie, proxy credential, one-time password, forwarded identity,
    hop-by-hop or connection-named header, nor [Authorization] unless the adapter
    asked for it: under all those names the upstream request is what it was. *)
Theorem no_client_credentials_forwarded (target source : Header)
    (entries : list (string * list string)) (fwd : bool) (k : string) :
  blockedRequestHeader k = true \/ isHopByHop k = true
  \/ k ∈ namedConnectionHeaders source \/ (k = "Authorization" /\ fwd = false) ->
  ForwardRequestHeaders target source entries fwd !! k = target !! k.
Proof.
  intros H. rewrite ForwardRequestHeaders_kept. apply lookup_add_kept_dropped.
  unfold forwarded. destruct H as [-> | [-> | [H | [-> ->]]]].
  - by rewrite !orb_true_r.
  - done.
  - apply mem_spec in H. rewrite H. by rewrite !orb_true_r.
  - by rewrite andb_false_r.
Qed.

(** Every other header of a request read by [net/http] is forwarded with its
    values, appended in order, and the result does not depend on the map order. *)
Theorem forwarded_headers_exact (target source : Header)
    (entries : list (string * list string)) (fwd : bool) (k : string) :
  canonical source -> entries ≡ₚ map_to_list source ->
  vals (ForwardRequestHeaders target source entries fwd) k
  = (vals target k ++ if forwarded source fwd k then vals source k else [])%list.
Proof. intros. rewrite ForwardRequestHeaders_kept. by apply vals_add_kept. Qed.

(** Nothing sensitive reaches the metadata on disk: whatever the response and
    the map order, no spelling of a sensitive response header, of [Age] or of
    [X-N0ding-Cache], no hop-by-hop and no connection-named header is left, and on
    a canonical response every other header keeps its values. *)
Theorem cached_metadata_headers_safe (source : Header) (entries : list (string * list string)) :
  (forall k n, is_Some (CacheMetadataHeaders source entries !! k) ->
     n ∈ sensitiveResponseHeaders -> CanonicalHeaderKey k <> CanonicalHeaderKey n)
  /\ (forall k, is_Some (CacheMetadataHeaders source entries !! k) ->
       k <> "Age" /\ k <> "X-N0ding-Cache" /\ isHopByHop k = false
       /\ k ∉ namedConnectionHeaders source)
  /\ (canonical source -> entries ≡ₚ map_to_list source -> forall k,
       isHopByHop k = false -> k ∉ namedConnectionHeaders source ->
       k ∉ droppedFromMetadata ->
       vals (CacheMetadataHeaders source entries) k = vals source k).
Proof.
  split_and!.
  - intros k n Hk Hn E. rewrite (canonical_CacheMetadataHeaders _ _ k Hk) in E.
    rewrite CacheMetadataHeaders_lookup in Hk.
    assert (mem k droppedFromMetadata = true) as Hm; [|rewrite Hm in Hk; by destruct Hk].
    apply mem_spec. unfold droppedFromMetadata. apply elem_of_app. left. rewrite E.
    apply list_elem_of_fmap. eauto.
  - intros k Hk. rewrite CacheMetadataHeaders_lookup in Hk.
    destruct (mem k droppedFromMetadata) eqn:Hm; [by destruct Hk|]. apply mem_false in Hm.
    split; [intros ->; apply Hm; vm_compute; set_solver|].
    split; [intros ->; apply Hm; vm_compute; set_solver|]. split.
    all: rewrite ResponseHeaders_kept in Hk; destruct (end_to_end source k) eqn:E;
      [|rewrite lookup_add_kept_dropped, lookup_empty in Hk by done; by destruct Hk].
    all: unfold end_to_end in E; split_bool; try done; by apply mem_false.
  - intros Hc Hp k Hh Hn Hd. apply mem_false in Hn, Hd.
    unfold vals at 1. rewrite CacheMetadataHeaders_lookup, Hd, ResponseHeaders_kept.
    fold (vals (add_kept (end_to_end source) ∅ entries) k).
    rewrite (vals_add_kept _ _ source) by done.
    unfold end_to_end. by rewrite vals_empty, Hh, Hn.
Qed.

(** C30: a response may be stored exactly when the client did not say [no-store], the
    response carries none of [no-cache], [no-store], [private] and no [Pragma:
    no-cache], every sensitive header present is a cookie of an explicitly public
    response, and every [Vary] dimension is one the cache key accounts for. *)
Theorem ResponseAllowsStorage_iff (req resp : Header) (allowedVary : list string) :
  ResponseAllowsStorage req resp allowedVary = true <->
  ~ (exists d, d ∈ cacheDirectives (Values req "Cache-Control") /\ name d = "no-store")
  /\ ~ (exists d, d ∈ cacheDirectives (Values resp "Cache-Control")
        /\ name d ∈ ["no-cache"; "no-store"; "private"])
  /\ containsToken (Values resp "Pragma") "no-cache" = false
  /\ (forall n, n ∈ sensitiveResponseHeaders -> is_Some (resp !! CanonicalHeaderKey n) ->
       isCookieHeader n = true
       /\ exists d, d ∈ cacheDirectives (Values resp "Cache-Control") /\ name d = "public")
  /\ (forall part, part ∈ list_parts (Values resp "Vary") ->
       let dim := CanonicalHeaderKey (TrimSpace part) in
       dim = EmptyString \/ (dim <> "*" /\ dim ∈ map CanonicalHeaderKey allowedVary)).
Proof.
  unfold ResponseAllowsStorage.
  assert (forall h n, map ToLower [n] = [n] -> hasCacheDirective h [n] = true <->
    exists d, d ∈ cacheDirectives (Values h "Cache-Control") /\ name d = n) as H1.
  { intros h n E. rewrite hasCacheDirective_spec by done.
    by setoid_rewrite list_elem_of_singleton. }
  rewrite <- (H1 req "no-store"), <- hasCacheDirective_spec by done.
  setoid_rewrite <- (H1 resp "public" eq_refl). clear H1.
  destruct (hasCacheDirective req _); [split; [done|intros (H & _); by destruct H]|].
  destruct (hasCacheDirective resp ["no-cache"; "no-store"; "private"]);
    [split; [done|intros (_ & H & _); by destruct H]|].
  destruct (containsToken _ _); [split; [done|by intros (_ & _ & ? & _)]|].
  rewrite <- sensitiveRefused_false, <- varyRefused_false.
  destruct (sensitiveRefused _ _); [split; [done|by intros (_ & _ & _ & ? & _)]|].
  rewrite negb_true_iff. naive_solver.
Qed.

(** Whatever a caller's own redirect hook does, a redirect that is followed
    carries no userinfo, no blocked header under any spelling, and [Authorization]
    only when its URL has the origin of the previous request; without such a hook
    at most ten requests are chained. *)
Theorem followed_redirects_safe (hook : option redirectHook) (request r : Request)
    (via : list Request) :
  CheckRedirect hook request via = (r, None) ->
  (forall u, ReqURL r = Some u -> User u = None)
  /\ (forall k, is_Some (ReqHeader r !! k) ->
       blockedRequestHeader (CanonicalHeaderKey k) = false
       /\ (CanonicalHeaderKey k = "Authorization" ->
           exists previous, last via = Some previous
             /\ sameOrigin (ReqURL previous) (ReqURL r) = true))
  /\ (hook = None -> (List.length via < 10)%nat).
Proof.
  intros H. assert (exists q, r = sanitizeRedirectRequest q via) as [q ->].
  { unfold CheckRedirect in H. destruct hook as [check|].
    - destruct (check _ _) as [q [e|]]; simplify_eq. by exists q.
    - destruct (_ <=? _)%nat; simplify_eq. by exists request. }
  split_and!.
  - intros u. apply sanitize_User.
  - intros k [vs Hk]. by apply sanitize_header in Hk as (_ & ? & ?).
  - intros ->. unfold CheckRedirect in H.
    destruct (Nat.leb_spec 10 (List.length via)); [done|lia].
Qed.

(** A caller may revalidate: the cache is bypassed exactly when some [Cache-Control]
    directive is [no-cache], [no-store] or a [max-age] of zero, quoted or not, or
    [Pragma] has the token [no-cache]. *)
Theorem RequestBypassesCache_iff (header : Header) :
  RequestBypassesCache header = true <->
  (exists d, d ∈ cacheDirectives (Values header "Cache-Control")
     /\ (name d ∈ ["no-cache"; "no-store"]
         \/ (name d = "max-age" /\ Trim (value d) quoteSet = "0")))
  \/ containsToken (Values header "Pragma") "no-cache" = true.
Proof.
  unfold RequestBypassesCache. rewrite orb_true_iff, existsb_exists.
  setoid_rewrite <- list_elem_of_In.
  enough (forall d : cacheDirective,
    (if mem (name d) ["no-cache"; "no-store"] then true
     else if (name d =? "max-age")%string then (Trim (value d) quoteSet =? "0")%string else false)
    = true <-> name d ∈ ["no-cache"; "no-store"]
      \/ (name d = "max-age" /\ Trim (value d) quoteSet = "0")) as H by (by setoid_rewrite H).
  intros d. rewrite <- mem_spec. destruct (mem _ _); [naive_solver|].
  destruct (String.eqb_spec (name d) "max-age"); [rewrite String.eqb_eq|]; naive_solver.
Qed.

(** [SafeError] never depends on the URL of a [*url.Error], however deep it is
    wrapped, nor on the message of a wrapper around one (which repeats the URL), so
    nothing of a URL, its userinfo or its query reaches a log line or a client. *)
Theorem SafeError_hides_urls (e1 e2 : error) :
  same_but_urls e1 e2 -> SafeError e1 = SafeError e2.
Proof.
  induction 1 as [op u1 u2 e1 e2 _ IH| | | |m e1 e2 H IH|m1 m2 e1 e2 H IH Hu]; simpl; try done.
  - by rewrite IH.
  - by rewrite IH, (same_but_urls_as _ _ H).
  - by rewrite <- (same_but_urls_as _ _ H), Hu.
Qed.

(** Copying the headers of a recorded or upstream response onto a reply is exact and
    independent of the map order: each name present in the source is replaced by the
    source's values, each other name is left alone. *)
Theorem CopyHeaders_exact (target source : Header) (entries : list (string * list string))
    (k : string) :
  canonical source -> entries ≡ₚ map_to_list source ->
  vals (CopyHeaders target entries) k
  = match source !! k with Some values => values | None => vals target k end.
Proof. intros Hc Hp. by apply vals_CopyHeaders. Qed.

(** ** The properties at concrete inputs *)

Definition client_headers : Header :=
  <["Cookie" := ["sid=1"]]> (<["X-Private" := ["p"]]> (<["Connection" := ["close, x-private"]]>
    (<["Accept" := ["*/*"]]> ∅))).

Lemma client_headers_canonical : canonical client_headers.
Proof.
  intros k [v Hk]. unfold client_headers in Hk.
  repeat (apply lookup_insert_Some in Hk as [[<- _]|[_ Hk]]; [reflexivity|]).
  by rewrite lookup_empty in Hk.
Qed.

Lemma no_client_credentials_forwarded_witness :
  ForwardRequestHeaders ∅ client_headers (map_to_list client_headers) false !! "Cookie"
  = (∅ : Header) !! "Cookie".
Proof.
  apply (no_client_credentials_forwarded ∅ client_headers _ false "Cookie").
  left. reflexivity.
Defined.

Lemma forwarded_headers_exact_witness :
  vals (ForwardRequestHeaders ∅ client_headers (map_to_list client_headers) false) "Accept"
  = ["*/*"].
Proof.
  transitivity (vals ∅ "Accept" ++ if forwarded client_headers false "Accept"
                                   then vals client_headers "Accept" else [])%list;
    [|vm_compute; reflexivity].
  apply (forwarded_headers_exact ∅ client_headers); [apply client_headers_canonical | reflexivity].
Defined.

Definition redirect_to (url : string) : Request :=
  mkRequest "GET" (Parse url)
    (<["Authorization" := ["Bearer t"]]> (<["cookie" := ["sid=1"]]> ∅)).

Lemma followed_redirects_safe_witness :
  let r := fst (CheckRedirect None (redirect_to "https://u:p@cdn.test/x")
                  [redirect_to "https://cdn.test/"]) in
  ReqHeader r = ∅ /\ forall u, ReqURL r = Some u -> User u = None.
Proof.
  split; [vm_compute; reflexivity|].
  apply (followed_redirects_safe None (redirect_to "https://u:p@cdn.test/x") _
           [redirect_to "https://cdn.test/"]).
  vm_compute. reflexivity.
Defined.

Lemma SafeError_hides_urls_witness :
  SafeError (GoError "fetch https://u:secret@a failed" (Some (UrlError "Get" "https://u:secret@a"
     (Some (GoError "refused" None))))) = "Get: refused"
  /\ forall url, SafeError (UrlError "Get" url (Some (GoError "refused" None))) = "Get: refused".
Proof.
  split; [reflexivity|]. intros url.
  rewrite (SafeError_hides_urls _ (UrlError "Get" EmptyString (Some (GoError "refused" None)))
    (same_url "Get" url EmptyString _ _ (same_leaf "refused"))). reflexivity.
Defined.

Lemma CopyHeaders_exact_witness :
  vals (CopyHeaders (<["Accept" := ["old"]]> ∅) (map_to_list client_headers)) "Accept" = ["*/*"].
Proof.
  apply (CopyHeaders_exact _ client_headers); [apply client_headers_canonical | reflexivity].
Defined.
