(* ===== verification/Strconv.v ===== *)
(** * Text conversions of the Go standard library

    [unicode/utf8], [strconv.Unquote], [strconv.ParseFloat], [os.Expand] and
    [time.ParseDuration].  A recursion that consumes a variable number of bytes
    is fuelled by the length of its input, of which every step consumes a byte. *)

From S2P Require Import Prelude Float GoStrings.
From Stdlib Require Import Ascii String SpecFloat.
Local Open Scope string_scope.
Local Open Scope Z_scope.

(** ** [unicode/utf8] *)

Definition RuneError : Z := 65533.

Definition cont (c : ascii) : bool := between 128 191 (byte c).

(** The first rune of a string and the rest; an invalid byte is [RuneError]. *)
Definition DecodeRune (s : string) : option (Z * string) :=
  match s with
  | EmptyString => None
  | String a s1 =>
      let invalid := Some (RuneError, s1) in
      let a := byte a in
      if a <? 128 then Some (a, s1)
      else match s1 with
           | EmptyString => invalid
           | String b s2 =>
               if between 194 223 a then
                 if cont b then Some ((a - 192) * 64 + (byte b - 128), s2) else invalid
               else match s2 with
                    | EmptyString => invalid
                    | String c s3 =>
                        if between 224 239 a then
                          let lo := if a =? 224 then 160 else 128 in
                          let hi := if a =? 237 then 159 else 191 in
                          if between lo hi (byte b) && cont c
                          then Some ((a - 224) * 4096 + (byte b - 128) * 64 + (byte c - 128), s3)
                          else invalid
                        else match s3 with
                             | EmptyString => invalid
                             | String d s4 =>
                                 let lo := if a =? 240 then 144 else 128 in
                                 let hi := if a =? 244 then 143 else 191 in
                                 if between 240 244 a && between lo hi (byte b) && cont c && cont d
                                 then Some ((a - 240) * 262144 + (byte b - 128) * 4096
                                            + (byte c - 128) * 64 + (byte d - 128), s4)
                                 else invalid
                             end
                    end
           end
  end.

(** [bytes.ReplaceAll]: an empty [old] matches before every rune and at the end. *)
Fixpoint interleave (fuel : nat) (s new : string) : string :=
  new ++ match fuel, DecodeRune s with
         | S fuel, Some (_, rest) =>
             substring 0 (String.length s - String.length rest) s ++ interleave fuel rest new
         | _, _ => EmptyString
         end.

Definition ReplaceAll (s old new : string) : string :=
  if (old =? EmptyString)%string then interleave (String.length s) s new else replace_from 0 s old new.

Definition ValidRune (r : Z) : bool := between 0 55295 r || between 57344 1114111 r.

Definition bytes_of (l : list Z) : string := fold_right (fun z s => String (chr z) s) EmptyString l.

Definition EncodeRune (r : Z) : string :=
  let r := if ValidRune r then r else RuneError in
  if r <? 128 then bytes_of [r]
  else if r <? 2048 then bytes_of [192 + r / 64; 128 + r mod 64]
  else if r <? 65536 then bytes_of [224 + r / 4096; 128 + r / 64 mod 64; 128 + r mod 64]
  else bytes_of [240 + r / 262144; 128 + r / 4096 mod 64; 128 + r / 64 mod 64; 128 + r mod 64].

(** ** [strconv.Unquote] of a double-quoted string *)

Definition quote : ascii := "034".
Definition backslash : ascii := "092".
Definition newline : ascii := "010".

(** [n] hexadecimal digits. *)
Fixpoint hex_digits (n : nat) (acc : Z) (s : string) : option (Z * string) :=
  match n, s with
  | O, _ => Some (acc, s)
  | S n, String c s => x ← hexValue c; hex_digits n (16 * acc + x) s
  | S _, EmptyString => None
  end.

Fixpoint octal_digits (n : nat) (acc : Z) (s : string) : option (Z * string) :=
  match n, s with
  | O, _ => Some (acc, s)
  | S n, String c s =>
      if between 48 55 (byte c) then octal_digits n (8 * acc + (byte c - 48)) s else None
  | S _, EmptyString => None
  end.

(** The bytes the first character of a quoted string stands for, and the rest. *)
Definition UnquoteChar (s : string) : option (string * string) :=
  match s with
  | EmptyString => None
  | String c s1 =>
      if Ascii.eqb c quote then None
      else if 128 <=? byte c then '(r, rest) ← DecodeRune s; Some (EncodeRune r, rest)
      else if negb (Ascii.eqb c backslash) then Some (String c EmptyString, s1)
      else match s1 with
           | EmptyString => None
           | String c s2 =>
               let simple z := Some (String (chr z) EmptyString, s2) in
               let rune v rest := if ValidRune v then Some (EncodeRune v, rest) else None in
               match byte c with
               | 97 => simple 7 | 98 => simple 8 | 102 => simple 12 | 110 => simple 10
               | 114 => simple 13 | 116 => simple 9 | 118 => simple 11
               | 92 => simple 92 | 34 => simple 34
               | 120 => '(v, rest) ← hex_digits 2 0 s2; Some (String (chr v) EmptyString, rest)
               | 117 => '(v, rest) ← hex_digits 4 0 s2; rune v rest
               | 85 => '(v, rest) ← hex_digits 8 0 s2; rune v rest
               | z =>
                   if between 48 55 z then
                     '(v, rest) ← octal_digits 3 0 s1;
                     if 255 <? v then None else Some (String (chr v) EmptyString, rest)
                   else None
               end
           end
  end.

Fixpoint unquote_body (fuel : nat) (s : string) : option (string * string) :=
  match fuel, s with
  | S fuel, String c s1 =>
      if Ascii.eqb c quote then Some (EmptyString, s1)
      else
        '(out, rest) ← UnquoteChar s;
        if Ascii.eqb c newline then None
        else
          '(value, rest) ← unquote_body fuel rest;
          Some (out ++ value, rest)
  | _, _ => None
  end.

(** The caller has checked that [s] starts with a double quote. *)
Definition Unquote (s : string) : option string :=
  match s with
  | String _ body =>
      '(value, rest) ← unquote_body (String.length body) body;
      if (rest =? EmptyString)%string then Some value else None
  | EmptyString => None
  end.

(** ** [os.Expand] *)

Definition isShellSpecialVar (c : ascii) : bool :=
  isDigit c || contains_byte c "*#$@!?-".

Definition isAlphaNum (c : ascii) : bool :=
  Ascii.eqb c "_" || isDigit c || isLower c || isUpper c.

(** The longest prefix of bytes satisfying [P], and the rest. *)
Fixpoint span (P : ascii -> bool) (s : string) : string * string :=
  match s with
  | String c s' => if P c then let '(l, r) := span P s' in (String c l, r) else (EmptyString, s)
  | EmptyString => (EmptyString, EmptyString)
  end.

(** The variable named after a dollar sign and the rest of the string; the flag
    tells a name that is empty because of bad syntax. *)
Definition getShellName (s : string) : string * string * bool :=
  match s with
  | String "{" s1 =>
      match s1 with
      | String c (String "}" rest) =>
          if isShellSpecialVar c then (String c EmptyString, rest, false)
          else
            let '(name, _) := span (fun d => negb (Ascii.eqb d "}")) s1 in
            if (name =? EmptyString)%string then (EmptyString, String "}" rest, true)
            else (name, rest, false)
      | _ =>
          match span (fun d => negb (Ascii.eqb d "}")) s1 with
          | (name, String _ rest) => (name, rest, (name =? EmptyString)%string)
          | (_, EmptyString) => (EmptyString, s1, true)
          end
      end
  | String c rest =>
      if isShellSpecialVar c then (String c EmptyString, rest, false)
      else let '(name, rest) := span isAlphaNum s in (name, rest, false)
  | EmptyString => (EmptyString, EmptyString, false)
  end.

Fixpoint expand (fuel : nat) (s : string) (mapping : string -> string) : string :=
  match fuel, s with
  | S fuel, String c rest =>
      if Ascii.eqb c "$" && negb (rest =? EmptyString)%string then
        let '(name, rest, bad) := getShellName rest in
        (if bad then EmptyString
         else if (name =? EmptyString)%string then String c EmptyString
         else mapping name) ++ expand fuel rest mapping
      else String c (expand fuel rest mapping)
  | _, _ => EmptyString
  end.

(** [ExpandEnv] is [Expand] of the environment lookup. *)
Definition Expand (s : string) (mapping : string -> string) : string :=
  expand (String.length s) s mapping.

(** ** [time.ParseDuration]

    A duration is a number of nanoseconds. *)

Definition two63 : Z := 9223372036854775808.

(** The integer before a decimal point; [None] when it exceeds [2^63]. *)
Fixpoint leadingInt (x : Z) (s : string) : option (Z * string) :=
  match s with
  | String c s' =>
      if isDigit c then
        if two63 / 10 <? x then None
        else
          let x := x * 10 + (byte c - 48) in
          if two63 <? x then None else leadingInt x s'
      else Some (x, s)
  | EmptyString => Some (x, s)
  end.

(** The digits after a decimal point and their scale, as far as they fit. *)
Fixpoint leadingFraction (x : Z) (scale : float64) (overflow : bool) (s : string)
    : Z * float64 * string :=
  match s with
  | String c s' =>
      if isDigit c then
        if overflow then leadingFraction x scale overflow s'
        else if maxInt64 / 10 <? x then leadingFraction x scale true s'
        else
          let y := x * 10 + (byte c - 48) in
          if two63 <? y then leadingFraction x scale true s'
          else leadingFraction y (f64_mul scale (f64_of_Z 10)) false s'
      else (x, scale, s)
  | EmptyString => (x, scale, s)
  end.

(** "µs" with the micro sign and with the Greek letter mu. *)
Definition micro_sign : string := bytes_of [194; 181; 115].
Definition greek_mu : string := bytes_of [206; 188; 115].

Definition unitMap (unit : string) : option Z :=
  if (unit =? "ns")%string then Some 1
  else if existsb (String.eqb unit) ["us"; micro_sign; greek_mu] then Some 1000
  else if (unit =? "ms")%string then Some 1000000
  else if (unit =? "s")%string then Some 1000000000
  else if (unit =? "m")%string then Some 60000000000
  else if (unit =? "h")%string then Some 3600000000000
  else None.

(** One number and its unit: the nanoseconds and the rest. *)
Definition duration_term (s : string) : option (Z * string) :=
  match s with
  | EmptyString => None
  | String c _ =>
      if negb (Ascii.eqb c "." || isDigit c) then None
      else
        '(v, rest) ← leadingInt 0 s;
        let pre := negb (String.length s =? String.length rest)%nat in
        let '(f, scale, rest, post) :=
          match rest with
          | String "." r =>
              let '(f, scale, r') := leadingFraction 0 (f64_of_Z 1) false r in
              (f, scale, r', negb (String.length r =? String.length r')%nat)
          | _ => (0, f64_of_Z 1, rest, false)
          end in
        if negb pre && negb post then None
        else
          let '(u, rest) := span (fun c => negb (Ascii.eqb c "." || isDigit c)) rest in
          if (u =? EmptyString)%string then None
          else
            unit ← unitMap u;
            if two63 / unit <? v then None
            else
              let v := v * unit in
              let v :=
                if 0 <? f
                then v + f64_trunc (f64_mul (f64_of_Z f) (f64_div (f64_of_Z unit) scale))
                else v in
              if two63 <? v then None else Some (v, rest)
  end.

Fixpoint duration_terms (fuel : nat) (d : Z) (s : string) : option Z :=
  match fuel, s with
  | _, EmptyString => Some d
  | S fuel, _ =>
      '(v, rest) ← duration_term s;
      let d := wrapU64 (d + v) in
      if two63 <? d then None else duration_terms fuel d rest
  | O, _ => None
  end.

Definition ParseDuration (s : string) : option Z :=
  let '(neg, s) :=
    match s with
    | String "-" s' => (true, s')
    | String "+" s' => (false, s')
    | _ => (false, s)
    end in
  if (s =? "0")%string then Some 0
  else if (s =? EmptyString)%string then None
  else
    d ← duration_terms (String.length s) 0 s;
    if neg then Some (wrap64 (- wrap64 d))
    else if maxInt64 <? d then None else Some d.

(** ** [strconv.ParseFloat(s, 64)] *)

Definition eq_fold (c : ascii) (letter : ascii) : bool := Ascii.eqb (lower c) letter.

(** Underscores only between digits, or between a digit and a base prefix; [saw]
    is the last thing seen: a digit, an underscore or another byte. *)
Inductive saw_kind := SawStart | SawDigit | SawUnderscore | SawOther.

Fixpoint underscores (hex : bool) (saw : saw_kind) (s : string) : bool :=
  match s with
  | EmptyString => match saw with SawUnderscore => false | _ => true end
  | String c s' =>
      if isDigit c || (hex && between 97 102 (byte (lower c))) then underscores hex SawDigit s'
      else if Ascii.eqb c "_" then
        match saw with SawDigit => underscores hex SawUnderscore s' | _ => false end
      else match saw with SawUnderscore => false | _ => underscores hex SawOther s' end
  end.

Definition underscoreOK (s : string) : bool :=
  let s := match s with String "-" r => r | String "+" r => r | _ => s end in
  match s with
  | String "0" (String c r) =>
      if eq_fold c "b" || eq_fold c "o" || eq_fold c "x"
      then underscores (eq_fold c "x") SawDigit r
      else underscores false SawStart s
  | _ => underscores false SawStart s
  end.

(** The mantissa digits: their value, how many follow the point, whether a point
    and a digit were seen, and the rest. *)
Fixpoint mantissa (base : Z) (s : string) (acc fraction : Z) (sawdot sawdigits : bool)
    : Z * Z * bool * string :=
  match s with
  | EmptyString => (acc, fraction, sawdigits, s)
  | String c s' =>
      if Ascii.eqb c "_" then mantissa base s' acc fraction sawdot sawdigits
      else if Ascii.eqb c "." then
        if sawdot then (acc, fraction, sawdigits, s)
        else mantissa base s' acc fraction true sawdigits
      else
        let digit :=
          if isDigit c then Some (byte c - 48)
          else if (base =? 16) && between 97 102 (byte (lower c)) then Some (byte (lower c) - 87)
          else None in
        match digit with
        | Some d =>
            mantissa base s' (acc * base + d) (if sawdot then fraction + 1 else fraction)
              sawdot true
        | None => (acc, fraction, sawdigits, s)
        end
  end.

(** The digits of an exponent, saturating above ten thousand; they end the text. *)
Fixpoint exponent_digits (e : Z) (s : string) : option Z :=
  match s with
  | EmptyString => Some e
  | String c s' =>
      if Ascii.eqb c "_" then exponent_digits e s'
      else if isDigit c then
        exponent_digits (if e <? 10000 then e * 10 + (byte c - 48) else e) s'
      else None
  end.

Definition exponent (s : string) : option Z :=
  let digits (s : string) :=
    match s with
    | String c _ => if isDigit c then exponent_digits 0 s else None
    | EmptyString => None
    end in
  match s with
  | String "+" s' => digits s'
  | String "-" s' => Z.opp <$> digits s'
  | _ => digits s
  end.

Definition special (s : string) : option float64 :=
  let '(sign, neg, rest) :=
    match s with
    | String "-" r => (true, true, r)
    | String "+" r => (true, false, r)
    | _ => (false, false, s)
    end in
  let lowered := str_map lower rest in
  if (lowered =? "inf")%string || (lowered =? "infinity")%string then Some (S754_infinity neg)
  else if negb sign && (lowered =? "nan")%string then Some S754_nan
  else None.

(** The double nearest to [m * base^e], where the base is 2 or 10. *)
Definition nearest (neg : bool) (base m e : Z) : float64 :=
  if base =? 16 then f64_scaled neg m e
  else match m, 10 ^ (- e) with
       | Zpos m, Zpos d => if 0 <=? e then f64_scaled neg (Zpos m * 10 ^ e) 0
                           else f64_quotient neg m d
       | Zpos m, _ => f64_scaled neg (Zpos m * 10 ^ e) 0
       | _, _ => S754_zero neg
       end.

Definition ParseFloat (s : string) : option float64 :=
  match special s with
  | Some f => Some f
  | None =>
      let '(neg, body) :=
        match s with
        | String "-" r => (true, r)
        | String "+" r => (false, r)
        | _ => (false, s)
        end in
      let '(base, digits) :=
        match body with
        | String "0" (String c (String d r)) =>
            if eq_fold c "x" then (16, String d r) else (10, body)
        | _ => (10, body)
        end in
      let '(m, fraction, sawdigits, rest) := mantissa base digits 0 0 false false in
      if negb sawdigits then None
      else
        let places := if base =? 16 then 4 * fraction else fraction in
        e ← match rest with
            | EmptyString => if base =? 16 then None else Some 0
            | String c r => if eq_fold c (if (base =? 16)%Z then "p"%char else "e"%char)
                            then exponent r else None
            end;
        if contains_byte "_" s && negb (underscoreOK s) then None
        else
          let f := nearest neg base m (e - places) in
          if IsInf f then None else Some f
  end.

(** ** Examples *)

Definition dq (s : string) : string := String quote (s ++ String quote EmptyString).

Example Unquote_examples :
  map Unquote [dq "a#b"; dq "a\\b\n\x41\101\u00e9"; dq "a" ++ "b"; dq "\q"; String quote "a"]
  = [Some "a#b"; Some ("a\b" ++ bytes_of [10; 65; 65; 195; 169]); None; None; None].
Proof. vm_compute. reflexivity. Qed.

Example Expand_examples :
  map (fun s => Expand s (fun name => "<" ++ name ++ ">"))
    ["$HOME/x"; "a${A b}c"; "$$"; "100$"; "${}y"; "${zz"; "$ z"; "$1x"]
  = ["<HOME>/x"; "a<A b>c"; "<$>"; "100$"; "y"; "zz"; "$ z"; "<1>x"].
Proof. vm_compute. reflexivity. Qed.

Example ParseDuration_examples :
  map ParseDuration ["24h"; "1h30m"; "1.5s"; "-2ms"; "0"; EmptyString; "3"; "1d"; ".5us"; "."; "+5s";
                     "9223372036854775808ns"; "-9223372036854775808ns"; "1e3s"; "720h0.000000001s"]
  = [Some 86400000000000; Some 5400000000000; Some 1500000000; Some (-2000000); Some 0; None; None;
     None; Some 500; None; Some 5000000000; None; Some minInt64; None; Some 2592000000000001].
Proof. vm_compute. reflexivity. Qed.

Example ParseFloat_examples :
  map ParseFloat ["0.9"; "9e-1"; "1_0"; "0x1p-1"; "inf"; "-Infinity"; "nan"; "+nan"; "1e400"; ".";
                  "1e"; "-0"; "0.75x"; "5e-324"]
  = [Some (S754_finite false 8106479329266893 (-53)); Some (S754_finite false 8106479329266893 (-53));
     Some (S754_finite false 5629499534213120 (-49)); Some (S754_finite false 4503599627370496 (-53));
     Some (S754_infinity false);
     Some (S754_infinity true); Some S754_nan; None; None; None; None; Some (S754_zero true); None;
     Some (S754_finite false 1 (-1074))].
Proof. vm_compute. reflexivity. Qed.

(** ** Quoting

    A double-quoted form of any byte string; [Unquote] reads it back. *)

Definition quote_char (c : ascii) : string :=
  if Ascii.eqb c quote || Ascii.eqb c backslash then String backslash (String c EmptyString)
  else if (byte c <? 32) || (126 <? byte c)
  then String backslash (String "x" (hex_EncodeToString [byte c]))
  else String c EmptyString.

Fixpoint quote_body (s : string) : string :=
  match s with
  | EmptyString => EmptyString
  | String c s' => quote_char c ++ quote_body s'
  end.

Definition Quote (s : string) : string := String quote (quote_body s ++ String quote EmptyString).

Lemma hex_byte (c : ascii) :
  exists h l, hex_EncodeToString [byte c] = String h (String l EmptyString)
    /\ forall rest, hex_digits 2 0 (String h (String l rest)) = Some (byte c, rest).
Proof.
  pose proof (byte_range c). eexists _, _. split; [reflexivity|]. intros rest. simpl.
  assert (0 <= byte c / 16 < 16) by (split; [apply Z.div_pos | apply Z.div_lt_upper_bound]; lia).
  assert (0 <= byte c mod 16 < 16) by (apply Z.mod_pos_bound; lia).
  pose proof (Z.div_mod (byte c) 16).
  rewrite !hexValue_hexDigit by done.
  simpl. do 2 f_equal. lia.
Qed.

Lemma unquote_step (fuel : nat) (c : ascii) (rest : string) :
  unquote_body (S fuel) (quote_char c ++ rest)
  = '(value, rest) ← unquote_body fuel rest; Some (String c value, rest).
Proof.
  unfold quote_char.
  destruct (Ascii.eqb_spec c quote) as [->|Hq]; [reflexivity|].
  destruct (Ascii.eqb_spec c backslash) as [->|Hb]; [reflexivity|]. cbn [orb].
  destruct ((byte c <? 32) || (126 <? byte c)) eqn:E.
  - destruct (hex_byte c) as (h & l & -> & Hd). cbn [String.append].
    assert (UnquoteChar (String backslash (String "x" (String h (String l rest))))
      = Some (String c EmptyString, rest)) as Hu.
    { transitivity ('(v, rest) ← hex_digits 2 0 (String h (String l rest));
        Some (String (chr v) EmptyString, rest)); [reflexivity|]. rewrite Hd. cbn.
      by rewrite chr_byte. }
    cbn [unquote_body]. rewrite Hu. cbn.
    by destruct (unquote_body fuel rest) as [[]|].
  - apply orb_false_iff in E as [E1 E2]. apply Z.ltb_ge in E1, E2.
    assert (Ascii.eqb c newline = false) as Hn.
    { apply Ascii.eqb_neq. intros ->. by compute in E1. }
    apply Ascii.eqb_neq in Hq, Hb. cbn [String.append unquote_body].
    rewrite Hq. unfold UnquoteChar. rewrite Hq, Hb, Hn.
    replace (128 <=? byte c) with false by (symmetry; apply Z.leb_gt; lia). cbn.
    by destruct (unquote_body fuel rest) as [[]|].
Qed.

Lemma length_quote_body (s : string) : (String.length s <= String.length (quote_body s))%nat.
Proof.
  induction s as [|c s IH]; simpl; [lia|]. rewrite length_app_str. unfold quote_char.
  destruct (_ || _); [simpl; lia|]. destruct (_ || _); simpl; lia.
Qed.

Lemma unquote_body_quote (s rest : string) (fuel : nat) :
  (String.length s < fuel)%nat ->
  unquote_body fuel (quote_body s ++ String quote rest) = Some (s, rest).
Proof.
  revert fuel. induction s as [|c s IH]; intros [|fuel] Hf; simpl in Hf; try lia; [done|].
  cbn [quote_body]. rewrite app_assoc_str, unquote_step, IH by lia. done.
Qed.

Lemma Unquote_Quote (s : string) : Unquote (Quote s) = Some s.
Proof.
  unfold Unquote, Quote. rewrite unquote_body_quote; [done|].
  rewrite length_app_str. pose proof (length_quote_body s). simpl. lia.
Qed.

(** ** UTF-8 *)

Ltac decode_byte :=
  rewrite ?byte_chr by lia; cbv zeta;
  repeat match goal with
  | |- context [?x <? ?y] => destruct (Z.ltb_spec x y); try lia
  | |- context [?x =? ?y] => destruct (Z.eqb_spec x y); try lia
  | |- context [?x <=? ?y] => destruct (Z.leb_spec x y); try lia
  end; cbn [andb orb].

(** The bytes of the encodings, by the number of bytes. *)
Lemma EncodeRune_cases (r : Z) : ValidRune r = true ->
  (0 <= r < 128 /\ EncodeRune r = bytes_of [r])
  \/ (128 <= r < 2048 /\ EncodeRune r = bytes_of [192 + r / 64; 128 + r mod 64])
  \/ (2048 <= r < 65536 /\ (r < 55296 \/ 57343 < r)
      /\ EncodeRune r = bytes_of [224 + r / 64 / 64; 128 + r / 64 mod 64; 128 + r mod 64])
  \/ (65536 <= r < 1114112
      /\ EncodeRune r = bytes_of [240 + r / 64 / 64 / 64; 128 + r / 64 / 64 mod 64;
                                  128 + r / 64 mod 64; 128 + r mod 64]).
Proof.
  intros H. unfold EncodeRune. rewrite H. unfold ValidRune, between in H.
  rewrite !Z.div_div by lia. change (64 * 64) with 4096. change (4096 * 64) with 262144.
  destruct (Z.ltb_spec r 128); [left; split; [|done]|right].
  { apply orb_true_iff in H as [H|H]; split_bool; lia. }
  destruct (Z.ltb_spec r 2048); [left; split; [lia|done]|right].
  destruct (Z.ltb_spec r 65536); [left|right; split; [|done]];
    apply orb_true_iff in H as [H|H]; split_bool; split_and?; (lia || done).
Qed.

(** Names the groups of six bits of a rune. *)
Ltac rune_parts r :=
  pose proof (Z.div_mod r 64 ltac:(lia)); pose proof (Z.mod_pos_bound r 64 eq_refl);
  pose proof (Z.div_mod (r / 64) 64 ltac:(lia)); pose proof (Z.mod_pos_bound (r / 64) 64 eq_refl);
  pose proof (Z.div_mod (r / 64 / 64) 64 ltac:(lia));
  pose proof (Z.mod_pos_bound (r / 64 / 64) 64 eq_refl);
  let q := fresh in set (q := r / 64) in *;
  let q2 := fresh in set (q2 := q / 64) in *;
  let q3 := fresh in set (q3 := q2 / 64) in *;
  let m0 := fresh in set (m0 := r mod 64) in *;
  let m1 := fresh in set (m1 := q mod 64) in *;
  let m2 := fresh in set (m2 := q2 mod 64) in *;
  clearbody m0 m1 m2 q3; clearbody q2; clearbody q.

Lemma DecodeRune_Encode (r : Z) (rest : string) :
  ValidRune r = true -> DecodeRune (EncodeRune r ++ rest) = Some (r, rest).
Proof.
  intros [[Hr ->]|[[Hr ->]|[(Hr & Hs & ->)|[Hr ->]]]]%EncodeRune_cases;
    cbn [bytes_of fold_right String.append DecodeRune]; unfold cont, between;
    rune_parts r.
  - by decode_byte.
  - decode_byte. do 2 f_equal. lia.
  - decode_byte; do 2 f_equal; lia.
  - decode_byte; do 2 f_equal; lia.
Qed.
