(* ===== verification/Config.v ===== *)
(** * The configuration file: [internal/config]

    [Parse] reads lines of [key = value] under [[section]] headers and validates
    the result; [Load] reads a file and resolves its relative paths.  The
    environment [os.ExpandEnv] consults is the argument [getenv].  Error values keep
    what the source's messages carry, one constructor per message. *)

From S2P Require Import Prelude Float GoStrings FilePath Url Strconv.
From Stdlib Require Import Ascii String SpecFloat.
Local Open Scope string_scope.
Local Open Scope Z_scope.
Local Open Scope go_scope.

(** ** Data *)

Record Server := mkServer { Listen : string; PublicBaseURL : string; Log : string }.

Inductive Level := LevelDebug | LevelInfo | LevelWarn | LevelError.

Definition LogLevel (s : Server) : Level :=
  let log := ToLower (Log s) in
  if (log =? "debug")%string then LevelDebug
  else if (log =? "warn")%string then LevelWarn
  else if (log =? "error")%string then LevelError
  else LevelInfo.

(** The [Storage] section; [Path] is [StoragePath] here. *)
Record Storage := mkStorage {
  StoragePath : string;
  MaxAge : Z;
  GCInterval : Z;
  StaleTempAge : Z;
  MaxBytes : Z;
  HighWatermark : float64;
  LowWatermark : float64;
  MinFreeBytes : Z
}.

Record Operator := mkOperator { TokenFile : string }.

Record Repository := mkRepository {
  Name : string;
  Type_ : string;
  Path : string;
  Upstream : string;
  TTL : Z;
  ForwardAuthorization : bool;
  PublishTokenFile : string;
  AllowedFileOrigins : list string
}.

Record Config := mkConfig {
  server : Server;
  storage : Storage;
  operator : Operator;
  Repositories : list Repository
}.

Definition second : Z := 1000000000.
Definition hour : Z := 3600 * second.

(** The literals 0.90 and 0.75. *)
Definition f64_0_90 : float64 := f64_quotient false 9 10.
Definition f64_0_75 : float64 := f64_quotient false 3 4.

(** The configuration [Parse] starts from. *)
Definition defaults : Config :=
  mkConfig (mkServer ":8080" "http://localhost:8080" "info")
    (mkStorage "./data" (30 * 24 * hour) hour hour 0 f64_0_90 f64_0_75 0)
    (mkOperator EmptyString) [].

Definition new_repository (name : string) : Repository :=
  mkRepository name name ("/" ++ name ++ "/") EmptyString (24 * hour) false EmptyString [].

(** ** Errors *)

Inductive line_error :=
  | EmptyRepositoryName
  | ExpectedKeyValue
  | EmptyValue
  | InvalidQuotedValue
  | UnknownKey (section key : string)
  | InvalidValue (key : string)
  | KeyOutsideSection.

Inductive validation_error :=
  | ListenEmpty
  | PublicURLNotAbsolute
  | PublicURLScheme
  | StoragePathEmpty
  | MaxAgeNotPositive
  | GCIntervalNotPositive
  | StaleTempAgeNotPositive
  | MaxBytesNegative
  | MinFreeBytesNegative
  | LowWatermarkRange
  | HighWatermarkRange
  | NoRepository
  | InvalidName (name : string)
  | DuplicateName (name : string)
  | UnsupportedType (name type : string)
  | OCIPath (name : string)
  | PublishTokenUnsupported (name : string)
  | PyPIPath (name : string)
  | PathSlashes (name : string)
  | DuplicateRoute (previous name route : string)
  | UpstreamNotAbsolute (name : string)
  | UpstreamScheme (name : string)
  | TTLNotPositive (name : string)
  | OriginNotAbsolute (name : string)
  | OriginScheme (name : string)
  | OriginExtra (name : string).

Inductive config_error :=
  | OpenConfig
  | ParseConfig (path : string) (e : config_error)
  | Line (number : Z) (e : line_error)
  | ScannerError
  | Invalid (e : validation_error).

(** ** Values *)

Fixpoint strip_from (quoted escaped : bool) (line : string) : string :=
  match line with
  | EmptyString => EmptyString
  | String c rest =>
      if escaped then String c (strip_from quoted false rest)
      else if Ascii.eqb c backslash && quoted then String c (strip_from quoted true rest)
      else if Ascii.eqb c Strconv.quote then String c (strip_from (negb quoted) false rest)
      else if Ascii.eqb c "#" && negb quoted then EmptyString
      else String c (strip_from quoted false rest)
  end.

(** The source ranges over runes; it only compares them with ASCII characters, and
    no byte of a longer rune is one, so the loop over bytes is the same. *)
Definition stripComment (line : string) : string := strip_from false false line.

Definition parseValue (raw : string) : result line_error string :=
  if (raw =? EmptyString)%string then Err EmptyValue
  else if HasPrefix raw (String Strconv.quote EmptyString) then
    match Unquote raw with
    | Some value => Ok value
    | None => Err InvalidQuotedValue
    end
  else Ok raw.

Definition splitCSV (value : string) : list string :=
  List.filter nonempty (map TrimSpace (Split value ",")).

Definition name_byte (first : bool) (c : ascii) : bool :=
  isLower c || isDigit c
  || (negb first && (Ascii.eqb c "." || Ascii.eqb c "_" || Ascii.eqb c "-")).

Definition validRepositoryName (name : string) : bool :=
  if (name =? EmptyString)%string || (63 <? Z.of_nat (String.length name))
     || (name =? ".")%string || (name =? "..")%string
  then false
  else match name with
       | String c rest => name_byte true c && str_forall (name_byte false) rest
       | EmptyString => true
       end.

Definition valued {A : Type} (key : string) (v : option A) : result line_error A :=
  match v with Some v => Ok v | None => Err (InvalidValue key) end.

Definition int_valued (key value : string) : result line_error Z :=
  match ParseInt value with Ok v => Ok v | Err _ => Err (InvalidValue key) end.

(** ** Sections *)

Definition set_server_key (s : Server) (key value : string) : result line_error Server :=
  if (key =? "listen")%string then Ok (mkServer value (PublicBaseURL s) (Log s))
  else if (key =? "public_base_url")%string then Ok (mkServer (Listen s) value (Log s))
  else if (key =? "log_level")%string then Ok (mkServer (Listen s) (PublicBaseURL s) value)
  else Err (UnknownKey "server" key).

Definition set_storage_key (s : Storage) (key value : string) : result line_error Storage :=
  let '(mkStorage path maxAge gcInterval staleTempAge maxBytes high low minFree) := s in
  if (key =? "path")%string then
    Ok (mkStorage value maxAge gcInterval staleTempAge maxBytes high low minFree)
  else if (key =? "max_age")%string then
    let? v := valued key (ParseDuration value) in
    Ok (mkStorage path v gcInterval staleTempAge maxBytes high low minFree)
  else if (key =? "gc_interval")%string then
    let? v := valued key (ParseDuration value) in
    Ok (mkStorage path maxAge v staleTempAge maxBytes high low minFree)
  else if (key =? "stale_temp_age")%string then
    let? v := valued key (ParseDuration value) in
    Ok (mkStorage path maxAge gcInterval v maxBytes high low minFree)
  else if (key =? "max_bytes")%string then
    let? v := int_valued key value in
    Ok (mkStorage path maxAge gcInterval staleTempAge v high low minFree)
  else if (key =? "high_watermark")%string then
    let? v := valued key (ParseFloat value) in
    Ok (mkStorage path maxAge gcInterval staleTempAge maxBytes v low minFree)
  else if (key =? "low_watermark")%string then
    let? v := valued key (ParseFloat value) in
    Ok (mkStorage path maxAge gcInterval staleTempAge maxBytes high v minFree)
  else if (key =? "min_free_bytes")%string then
    let? v := int_valued key value in
    Ok (mkStorage path maxAge gcInterval staleTempAge maxBytes high low v)
  else Err (UnknownKey "storage" key).

Definition set_operator_key (o : Operator) (key value : string) : result line_error Operator :=
  if (key =? "token_file")%string then Ok (mkOperator value)
  else Err (UnknownKey "operator" key).

Definition set_repository_key (r : Repository) (key value : string)
    : result line_error Repository :=
  let '(mkRepository name type path upstream ttl forward tokenFile origins) := r in
  if (key =? "type")%string then
    Ok (mkRepository name value path upstream ttl forward tokenFile origins)
  else if (key =? "path")%string then
    Ok (mkRepository name type value upstream ttl forward tokenFile origins)
  else if (key =? "upstream")%string then
    Ok (mkRepository name type path value ttl forward tokenFile origins)
  else if (key =? "ttl")%string then
    let? v := valued key (ParseDuration value) in
    Ok (mkRepository name type path upstream v forward tokenFile origins)
  else if (key =? "forward_authorization")%string then
    let? v := valued key (ParseBool value) in
    Ok (mkRepository name type path upstream ttl v tokenFile origins)
  else if (key =? "publish_token_file")%string then
    Ok (mkRepository name type path upstream ttl forward value origins)
  else if (key =? "allowed_file_origins")%string then
    Ok (mkRepository name type path upstream ttl forward tokenFile (splitCSV value))
  else Err (UnknownKey "repository" key).

(** ** [Parse] *)

(** The loop's variables; [current] is the index of the repository pointed to. *)
Record parser := mkParser { cfg : Config; section : string; current : option nat }.

Definition set_section (p : parser) (line : string) : result line_error parser :=
  let section := TrimSpace (TrimSuffix (TrimPrefix line "[") "]") in
  if HasPrefix section "repository." then
    let name := TrimSpace (TrimPrefix section "repository.") in
    if (name =? EmptyString)%string then Err EmptyRepositoryName
    else
      let c := cfg p in
      let repositories := (Repositories c ++ [new_repository name])%list in
      Ok (mkParser (mkConfig (server c) (storage c) (operator c) repositories) section
            (Some (List.length repositories - 1)%nat))
  else Ok (mkParser (cfg p) section None).

Definition set_key (p : parser) (key value : string) : result line_error parser :=
  let c := cfg p in
  if (section p =? "server")%string then
    let? s := set_server_key (server c) key value in
    Ok (mkParser (mkConfig s (storage c) (operator c) (Repositories c)) (section p) (current p))
  else if (section p =? "storage")%string then
    let? s := set_storage_key (storage c) key value in
    Ok (mkParser (mkConfig (server c) s (operator c) (Repositories c)) (section p) (current p))
  else if (section p =? "operator")%string then
    let? o := set_operator_key (operator c) key value in
    Ok (mkParser (mkConfig (server c) (storage c) o (Repositories c)) (section p) (current p))
  else
    match current p with
    | None => Err KeyOutsideSection
    | Some i =>
        match Repositories c !! i with
        | None => Err KeyOutsideSection (* [current] points into the list *)
        | Some repo =>
            let? repo := set_repository_key repo key value in
            Ok (mkParser (mkConfig (server c) (storage c) (operator c)
                            (<[i := repo]> (Repositories c))) (section p) (current p))
        end
    end.

(** The body of the loop over lines. *)
Definition parse_line (getenv : string -> string) (p : parser) (text : string)
    : result line_error parser :=
  let line := TrimSpace (stripComment text) in
  if (line =? EmptyString)%string then Ok p
  else if HasPrefix line "[" && HasSuffix line "]" then set_section p line
  else
    match Cut line "=" with
    | (_, _, false) => Err ExpectedKeyValue
    | (key, rawValue, true) =>
        let? value := parseValue (TrimSpace rawValue) in
        set_key p (TrimSpace key) (Expand value getenv)
    end.

Fixpoint parse_lines (getenv : string -> string) (lineNumber : Z) (p : parser)
    (lines : list string) : result config_error parser :=
  match lines with
  | [] => Ok p
  | text :: lines =>
      match parse_line getenv p text with
      | Ok p => parse_lines getenv (lineNumber + 1) p lines
      | Err e => Err (Line lineNumber e)
      end
  end.

(** [bufio.ScanLines]: the lines up to one that does not fit the scanner's buffer of
    [maxScanTokenSize] bytes, and whether there is such a line. *)
Definition maxScanTokenSize : Z := 65536.

Definition dropCR (line : string) : string := TrimSuffix line (String "013" EmptyString).

Fixpoint scan_lines (pieces : list string) : list string * bool :=
  match pieces with
  | [] => ([], false)
  | piece :: pieces =>
      if maxScanTokenSize <=? Z.of_nat (String.length piece) then ([], true)
      else match pieces with
           | [] => (if nonempty piece then [dropCR piece] else [], false)
           | _ => let '(lines, tooLong) := scan_lines pieces in (dropCR piece :: lines, tooLong)
           end
  end.

Definition ScanLines (content : string) : list string * bool :=
  scan_lines (Split content newline).

(** What a reader yields: its content, and whether it then fails. *)
Record Reader := mkReader { content : string; readError : bool }.

(** ** [Validate] *)

(** [url.Parse] succeeds with a scheme and a host. *)
Definition absolute_url (raw : string) : option URL :=
  u ← Parse raw;
  if (Scheme u =? EmptyString)%string || (Host u =? EmptyString)%string then None else Some u.

Definition http_scheme (u : URL) : bool :=
  (Scheme u =? "http")%string || (Scheme u =? "https")%string.

Definition oops (b : bool) (e : validation_error) : result validation_error unit :=
  if b then Err e else Ok tt.

Definition validate_origin (repo : Repository) (origin : string) : result validation_error unit :=
  match absolute_url origin with
  | None => Err (OriginNotAbsolute (Name repo))
  | Some parsed =>
      let? _ := oops (negb (http_scheme parsed)) (OriginScheme (Name repo)) in
      oops (is_Some_b (User parsed) || nonempty (RawQuery parsed) || nonempty (Fragment parsed)
            || (nonempty (Url.Path parsed) && negb (Url.Path parsed =? "/")%string))
        (OriginExtra (Name repo))
  end.

Fixpoint validate_origins (repo : Repository) (origins : list string)
    : result validation_error unit :=
  match origins with
  | [] => Ok tt
  | origin :: origins =>
      let? _ := validate_origin repo origin in
      validate_origins repo origins
  end.

Definition register_route (paths : gmap string string) (name route : string)
    : result validation_error (gmap string string) :=
  match paths !! route with
  | Some previous => Err (DuplicateRoute previous name route)
  | None => Ok (<[route := name]> paths)
  end.

(** The route of the files of a PyPI repository. *)
Definition filePath (repo : Repository) : string := TrimSuffix (Path repo) "simple/" ++ "files/".

(** The body of the loop over repositories, with the maps [paths] and [names]. *)
Definition validate_repository (paths : gmap string string) (names : gset string)
    (repo : Repository) : result validation_error (gmap string string * gset string) :=
  let name := Name repo in
  let has_type type := (Type_ repo =? type)%string in
  let? _ := oops (negb (validRepositoryName name)) (InvalidName name) in
  let? _ := oops (bool_decide (name ∈ names)) (DuplicateName name) in
  let names := {[ name ]} ∪ names in
  let? _ := oops (negb (has_type "npm") && negb (has_type "oci") && negb (has_type "pypi"))
              (UnsupportedType name (Type_ repo)) in
  let? _ := oops (has_type "oci" && negb (Path repo =? "/v2/")%string) (OCIPath name) in
  let? _ := oops (nonempty (PublishTokenFile repo) && negb (has_type "pypi"))
              (PublishTokenUnsupported name) in
  let? _ := oops (has_type "pypi" && negb (HasSuffix (Path repo) "/simple/")) (PyPIPath name) in
  let? _ := oops (negb (HasPrefix (Path repo) "/") || negb (HasSuffix (Path repo) "/"))
              (PathSlashes name) in
  let? paths := register_route paths name (Path repo) in
  let? paths := if has_type "pypi" then register_route paths name (filePath repo) else Ok paths in
  match absolute_url (Upstream repo) with
  | None => Err (UpstreamNotAbsolute name)
  | Some upstream =>
      let? _ := oops (negb (http_scheme upstream)) (UpstreamScheme name) in
      let? _ := oops (TTL repo <=? 0) (TTLNotPositive name) in
      let? _ := validate_origins repo (AllowedFileOrigins repo) in
      Ok (paths, names)
  end.

Fixpoint validate_repositories (paths : gmap string string) (names : gset string)
    (repositories : list Repository) : result validation_error unit :=
  match repositories with
  | [] => Ok tt
  | repo :: repositories =>
      let? seen := validate_repository paths names repo in
      validate_repositories (fst seen) (snd seen) repositories
  end.

Definition one : float64 := f64_of_Z 1.
Definition zero : float64 := f64_of_Z 0.

Definition Validate (c : Config) : result validation_error unit :=
  let s := storage c in
  let? _ := oops (TrimSpace (Listen (server c)) =? EmptyString)%string ListenEmpty in
  match absolute_url (PublicBaseURL (server c)) with
  | None => Err PublicURLNotAbsolute
  | Some publicURL =>
      let? _ := oops (negb (http_scheme publicURL)) PublicURLScheme in
      let? _ := oops (TrimSpace (StoragePath s) =? EmptyString)%string StoragePathEmpty in
      let? _ := oops (MaxAge s <=? 0) MaxAgeNotPositive in
      let? _ := oops (GCInterval s <=? 0) GCIntervalNotPositive in
      let? _ := oops (StaleTempAge s <=? 0) StaleTempAgeNotPositive in
      let? _ := oops (MaxBytes s <? 0) MaxBytesNegative in
      let? _ := oops (MinFreeBytes s <? 0) MinFreeBytesNegative in
      let? _ := oops (IsNaN (LowWatermark s) || IsInf (LowWatermark s)
                      || f64_leb (LowWatermark s) zero || f64_leb one (LowWatermark s))
                  LowWatermarkRange in
      let? _ := oops (IsNaN (HighWatermark s) || IsInf (HighWatermark s)
                      || f64_leb (HighWatermark s) (LowWatermark s) || f64_leb one (HighWatermark s))
                  HighWatermarkRange in
      let? _ := oops (List.length (Repositories c) =? 0)%nat NoRepository in
      validate_repositories ∅ ∅ (Repositories c)
  end.

(** ** [Parse] and [Load] *)

Definition Parse (getenv : string -> string) (reader : Reader) : result config_error Config :=
  let '(lines, tooLong) := ScanLines (content reader) in
  let? p := parse_lines getenv 1 (mkParser defaults EmptyString None) lines in
  if tooLong || readError reader then Err ScannerError
  else match Validate (cfg p) with
       | Ok _ => Ok (cfg p)
       | Err e => Err (Invalid e)
       end.

(** A path of the file, relative to the directory of [path]. *)
Definition resolve_path (path value : string) : string :=
  Clean (filepath_Join [Dir path; value]).

Definition resolve_optional (path value : string) : string :=
  if nonempty value && negb (IsAbs value) then resolve_path path value else value.

Definition resolve_repository (path : string) (r : Repository) : Repository :=
  mkRepository (Name r) (Type_ r) (Path r) (Upstream r) (TTL r) (ForwardAuthorization r)
    (resolve_optional path (PublishTokenFile r)) (AllowedFileOrigins r).

(** [file] is what opening [path] gives, [None] when it fails. *)
Definition Load (getenv : string -> string) (path : string) (file : option Reader)
    : result config_error Config :=
  match file with
  | None => Err OpenConfig
  | Some reader =>
      match Parse getenv reader with
      | Err e => Err (ParseConfig path e)
      | Ok c =>
          let s := storage c in
          let storagePath :=
            if IsAbs (StoragePath s) then StoragePath s else resolve_path path (StoragePath s) in
          Ok (mkConfig (server c)
                (mkStorage storagePath (MaxAge s) (GCInterval s) (StaleTempAge s) (MaxBytes s)
                   (HighWatermark s) (LowWatermark s) (MinFreeBytes s))
                (mkOperator (resolve_optional path (TokenFile (operator c))))
                (map (resolve_repository path) (Repositories c)))
      end
  end.

(** ** What a valid configuration is *)

Definition http_url (raw : string) (P : URL -> Prop) : Prop :=
  exists u, Url.Parse raw = Some u /\ Scheme u ∈ ["http"; "https"] /\ Host u <> EmptyString /\ P u.

Definition any_url (u : URL) : Prop := True.

(** An origin: no userinfo, query, fragment or path but the root. *)
Definition bare_origin (u : URL) : Prop :=
  User u = None /\ RawQuery u = EmptyString /\ Fragment u = EmptyString
  /\ Url.Path u ∈ [EmptyString; "/"].

Definition routes (repo : Repository) : list string :=
  if (Type_ repo =? "pypi")%string then [Path repo; filePath repo] else [Path repo].

Record valid_repository (repo : Repository) : Prop := {
  vr_name : validRepositoryName (Name repo) = true;
  vr_type : Type_ repo ∈ ["npm"; "oci"; "pypi"];
  vr_oci : Type_ repo = "oci" -> Path repo = "/v2/";
  vr_token : PublishTokenFile repo <> EmptyString -> Type_ repo = "pypi";
  vr_pypi : Type_ repo = "pypi" -> HasSuffix (Path repo) "/simple/" = true;
  vr_path : HasPrefix (Path repo) "/" = true /\ HasSuffix (Path repo) "/" = true;
  vr_upstream : http_url (Upstream repo) any_url;
  vr_ttl : 0 < TTL repo;
  vr_origins : Forall (fun o => http_url o bare_origin) (AllowedFileOrigins repo)
}.

Record valid_storage (s : Storage) : Prop := {
  vs_path : TrimSpace (StoragePath s) <> EmptyString;
  vs_durations : 0 < MaxAge s /\ 0 < GCInterval s /\ 0 < StaleTempAge s;
  vs_bytes : 0 <= MaxBytes s /\ 0 <= MinFreeBytes s;
  vs_low : f64_ltb zero (LowWatermark s) = true /\ f64_ltb (LowWatermark s) one = true;
  vs_high : f64_ltb (LowWatermark s) (HighWatermark s) = true
            /\ f64_ltb (HighWatermark s) one = true
}.

Record valid (c : Config) : Prop := {
  v_listen : TrimSpace (Listen (server c)) <> EmptyString;
  v_public : http_url (PublicBaseURL (server c)) any_url;
  v_storage : valid_storage (storage c);
  v_some : Repositories c <> [];
  v_repositories : Forall valid_repository (Repositories c);
  v_names : NoDup (map Name (Repositories c));
  v_routes : NoDup (List.concat (map routes (Repositories c)))
}.

(** ** Lemmas *)

Lemma oops_Ok {A : Type} (b : bool) (e : validation_error) (k : result validation_error A) (a : A) :
  (let? _ := oops b e in k) = Ok a <-> b = false /\ k = Ok a.
Proof. destruct b; simpl; naive_solver. Qed.

Lemma oops_Ok_last (b : bool) (e : validation_error) : oops b e = Ok tt <-> b = false.
Proof. destruct b; simpl; naive_solver. Qed.

Lemma string_eqb_false (s t : string) : (s =? t)%string = false <-> s <> t.
Proof. apply String.eqb_neq. Qed.

Lemma nonempty_spec (s : string) : nonempty s = true <-> s <> EmptyString.
Proof. unfold nonempty. rewrite negb_true_iff. apply String.eqb_neq. Qed.

Lemma http_scheme_spec (u : URL) : http_scheme u = true <-> Scheme u ∈ ["http"; "https"].
Proof.
  unfold http_scheme. rewrite orb_true_iff, !String.eqb_eq, !elem_of_cons, elem_of_nil. tauto.
Qed.

Lemma http_url_spec (raw : string) (P : URL -> Prop) :
  http_url raw P <-> exists u, absolute_url raw = Some u /\ http_scheme u = true /\ P u.
Proof.
  unfold http_url, absolute_url. setoid_rewrite http_scheme_spec.
  destruct (Url.Parse raw) as [u|]; simpl; [|naive_solver].
  destruct ((Scheme u =? EmptyString)%string || (Host u =? EmptyString)%string) eqn:E.
  - split; [|naive_solver]. intros (v & [= <-] & Hs & Hh & _). exfalso.
    apply orb_true_iff in E as [E|E]; apply String.eqb_eq in E; [|done].
    rewrite E, !elem_of_cons, elem_of_nil in Hs. naive_solver.
  - apply orb_false_iff in E as [_ E]. apply String.eqb_neq in E. naive_solver.
Qed.

Lemma bare_origin_spec (u : URL) :
  is_Some_b (User u) || nonempty (RawQuery u) || nonempty (Fragment u)
  || (nonempty (Url.Path u) && negb (Url.Path u =? "/")%string) = false <-> bare_origin u.
Proof.
  unfold bare_origin, nonempty.
  rewrite !orb_false_iff, andb_false_iff, !negb_false_iff, !String.eqb_eq, !elem_of_cons, elem_of_nil.
  unfold is_Some_b. destruct (User u); naive_solver.
Qed.

Lemma validate_origin_spec (repo : Repository) (o : string) :
  validate_origin repo o = Ok tt <-> http_url o bare_origin.
Proof.
  unfold validate_origin. rewrite http_url_spec.
  destruct (absolute_url o) as [u|]; [|naive_solver].
  rewrite oops_Ok, oops_Ok_last, negb_false_iff, bare_origin_spec. naive_solver.
Qed.

Lemma validate_origins_spec (repo : Repository) (os : list string) :
  validate_origins repo os = Ok tt <-> Forall (fun o => http_url o bare_origin) os.
Proof.
  induction os as [|o os IH]; simpl; [by split|]. rewrite Forall_cons.
  rewrite <- (validate_origin_spec repo). unfold result_bind.
  destruct (validate_origin repo o) as [[]|]; [rewrite IH|]; naive_solver.
Qed.

Lemma register_route_Ok (paths paths' : gmap string string) (name route : string) :
  register_route paths name route = Ok paths'
  <-> (route ∉ dom paths) /\ paths' = <[route := name]> paths.
Proof.
  unfold register_route. rewrite not_elem_of_dom. destruct (paths !! route); naive_solver.
Qed.

(** The map of routes after a repository. *)
Definition registered (paths : gmap string string) (repo : Repository) : gmap string string :=
  foldl (fun m route => <[route := Name repo]> m) paths (routes repo).

Lemma register_routes_Ok (paths paths' : gmap string string) (repo : Repository) :
  (let? paths := register_route paths (Name repo) (Path repo) in
   if (Type_ repo =? "pypi")%string then register_route paths (Name repo) (filePath repo)
   else Ok paths) = Ok paths'
  <-> NoDup (routes repo) /\ Forall (fun r => r ∉ dom paths) (routes repo)
      /\ paths' = registered paths repo.
Proof.
  unfold registered, routes. destruct (register_route paths _ _) as [p1|e] eqn:E; simpl.
  - apply register_route_Ok in E as [Hn ->]. destruct (Type_ repo =? "pypi")%string; simpl.
    + rewrite register_route_Ok, dom_insert, not_elem_of_union, not_elem_of_singleton.
      rewrite !Forall_cons, Forall_nil, !NoDup_cons, list_elem_of_singleton.
      pose proof (not_elem_of_nil (filePath repo)). pose proof (NoDup_nil_2 (A := string)).
      naive_solver.
    + rewrite Forall_singleton. pose proof (NoDup_singleton (Path repo)). naive_solver.
  - split; [done|]. intros (_ & Hn & _). exfalso.
    assert (register_route paths (Name repo) (Path repo) = Ok (<[Path repo := Name repo]> paths));
      [|congruence]. apply register_route_Ok. split; [|done]. by destruct (Type_ repo =? "pypi")%string; apply Forall_cons in Hn as [? _].
Qed.

Lemma type_spec (repo : Repository) :
  negb (Type_ repo =? "npm")%string && negb (Type_ repo =? "oci")%string
  && negb (Type_ repo =? "pypi")%string = false <-> Type_ repo ∈ ["npm"; "oci"; "pypi"].
Proof.
  rewrite !andb_false_iff, !negb_false_iff, !String.eqb_eq, !elem_of_cons, elem_of_nil. tauto.
Qed.

Lemma implies_b (b : bool) (P : Prop) (c : bool) :
  (c = true <-> P) -> b && negb c = false <-> (b = true -> P).
Proof. intros <-. destruct b, c; simpl; intuition congruence. Qed.

Lemma validate_repository_Ok (paths : gmap string string) (names : gset string)
    (repo : Repository) (seen : gmap string string * gset string) :
  validate_repository paths names repo = Ok seen <->
  valid_repository repo /\ (Name repo ∉ names) /\ NoDup (routes repo)
  /\ Forall (fun r => r ∉ dom paths) (routes repo)
  /\ seen = (registered paths repo, {[ Name repo ]} ∪ names).
Proof.
  unfold validate_repository. cbv zeta.
  rewrite !oops_Ok, result_bind_assoc, result_bind_Ok. setoid_rewrite register_routes_Ok.
  rewrite negb_false_iff, bool_decide_eq_false, type_spec, !orb_false_iff, !negb_false_iff.
  rewrite (implies_b _ (Path repo = "/v2/")) by apply String.eqb_eq.
  rewrite (implies_b _ (Type_ repo = "pypi")) by apply String.eqb_eq.
  rewrite (implies_b _ (HasSuffix (Path repo) "/simple/" = true)) by done.
  rewrite nonempty_spec, !String.eqb_eq.
  assert (forall p, match absolute_url (Upstream repo) with
      | None => Err (UpstreamNotAbsolute (Name repo))
      | Some upstream =>
          let? _ := oops (negb (http_scheme upstream)) (UpstreamScheme (Name repo)) in
          let? _ := oops (TTL repo <=? 0) (TTLNotPositive (Name repo)) in
          let? _ := validate_origins repo (AllowedFileOrigins repo) in
          Ok (p, {[ Name repo ]} ∪ names)
      end = Ok seen <->
    http_url (Upstream repo) any_url /\ 0 < TTL repo
    /\ Forall (fun o => http_url o bare_origin) (AllowedFileOrigins repo)
    /\ seen = (p, {[ Name repo ]} ∪ names)) as Hurl.
  { intros p. rewrite http_url_spec. destruct (absolute_url _) as [u|]; [|naive_solver].
    rewrite !oops_Ok, result_bind_Ok, negb_false_iff, Z.leb_gt.
    setoid_rewrite <- (validate_origins_spec repo). unfold any_url.
    split; [intros (? & ? & [] & ? & ?); naive_solver|naive_solver]. }
  setoid_rewrite Hurl. split.
  - intros (? & ? & ? & ? & ? & ? & [? ?] & p & (? & ? & ->) & ? & ? & ? & ->). by split_and!.
  - intros ([] & ? & ? & ? & ->). split_and!; try tauto. eexists. split_and!; done.
Qed.

Lemma elem_of_dom_registered (paths : gmap string string) (repo : Repository) (r : string) :
  r ∈ dom (registered paths repo) <-> r ∈ routes repo \/ r ∈ dom paths.
Proof. unfold registered, routes. destruct (_ =? _)%string; simpl; set_solver. Qed.

Lemma validate_repositories_Ok (repos : list Repository) (paths : gmap string string)
    (names : gset string) :
  validate_repositories paths names repos = Ok tt <->
  Forall valid_repository repos
  /\ NoDup (map Name repos) /\ Forall (fun n => n ∉ names) (map Name repos)
  /\ NoDup (List.concat (map routes repos))
  /\ Forall (fun r => r ∉ dom paths) (List.concat (map routes repos)).
Proof.
  revert paths names. induction repos as [|repo repos IH]; intros paths names; simpl.
  { split; [|done]. intros _. do 4 (split; [constructor|]). constructor. }
  rewrite result_bind_Ok. setoid_rewrite validate_repository_Ok.
  rewrite !Forall_cons, !NoDup_cons, NoDup_app, Forall_app.
  setoid_rewrite IH. rewrite !Forall_forall. split.
  - intros (seen & (? & ? & ? & ? & ->) & ? & ? & Hn & ? & Hp). simpl in *.
    setoid_rewrite not_elem_of_union in Hn. setoid_rewrite not_elem_of_singleton in Hn.
    setoid_rewrite elem_of_dom_registered in Hp. rewrite Forall_forall in Hn, Hp.
    assert (Name repo ∉ map Name repos) by (intros Hin; by destruct (Hn _ Hin)).
    assert (Forall (fun n => n ∉ names) (map Name repos))
      by (apply Forall_forall; intros n Hin; by destruct (Hn _ Hin)).
    assert (Forall (fun r => r ∉ dom paths) (List.concat (map routes repos)))
      by (apply Forall_forall; intros r Hr Hr'; apply (Hp r Hr); by right).
    split_and!; try done; [|by apply Forall_forall].
    intros r Hr Hr'. apply (Hp r Hr'). by left.
  - intros ([? ?] & [Hni ?] & [? Hn] & (? & Hd & ?) & ? & Hp).
    rewrite Forall_forall in Hn, Hp.
    exists (registered paths repo, {[Name repo]} ∪ names). split; simpl.
    { split_and!; try done. by apply Forall_forall. }
    do 2 (split; [done|]). split.
    { apply Forall_forall. intros n Hin.
      rewrite not_elem_of_union, not_elem_of_singleton. split; [by intros ->|by apply Hn]. }
    split; [done|]. apply Forall_forall. intros r Hr [Hr'|Hr']%elem_of_dom_registered;
      [by apply (Hd r)|by apply (Hp r)].
Qed.

(** *** Comparison of doubles *)

Lemma SFcompare_swap (x y : float64) : SFcompare y x = CompOpp <$> SFcompare x y.
Proof.
  destruct x as [[]|[]| |[] m1 e1], y as [[]|[]| |[] m2 e2]; simpl; try done.
  - rewrite (Z.compare_antisym e1 e2). destruct (Z.compare e1 e2); simpl; try done.
    rewrite (Pos.compare_cont_antisym m1 m2 Eq). by destruct (Pos.compare_cont Eq m1 m2).
  - rewrite (Z.compare_antisym e1 e2). destruct (Z.compare e1 e2); simpl; try done.
    rewrite (Pos.compare_cont_antisym m1 m2 Eq). by destruct (Pos.compare_cont Eq m1 m2).
Qed.

(** Of two doubles neither of which is NaN, [x <= y] fails exactly when [y < x]. *)
Lemma leb_false_ltb (x y : float64) :
  IsNaN x = false -> IsNaN y = false -> f64_leb x y = false <-> f64_ltb y x = true.
Proof.
  intros Hx Hy. unfold f64_leb, f64_ltb, SFleb, SFltb. rewrite (SFcompare_swap x y).
  destruct (SFcompare x y) as [[]|] eqn:E; simpl; try done.
  by destruct x as [[]|[]| |[]], y as [[]|[]| |[]].
Qed.

Lemma ltb_not_nan (x y : float64) : f64_ltb x y = true -> IsNaN x = false /\ IsNaN y = false.
Proof. destruct x as [[]|[]| |[]], y as [[]|[]| |[]]; try done. Qed.

Lemma watermark_spec (low x : float64) :
  IsNaN low = false -> low <> S754_infinity true \/ low = zero ->
  IsNaN x || IsInf x || f64_leb x low || f64_leb one x = false
  <-> f64_ltb low x = true /\ f64_ltb x one = true.
Proof.
  intros Hl Hi. rewrite !orb_false_iff. split.
  - intros [[[Hn _] H1] H2]. by rewrite <- !leb_false_ltb.
  - intros [H1 H2]. destruct (ltb_not_nan _ _ H1) as [_ Hn].
    rewrite !leb_false_ltb by done. split_and!; try done.
    destruct x as [|[]| |]; try done.
    destruct low as [[]|[]| |[]]; try done; by destruct Hi.
Qed.

Lemma Validate_storage (s : Storage) :
  valid_storage s <->
  (TrimSpace (StoragePath s) =? EmptyString)%string = false
  /\ (MaxAge s <=? 0) = false /\ (GCInterval s <=? 0) = false /\ (StaleTempAge s <=? 0) = false
  /\ (MaxBytes s <? 0) = false /\ (MinFreeBytes s <? 0) = false
  /\ IsNaN (LowWatermark s) || IsInf (LowWatermark s)
     || f64_leb (LowWatermark s) zero || f64_leb one (LowWatermark s) = false
  /\ IsNaN (HighWatermark s) || IsInf (HighWatermark s)
     || f64_leb (HighWatermark s) (LowWatermark s) || f64_leb one (HighWatermark s) = false.
Proof.
  rewrite String.eqb_neq, !Z.leb_gt, !Z.ltb_ge, (watermark_spec zero) by (done || by right).
  assert (f64_ltb zero (LowWatermark s) = true /\ f64_ltb (LowWatermark s) one = true ->
    IsNaN (HighWatermark s) || IsInf (HighWatermark s)
    || f64_leb (HighWatermark s) (LowWatermark s) || f64_leb one (HighWatermark s) = false
    <-> f64_ltb (LowWatermark s) (HighWatermark s) = true
        /\ f64_ltb (HighWatermark s) one = true) as Hhigh.
  { intros [H1 H2]. apply watermark_spec; [by destruct (ltb_not_nan _ _ H1)|].
    left. intros E. by rewrite E in H1. }
  split.
  - intros [? ? ? Hl ?]. rewrite Hhigh by done. tauto.
  - intros (? & ? & ? & ? & ? & ? & Hl & Hh). apply Hhigh in Hh; [|done]. by split.
Qed.

(** *** Lines *)

(** The bytes of the keys of the file. *)
Definition key_byte (c : ascii) : bool := isLower c || Ascii.eqb c "_".

Lemma key_byte_cases (c : ascii) : key_byte c = true -> byte c = 95 \/ 97 <= byte c <= 122.
Proof.
  unfold key_byte, isLower, between. intros [H|H]%orb_true_iff; [split_bool; lia|].
  left. by apply Ascii.eqb_eq in H as ->.
Qed.

Lemma strip_key (key rest : string) :
  str_forall key_byte key = true -> strip_from false false (key ++ rest)
  = key ++ strip_from false false rest.
Proof.
  induction key as [|c key IH]; intros Hk; [done|]. cbn [str_forall] in Hk. split_bool.
  assert (key_byte c = true) as Hc%key_byte_cases by done. cbn [String.append strip_from].
  rewrite andb_false_r. destruct (Ascii.eqb_spec c Strconv.quote) as [->|]; [by exfalso; revert Hc; vm_compute; intuition congruence|].
  destruct (Ascii.eqb_spec c "#") as [->|]; [by exfalso; revert Hc; vm_compute; intuition congruence|]. cbn. f_equal. by apply IH.
Qed.

(** Inside the quotes nothing is a comment. *)
Lemma strip_quote_char (c : ascii) (rest : string) :
  strip_from true false (quote_char c ++ rest) = quote_char c ++ strip_from true false rest.
Proof.
  unfold quote_char. destruct (Ascii.eqb_spec c Strconv.quote) as [->|Hq]; [done|].
  destruct (Ascii.eqb_spec c backslash) as [->|Hb]; [done|]. cbn [orb].
  destruct (_ || _).
  - destruct (hex_byte c) as (h & l & E & _). rewrite E.
    assert (forall z, 0 <= z < 16 -> Ascii.eqb (hexDigit z) Strconv.quote = false
      /\ Ascii.eqb (hexDigit z) backslash = false) as Hhex.
    { intros z Hz. assert (Forall (fun z => Ascii.eqb (hexDigit z) Strconv.quote = false
        /\ Ascii.eqb (hexDigit z) backslash = false) (seqZ 0 16)) as Hall
        by (vm_compute; repeat constructor).
      rewrite Forall_forall in Hall. apply Hall, elem_of_seqZ. lia. }
    injection E as <- <-. pose proof (byte_range c).
    destruct (Hhex (byte c / 16)) as [H1 H2];
      [split; [apply Z.div_pos | apply Z.div_lt_upper_bound]; lia|].
    destruct (Hhex (byte c mod 16)) as [H3 H4]; [apply Z.mod_pos_bound; lia|].
    cbn. rewrite H1, H2. cbn. by rewrite H3, H4, !andb_false_r.
  - apply Ascii.eqb_neq in Hq, Hb. cbn. by rewrite Hb, Hq, andb_false_r.
Qed.

Lemma strip_quoted (s rest : string) :
  strip_from true false (quote_body s ++ String Strconv.quote rest)
  = quote_body s ++ String Strconv.quote (strip_from false false rest).
Proof.
  induction s as [|c s IH]; [done|]. cbn [quote_body].
  by rewrite !app_assoc_str, strip_quote_char, IH.
Qed.

(** A line that sets a key to any value, with a comment. *)
Definition setting (key value comment : string) : string :=
  key ++ " = " ++ Quote value ++ " #" ++ comment.

Lemma stripComment_setting (key value comment : string) :
  str_forall key_byte key = true ->
  stripComment (setting key value comment) = key ++ " = " ++ Quote value ++ " ".
Proof.
  intros Hk. unfold stripComment, setting. rewrite strip_key by done. f_equal.
  unfold Quote. cbn [String.append]. rewrite app_assoc_str. cbn [strip_from].
  cbn. rewrite strip_quoted. cbn. by rewrite app_assoc_str.
Qed.

Lemma key_byte_visible (c : ascii) : key_byte c = true -> visible c.
Proof. intros H%key_byte_cases. unfold visible. lia. Qed.

Lemma TrimRightSpace_key (key : string) :
  str_forall key_byte key = true -> TrimRightSpace (key ++ " ") = key.
Proof.
  induction key as [|c key IH]; [done|]. cbn [str_forall]. intros [Hc Hk]%andb_true_iff.
  cbn [String.append TrimRightSpace]. unfold all_space.
  rewrite TrimLeftSpace_visible by by apply key_byte_visible. cbn. by rewrite IH.
Qed.

Lemma quote_visible : visible Strconv.quote.
Proof. unfold visible. split; by vm_compute. Qed.

Lemma contains_key (key : string) :
  str_forall key_byte key = true -> contains_byte "=" (key ++ " ") = false.
Proof.
  induction key as [|c key IH]; [done|]. cbn [str_forall]. intros [Hc Hk]%andb_true_iff.
  cbn [String.append contains_byte]. rewrite IH by done. apply key_byte_cases in Hc.
  destruct (Ascii.eqb_spec c "=") as [->|]; [|done].
  exfalso; revert Hc; vm_compute; intuition congruence.
Qed.

Lemma HasSuffix_quote (s : string) : HasSuffix (s ++ String Strconv.quote EmptyString) "]" = false.
Proof.
  apply not_true_iff_false. rewrite HasSuffix_spec. intros [p E].
  assert (forall s p : string, s ++ String Strconv.quote EmptyString = p ++ "]" -> False) as H.
  { clear. induction s as [|c s IH]; intros [|d p] E; try done.
    - cbn in E. injection E as _ E. by destruct p.
    - cbn in E. injection E as _ E. by destruct s.
    - cbn in E. injection E as _ E. by eapply IH. }
  by eapply H.
Qed.

Lemma key_no_bracket (key rest : string) :
  key <> EmptyString -> str_forall key_byte key = true -> HasPrefix (key ++ rest) "[" = false.
Proof.
  destruct key as [|c key]; [done|]. cbn [str_forall]. intros _ [Hc%key_byte_cases _]%andb_true_iff.
  unfold HasPrefix. cbn [String.append String.prefix].
  destruct (ascii_dec "[" c) as [<-|Hne]; [|by destruct (ascii_dec "[" c)].
  exfalso; revert Hc; vm_compute; intuition congruence.
Qed.

Lemma TrimSpace_key (key : string) : str_forall key_byte key = true -> TrimSpace (key ++ " ") = key.
Proof.
  intros Hk. unfold TrimSpace. destruct key as [|c key]; [done|]. cbn [String.append].
  rewrite TrimLeftSpace_visible; [by apply (TrimRightSpace_key (String c key))|].
  cbn in Hk. apply andb_true_iff in Hk as [Hc _]. by apply key_byte_visible.
Qed.

Lemma TrimSpace_Quote (value : string) : TrimSpace (" " ++ Quote value) = Quote value.
Proof.
  unfold TrimSpace. change (TrimLeftSpace (" " ++ Quote value)) with (TrimLeftSpace (Quote value)).
  unfold Quote. rewrite TrimLeftSpace_visible by apply quote_visible.
  apply (TrimRightSpace_mark Strconv.quote (String Strconv.quote (quote_body value)) EmptyString).
  apply quote_visible.
Qed.

Lemma TrimSpace_setting (key value : string) :
  key <> EmptyString -> str_forall key_byte key = true ->
  TrimSpace (key ++ " = " ++ Quote value ++ " ") = key ++ " = " ++ Quote value.
Proof.
  intros Hne Hk. unfold TrimSpace.
  destruct key as [|c key]; [done|]. cbn in Hk. apply andb_true_iff in Hk as [Hc%key_byte_visible _].
  cbn [String.append]. rewrite TrimLeftSpace_visible by done. unfold Quote.
  pose proof (TrimRightSpace_mark Strconv.quote
    (String c key ++ " = " ++ String Strconv.quote (quote_body value)) " " quote_visible) as E.
  change (TrimRightSpace " ") with EmptyString in E. rewrite !app_assoc_str in E.
  cbn [String.append] in *. rewrite !app_assoc_str. exact E.
Qed.

Lemma parse_setting (getenv : string -> string) (p : parser) (key value comment : string) :
  key <> EmptyString -> str_forall key_byte key = true ->
  parse_line getenv p (setting key value comment) = set_key p key (Expand value getenv).
Proof.
  intros Hne Hk. unfold parse_line. rewrite stripComment_setting, TrimSpace_setting by done.
  replace (key ++ " = " ++ Quote value =? EmptyString)%string with false by (by destruct key).
  rewrite key_no_bracket by done. cbn [andb].
  change (key ++ " = " ++ Quote value) with (key ++ " " ++ String "=" (" " ++ Quote value)).
  rewrite <- app_assoc_str, Cut_byte_app by by apply contains_key.
  rewrite TrimSpace_Quote, TrimSpace_key by done.
  assert (parseValue (Quote value) = Ok value) as ->; [|done].
  unfold parseValue. replace (Quote value =? EmptyString)%string with false by done.
  replace (HasPrefix (Quote value) (String Strconv.quote EmptyString)) with true;
    [by rewrite Unquote_Quote|].
  symmetry. apply HasPrefix_spec. by eexists.
Qed.

(** *** Paths *)

Lemma render_rooted (stack : list string) : rooted (render true stack) = true.
Proof. apply HasPrefix_spec. by eexists. Qed.

Lemma Clean_rooted (p : string) : rooted p = true -> rooted (Clean p) = true.
Proof.
  intros H. unfold Clean. destruct p; [done|]. rewrite H. apply render_rooted.
Qed.

Lemma rooted_append (p q : string) : rooted p = true -> rooted (p ++ q) = true.
Proof. unfold rooted. rewrite !HasPrefix_spec. intros [r ->]. eexists. apply app_assoc_str. Qed.

Lemma rooted_nonempty (p : string) : rooted p = true -> p <> EmptyString.
Proof. by destruct p. Qed.

Lemma Dir_rooted (p : string) : rooted p = true -> rooted (Dir p) = true.
Proof.
  intros H. apply Clean_rooted. apply HasPrefix_spec in H as [r ->]. apply HasPrefix_spec.
  cbn. eexists. reflexivity.
Qed.

Lemma resolve_path_rooted (path value : string) :
  IsAbs path = true -> IsAbs (resolve_path path value) = true.
Proof.
  intros Hd%Dir_rooted. unfold resolve_path, filepath_Join, IsAbs. apply Clean_rooted.
  cbn [List.filter]. pose proof (rooted_nonempty _ Hd) as Hne%String.eqb_neq. rewrite Hne. cbn [negb].
  apply Clean_rooted. destruct (negb _); cbn; [by apply rooted_append|done].
Qed.

Lemma resolve_optional_abs (path value : string) :
  IsAbs path = true ->
  resolve_optional path value = EmptyString /\ value = EmptyString
  \/ IsAbs (resolve_optional path value) = true.
Proof.
  intros Hp. unfold resolve_optional. destruct (nonempty value) eqn:Hn.
  - right. destruct (IsAbs value) eqn:E; [done|by apply resolve_path_rooted].
  - left. apply not_true_iff_false in Hn. rewrite nonempty_spec in Hn. cbn.
    split; by destruct (decide (value = EmptyString)).
Qed.

Lemma rooted_not_blank (p : string) : rooted p = true -> TrimSpace p <> EmptyString.
Proof.
  intros [r ->]%HasPrefix_spec. unfold TrimSpace. cbn [String.append].
  assert (visible "/") as Hv by (split; by vm_compute).
  rewrite TrimLeftSpace_visible by done.
  pose proof (TrimRightSpace_mark "/" EmptyString r Hv) as E. cbn [String.append] in E.
  by rewrite E.
Qed.

Lemma valid_resolved (path : string) (r : Repository) :
  valid_repository r -> valid_repository (resolve_repository path r).
Proof.
  intros []. split; try done. cbn. intros Hne. apply vr_token0. intros E. apply Hne.
  unfold resolve_optional. by rewrite E.
Qed.

Lemma Validate_valid (c : Config) : Validate c = Ok tt <-> valid c.
Proof.
  unfold Validate. cbv zeta. rewrite oops_Ok, String.eqb_neq.
  pose proof (http_url_spec (PublicBaseURL (server c)) any_url) as Hu.
  destruct (absolute_url (PublicBaseURL (server c))) as [u|].
  2: { split; [naive_solver|]. intros [_ Hp]. apply Hu in Hp as (? & ? & _). done. }
  rewrite !oops_Ok, validate_repositories_Ok, negb_false_iff, Nat.eqb_neq.
  assert (List.length (Repositories c) <> 0%nat <-> Repositories c <> []) as -> by (by destruct (Repositories c)).
  assert (http_scheme u = true <-> http_url (PublicBaseURL (server c)) any_url) as ->.
  { rewrite Hu. unfold any_url. naive_solver. }
  split.
  - intros (? & ? & H1 & H2 & H3 & H4 & H5 & H6 & H7 & H8 & ? & ? & ? & _ & ? & _).
    split; try done. by apply Validate_storage.
  - intros [? ? Hs%Validate_storage ? ? ? ?]. destruct Hs as (? & ? & ? & ? & ? & ? & ? & ?).
    split_and!; try done; apply Forall_forall; set_solver.
Qed.

Lemma Parse_valid (getenv : string -> string) (reader : Reader) (c : Config) :
  Parse getenv reader = Ok c -> valid c.
Proof.
  unfold Parse. destruct (ScanLines _) as [lines tooLong]. intros (p & _ & E)%result_bind_Ok.
  destruct (tooLong || _); [done|].
  destruct (Validate (cfg p)) as [[]|] eqn:Hv; [|done]. injection E as <-. by apply Validate_valid.
Qed.

(** What a server needs of its configuration, wherever the file is. *)
Record usable (c : Config) : Prop := {
  us_path : StoragePath (storage c) <> EmptyString;
  us_repositories : Forall valid_repository (Repositories c);
  us_names : NoDup (map Name (Repositories c))
}.

Lemma valid_usable (c : Config) : valid c -> usable c.
Proof. intros [_ _ [Hp _ _ _ _] _ ? ? _]. split; try done. by intros E; rewrite E in Hp. Qed.

Lemma Clean_nonempty (path : string) : Clean path <> EmptyString.
Proof.
  unfold Clean. destruct (_ =? _)%string; [done|]. destruct (rooted path) eqn:Er; [done|].
  destruct (elements_of path) as [|top rest] eqn:E; [done|].
  pose proof (elements_ok path) as H. rewrite Er, E in H. exact (proj2 (rooted_rev _ _ H ltac:(done))).
Qed.

Lemma Load_usable (getenv : string -> string) (path : string) (file : option Reader) (c : Config) :
  Load getenv path file = Ok c -> usable c.
Proof.
  unfold Load. destruct file as [reader|]; [|done].
  destruct (Parse getenv reader) as [c0|] eqn:E; [|done]. intros [= <-].
  destruct (valid_usable _ (Parse_valid _ _ _ E)) as [Hp Hr Hn]. split; cbn.
  - destruct (IsAbs _); [done|]. apply Clean_nonempty.
  - rewrite Forall_fmap. eapply Forall_impl; [done|]. intros r. by apply valid_resolved.
  - by rewrite map_map.
Qed.

Lemma valid_name_plain (name : string) : validRepositoryName name = true -> plain name.
Proof.
  unfold validRepositoryName. destruct (_ || _) eqn:E; [done|]. rewrite !orb_false_iff, !String.eqb_neq in E.
  destruct E as [[[H1 _] H2] H3]. intros H. split_and!; [done..|].
  apply (str_forall_absent (name_byte false)); [|done].
  destruct name as [|c rest]; [done|]. cbn. apply andb_true_iff in H as [H ->]. rewrite andb_true_r.
  unfold name_byte in *. cbn [negb andb] in H. rewrite orb_false_r in H. by rewrite H.
Qed.

(** ** Properties *)

(** C31: [Validate] accepts exactly the configurations the file format promises:
    absolute HTTP(S) URLs, positive durations, watermarks ordered in (0, 1),
    repositories each valid on its own, and no two that share a name or a route, the
    derived file route of a PyPI repository included. *)
Theorem Validate_iff (c : Config) : Validate c = Ok tt <-> valid c.
Proof. apply Validate_valid. Qed.

(** A line that sets a key of the file to a quoted value, whatever bytes the value
    has (comment marks, quotes, backslashes, newlines and equal signs included) and
    whatever comment follows, sets that key to that value, expanded. *)
Theorem setting_roundtrip (getenv : string -> string) (p : parser) (key value comment : string) :
  key <> EmptyString -> str_forall key_byte key = true ->
  parse_line getenv p (setting key value comment) = set_key p key (Expand value getenv).
Proof. apply parse_setting. Qed.

(** C32: what [Load] returns for an absolute configuration path is valid, its storage
    path is absolute, and so is every token file it names. *)
Theorem Load_valid (getenv : string -> string) (path : string) (file : option Reader) (c : Config) :
  IsAbs path = true -> Load getenv path file = Ok c ->
  valid c /\ IsAbs (StoragePath (storage c)) = true
  /\ forall f, f ∈ TokenFile (operator c) :: map PublishTokenFile (Repositories c) ->
       f = EmptyString \/ IsAbs f = true.
Proof.
  intros Hp H. unfold Load in H. destruct file as [reader|]; [|done].
  destruct (Parse getenv reader) as [c0|] eqn:E; [|done]. injection H as <-.
  destruct (Parse_valid _ _ _ E).
  assert (IsAbs (if IsAbs (StoragePath (storage c0)) then StoragePath (storage c0)
                 else resolve_path path (StoragePath (storage c0))) = true) as Habs.
  { destruct (IsAbs (StoragePath _)) eqn:?; [done|by apply resolve_path_rooted]. }
  cbn. split_and!; [split|done|]; cbn; try done.
  - destruct v_storage0. split; try done. cbn. by apply rooted_not_blank.
  - by destruct (Repositories c0).
  - rewrite Forall_fmap. eapply Forall_impl; [done|]. intros r. by apply valid_resolved.
  - by rewrite map_map.
  - by rewrite map_map.
  - intros f [->|Hf]%elem_of_cons; [destruct (resolve_optional_abs path (TokenFile (operator c0))); naive_solver|].
    rewrite map_map in Hf. apply list_elem_of_fmap in Hf as (r & -> & _). cbn.
    destruct (resolve_optional_abs path (PublishTokenFile r)); naive_solver.
Qed.

(** ** The properties at concrete inputs *)

Definition sample_file : Reader :=
  mkReader (Join ["[storage]"; "path = ../cache # next to the configuration";
                  "max_age = " ++ Quote "48h";
                  "[repository.npm]"; "upstream = https://registry.npmjs.org";
                  "[repository.pypi]"; "path = /pypi/simple/"; "ttl = 1h30m";
                  "publish_token_file = token"; "upstream = ${PYPI}"]
              (String newline EmptyString)) false.

Definition sample_env (name : string) : string :=
  if (name =? "PYPI")%string then "https://pypi.org/simple" else EmptyString.

Definition sample_loaded : Config :=
  mkConfig (server defaults)
    (mkStorage "/srv/cache" (48 * hour) hour hour 0 f64_0_90 f64_0_75 0)
    (mkOperator EmptyString)
    [mkRepository "npm" "npm" "/npm/" "https://registry.npmjs.org" (24 * hour) false EmptyString [];
     mkRepository "pypi" "pypi" "/pypi/simple/" "https://pypi.org/simple" (5400 * second) false
       "/srv/etc/token" []].

Lemma setting_roundtrip_witness :
  parse_line sample_env (mkParser defaults "server" None) (setting "listen" "a#b=c" "note")
  = set_key (mkParser defaults "server" None) "listen" "a#b=c".
Proof.
  apply (setting_roundtrip sample_env (mkParser defaults "server" None) "listen" "a#b=c" "note").
  - discriminate.
  - reflexivity.
Defined.

Lemma Load_valid_witness :
  Load sample_env "/srv/etc/n0ding.toml" (Some sample_file) = Ok sample_loaded
  /\ valid sample_loaded.
Proof.
  assert (Load sample_env "/srv/etc/n0ding.toml" (Some sample_file) = Ok sample_loaded) as H
    by (vm_compute; reflexivity).
  split; [exact H|]. apply (Load_valid sample_env "/srv/etc/n0ding.toml" (Some sample_file));
    [reflexivity | exact H].
Defined.

Definition parse_texts (lines : list string) : result config_error Config :=
  Parse sample_env (mkReader (Join lines (String newline EmptyString)) false).

Example rejected_configurations :
  map (fun lines => match parse_texts lines with Err e => Some e | Ok _ => None end)
    [["listen = x"]; ["[server]"; "port = 1"]; ["[storage]"; "max_bytes = 9223372036854775808"];
     ["[repository.a]"; "type = npm"; "path = /x/files/"; "upstream = http://a";
      "[repository.pypi]"; "path = /x/simple/"; "upstream = http://b"];
     ["[storage]"; "low_watermark = nan"]; ["[repository.A]"; "upstream = http://a"]]
  = [Some (Line 1 KeyOutsideSection); Some (Line 2 (UnknownKey "server" "port"));
     Some (Line 2 (InvalidValue "max_bytes"));
     Some (Invalid (DuplicateRoute "a" "pypi" "/x/files/"));
     Some (Invalid LowWatermarkRange); Some (Invalid (InvalidName "A"))].
Proof. vm_compute. reflexivity. Qed.
