(* ===== verification/Time.v ===== *)
(** * Instants

    A [time.Time] is the number of nanoseconds since the Unix epoch; only instants
    matter to the program, never the zone they are shown in.  Calendar conversions
    are those of the proleptic Gregorian calendar, and the text form is RFC 3339. *)

From S2P Require Import Prelude GoStrings.
From Stdlib Require Import Ascii String.
Local Open Scope string_scope.
Local Open Scope Z_scope.

Definition Time := Z.

Definition nanos : Z := 1000000000.
Definition day_seconds : Z := 86400.

(** The zero [time.Time]: January 1 of year 1. *)
Definition zeroTime : Time := -62135596800 * nanos.

Definition IsZero (t : Time) : bool := t =? zeroTime.

(** [t.Sub(u)] saturates at the range of a duration. *)
Definition Sub (t u : Time) : Z := Z.max minInt64 (Z.min maxInt64 (t - u)).

Definition TimeAdd (t : Time) (d : Z) : Time := t + d.
Definition After (t u : Time) : bool := u <? t.
Definition Before (t u : Time) : bool := t <? u.

(** ** The calendar *)

(** Days since the epoch of a date; months run from March in a shifted year. *)
Definition days_from_civil (y m d : Z) : Z :=
  let y := if m <=? 2 then y - 1 else y in
  let era := y / 400 in
  let yoe := y mod 400 in
  let doy := (153 * (if 2 <? m then m - 3 else m + 9) + 2) / 5 + d - 1 in
  let doe := yoe * 365 + yoe / 4 - yoe / 100 + doy in
  era * 146097 + doe - 719468.

(** The date of a day of a 400-year era: year of the era, month, day. *)
Definition civil_of_doe (doe : Z) : Z * Z * Z :=
  let century := Z.min 3 (doe / 36524) in
  let doc := doe - 36524 * century in
  let cycle := doc / 1461 in
  let dof := doc - 1461 * cycle in
  let year := Z.min 3 (dof / 365) in
  let yoe := 100 * century + 4 * cycle + year in
  let doy := dof - 365 * year in
  let mp := (5 * doy + 2) / 153 in
  let d := doy - (153 * mp + 2) / 5 + 1 in
  let m := if mp <? 10 then mp + 3 else mp - 9 in
  (if m <=? 2 then yoe + 1 else yoe, m, d).

Definition civil_from_days (days : Z) : Z * Z * Z :=
  let days := days + 719468 in
  let '(y, m, d) := civil_of_doe (days mod 146097) in
  (y + 400 * (days / 146097), m, d).

Definition isLeap (y : Z) : bool :=
  (y mod 4 =? 0) && (negb (y mod 100 =? 0) || (y mod 400 =? 0)).

Definition daysIn (y m : Z) : Z :=
  if m =? 2 then if isLeap y then 29 else 28
  else if (m =? 4) || (m =? 6) || (m =? 9) || (m =? 11) then 30
  else 31.

(** ** RFC 3339 *)

(** [n] decimal digits of [z], zero padded. *)
Fixpoint padded (n : nat) (z : Z) (acc : string) : string :=
  match n with
  | O => acc
  | S n => padded n (z / 10) (String (chr (48 + z mod 10)) acc)
  end.

Definition digits (n : nat) (z : Z) : string := padded n z EmptyString.

Definition fraction (ns : Z) : string :=
  if ns =? 0 then EmptyString else "." ++ TrimRight (digits 9 ns) "0".

Definition year_of (t : Time) : Z := fst (fst (civil_from_days (t / (day_seconds * nanos)))).

(** [AppendFormat] with the layout [RFC3339Nano], of an instant in UTC. *)
Definition FormatRFC3339Nano (t : Time) : string :=
  let days := t / (day_seconds * nanos) in
  let rest := t mod (day_seconds * nanos) in
  let '(y, m, d) := civil_from_days days in
  let seconds := rest / nanos in
  digits 4 y ++ "-" ++ digits 2 m ++ "-" ++ digits 2 d ++ "T"
  ++ digits 2 (seconds / 3600) ++ ":" ++ digits 2 (seconds / 60 mod 60) ++ ":"
  ++ digits 2 (seconds mod 60) ++ fraction (rest mod nanos) ++ "Z".

(** Exactly [n] digits whose value lies in a range. *)
Fixpoint read_digits (n : nat) (acc : Z) (s : string) : option (Z * string) :=
  match n, s with
  | O, _ => Some (acc, s)
  | S n, String c s =>
      if isDigit c then read_digits n (10 * acc + (byte c - 48)) s else None
  | S _, EmptyString => None
  end.

Definition field (n : nat) (lo hi : Z) (s : string) : option (Z * string) :=
  '(z, rest) ← read_digits n 0 s;
  if between lo hi z then Some (z, rest) else None.

(** The digits of a fraction, of which the first nine count. *)
Fixpoint read_fraction (scale : Z) (s : string) : Z * string :=
  match s with
  | String c s' =>
      if isDigit c then
        let '(ns, rest) := read_fraction (scale / 10) s' in
        ((byte c - 48) * scale + ns, rest)
      else (0, s)
  | EmptyString => (0, s)
  end.

(** The zone offset in seconds, which ends the text. *)
Definition read_zone (s : string) : option Z :=
  match s with
  | String "Z" EmptyString => Some 0
  | String c rest =>
      if Ascii.eqb c "+" || Ascii.eqb c "-" then
        '(h, rest) ← field 2 0 23 rest;
        rest ← expect ":" rest;
        '(m, rest) ← field 2 0 59 rest;
        if (rest =? EmptyString)%string
        then Some ((if Ascii.eqb c "-" then -1 else 1) * (h * 3600 + m * 60))
        else None
      else None
  | EmptyString => None
  end.

Definition ParseRFC3339 (s : string) : option Time :=
  '(y, s) ← field 4 0 9999 s;
  s ← expect "-" s;
  '(m, s) ← field 2 1 12 s;
  s ← expect "-" s;
  '(d, s) ← field 2 1 (daysIn y m) s;
  s ← expect "T" s;
  '(hh, s) ← field 2 0 23 s;
  s ← expect ":" s;
  '(mm, s) ← field 2 0 59 s;
  s ← expect ":" s;
  '(ss, s) ← field 2 0 59 s;
  let '(ns, s) :=
    match s with
    | String "." (String c r) =>
        if isDigit c then read_fraction 100000000 (String c r) else (0, s)
    | _ => (0, s)
    end in
  zone ← read_zone s;
  Some ((days_from_civil y m d * day_seconds + hh * 3600 + mm * 60 + ss - zone) * nanos + ns).

Example format_times :
  map FormatRFC3339Nano [0; 1721922330 * nanos + 120000000; zeroTime; 951782400 * nanos]
  = ["1970-01-01T00:00:00Z"; "2024-07-25T15:45:30.12Z"; "0001-01-01T00:00:00Z";
     "2000-02-29T00:00:00Z"].
Proof. vm_compute. reflexivity. Qed.

Example parse_times :
  map ParseRFC3339 ["1970-01-01T01:00:00+01:00"; "2024-07-25T15:45:30.12Z"; "2023-02-29T00:00:00Z";
                    "2024-07-25T15:45:30.Z"; "2024-07-25T15:45:30.1234567899Z"; "2024-07-25 15:45:30Z"]
  = [Some 0; Some (1721922330 * nanos + 120000000); None; None;
     Some (1721922330 * nanos + 123456789); None].
Proof. vm_compute. reflexivity. Qed.

(** ** The calendar is exact *)

Definition doe_ok (doe : Z) : Prop :=
  let '(y, m, d) := civil_of_doe doe in
  days_from_civil y m d = doe - 719468 /\ 1 <= m <= 12 /\ 1 <= d <= daysIn y m.

(** The month and day of a day of a year that starts in March. *)
Definition month_ok (doy : Z) : bool :=
  let mp := (5 * doy + 2) / 153 in
  let d := doy - (153 * mp + 2) / 5 + 1 in
  between 0 11 mp && (1 <=? d)
  && (d <=? (if mp =? 11 then if doy =? 365 then 29 else 28
             else if existsb (Z.eqb mp) [1; 3; 6; 8] then 30 else 31)).

Lemma month_always_ok (doy : Z) : 0 <= doy <= 365 -> month_ok doy = true.
Proof.
  assert (forallb month_ok (seqZ 0 366) = true) as H by (vm_compute; reflexivity).
  rewrite forallb_forall in H. intros ?. apply H, list_elem_of_In, elem_of_seqZ. lia.
Qed.

Lemma capped_div (n w : Z) :
  0 <= n -> 0 < w ->
  let c := Z.min 3 (n / w) in 0 <= c <= 3 /\ w * c <= n /\ (c < 3 -> n < w * c + w).
Proof.
  intros Hn Hw. pose proof (Z.div_mod n w). pose proof (Z.mod_pos_bound n w Hw).
  pose proof (Z.div_pos n w Hn Hw). cbv zeta. destruct (Z.min_spec 3 (n / w)) as [[? ->]|[? ->]]; nia.
Qed.

(** The year of the era and the day of that year. *)
Lemma year_split (doe : Z) :
  0 <= doe < 146097 ->
  let century := Z.min 3 (doe / 36524) in
  let doc := doe - 36524 * century in
  let cycle := doc / 1461 in
  let dof := doc - 1461 * cycle in
  let year := Z.min 3 (dof / 365) in
  let yoe := 100 * century + 4 * cycle + year in
  let doy := dof - 365 * year in
  0 <= yoe < 400 /\ 0 <= doy <= 365
  /\ yoe * 365 + yoe / 4 - yoe / 100 + doy = doe
  /\ (doy = 365 -> isLeap (yoe + 1) = true).
Proof.
  intros H century doc cycle dof year yoe doy.
  pose proof (capped_div doe 36524 ltac:(lia) eq_refl) as Hc. cbv zeta in Hc. fold century in Hc.
  assert (doe = 36524 * century + doc) by (unfold doc; lia). clearbody doc. clearbody century.
  assert (0 <= doc <= 36524) by lia.
  pose proof (Z.div_mod doc 1461 ltac:(lia)) as Hq. fold cycle in Hq.
  assert (doc = 1461 * cycle + dof) by (unfold dof; lia).
  pose proof (Z.mod_pos_bound doc 1461 eq_refl). assert (0 <= dof <= 1460) by lia.
  clear Hq. clearbody dof. clearbody cycle. assert (0 <= cycle <= 24) by lia.
  pose proof (capped_div dof 365 ltac:(lia) eq_refl) as Hyr. cbv zeta in Hyr. fold year in Hyr.
  assert (dof = 365 * year + doy) by (unfold doy; lia). clearbody doy. clearbody year.
  assert (0 <= doy <= 365 /\ (doy = 365 -> year = 3 /\ dof = 1460)) as [? ?] by lia.
  assert (yoe / 100 = century) by (symmetry; apply (Z.div_unique _ _ _ (4 * cycle + year)); unfold yoe; lia).
  assert (yoe / 4 = 25 * century + cycle)
    by (symmetry; apply (Z.div_unique _ _ _ year); unfold yoe; lia).
  assert (yoe = 100 * century + 4 * cycle + year) as Hyoe by done. clearbody yoe.
  split_and!; try lia.
  intros Hleap. assert (year = 3 /\ dof = 1460) as [Hy Hd] by auto. unfold isLeap.
  replace ((yoe + 1) mod 4) with 0
    by (symmetry; apply Z.mod_divide; [lia|exists (25 * century + cycle + 1); lia]).
  cbn [Z.eqb andb]. apply orb_true_iff.
  destruct (decide (cycle = 24)).
  - right. apply Z.eqb_eq. replace (yoe + 1) with 400 by (lia). done.
  - left. apply negb_true_iff, Z.eqb_neq.
    replace ((yoe + 1) mod 100) with (4 * cycle + 4); [lia|].
    apply (Z.mod_unique _ _ century); lia.
Qed.

Lemma month_length (yoe doy mp : Z) :
  0 <= mp <= 11 -> (doy = 365 -> isLeap (yoe + 1) = true) ->
  (if mp =? 11 then if doy =? 365 then 29 else 28
   else if existsb (Z.eqb mp) [1; 3; 6; 8] then 30 else 31)
  <= daysIn (if (if mp <? 10 then mp + 3 else mp - 9) <=? 2 then yoe + 1 else yoe)
       (if mp <? 10 then mp + 3 else mp - 9).
Proof.
  intros Hm Hleap.
  assert (mp = 0 \/ mp = 1 \/ mp = 2 \/ mp = 3 \/ mp = 4 \/ mp = 5 \/ mp = 6 \/ mp = 7 \/ mp = 8
          \/ mp = 9 \/ mp = 10 \/ mp = 11) as Hin by lia. clear Hm. unfold daysIn.
  repeat (destruct Hin as [->|Hin]; [vm_compute; discriminate|]). subst mp.
  change ((if doy =? 365 then 29 else 28) <= (if isLeap (yoe + 1) then 29 else 28)).
  destruct (Z.eqb_spec doy 365); [rewrite Hleap by done; lia|]. destruct (isLeap _); lia.
Qed.

Lemma doe_always_ok (doe : Z) : 0 <= doe < 146097 -> doe_ok doe.
Proof.
  intros H. pose proof (year_split doe H) as (Hy & Hd & Hdoe & Hleap).
  unfold doe_ok, civil_of_doe. cbv zeta in *.
  set (yoe := 100 * _ + _ + _) in *. set (doy := _ - 365 * _) in *.
  pose proof (month_always_ok doy Hd) as Hm. unfold month_ok in Hm. cbv zeta in Hm.
  set (mp := (5 * doy + 2) / 153) in *. set (d := doy - (153 * mp + 2) / 5 + 1) in *.
  unfold between in Hm. apply andb_true_iff in Hm as [Hm Hdm]. split_bool.
  split; [|split; [destruct (Z.ltb_spec mp 10); lia|]].
  - unfold days_from_civil. destruct (Z.ltb_spec mp 10).
    + replace (mp + 3 <=? 2) with false by lia. replace (2 <? mp + 3) with true by lia.
      rewrite Z.div_small, Z.mod_small by lia. replace (mp + 3 - 3) with mp by lia. lia.
    + replace (mp - 9 <=? 2) with true by lia. replace (2 <? mp - 9) with false by lia.
      replace (yoe + 1 - 1) with yoe by lia. rewrite Z.div_small, Z.mod_small by lia.
      replace (mp - 9 + 9) with mp by lia. lia.
  - split; [lia|]. etransitivity; [exact Hdm|].
    by apply month_length.
Qed.

Lemma days_from_civil_era (y m d k : Z) :
  days_from_civil (y + 400 * k) m d = days_from_civil y m d + 146097 * k.
Proof.
  unfold days_from_civil. set (doy := (153 * _ + 2) / 5 + d - 1).
  assert (forall y, (y + 400 * k) / 400 = y / 400 + k /\ (y + 400 * k) mod 400 = y mod 400) as H.
  { intros z. rewrite (Z.mul_comm 400), Z.div_add, Z.mod_add by lia. done. }
  destruct (m <=? 2).
  - replace (y + 400 * k - 1) with (y - 1 + 400 * k) by lia. destruct (H (y - 1)) as [-> ->]. lia.
  - destruct (H y) as [-> ->]. lia.
Qed.

Lemma daysIn_era (y m k : Z) : daysIn (y + 400 * k) m = daysIn y m.
Proof.
  unfold daysIn, isLeap.
  replace (y + 400 * k) with (y + 100 * k * 4) at 1 by lia.
  replace (y + 400 * k) with (y + 4 * k * 100) at 1 by lia.
  replace (y + 400 * k) with (y + k * 400) by lia. by rewrite !Z.mod_add by lia.
Qed.

Lemma civil_roundtrip (days y m d : Z) :
  civil_from_days days = (y, m, d) ->
  days_from_civil y m d = days /\ 1 <= m <= 12 /\ 1 <= d <= daysIn y m.
Proof.
  unfold civil_from_days. pose proof (Z.mod_pos_bound (days + 719468) 146097 eq_refl) as Hr.
  pose proof (Z.div_mod (days + 719468) 146097).
  pose proof (doe_always_ok _ Hr) as Hok. unfold doe_ok in Hok.
  destruct (civil_of_doe _) as [[y0 m0] d0] eqn:E. intros [= <- <- <-].
  destruct Hok as (? & ? & ?). rewrite days_from_civil_era, daysIn_era. lia.
Qed.

(** ** The text form reads back *)

Lemma padded_app (n : nat) (z : Z) (acc : string) : padded n z acc = digits n z ++ acc.
Proof.
  unfold digits. revert z acc. induction n as [|n IH]; intros z acc; [done|]. cbn [padded].
  rewrite IH, (IH _ (String _ EmptyString)), app_assoc_str. done.
Qed.

Lemma digits_S (n : nat) (z : Z) :
  digits (S n) z = digits n (z / 10) ++ String (chr (48 + z mod 10)) EmptyString.
Proof. unfold digits at 1. cbn [padded]. apply padded_app. Qed.

Lemma digit_mod (z : Z) :
  isDigit (chr (48 + z mod 10)) = true /\ byte (chr (48 + z mod 10)) = 48 + z mod 10.
Proof.
  pose proof (Z.mod_pos_bound z 10 eq_refl). split; [by apply isDigit_chr | apply byte_chr; lia].
Qed.

Lemma all_digits (n : nat) (z : Z) : str_forall isDigit (digits n z) = true.
Proof.
  revert z. induction n as [|n IH]; intros z; [done|]. rewrite digits_S, str_forall_app, IH.
  cbn [str_forall]. by destruct (digit_mod z) as [-> _].
Qed.

Lemma length_digits (n : nat) (z : Z) : String.length (digits n z) = n.
Proof.
  revert z. induction n as [|n IH]; intros z; [done|].
  rewrite digits_S, length_app_str, IH. cbn. lia.
Qed.

Lemma read_digits_add (n m : nat) (acc : Z) (s : string) :
  read_digits (n + m) acc s = '(v, r) ← read_digits n acc s; read_digits m v r.
Proof.
  revert acc s. induction n as [|n IH]; intros acc s; [done|]. cbn [Nat.add read_digits].
  destruct s as [|c s]; [done|]. destruct (isDigit c); [apply IH|done].
Qed.

Lemma div10 (n : nat) (z : Z) :
  0 <= z < 10 ^ Z.of_nat (S n) -> 0 <= z / 10 < 10 ^ Z.of_nat n /\ z = 10 * (z / 10) + z mod 10.
Proof.
  rewrite Nat2Z.inj_succ, Z.pow_succ_r by lia. intros H.
  split; [split; [apply Z.div_pos | apply Z.div_lt_upper_bound]; lia|]. apply Z.div_mod. lia.
Qed.

Lemma read_digits_digits (n : nat) (z acc : Z) (rest : string) :
  0 <= z < 10 ^ Z.of_nat n ->
  read_digits n acc (digits n z ++ rest) = Some (acc * 10 ^ Z.of_nat n + z, rest).
Proof.
  revert z acc rest. induction n as [|n IH]; intros z acc rest Hz.
  { cbn. do 2 f_equal. cbn in Hz. lia. }
  destruct (div10 n z Hz) as [Hq Hz'].
  rewrite digits_S, app_assoc_str. rewrite <- Nat.add_1_r, read_digits_add, IH by done.
  cbn [mbind option_bind]. cbn [String.append read_digits].
  destruct (digit_mod z) as [-> ->]. rewrite Nat2Z.inj_add, Z.pow_add_r by lia.
  change (10 ^ Z.of_nat 1) with 10. do 2 f_equal. lia.
Qed.

Lemma field_digits (n : nat) (lo hi z : Z) (rest : string) :
  0 <= z < 10 ^ Z.of_nat n -> lo <= z <= hi ->
  field n lo hi (digits n z ++ rest) = Some (z, rest).
Proof.
  intros Hz Hr. unfold field. rewrite read_digits_digits by done. cbn [mbind option_bind].
  replace (0 * 10 ^ Z.of_nat n + z) with z by lia. unfold between.
  by replace ((lo <=? z) && (z <=? hi)) with true by (symmetry; apply andb_true_iff; lia).
Qed.

(** *** Fractions *)

Fixpoint frac_value (scale : Z) (w : string) : Z :=
  match w with
  | EmptyString => 0
  | String c w => (byte c - 48) * scale + frac_value (scale / 10) w
  end.

Lemma div_pow (scale : Z) (n : nat) : scale / 10 / 10 ^ Z.of_nat n = scale / 10 ^ Z.of_nat (S n).
Proof. rewrite Nat2Z.inj_succ, Z.pow_succ_r by lia. apply Z.div_div; [lia|]. apply Z.pow_pos_nonneg; lia. Qed.

Lemma frac_value_app (scale : Z) (v w : string) :
  frac_value scale (v ++ w)
  = frac_value scale v + frac_value (scale / 10 ^ Z.of_nat (String.length v)) w.
Proof.
  revert scale. induction v as [|c v IH]; intros scale; cbn [String.append frac_value String.length].
  - change (10 ^ Z.of_nat 0) with 1. by rewrite Z.div_1_r.
  - rewrite IH, div_pow. lia.
Qed.

Lemma frac_value_zeros (scale : Z) (w : string) :
  str_forall (fun c => contains_byte c "0") w = true -> frac_value scale w = 0.
Proof.
  revert scale. induction w as [|c w IH]; intros scale; [done|].
  cbn [str_forall contains_byte frac_value]. intros [Hc Hw]%andb_true_iff.
  rewrite orb_false_r in Hc. apply Ascii.eqb_eq in Hc. subst c. by rewrite IH.
Qed.

Lemma TrimRight_split (s cutset : string) :
  exists t, s = TrimRight s cutset ++ t /\ str_forall (fun c => contains_byte c cutset) t = true.
Proof.
  induction s as [|c s (t & IH & Ht)]; [by exists EmptyString|]. cbn [TrimRight].
  destruct (str_forall _ (String c s)) eqn:E; [by exists (String c s)|].
  exists t. split; [cbn; congruence|done].
Qed.

Lemma read_fraction_value (scale : Z) (w rest : string) :
  str_forall isDigit w = true -> (forall c r, rest = String c r -> isDigit c = false) ->
  read_fraction scale (w ++ rest) = (frac_value scale w, rest).
Proof.
  revert scale. induction w as [|c w IH]; intros scale Hw Hr.
  - cbn. destruct rest as [|c r]; [done|]. cbn. by rewrite (Hr c r).
  - cbn in Hw. apply andb_true_iff in Hw as [Hc Hw]. cbn [String.append read_fraction].
    by rewrite Hc, IH.
Qed.

Lemma frac_value_digits (n m : nat) (z : Z) :
  0 <= z < 10 ^ Z.of_nat n ->
  frac_value (10 ^ (Z.of_nat (n + m) - 1)) (digits n z) = z * 10 ^ Z.of_nat m.
Proof.
  revert m z. induction n as [|n IH]; intros m z Hz.
  { cbn in Hz |- *. lia. }
  destruct (div10 n z Hz) as [Hq Hz']. rewrite digits_S, frac_value_app, length_digits.
  replace (S n + m)%nat with (n + S m)%nat by lia. rewrite IH by done.
  cbn [frac_value]. destruct (digit_mod z) as [_ ->].
  replace (10 ^ (Z.of_nat (n + S m) - 1) / 10 ^ Z.of_nat n) with (10 ^ Z.of_nat m).
  - rewrite Nat2Z.inj_succ, Z.pow_succ_r by lia. lia.
  - replace (Z.of_nat (n + S m) - 1) with (Z.of_nat m + Z.of_nat n) by lia.
    rewrite Z.pow_add_r, Z.div_mul by lia. done.
Qed.

Lemma fraction_reads (ns : Z) :
  0 < ns < nanos ->
  exists c w, fraction ns = String "." (String c w) /\ isDigit c = true
    /\ read_fraction 100000000 (String c w ++ "Z") = (ns, "Z").
Proof.
  intros Hns. unfold fraction. replace (ns =? 0) with false by (symmetry; apply Z.eqb_neq; lia).
  destruct (TrimRight_split (digits 9 ns) "0") as (t & E & Ht).
  pose proof (all_digits 9 ns) as Hall. rewrite E, str_forall_app in Hall.
  apply andb_true_iff in Hall as [Hw _].
  assert (frac_value 100000000 (TrimRight (digits 9 ns) "0") = ns) as Hv.
  { pose proof (frac_value_digits 9 0 ns ltac:(unfold nanos in Hns; cbn; lia)) as H.
    change (10 ^ (Z.of_nat (9 + 0) - 1)) with 100000000 in H.
    rewrite E, frac_value_app, (frac_value_zeros _ t Ht) in H.
    change (10 ^ Z.of_nat 0) with 1 in H. lia. }
  destruct (TrimRight (digits 9 ns) "0") as [|c w]; [cbn in Hv; lia|].
  exists c, w. split; [done|]. split; [by apply andb_true_iff in Hw as [? _]|].
  rewrite read_fraction_value by (done || intros ? ? [= <- <-]; done). by rewrite Hv.
Qed.

(** One field of the text and the separator after it, if any. *)
Ltac read_field :=
  rewrite field_digits by (cbn; lia); cbn [mbind option_bind String.append expect];
  rewrite ?Ascii.eqb_refl; cbn [mbind option_bind].

(** An instant in the years 0 to 9999 reads back from its text. *)
Lemma ParseRFC3339_Format (t : Time) :
  0 <= year_of t <= 9999 -> ParseRFC3339 (FormatRFC3339Nano t) = Some t.
Proof.
  unfold year_of, FormatRFC3339Nano, ParseRFC3339.
  set (days := t / (day_seconds * nanos)). set (rest := t mod (day_seconds * nanos)).
  pose proof (Z.div_mod t (day_seconds * nanos) ltac:(done)) as Ht. fold days rest in Ht.
  pose proof (Z.mod_pos_bound t (day_seconds * nanos) eq_refl) as Hrest. fold rest in Hrest.
  destruct (civil_from_days days) as [[y m] d] eqn:E. cbn [fst]. intros Hy.
  destruct (civil_roundtrip _ _ _ _ E) as (Hdays & Hm & Hd).
  assert (daysIn y m <= 31) by (unfold daysIn; repeat case_match; lia).
  set (s := rest / nanos). set (ns := rest mod nanos).
  pose proof (Z.div_mod rest nanos ltac:(done)) as Hs. fold s ns in Hs.
  pose proof (Z.mod_pos_bound rest nanos eq_refl) as Hns. fold ns in Hns.
  assert (0 <= s < 86400) as Hs' by (unfold day_seconds, nanos in *; lia).
  clearbody s ns. clearbody rest days.
  do 3 read_field.
  assert (0 <= s / 3600 < 24 /\ 0 <= s / 60 mod 60 < 60 /\ 0 <= s mod 60 < 60
    /\ s = s / 3600 * 3600 + s / 60 mod 60 * 60 + s mod 60) as (? & ? & ? & Hsum).
  { pose proof (Z.div_mod s 60 ltac:(lia)). pose proof (Z.div_mod (s / 60) 60 ltac:(lia)).
    pose proof (Z.mod_pos_bound s 60 eq_refl). pose proof (Z.mod_pos_bound (s / 60) 60 eq_refl).
    change 3600 with (60 * 60). rewrite <- Z.div_div by lia. lia. }
  do 3 read_field.
  destruct (decide (ns = 0)) as [->|Hne].
  - cbn. unfold day_seconds, nanos in *. f_equal. lia.
  - destruct (fraction_reads ns ltac:(lia)) as (c & w & -> & Hc & Hr). cbn [String.append] in *.
    rewrite Hc, Hr. cbn. unfold day_seconds, nanos in *. f_equal. lia.
Qed.
