(* ===== verification/Json.v ===== *)
(** * JSON: [encoding/json]

    Values, their compact text and the parser.  A string keeps its raw text between
    the quotes; [unquote] decodes it.  Recursions over text are fuelled by its length. *)

From S2P Require Import Prelude GoStrings Strconv.
From Stdlib Require Import Ascii String.
Local Open Scope string_scope.
Local Open Scope Z_scope.

Inductive json :=
  | JNull
  | JBool (b : bool)
  | JNum (literal : string)
  | JStr (raw : string)
  | JArr (elements : list json)
  | JObj (members : list (string * json)).

(** ** Strings *)

Definition u_escape (z : Z) : string :=
  "\u" ++ hex_EncodeToString [z / 256; z mod 256].

(** One ASCII character as the encoder writes it, HTML characters escaped. *)
Definition escape_ascii (z : Z) : string :=
  if (z =? 34) || (z =? 92) then String backslash (String (chr z) EmptyString)
  else if z =? 8 then "\b" else if z =? 12 then "\f" else if z =? 10 then "\n"
  else if z =? 13 then "\r" else if z =? 9 then "\t"
  else if (z <? 32) || (z =? 60) || (z =? 62) || (z =? 38) then u_escape z
  else String (chr z) EmptyString.

Definition escape_rune (r : Z) : string :=
  if r <? 128 then escape_ascii r
  else if (r =? 8232) || (r =? 8233) then u_escape r
  else EncodeRune r.

Fixpoint escape_body (fuel : nat) (s : string) : string :=
  match fuel, DecodeRune s with
  | S fuel, Some (r, rest) =>
      (if (r =? RuneError) && (String.length s =? S (String.length rest))%nat then "\ufffd"
       else escape_rune r) ++ escape_body fuel rest
  | _, _ => EmptyString
  end.

(** The raw text of a string; invalid UTF-8 becomes the replacement character. *)
Definition escape (s : string) : string := escape_body (String.length s) s.

Definition short_escape (c : ascii) : option Z :=
  match byte c with
  | 98 => Some 8 | 102 => Some 12 | 110 => Some 10 | 114 => Some 13 | 116 => Some 9
  | 34 => Some 34 | 92 => Some 92 | 47 => Some 47
  | _ => None
  end.

Definition is_hex (c : ascii) : bool := is_Some_b (hexValue c).

(** The raw text of a string literal up to its closing quote, and the rest. *)
Fixpoint scan_string (s : string) : option (string * string) :=
  match s with
  | EmptyString => None
  | String c rest =>
      if Ascii.eqb c quote then Some (EmptyString, rest)
      else if byte c <? 32 then None
      else if negb (Ascii.eqb c backslash) then
        '(raw, rest) ← scan_string rest; Some (String c raw, rest)
      else
        match rest with
        | EmptyString => None
        | String e rest =>
            if is_Some_b (short_escape e) then
              '(raw, rest) ← scan_string rest; Some (String c (String e raw), rest)
            else if Ascii.eqb e "u" then
              match rest with
              | String h1 (String h2 (String h3 (String h4 rest))) =>
                  if is_hex h1 && is_hex h2 && is_hex h3 && is_hex h4 then
                    '(raw, rest) ← scan_string rest;
                    Some (String c (String e (String h1 (String h2 (String h3 (String h4 raw))))), rest)
                  else None
              | _ => None
              end
            else None
        end
  end.

(** The rune of a [\u] escape, the second half of a surrogate pair included. *)
Definition utf16_rune (v : Z) (rest : string) : Z * string :=
  if between 55296 56319 v then
    match after_prefix "\u" rest ≫= hex_digits 4 0 with
    | Some (w, rest') =>
        if between 56320 57343 w
        then ((v - 55296) * 1024 + (w - 56320) + 65536, rest')
        else (RuneError, rest)
    | None => (RuneError, rest)
    end
  else (v, rest).

(** The bytes that the first character of raw text stands for, and the rest. *)
Definition raw_char (raw : string) : option (string * string) :=
  match raw with
  | String c (String e rest) =>
      if negb (Ascii.eqb c backslash) then
        '(r, rest) ← DecodeRune raw; Some (EncodeRune r, rest)
      else if Ascii.eqb e "u" then
        '(v, rest) ← hex_digits 4 0 rest;
        let '(r, rest) := utf16_rune v rest in Some (EncodeRune r, rest)
      else
        z ← short_escape e; Some (String (chr z) EmptyString, rest)
  | _ => '(r, rest) ← DecodeRune raw; Some (EncodeRune r, rest)
  end.

Fixpoint unquote_raw (fuel : nat) (raw : string) : option string :=
  match fuel, raw with
  | _, EmptyString => Some EmptyString
  | S fuel, _ =>
      '(out, rest) ← raw_char raw;
      tail ← unquote_raw fuel rest;
      Some (out ++ tail)
  | O, _ => None
  end.

Definition unquote (raw : string) : option string := unquote_raw (String.length raw) raw.

(** ** The parser *)

Definition skip_space (s : string) : string :=
  TrimLeft s (bytes_of [32; 9; 13; 10]).

Definition digits1 (s : string) : option (string * string) :=
  match span isDigit s with
  | (EmptyString, _) => None
  | (d, rest) => Some (d, rest)
  end.

Definition number_int (s : string) : option (string * string) :=
  match s with
  | String "0" rest => Some ("0", rest)
  | _ => digits1 s
  end.

Definition number_fraction (s : string) : option (string * string) :=
  match s with
  | String "." rest => '(d, rest) ← digits1 rest; Some (String "." d, rest)
  | _ => Some (EmptyString, s)
  end.

Definition number_exponent (s : string) : option (string * string) :=
  match s with
  | String c rest =>
      if Ascii.eqb (lower c) "e" then
        let '(sign, rest) :=
          match rest with
          | String "+" r => ("+", r)
          | String "-" r => ("-", r)
          | _ => (EmptyString, rest)
          end in
        '(d, rest) ← digits1 rest; Some (String c (sign ++ d), rest)
      else Some (EmptyString, s)
  | EmptyString => Some (EmptyString, s)
  end.

Definition number (s : string) : option (string * string) :=
  let '(sign, s) := match s with String "-" r => ("-", r) | _ => (EmptyString, s) end in
  '(i, s) ← number_int s;
  '(f, s) ← number_fraction s;
  '(e, s) ← number_exponent s;
  Some (sign ++ i ++ f ++ e, s).

Definition maxNestingDepth : Z := 10000.

Fixpoint value (fuel : nat) (depth : Z) (s : string) {struct fuel} : option (json * string) :=
  match fuel with
  | O => None
  | S fuel =>
      let s := skip_space s in
      match s with
      | EmptyString => None
      | String c rest =>
          if Ascii.eqb c quote then
            '(raw, rest) ← scan_string rest; Some (JStr raw, rest)
          else if Ascii.eqb c "{" then
            if maxNestingDepth <=? depth then None
            else match expect "}" (skip_space rest) with
                 | Some rest => Some (JObj [], rest)
                 | None => '(ms, rest) ← members fuel (depth + 1) rest; Some (JObj ms, rest)
                 end
          else if Ascii.eqb c "[" then
            if maxNestingDepth <=? depth then None
            else match expect "]" (skip_space rest) with
                 | Some rest => Some (JArr [], rest)
                 | None => '(es, rest) ← elements fuel (depth + 1) rest; Some (JArr es, rest)
                 end
          else match after_prefix "null" s, after_prefix "true" s, after_prefix "false" s with
               | Some rest, _, _ => Some (JNull, rest)
               | _, Some rest, _ => Some (JBool true, rest)
               | _, _, Some rest => Some (JBool false, rest)
               | None, None, None => '(lit, rest) ← number s; Some (JNum lit, rest)
               end
      end
  end
with elements (fuel : nat) (depth : Z) (s : string) {struct fuel} : option (list json * string) :=
  match fuel with
  | O => None
  | S fuel =>
      '(v, rest) ← value fuel depth s;
      match expect "," (skip_space rest) with
      | Some rest => '(vs, rest) ← elements fuel depth rest; Some (v :: vs, rest)
      | None => rest ← expect "]" (skip_space rest); Some ([v], rest)
      end
  end
with members (fuel : nat) (depth : Z) (s : string) {struct fuel}
    : option (list (string * json) * string) :=
  match fuel with
  | O => None
  | S fuel =>
      match skip_space s with
      | String c rest =>
          if Ascii.eqb c quote then
            '(raw, rest) ← scan_string rest;
            key ← unquote raw;
            rest ← expect ":" (skip_space rest);
            '(v, rest) ← value fuel depth rest;
            match expect "," (skip_space rest) with
            | Some rest =>
                '(ms, rest) ← members fuel depth rest; Some ((key, v) :: ms, rest)
            | None => rest ← expect "}" (skip_space rest); Some ([(key, v)], rest)
            end
          else None
      | EmptyString => None
      end
  end.

Definition decode (s : string) : option json :=
  '(v, rest) ← value (2 * String.length s + 2) 0 s;
  if (skip_space rest =? EmptyString)%string then Some v else None.

(** ** Compact text *)

Definition quoted_raw (raw : string) : string := String quote (raw ++ String quote EmptyString).

Fixpoint encode (v : json) : string :=
  match v with
  | JNull => "null"
  | JBool true => "true"
  | JBool false => "false"
  | JNum lit => lit
  | JStr raw => quoted_raw raw
  | JArr es => "[" ++ Join (map encode es) "," ++ "]"
  | JObj ms => "{" ++ Join (map (fun '(k, v) => quoted_raw (escape k) ++ ":" ++ encode v) ms) "," ++ "}"
  end.

Definition JString (s : string) : json := JStr (escape s).

Example decode_examples :
  map decode [" {} "; "[1, -2.5e+3,true ,null]"; "01"; "[1,]"; "{" ++ quoted_raw "a\u0062" ++ ": [[]]}"; "nul"]
  = [Some (JObj []); Some (JArr [JNum "1"; JNum "-2.5e+3"; JBool true; JNull]); None; None;
     Some (JObj [("ab", JArr [JArr []])]); None].
Proof. vm_compute. reflexivity. Qed.

Example escape_examples :
  map escape ["a<b>&" ++ String quote "\"; bytes_of [10; 31; 127]; bytes_of [195; 169; 255; 226; 128; 168]]
  = ["a\u003cb\u003e\u0026\" ++ String quote "\\"; "\n\u001f" ++ bytes_of [127];
     bytes_of [195; 169] ++ "\ufffd\u2028"].
Proof. vm_compute. reflexivity. Qed.

Example unquote_examples :
  map unquote ["\ud83d\ude00"; "\ud83dx"; "a\/b"; "\u00e9"]
  = [Some (bytes_of [240; 159; 152; 128]); Some (bytes_of [239; 191; 189] ++ "x"); Some "a/b";
     Some (bytes_of [195; 169])].
Proof. vm_compute. reflexivity. Qed.

(** ** Strings read back *)

Definition runes_string (rs : list Z) : string :=
  fold_right (fun r s => EncodeRune r ++ s) EmptyString rs.

(** Valid UTF-8. *)
Definition utf8 (s : string) : Prop :=
  exists rs, Forall (fun r => ValidRune r = true) rs /\ s = runes_string rs.

Definition escaped (rs : list Z) : string :=
  fold_right (fun r s => escape_rune r ++ s) EmptyString rs.

Lemma EncodeRune_lead (r : Z) : ValidRune r = true ->
  exists c w, EncodeRune r = String c w
    /\ (128 <= r -> 192 <= byte c /\ w <> EmptyString
        /\ str_forall (fun c => 128 <=? byte c) w = true).
Proof.
  intros [[Hr ->]|[[Hr ->]|[(Hr & Hs & ->)|[Hr ->]]]]%EncodeRune_cases;
    cbn [bytes_of fold_right]; rune_parts r; eexists _, _; (split; [reflexivity|]); intros ?;
    [lia|..]; cbn [str_forall]; rewrite !byte_chr by lia;
    split_and!; rewrite ?andb_true_iff, ?Z.leb_le; try done; lia.
Qed.

Lemma ascii_range (P : Z -> Prop) : Forall P (seqZ 0 128) -> forall z, 0 <= z < 128 -> P z.
Proof. rewrite Forall_forall. intros H z Hz. apply H, elem_of_seqZ. lia. Qed.

(** Proves a property of every ASCII character by computation, character by character. *)
Ltac each_ascii z Hz tac :=
  pattern z; revert z Hz; apply ascii_range;
  let l := eval vm_compute in (seqZ 0 128) in change (seqZ 0 128) with l;
  repeat (constructor; [tac|]); constructor.

Lemma scan_ascii (z : Z) (t : string) :
  0 <= z < 128 ->
  scan_string (escape_ascii z ++ t) = '(raw, r) ← scan_string t; Some (escape_ascii z ++ raw, r).
Proof.
  intros Hz. revert t.
  each_ascii z Hz ltac:(intros t; destruct (scan_string t) as [[]|] eqn:E; cbn -[scan_string];
    cbn [scan_string]; rewrite ?E; reflexivity).
Qed.

Lemma raw_char_ascii (z : Z) (t : string) :
  0 <= z < 128 -> raw_char (escape_ascii z ++ t) = Some (String (chr z) EmptyString, t).
Proof. intros Hz. revert t. each_ascii z Hz ltac:(intros [|c t]; reflexivity). Qed.

Lemma high_byte (c : ascii) : 128 <= byte c ->
  Ascii.eqb c quote = false /\ Ascii.eqb c backslash = false /\ (byte c <? 32) = false.
Proof.
  intros H. split_and!; [apply Ascii.eqb_neq; intros ->; vm_compute in H; by destruct H..|].
  apply Z.ltb_ge. lia.
Qed.

Lemma scan_high (w t : string) :
  str_forall (fun c => 128 <=? byte c) w = true ->
  scan_string (w ++ t) = '(raw, r) ← scan_string t; Some (w ++ raw, r).
Proof.
  induction w as [|c w IH]; cbn [str_forall].
  { intros _. cbn. by destruct (scan_string t) as [[]|]. }
  intros [Hc%Z.leb_le Hw]%andb_true_iff. cbn [String.append scan_string].
  destruct (high_byte c Hc) as (-> & -> & ->). cbn [negb]. rewrite IH by done.
  by destruct (scan_string t) as [[]|].
Qed.

Lemma scan_rune (r : Z) (t : string) :
  ValidRune r = true ->
  scan_string (escape_rune r ++ t) = '(raw, rest) ← scan_string t; Some (escape_rune r ++ raw, rest).
Proof.
  intros Hr. unfold escape_rune. destruct (Z.ltb_spec r 128) as [Hlt|Hge].
  { apply scan_ascii. unfold ValidRune, between in Hr. apply orb_true_iff in Hr as [Hr|Hr]; split_bool; lia. }
  destruct (Z.eqb_spec r 8232) as [->|_];
    [cbn [orb]; cbn -[scan_string]; by destruct (scan_string t) as [[]|] eqn:E; cbn; rewrite E|].
  destruct (Z.eqb_spec r 8233) as [->|_];
    [cbn [orb]; cbn -[scan_string]; by destruct (scan_string t) as [[]|] eqn:E; cbn; rewrite E|].
  cbn [orb]. apply scan_high. destruct (EncodeRune_lead r Hr) as (c & w & -> & H).
  destruct (H Hge) as (Hc & _ & Hw). cbn [str_forall]. rewrite Hw, andb_true_r. apply Z.leb_le. lia.
Qed.

Lemma scan_escaped (rs : list Z) (t : string) :
  Forall (fun r => ValidRune r = true) rs ->
  scan_string (escaped rs ++ String quote t) = Some (escaped rs, t).
Proof.
  induction 1 as [|r rs Hr _ IH]; [done|]. cbn [escaped fold_right]. fold (escaped rs).
  by rewrite app_assoc_str, scan_rune, IH.
Qed.

Lemma raw_char_rune (r : Z) (t : string) :
  ValidRune r = true -> raw_char (escape_rune r ++ t) = Some (EncodeRune r, t).
Proof.
  intros Hr. unfold escape_rune. destruct (Z.ltb_spec r 128) as [Hlt|Hge].
  { assert (0 <= r < 128) as Hz
      by (unfold ValidRune, between in Hr; apply orb_true_iff in Hr as [Hr|Hr]; split_bool; lia).
    rewrite raw_char_ascii by done. unfold EncodeRune. rewrite Hr.
    by replace (r <? 128) with true by (symmetry; apply Z.ltb_lt; lia). }
  destruct (Z.eqb_spec r 8232) as [->|_]; [reflexivity|].
  destruct (Z.eqb_spec r 8233) as [->|_]; [reflexivity|]. cbn [orb].
  pose proof (DecodeRune_Encode r t Hr) as Hd.
  destruct (EncodeRune_lead r Hr) as (c & w & E & H). rewrite E in *.
  destruct (H Hge) as (Hc & Hw & _). destruct w as [|e w]; [done|]. cbn [String.append] in *.
  unfold raw_char. destruct (high_byte c ltac:(lia)) as (_ & -> & _). cbn [negb]. rewrite Hd. cbn.
  by rewrite E.
Qed.

Lemma escape_rune_nonempty (r : Z) : ValidRune r = true -> exists c w, escape_rune r = String c w.
Proof.
  intros Hr. unfold escape_rune, escape_ascii, u_escape.
  destruct (EncodeRune_lead r Hr) as (c & w & -> & _). repeat case_match; by eexists _, _.
Qed.

Lemma unquote_raw_escaped (rs : list Z) (fuel : nat) :
  Forall (fun r => ValidRune r = true) rs -> (String.length (escaped rs) <= fuel)%nat ->
  unquote_raw fuel (escaped rs) = Some (runes_string rs).
Proof.
  intros Hrs. revert fuel. induction Hrs as [|r rs Hr _ IH]; intros fuel Hf; [by destruct fuel|].
  cbn [escaped fold_right] in *. fold (escaped rs) in *.
  rewrite length_app_str in Hf. pose proof (raw_char_rune r (escaped rs) Hr) as Hc.
  destruct (escape_rune_nonempty r Hr) as (c & w & E). rewrite E in *. cbn [String.length] in Hf.
  destruct fuel as [|fuel]; [lia|]. cbn [String.append unquote_raw] in *. rewrite Hc. cbn [mbind option_bind].
  rewrite IH by lia. done.
Qed.

Lemma escape_runes (rs : list Z) (fuel : nat) :
  Forall (fun r => ValidRune r = true) rs -> (String.length (runes_string rs) <= fuel)%nat ->
  escape_body fuel (runes_string rs) = escaped rs.
Proof.
  intros Hrs. revert fuel. induction Hrs as [|r rs Hr _ IH]; intros fuel Hf; [by destruct fuel|].
  cbn [runes_string fold_right] in *. fold (runes_string rs) in *.
  rewrite length_app_str in Hf. destruct (EncodeRune_lead r Hr) as (c & w & E & _).
  destruct fuel as [|fuel]; [rewrite E in Hf; cbn in Hf; lia|].
  cbn [escape_body]. rewrite DecodeRune_Encode by done. rewrite IH by (rewrite E in Hf; cbn in Hf; lia).
  replace ((r =? RuneError) && _) with false; [done|]. symmetry. apply andb_false_iff.
  destruct (Z.eqb_spec r RuneError) as [->|]; [right|by left].
  apply Nat.eqb_neq. rewrite length_app_str. cbn. lia.
Qed.

(** Escaping valid UTF-8 and decoding the result. *)
Lemma escape_roundtrip (s : string) :
  utf8 s -> unquote (escape s) = Some s
    /\ forall t, scan_string (escape s ++ String quote t) = Some (escape s, t).
Proof.
  intros (rs & Hrs & ->). unfold escape, unquote. rewrite escape_runes by done.
  split; [by apply unquote_raw_escaped|]. intros t. by apply scan_escaped.
Qed.

(** ** Values read back *)

(** What follows a value in compact text. *)
Definition sep (t : string) : Prop :=
  match t with
  | EmptyString => True
  | String c _ => c = ","%char \/ c = "]"%char \/ c = "}"%char
  end.

Definition good_number (lit : string) : Prop :=
  (exists c w, lit = String c w /\ (isDigit c = true \/ c = "-"%char))
  /\ forall t, sep t -> number (lit ++ t) = Some (lit, t).

Fixpoint wf (v : json) : Prop :=
  match v with
  | JNull | JBool _ => True
  | JNum lit => good_number lit
  | JStr raw => forall t, scan_string (raw ++ String quote t) = Some (raw, t)
  | JArr es => fold_right (fun v P => wf v /\ P) True es
  | JObj ms => fold_right (fun '(k, v) P => utf8 k /\ wf v /\ P) True ms
  end.

Fixpoint height (v : json) : nat :=
  match v with
  | JArr es => S (fold_right (fun v h => Nat.max (height v) h) O es)
  | JObj ms => S (fold_right (fun '(_, v) h => Nat.max (height v) h) O ms)
  | _ => O
  end.

(** A character that starts a value. *)
Definition starts (c : ascii) : Prop :=
  c = quote \/ c = "{"%char \/ c = "["%char \/ c = "n"%char \/ c = "t"%char \/ c = "f"%char
  \/ isDigit c = true \/ c = "-"%char.

Lemma encode_head (v : json) : wf v -> exists c w, encode v = String c w /\ starts c.
Proof.
  unfold starts. destruct v as [|[]|lit|raw|es|ms]; cbn [wf encode]; intros H;
    try (eexists _, _; split; [reflexivity|tauto]).
  destruct H as [(c & w & -> & Hc) _]. eexists _, _. split; [reflexivity|tauto].
Qed.

Lemma digit_cases (c : ascii) : isDigit c = true -> exists d, 0 <= d < 10 /\ c = chr (48 + d).
Proof.
  unfold isDigit, between. intros H. split_bool. exists (byte c - 48). split; [lia|].
  rewrite <- (chr_byte c) at 1. f_equal. lia.
Qed.

Ltac each_start H :=
  unfold starts in H; repeat (destruct H as [->|H]; [reflexivity|]);
  destruct H as [(d & Hd & ->)%digit_cases| ->]; [|reflexivity];
  assert (d = 0 \/ d = 1 \/ d = 2 \/ d = 3 \/ d = 4 \/ d = 5 \/ d = 6 \/ d = 7 \/ d = 8 \/ d = 9)
    as Hcases by lia; repeat (destruct Hcases as [->|Hcases]; [reflexivity|]); subst d; reflexivity.

Lemma skip_space_start (c : ascii) (w : string) : starts c -> skip_space (String c w) = String c w.
Proof.
  intros H. unfold skip_space. cbn [TrimLeft].
  assert (contains_byte c (bytes_of [32; 9; 13; 10]) = false) as ->; [each_start H|done].
Qed.

Lemma expect_start (c : ascii) (w : string) : starts c -> expect "]" (String c w) = None.
Proof. intros H. cbn [expect]. assert (Ascii.eqb c "]" = false) as ->; [each_start H|done]. Qed.

Lemma number_start (c : ascii) (w : string) :
  isDigit c = true \/ c = "-"%char ->
  Ascii.eqb c quote = false /\ Ascii.eqb c "{" = false /\ Ascii.eqb c "[" = false
  /\ after_prefix "null" (String c w) = None /\ after_prefix "true" (String c w) = None
  /\ after_prefix "false" (String c w) = None.
Proof.
  intros [(d & Hd & ->)%digit_cases| ->]; [|done].
  assert (d = 0 \/ d = 1 \/ d = 2 \/ d = 3 \/ d = 4 \/ d = 5 \/ d = 6 \/ d = 7 \/ d = 8 \/ d = 9)
    as Hcases by lia.
  repeat (destruct Hcases as [->|Hcases]; [done|]). by subst d.
Qed.

(** The claim about [value] for values of height at most [n]. *)
Definition reads_back (n : nat) : Prop :=
  forall v fuel depth t,
    (height v <= n)%nat -> wf v -> sep t -> depth + Z.of_nat (height v) <= maxNestingDepth ->
    (2 * String.length (encode v ++ t) + 2 <= fuel)%nat ->
    value fuel depth (encode v ++ t) = Some (v, t).

Lemma elements_encode (n : nat) (e : json) (es : list json) (fuel : nat) (depth : Z) (t : string) :
  reads_back n ->
  Forall (fun v => (height v <= n)%nat /\ wf v /\ depth + Z.of_nat (height v) <= maxNestingDepth) (e :: es) ->
  (2 * String.length (Join (map encode (e :: es)) "," ++ String "]" t) + 3 <= fuel)%nat ->
  elements fuel depth (Join (map encode (e :: es)) "," ++ String "]" t) = Some (e :: es, t).
Proof.
  intros Hn. revert e fuel. induction es as [|e' es IH]; intros e [|fuel] Hall Hf; try lia;
    apply Forall_cons in Hall as [(? & ? & ?) Hall].
  - cbn [map Join elements] in *. rewrite Hn; [reflexivity|try done; try lia..]. right. by left.
  - change (Join (map encode (e :: e' :: es)) ",")
      with (encode e ++ "," ++ Join (map encode (e' :: es)) ",") in *.
    rewrite !app_assoc_str in *. cbn [elements].
    change ("," ++ Join (map encode (e' :: es)) "," ++ String "]" t)
      with (String "," (Join (map encode (e' :: es)) "," ++ String "]" t)) in *.
    rewrite Hn; [|try done; try lia..]; [|by left].
    cbn [mbind option_bind].
    change (expect "," (skip_space (String "," ?x))) with (Some x).
    cbn [expect skip_space]. rewrite length_app_str in Hf. cbn [String.length] in Hf.
    rewrite IH; [done|done|lia].
Qed.

Definition members_text (ms : list (string * json)) : string :=
  Join (map (fun '(k, v) => quoted_raw (escape k) ++ ":" ++ encode v) ms) ",".

Lemma members_encode (n : nat) (m : string * json) (ms : list (string * json)) (fuel : nat)
    (depth : Z) (t : string) :
  let text := members_text (m :: ms) in
  reads_back n ->
  Forall (fun m => utf8 (fst m) /\ (height (snd m) <= n)%nat /\ wf (snd m)
                   /\ depth + Z.of_nat (height (snd m)) <= maxNestingDepth) (m :: ms) ->
  (2 * String.length (text ++ String "}" t) + 3 <= fuel)%nat ->
  members fuel depth (text ++ String "}" t) = Some (m :: ms, t).
Proof.
  intros text Hn. revert m fuel text.
  induction ms as [|m' ms IH]; intros [k v] [|fuel] text Hall Hf; try lia;
    apply Forall_cons in Hall as [(Hk & ? & ? & ?) Hall]; cbn [fst snd] in *;
    destruct (escape_roundtrip k Hk) as [Hu Hs]; subst text; unfold members_text in *.
  - cbn [map Join] in *. unfold quoted_raw in *. cbn [String.append] in *.
    rewrite !app_assoc_str in *. cbn [String.append members] in *.
    change (skip_space (String quote ?x)) with (String quote x). cbv beta iota.
    rewrite Ascii.eqb_refl, Hs.
    cbn [mbind option_bind]. rewrite Hu. cbn [mbind option_bind].
    change (expect ":" (skip_space (String ":" ?x))) with (Some x). cbn [mbind option_bind].
    rewrite Hn; [reflexivity|try done..]; [by right; right|].
    cbn [String.length] in Hf. rewrite length_app_str in Hf. cbn [String.length] in Hf. lia.
  - set (tl := Join (map (fun '(k, v) => quoted_raw (escape k) ++ ":" ++ encode v) (m' :: ms)) ",") in *.
    change (Join (map (fun '(k, v) => quoted_raw (escape k) ++ ":" ++ encode v) ((k, v) :: m' :: ms)) ",")
      with ((quoted_raw (escape k) ++ ":" ++ encode v) ++ "," ++ tl) in *.
    unfold quoted_raw in *. cbn [String.append] in *.
    rewrite !app_assoc_str in *. cbn [String.append members] in *.
    change (skip_space (String quote ?x)) with (String quote x). cbv beta iota.
    rewrite Ascii.eqb_refl, Hs.
    cbn [mbind option_bind]. rewrite Hu. cbn [mbind option_bind].
    change (expect ":" (skip_space (String ":" ?x))) with (Some x). cbn [mbind option_bind].
    rewrite ?app_assoc_str in *. cbn [String.append] in *.
    cbn [String.length] in Hf. rewrite length_app_str in Hf. cbn [String.length] in Hf.
    rewrite Hn; [|try done..]; [|by left|lia]. cbn [mbind option_bind].
    change (expect "," (skip_space (String "," ?x))) with (Some x).
    rewrite length_app_str in Hf. cbn [String.length] in Hf. unfold tl in *.
    rewrite IH; [done|done|lia].
Qed.

Lemma all_members (n : nat) (depth : Z) (ms : list (string * json)) :
  wf (JObj ms) -> (height (JObj ms) <= S n)%nat ->
  depth + Z.of_nat (height (JObj ms)) <= maxNestingDepth ->
  Forall (fun m => utf8 (fst m) /\ (height (snd m) <= n)%nat /\ wf (snd m)
                   /\ depth + 1 + Z.of_nat (height (snd m)) <= maxNestingDepth) ms.
Proof.
  cbn [wf height]. induction ms as [|[k v] ms IH]; intros Hw Hh Hd; constructor; cbn in *.
  - destruct Hw as (? & ? & _). split_and!; try done; lia.
  - apply IH; [tauto|lia|lia].
Qed.

Lemma all_elements (n : nat) (depth : Z) (es : list json) :
  wf (JArr es) -> (height (JArr es) <= S n)%nat ->
  depth + Z.of_nat (height (JArr es)) <= maxNestingDepth ->
  Forall (fun v => (height v <= n)%nat /\ wf v
                   /\ depth + 1 + Z.of_nat (height v) <= maxNestingDepth) es.
Proof.
  cbn [wf height]. induction es as [|v es IH]; intros Hw Hh Hd; constructor; cbn in *.
  - destruct Hw as (? & _). split_and!; try done; lia.
  - apply IH; [tauto|lia|lia].
Qed.

Lemma value_encode (n : nat) : reads_back n.
Proof.
  induction n as [n IHn] using lt_wf_ind.
  intros v fuel depth t Hh Hw Ht Hd Hf. destruct fuel as [|fuel]; [lia|].
  destruct v as [|[]|lit|raw|es|ms]; try reflexivity.
  - destruct Hw as [(c & w & -> & Hc) Hnum]. cbn [encode value] in *.
    destruct (number_start c (w ++ t) Hc) as (E1 & E2 & E3 & E4 & E5 & E6).
    cbn [String.append] in *. rewrite skip_space_start by (unfold starts; tauto).
    rewrite E1, E2, E3, E4, E5, E6. pose proof (Hnum t Ht) as Hn. cbn [String.append] in Hn.
    by rewrite Hn.
  - cbn [encode value] in *. unfold quoted_raw. cbn [String.append]. rewrite app_assoc_str.
    change (skip_space (String quote ?x)) with (String quote x). cbv beta iota.
    rewrite Ascii.eqb_refl. cbn [String.append]. by rewrite Hw.
  - destruct es as [|e es].
    { cbn [height fold_right] in Hd. cbn. replace (maxNestingDepth <=? depth) with false; [done|].
      symmetry. apply Z.leb_gt. cbn in Hd. lia. }
    destruct n as [|n]; [cbn in Hh; lia|].
    pose proof (all_elements n depth (e :: es) Hw Hh Hd) as Hall.
    assert (depth < maxNestingDepth) by (cbn [height] in Hd; lia). cbn [wf fold_right] in Hw.
    destruct (encode_head e ltac:(tauto)) as (c & w & Ec & Hc).
    cbn [encode value] in *. cbn [String.append] in *. rewrite app_assoc_str in *.
    change (skip_space (String "[" ?x)) with (String "[" x). cbv beta iota.
    change (Ascii.eqb "[" quote) with false. change (Ascii.eqb "[" "{") with false.
    change (Ascii.eqb "[" "[") with true. cbv iota.
    replace (maxNestingDepth <=? depth) with false by (symmetry; apply Z.leb_gt; lia).
    assert (expect "]" (skip_space (Join (map encode (e :: es)) "," ++ String "]" t)) = None) as Hx.
    { destruct es; cbn [map Join]; rewrite Ec; cbn [String.append];
        by rewrite skip_space_start, expect_start. }
    cbn [String.append] in *. rewrite Hx, (elements_encode n); [done|by apply IHn; lia|done|].
    cbn [String.length] in Hf. lia.
  - destruct ms as [|m ms].
    { cbn [height fold_right] in Hd. cbn. replace (maxNestingDepth <=? depth) with false; [done|].
      symmetry. apply Z.leb_gt. cbn in Hd. lia. }
    destruct n as [|n]; [cbn in Hh; destruct m; lia|].
    pose proof (all_members n depth (m :: ms) Hw Hh Hd) as Hall.
    assert (depth < maxNestingDepth) by (cbn [height] in Hd; lia).
    change (encode (JObj (m :: ms)))
      with (String "{" (members_text (m :: ms) ++ String "}" EmptyString)) in *.
    set (text := members_text (m :: ms)) in *.
    assert (exists w, text = String quote w) as [w Ew].
    { subst text. destruct m as [k v], ms; cbn; by eexists. }
    cbn [value String.append] in *. rewrite app_assoc_str in *. cbn [String.append] in *.
    change (skip_space (String "{" ?x)) with (String "{" x). cbv beta iota.
    change (Ascii.eqb "{" quote) with false. change (Ascii.eqb "{" "{") with true. cbv iota.
    replace (maxNestingDepth <=? depth) with false by (symmetry; apply Z.leb_gt; lia).
    assert (expect "}" (skip_space (text ++ String "}" t)) = None) as -> by (by rewrite Ew).
    unfold text in *. rewrite (members_encode n); [done|by apply IHn; lia|done|].
    cbn [String.length] in Hf. lia.
Qed.

(** Parsing the compact text of a value gives the value. *)
Lemma decode_encode (v : json) :
  wf v -> Z.of_nat (height v) <= maxNestingDepth -> decode (encode v) = Some v.
Proof.
  intros Hw Hh. unfold decode. pose proof (value_encode (height v) v) as H.
  specialize (H (2 * String.length (encode v) + 2)%nat 0 EmptyString).
  rewrite app_empty_r in H. by rewrite H.
Qed.

(** ** Integers as numbers *)

Lemma format_digits_shape (fuel : nat) (z : Z) (acc : string) :
  0 <= z < 10 ^ Z.of_nat fuel -> fuel <> O ->
  exists c w, format_digits fuel z acc = String c w ++ acc
    /\ str_forall isDigit (String c w) = true
    /\ ((z = 0 /\ c = "0"%char /\ w = EmptyString) \/ (0 < z /\ c <> "0"%char)).
Proof.
  revert z acc. induction fuel as [|fuel IH]; intros z acc Hz Hf; [done|]. cbn [format_digits].
  pose proof (Z.mod_pos_bound z 10 ltac:(lia)) as Hm.
  assert (isDigit (chr (48 + z mod 10)) = true) as Hd by by apply isDigit_chr.
  destruct (Z.ltb_spec z 10) as [Hlt|Hge].
  - exists (chr (48 + z mod 10)), EmptyString. cbn [str_forall String.append]. rewrite Hd.
    split_and!; [done..|]. destruct (decide (z = 0)) as [->|]; [by left|right].
    rewrite Z.mod_small by lia. split; [lia|]. intros E.
    assert (byte (chr (48 + z)) = 48) as Eb by by rewrite E. rewrite byte_chr in Eb by lia. lia.
  - rewrite Nat2Z.inj_succ, Z.pow_succ_r in Hz by lia.
    assert (fuel <> O) by (intros ->; change (10 ^ Z.of_nat 0) with 1 in Hz; lia).
    destruct (IH (z / 10) (String (chr (48 + z mod 10)) acc)) as (c & w & -> & Hw & Hc); [|done|].
    { split; [apply Z.div_pos; lia | apply Z.div_lt_upper_bound; lia]. }
    exists c, (w ++ String (chr (48 + z mod 10)) EmptyString).
    cbn [String.append]. rewrite app_assoc_str. split_and!; [done| |].
    + cbn [str_forall] in *. rewrite str_forall_app. cbn [str_forall]. rewrite Hd, andb_true_r. done.
    + right. pose proof (Z.div_str_pos z 10 ltac:(lia)). destruct Hc as [[? _]|[_ Hc]]; [lia|].
      split; [lia|done].
Qed.

Lemma span_all (P : ascii -> bool) (w t : string) :
  str_forall P w = true -> (forall c r, t = String c r -> P c = false) -> span P (w ++ t) = (w, t).
Proof.
  intros Hw Ht. induction w as [|c w IH].
  - destruct t as [|c r]; [done|]. cbn. by rewrite (Ht c r).
  - cbn in *. apply andb_true_iff in Hw as [Hc Hw]. by rewrite Hc, IH.
Qed.

Lemma sep_stops (t : string) : sep t ->
  (forall c r, t = String c r -> isDigit c = false)
  /\ number_fraction t = Some (EmptyString, t) /\ number_exponent t = Some (EmptyString, t).
Proof. destruct t as [|c r]; [done|]. intros [->|[->| ->]]; (split; [by intros ? ? [= <- <-]|done]). Qed.

Lemma number_int_digits (c : ascii) (w t : string) :
  str_forall isDigit (String c w) = true -> (c = "0"%char /\ w = EmptyString) \/ c <> "0"%char ->
  (forall d r, t = String d r -> isDigit d = false) ->
  number_int (String c w ++ t) = Some (String c w, t).
Proof.
  intros Hw [[-> ->]|Hc] Ht; [done|].
  assert (digits1 (String c w ++ t) = Some (String c w, t)) as Hd
    by (unfold digits1; by rewrite span_all).
  cbn [String.append] in *. unfold number_int. destruct c as [[] [] [] [] [] [] [] []]; done.
Qed.

Lemma FormatInt_good (z : Z) : int64 z -> good_number (FormatInt z).
Proof.
  intros Hz. unfold FormatInt. destruct (Z.ltb_spec z 0) as [Hneg|Hpos].
  - destruct (format_digits_shape 20 (- z) EmptyString) as (c & w & -> & Hw & Hc);
      [cbn; int64_lia|done|]. rewrite app_empty_r. split; [eexists _, _; split; [done|by right]|].
    intros t Ht. destruct (sep_stops t Ht) as (Hd & Hf & He).
    cbn [String.append number]. change (String c (w ++ t)) with (String c w ++ t).
    rewrite number_int_digits; [|done|by destruct Hc as [[? ?]|[? ?]]; [left|right]|done].
    cbn [mbind option_bind]. rewrite Hf. cbn [mbind option_bind]. rewrite He. cbn.
    by rewrite !app_empty_r.
  - destruct (format_digits_shape 20 z EmptyString) as (c & w & -> & Hw & Hc);
      [cbn; int64_lia|done|]. rewrite app_empty_r.
    assert (isDigit c = true) as Hdig by by apply andb_true_iff in Hw as [? _].
    split; [eexists _, _; split; [done|by left]|].
    intros t Ht. destruct (sep_stops t Ht) as (Hd & Hf & He). unfold number.
    assert ((match String c w ++ t with String "-" r => ("-", r) | _ => (EmptyString, String c w ++ t) end)
      = (EmptyString, String c w ++ t)) as ->.
    { cbn [String.append]. destruct c as [[] [] [] [] [] [] [] []]; done. }
    rewrite number_int_digits; [|done|by destruct Hc as [[? ?]|[? ?]]; [left|right]|done].
    cbn [mbind option_bind]. rewrite Hf. cbn [mbind option_bind]. rewrite He. cbn.
    by rewrite !app_empty_r.
Qed.
