(* ===== verification/JsonTotal.v ===== *)
(** * Decoding JSON terminates

    The recursions over text of [Json] are fuelled by its length.  Every parser leaves
    less than it was given, so the fuel never runs out: with more of it the answers are
    the same. *)

From S2P Require Import Prelude GoStrings Strconv Json.
From Stdlib Require Import Ascii String.
Local Open Scope string_scope.
Local Open Scope nat_scope.

Abbreviation len := String.length.

(** ** What is left *)

Lemma skip_space_le (s : string) : len (skip_space s) <= len s.
Proof.
  unfold skip_space. generalize (bytes_of [32; 9; 13; 10]%Z). intros set. induction s as [|c s IH]; [done|].
  cbn [TrimLeft]. destruct (contains_byte _ _); cbn [String.length]; lia.
Qed.

Lemma expect_lt (c : ascii) (s rest : string) : expect c s = Some rest -> len rest < len s.
Proof. destruct s as [|d s]; [done|]. cbn. destruct (Ascii.eqb d c); [|done]. intros [= <-]. lia. Qed.

Lemma expect_skip (c : ascii) (s rest : string) : expect c (skip_space s) = Some rest -> len rest < len s.
Proof. intros H%expect_lt. pose proof (skip_space_le s). lia. Qed.

Lemma DecodeRune_lt (s rest : string) (r : Z) : DecodeRune s = Some (r, rest) -> len rest < len s.
Proof.
  unfold DecodeRune. cbv zeta. intros H.
  repeat case_match; try discriminate H; injection H as _ <-; cbn; lia.
Qed.

Lemma hex_digits_le (n : nat) (acc x : Z) (s rest : string) : hex_digits n acc s = Some (x, rest) -> len rest <= len s.
Proof.
  revert acc s. induction n as [|n IH]; intros acc s; cbn [hex_digits]; [by intros [= _ <-]|].
  destruct s as [|c s]; [done|]. intros (v & _ & H)%bind_Some. apply IH in H. cbn. lia.
Qed.

Lemma after_prefix_le (p s rest : string) : after_prefix p s = Some rest -> len rest + len p = len s.
Proof.
  revert s. induction p as [|a p IH]; intros [|b s]; cbn; try done; try (intros [= <-]; cbn; lia).
  destruct (Ascii.eqb _ _); [|done]. intros H%IH. lia.
Qed.

Lemma scan_string_lt (n : nat) (s raw rest : string) : len s <= n -> scan_string s = Some (raw, rest) -> len rest < len s.
Proof.
  revert s raw. induction n as [|n IH]; intros [|c s] raw Hn; [done|cbn in Hn; lia|done|]. cbn [scan_string String.length] in *.
  destruct (Ascii.eqb c quote); [intros [= _ <-]; lia|]. destruct (_ <? _)%Z; [done|]. destruct (negb _).
  - intros ([raw' r'] & H & [= _ <-])%bind_Some. apply IH in H; lia.
  - destruct s as [|e s]; [done|]. cbn [String.length] in Hn. destruct (is_Some_b _).
    + intros ([raw' r'] & H & [= _ <-])%bind_Some. apply IH in H; cbn [String.length]; lia.
    + destruct (Ascii.eqb e "u"); [|done]. destruct s as [|h1 [|h2 [|h3 [|h4 s]]]]; try done. cbn [String.length] in *.
      destruct (_ && _); [|done]. intros ([raw' r'] & H & [= _ <-])%bind_Some. apply IH in H; lia.
Qed.

Lemma span_le (P : ascii -> bool) (s a b : string) : span P s = (a, b) -> len a + len b = len s.
Proof.
  revert a b. induction s as [|c s IH]; intros a b; cbn; [by intros [= <- <-]|].
  destruct (P c); [|by intros [= <- <-]]. destruct (span P s) as [x y]. intros [= <- <-]. specialize (IH x y eq_refl). cbn. lia.
Qed.

Lemma digits1_lt (s d rest : string) : digits1 s = Some (d, rest) -> len rest < len s.
Proof.
  unfold digits1. destruct (span isDigit s) as [[|c a] b] eqn:E; [done|]. intros [= _ <-]. apply span_le in E. cbn in E. lia.
Qed.

Lemma number_lt (s lit rest : string) : number s = Some (lit, rest) -> len rest < len s.
Proof.
  unfold number. intros H.
  destruct (match s with String "-" r => ("-", r) | _ => (EmptyString, s) end) as [sign s0] eqn:E.
  assert (len s0 <= len s) as Hs by (repeat case_match; injection E as _ <-; cbn [String.length]; lia).
  apply bind_Some in H as ([i s1] & H1 & H). apply bind_Some in H as ([f s2] & H2 & H).
  apply bind_Some in H as ([e s3] & H3 & [= _ <-]).
  assert (len s1 < len s0).
  { unfold number_int in H1. repeat case_match; try (injection H1 as _ <-; cbn; lia); by apply digits1_lt in H1. }
  assert (len s2 <= len s1).
  { unfold number_fraction in H2. repeat case_match; try (injection H2 as _ <-; cbn; lia);
      apply bind_Some in H2 as ([d r] & H2%digits1_lt & [= _ <-]); cbn; lia. }
  enough (len s3 <= len s2) by lia. unfold number_exponent in H3. destruct s2 as [|c s2]; [by injection H3 as _ <-|].
  destruct (Ascii.eqb _ _); [|injection H3 as _ <-; lia].
  destruct (match s2 with String "+" r => ("+", r) | String "-" r => ("-", r) | _ => (EmptyString, s2) end)
    as [g r0] eqn:E3.
  assert (len r0 <= len s2) as Hr by (repeat case_match; injection E3 as _ <-; cbn [String.length]; lia).
  apply bind_Some in H3 as ([d r] & H3%digits1_lt & [= _ <-]). cbn. lia.
Qed.

(** ** Values *)

(** What the three mutual parsers with [fuel] leave. *)
Definition progresses (fuel : nat) : Prop :=
  (forall depth s v rest, value fuel depth s = Some (v, rest) -> len rest < len s)
  /\ (forall depth s vs rest, elements fuel depth s = Some (vs, rest) -> len rest < len s)
  /\ (forall depth s ms rest, members fuel depth s = Some (ms, rest) -> len rest < len s).

Lemma value_progresses (fuel : nat) : progresses fuel.
Proof.
  induction fuel as [|fuel (IHv & IHe & IHm)]; [done|]. split_and!; intros depth s v rest.
  - cbn [value]. pose proof (skip_space_le s) as Hs. destruct (skip_space s) as [|c t]; [done|]. cbn [String.length] in Hs.
    destruct (Ascii.eqb c quote).
    { intros ([raw r] & H & [= _ <-])%bind_Some. apply (scan_string_lt (len t)) in H; lia. }
    destruct (Ascii.eqb c "{"); [|destruct (Ascii.eqb c "[")].
    + destruct (_ <=? _)%Z; [done|]. destruct (expect _ _) as [r|] eqn:E; [intros [= _ <-]; apply expect_skip in E; lia|].
      intros ([ms r] & H%IHm & [= _ <-])%bind_Some. lia.
    + destruct (_ <=? _)%Z; [done|]. destruct (expect _ _) as [r|] eqn:E; [intros [= _ <-]; apply expect_skip in E; lia|].
      intros ([es r] & H%IHe & [= _ <-])%bind_Some. lia.
    + intros H. destruct (after_prefix "null" _) as [r|] eqn:E1;
        [injection H as _ <-; apply after_prefix_le in E1; cbn [String.length] in E1; lia|].
      destruct (after_prefix "true" _) as [r|] eqn:E2;
        [injection H as _ <-; apply after_prefix_le in E2; cbn [String.length] in E2; lia|].
      destruct (after_prefix "false" _) as [r|] eqn:E3;
        [injection H as _ <-; apply after_prefix_le in E3; cbn [String.length] in E3; lia|].
      apply bind_Some in H as ([lit r] & H%number_lt & [= _ <-]). cbn [String.length] in H. lia.
  - cbn [elements]. intros ([x r] & H1%IHv & H)%bind_Some. destruct (expect "," _) as [r'|] eqn:E.
    + apply expect_skip in E. apply bind_Some in H as ([vs r2] & H%IHe & [= _ <-]). lia.
    + apply bind_Some in H as (r2 & H%expect_skip & [= _ <-]). lia.
  - cbn [members]. pose proof (skip_space_le s) as Hs. destruct (skip_space s) as [|c t]; [done|]. cbn [String.length] in Hs.
    destruct (Ascii.eqb c quote); [|done]. intros ([raw r] & H1 & H)%bind_Some.
    apply (scan_string_lt (len t)) in H1; [|lia]. apply bind_Some in H as (key & _ & H).
    apply bind_Some in H as (r1 & H2%expect_skip & H). apply bind_Some in H as ([x r2] & H3%IHv & H).
    destruct (expect "," _) as [r3|] eqn:E.
    + apply expect_skip in E. apply bind_Some in H as ([xs r4] & H%IHm & [= _ <-]). lia.
    + apply bind_Some in H as (r4 & H%expect_skip & [= _ <-]). lia.
Qed.

(** Two amounts of fuel, each enough for text of [n] bytes, give the same answers. *)
Definition agree (n : nat) : Prop :=
  (forall f g depth s, len s <= n -> 2 * len s + 2 <= f -> 2 * len s + 2 <= g -> value f depth s = value g depth s)
  /\ (forall f g depth s, len s <= n -> 2 * len s + 3 <= f -> 2 * len s + 3 <= g -> elements f depth s = elements g depth s)
  /\ (forall f g depth s, len s <= n -> 2 * len s + 3 <= f -> 2 * len s + 3 <= g -> members f depth s = members g depth s).

Lemma bind_same {A B : Type} (o : option A) (f g : A -> option B) :
  (forall a, o = Some a -> f a = g a) -> (o ≫= f) = (o ≫= g).
Proof. destruct o; [|done]. intros H. by apply H. Qed.

Lemma value_agree (n : nat) (f g : nat) (depth : Z) (s : string) :
  (forall m, m < n -> agree m) -> len s <= n -> 2 * len s + 2 <= f -> 2 * len s + 2 <= g ->
  value f depth s = value g depth s.
Proof.
  intros IH Hn Hf Hg. destruct f as [|f], g as [|g]; try lia. cbn [value].
  pose proof (skip_space_le s) as Hs. destruct (skip_space s) as [|c t]; [done|]. cbn [String.length] in Hs.
  destruct (IH (len t) ltac:(lia)) as (_ & IHe & IHm).
  destruct (Ascii.eqb c quote); [done|]. destruct (Ascii.eqb c "{"); [|destruct (Ascii.eqb c "["); [|done]].
  - destruct (_ <=? _)%Z; [done|]. destruct (expect _ _); [done|]. by rewrite (IHm f g) by lia.
  - destruct (_ <=? _)%Z; [done|]. destruct (expect _ _); [done|]. by rewrite (IHe f g) by lia.
Qed.

Lemma fuel_agrees (n : nat) : agree n.
Proof.
  induction n as [n IH] using lt_wf_ind.
  assert (forall f g depth s, len s <= n -> 2 * len s + 2 <= f -> 2 * len s + 2 <= g ->
    value f depth s = value g depth s) as Hv by (intros; by eapply value_agree).
  split; [done|]. split; intros f g depth s Hn Hf Hg; destruct f as [|f], g as [|g]; try lia.
  - cbn [elements]. rewrite (Hv f g) by lia. apply bind_same. intros [v r] H%value_progresses.
    destruct (expect "," _) as [r'|] eqn:E; [|done]. apply expect_skip in E.
    destruct (IH (len r') ltac:(lia)) as (_ & IHe & _). by rewrite (IHe f g) by lia.
  - cbn [members]. pose proof (skip_space_le s) as Hs. destruct (skip_space s) as [|c t]; [done|]. cbn [String.length] in Hs.
    destruct (Ascii.eqb c quote); [|done]. apply bind_same. intros [raw r] H.
    apply (scan_string_lt (len t)) in H; [|lia]. apply bind_same. intros key _. apply bind_same. intros r1 H1%expect_skip.
    rewrite (Hv f g) by lia. apply bind_same. intros [v r2] H2%value_progresses.
    destruct (expect "," _) as [r3|] eqn:E; [|done]. apply expect_skip in E.
    destruct (IH (len r3) ltac:(lia)) as (_ & _ & IHm). by rewrite (IHm f g) by lia.
Qed.

(** ** Strings *)

Lemma raw_char_lt (raw out rest : string) : raw_char raw = Some (out, rest) -> len rest < len raw.
Proof.
  destruct raw as [|c [|e raw]]; [done| |]; cbn [raw_char].
  { intros ([r t] & H%DecodeRune_lt & [= _ <-])%bind_Some. lia. }
  destruct (negb _); [intros ([r t] & H%DecodeRune_lt & [= _ <-])%bind_Some; lia|].
  destruct (Ascii.eqb e "u"); [|intros (z & _ & [= _ <-])%bind_Some; cbn; lia].
  intros ([v t] & H%hex_digits_le & E)%bind_Some. destruct (utf16_rune v t) as [r t'] eqn:Eu. injection E as _ <-.
  enough (len t' <= len t) by (cbn; lia). revert Eu. unfold utf16_rune.
  destruct (between _ _ _); [|intros [= _ <-]; lia].
  destruct (after_prefix "\u" t ≫= hex_digits 4 0) as [[w u]|] eqn:Ew; [|intros [= _ <-]; lia].
  apply bind_Some in Ew as (u0 & E1%after_prefix_le & E2%hex_digits_le).
  destruct (between _ _ _); intros [= _ <-]; lia.
Qed.

Lemma unquote_fuel (f : nat) (raw : string) : len raw <= f -> unquote_raw f raw = unquote raw.
Proof.
  unfold unquote. assert (forall g, len raw <= f -> len raw <= g -> unquote_raw f raw = unquote_raw g raw) as H; [|auto].
  revert raw. induction f as [|f IH]; intros raw [|g] Hf Hg; destruct raw as [|c raw]; try done;
    cbn [String.length] in *; try lia.
  cbn [unquote_raw]. apply bind_same. intros [out rest] H%raw_char_lt. cbn [String.length] in H. by rewrite (IH rest g) by lia.
Qed.

Lemma escape_fuel (f : nat) (s : string) : len s <= f -> escape_body f s = escape s.
Proof.
  unfold escape. assert (forall g, len s <= f -> len s <= g -> escape_body f s = escape_body g s) as H; [|auto].
  revert s. induction f as [|f IH]; intros s [|g] Hf Hg; cbn [escape_body]; try done.
  - destruct s; [done|cbn in Hf; lia].
  - destruct s; [done|cbn in Hg; lia].
  - destruct (DecodeRune s) as [[r rest]|] eqn:E; [|done]. apply DecodeRune_lt in E. by rewrite (IH rest g) by lia.
Qed.

(** ** Documents *)

(** A whole text, with any fuel. *)
Definition read_with (fuel : nat) (s : string) : option json :=
  '(v, rest) ← value fuel 0 s; if (skip_space rest =? EmptyString)%string then Some v else None.

Lemma value_fuel (fuel : nat) (s : string) : 2 * len s + 2 <= fuel -> value (2 * len s + 2) 0 s = value fuel 0 s.
Proof. intros Hf. destruct (fuel_agrees (len s)) as (H & _). apply H; lia. Qed.

Lemma decode_fuel (fuel : nat) (s : string) : 2 * len s + 2 <= fuel -> decode s = read_with fuel s.
Proof. intros Hf. unfold decode, read_with. by rewrite (value_fuel fuel). Qed.
