(* ===== verification/Metadata.v ===== *)
(** * Cache metadata on disk: [cache.Metadata] and its JSON

    The record of [internal/cache/store.go] with what [json.Marshal] and
    [json.Unmarshal] make of it. *)

From S2P Require Import Prelude GoStrings Strconv Http Time Json.
From Stdlib Require Import Ascii String.
Local Open Scope string_scope.
Local Open Scope Z_scope.

Record Metadata := mkMetadata {
  Status : Z;
  Header_ : Header;
  StoredAt : Time;
  ContentBytes : Z;
  ContentDigest : string;
  BodyFile : string
}.

Definition zeroMetadata : Metadata := mkMetadata 0 ∅ zeroTime 0 EmptyString EmptyString.

(** ** [json.Marshal] *)

Definition key_le (a b : string * list string) : Prop := String.leb (fst a) (fst b) = true.

#[export] Instance key_le_dec : RelDecision key_le.
Proof. intros a b. unfold key_le. apply _. Defined.

(** A map is written with its keys in byte order. *)
Definition sorted_entries (h : Header) : list (string * list string) :=
  merge_sort key_le (map_to_list h).

Definition header_json (h : Header) : json :=
  JObj (map (fun '(k, vs) => (k, JArr (map JString vs))) (sorted_entries h)).

Definition omitempty (name s : string) : list (string * json) :=
  if (s =? EmptyString)%string then [] else [(name, JString s)].

Definition to_json (m : Metadata) : json :=
  JObj ([("status", JNum (FormatInt (Status m)));
         ("header", header_json (Header_ m));
         ("stored_at", JStr (FormatRFC3339Nano (StoredAt m)));
         ("content_bytes", JNum (FormatInt (ContentBytes m)))]
        ++ omitempty "content_digest" (ContentDigest m)
        ++ omitempty "body_file" (BodyFile m)).

(** Years outside four digits do not encode. *)
Definition Marshal (m : Metadata) : option string :=
  if between 0 9999 (year_of (StoredAt m)) then Some (encode (to_json m)) else None.

(** ** [json.Unmarshal] *)

Definition int_value (old : Z) (v : json) : option Z :=
  match v with
  | JNull => Some old
  | JNum lit => match ParseInt lit with Ok z => Some z | Err _ => None end
  | _ => None
  end.

Definition string_value (old : string) (v : json) : option string :=
  match v with
  | JNull => Some old
  | JStr raw => unquote raw
  | _ => None
  end.

(** [time.Time.UnmarshalJSON] reads the raw text of the string. *)
Definition time_value (old : Time) (v : json) : option Time :=
  match v with
  | JNull => Some old
  | JStr raw => ParseRFC3339 raw
  | _ => None
  end.

Definition strings_value (v : json) : option (list string) :=
  match v with
  | JNull => Some []
  | JArr es => mapM (string_value EmptyString) es
  | _ => None
  end.

Definition header_member (h : option Header) (member : string * json) : option Header :=
  h ← h;
  vs ← strings_value (snd member);
  Some (<[fst member := vs]> h).

Definition header_value (old : Header) (v : json) : option Header :=
  match v with
  | JNull => Some ∅
  | JObj ms => foldl header_member (Some old) ms
  | _ => None
  end.

(** One member of the object; names match whatever their case, unknown ones are
    ignored. *)
Definition set_member (m : option Metadata) (member : string * json) : option Metadata :=
  m ← m;
  let '(key, v) := member in
  let '(mkMetadata status header storedAt contentBytes digest bodyFile) := m in
  if EqualFold key "status" then
    z ← int_value status v; Some (mkMetadata z header storedAt contentBytes digest bodyFile)
  else if EqualFold key "header" then
    h ← header_value header v; Some (mkMetadata status h storedAt contentBytes digest bodyFile)
  else if EqualFold key "stored_at" then
    t ← time_value storedAt v; Some (mkMetadata status header t contentBytes digest bodyFile)
  else if EqualFold key "content_bytes" then
    z ← int_value contentBytes v; Some (mkMetadata status header storedAt z digest bodyFile)
  else if EqualFold key "content_digest" then
    s ← string_value digest v; Some (mkMetadata status header storedAt contentBytes s bodyFile)
  else if EqualFold key "body_file" then
    s ← string_value bodyFile v; Some (mkMetadata status header storedAt contentBytes digest s)
  else Some m.

Definition Unmarshal (text : string) : option Metadata :=
  v ← decode text;
  match v with
  | JNull => Some zeroMetadata
  | JObj ms => foldl set_member (Some zeroMetadata) ms
  | _ => None
  end.

(** ** Round trip *)

(** Metadata that JSON represents exactly. *)
Record encodable (m : Metadata) : Prop := {
  e_ints : int64 (Status m) /\ int64 (ContentBytes m);
  e_header : map_Forall (fun k vs => utf8 k /\ Forall utf8 vs) (Header_ m);
  e_time : 0 <= year_of (StoredAt m) <= 9999;
  e_strings : utf8 (ContentDigest m) /\ utf8 (BodyFile m)
}.

Lemma unquote_JString (old s : string) : utf8 s -> string_value old (JString s) = Some s.
Proof. intros H. by destruct (escape_roundtrip s H). Qed.

Lemma strings_roundtrip (vs : list string) :
  Forall utf8 vs -> strings_value (JArr (map JString vs)) = Some vs.
Proof.
  intros H. cbn [strings_value]. induction H as [|s vs Hs _ IH]; [done|].
  cbn [map mapM]. rewrite unquote_JString by done. cbn [mbind option_bind] in *.
  rewrite IH. done.
Qed.

Lemma header_members_roundtrip (l : list (string * list string)) (h : Header) :
  Forall (fun e => Forall utf8 (snd e)) l ->
  foldl header_member (Some h) (map (fun '(k, vs) => (k, JArr (map JString vs))) l)
  = Some (foldl (fun h '(k, vs) => <[k := vs]> h) h l).
Proof.
  intros Hl. revert h. induction Hl as [|[k vs] l Hvs _ IH]; intros h; [done|].
  cbn [map foldl]. unfold header_member at 2. cbn [mbind option_bind fst snd].
  rewrite strings_roundtrip by done. cbn [mbind option_bind]. apply IH.
Qed.

Lemma foldl_insert (l : list (string * list string)) (h : Header) :
  NoDup l.*1 -> foldl (fun h '(k, vs) => <[k := vs]> h) h l = list_to_map l ∪ h.
Proof.
  revert h. induction l as [|[k vs] l IH]; intros h; cbn [fmap list_fmap foldl].
  - intros _. cbn [list_to_map foldr]. by rewrite (left_id_L ∅ (∪)).
  - intros [Hk Hl]%NoDup_cons. rewrite IH by done. cbn [list_to_map foldr].
    rewrite <- insert_union_l. rewrite insert_union_r; [done|].
    by apply not_elem_of_list_to_map_1.
Qed.

Lemma header_roundtrip (h : Header) :
  map_Forall (fun k vs => utf8 k /\ Forall utf8 vs) h ->
  header_value ∅ (header_json h) = Some h.
Proof.
  intros Hh. unfold header_json, sorted_entries. cbn [header_value].
  assert (merge_sort key_le (map_to_list h) ≡ₚ map_to_list h) as Hp by apply merge_sort_Permutation.
  rewrite header_members_roundtrip.
  - rewrite foldl_insert by (rewrite Hp; apply NoDup_fst_map_to_list).
    rewrite (right_id_L ∅ (∪)). f_equal. rewrite <- (list_to_map_to_list h) at 2.
    apply list_to_map_proper; [rewrite Hp; apply NoDup_fst_map_to_list|done].
  - rewrite Hp. apply Forall_forall. intros [k vs] Hin%elem_of_map_to_list. by destruct (Hh k vs Hin).
Qed.

Lemma scan_plain (w t : string) :
  str_forall (fun c => (32 <=? byte c) && negb (Ascii.eqb c quote) && negb (Ascii.eqb c backslash)) w = true ->
  scan_string (w ++ String quote t) = Some (w, t).
Proof.
  induction w as [|c w IH]; [done|]. cbn [str_forall]. intros [Hc Hw]%andb_true_iff.
  apply andb_true_iff in Hc as [Hc Hb]. apply andb_true_iff in Hc as [Hc%Z.leb_le Hq].
  apply negb_true_iff in Hb, Hq. cbn [String.append scan_string]. rewrite Hq, Hb.
  replace (byte c <? 32) with false by (symmetry; apply Z.ltb_ge; lia). cbn [negb].
  by rewrite IH.
Qed.

Definition date_byte (c : ascii) : bool := isDigit c || contains_byte c "-:.TZ".

Lemma date_byte_plain (s : string) :
  str_forall date_byte s = true ->
  str_forall (fun c => (32 <=? byte c) && negb (Ascii.eqb c quote) && negb (Ascii.eqb c backslash)) s = true.
Proof.
  induction s as [|c s IH]; [done|]. cbn [str_forall]. intros [Hc Hs]%andb_true_iff.
  rewrite IH, andb_true_r by done. clear IH Hs. unfold date_byte in Hc.
  apply orb_true_iff in Hc as [(d & Hd & ->)%digit_cases|Hc].
  - assert (d ∈ seqZ 0 10) as Hin by (apply elem_of_seqZ; lia). clear Hd. revert d Hin.
    apply Forall_forall. let l := eval vm_compute in (seqZ 0 10) in change (seqZ 0 10) with l.
    repeat constructor.
  - cbn [contains_byte] in Hc.
    repeat (apply orb_true_iff in Hc as [Hc|Hc]; [apply Ascii.eqb_eq in Hc; by subst c|]). done.
Qed.

Lemma digits_date (n : nat) (z : Z) : str_forall date_byte (digits n z) = true.
Proof.
  pose proof (all_digits n z) as H. induction (digits n z) as [|c s IH]; [done|].
  cbn [str_forall] in *. apply andb_true_iff in H as [Hc Hs]. unfold date_byte at 1.
  by rewrite Hc, IH.
Qed.

Lemma TrimRight_forall (P : ascii -> bool) (s cutset : string) :
  str_forall P s = true -> str_forall P (TrimRight s cutset) = true.
Proof.
  destruct (TrimRight_split s cutset) as (t & E & _). rewrite E at 1. rewrite str_forall_app.
  by intros [? _]%andb_true_iff.
Qed.

Lemma Format_date (t : Time) : str_forall date_byte (FormatRFC3339Nano t) = true.
Proof.
  unfold FormatRFC3339Nano. destruct (civil_from_days _) as [[y m] d].
  rewrite !str_forall_app, !digits_date. cbn [andb].
  assert (forall ns, str_forall date_byte (fraction ns) = true) as ->; [|done].
  intros ns. unfold fraction. destruct (ns =? 0); [done|]. rewrite str_forall_app.
  by rewrite TrimRight_forall by apply digits_date.
Qed.

Lemma wf_strings (vs : list string) : Forall utf8 vs -> wf (JArr (map JString vs)).
Proof.
  intros H. cbn [wf]. induction H as [|s vs Hs _ IH]; [done|]. split; [|done].
  exact (proj2 (escape_roundtrip s Hs)).
Qed.

Lemma ascii_utf8 (s : string) : is_ascii s = true -> utf8 s.
Proof.
  induction s as [|c s IH]; [by exists []|]. cbn. intros [Hc%Z.ltb_lt Hs]%andb_true_iff.
  destruct (IH Hs) as (rs & Hrs & ->). pose proof (byte_range c) as Hr.
  assert (ValidRune (byte c) = true) as Hv.
  { unfold ValidRune, between. apply orb_true_iff. left. apply andb_true_iff. lia. }
  exists (byte c :: rs). split; [by constructor|]. cbn [runes_string fold_right]. fold (runes_string rs).
  destruct (EncodeRune_cases (byte c) Hv) as [[_ ->]|[[? _]|[[? _]|[? _]]]]; try lia.
  cbn. by rewrite chr_byte.
Qed.

Lemma header_json_wf (h : Header) :
  map_Forall (fun k vs => utf8 k /\ Forall utf8 vs) h ->
  wf (header_json h) /\ (height (header_json h) <= 2)%nat.
Proof.
  intros Hh. unfold header_json, sorted_entries.
  assert (Forall (fun e => utf8 (fst e) /\ Forall utf8 (snd e)) (merge_sort key_le (map_to_list h))) as Hl.
  { rewrite merge_sort_Permutation. apply Forall_forall. intros [k vs] Hin%elem_of_map_to_list.
    by apply Hh. }
  cbn [wf height]. induction Hl as [|[k vs] l [Hk Hvs] _ [IHw IHh]]; [split; [done|cbn; lia]|].
  cbn [map fold_right fst snd] in *. split.
  - split; [done|]. split; [by apply wf_strings|done].
  - assert (height (JArr (map JString vs)) <= 1)%nat; [|lia]. cbn [height].
    clear. induction vs; cbn in *; lia.
Qed.

Lemma omitempty_wf (name s : string) :
  utf8 name -> utf8 s ->
  Forall (fun m => utf8 (fst m) /\ wf (snd m) /\ height (snd m) = O) (omitempty name s).
Proof.
  intros Hn Hs. unfold omitempty. destruct (_ =? _)%string; constructor; [|done].
  split_and!; [done| |done]. exact (proj2 (escape_roundtrip s Hs)).
Qed.

Lemma wf_members (ms : list (string * json)) :
  Forall (fun m => utf8 (fst m) /\ wf (snd m)) ms -> wf (JObj ms).
Proof. induction 1 as [|[k v] ms [? ?] _ IH]; [done|]. by split_and!. Qed.

Lemma height_members (n : nat) (ms : list (string * json)) :
  Forall (fun m => (height (snd m) <= n)%nat) ms -> (height (JObj ms) <= S n)%nat.
Proof. induction 1 as [|[k v] ms ? _ IH]; cbn in *; lia. Qed.

Lemma wf_date (t : Time) : wf (JStr (FormatRFC3339Nano t)).
Proof.
  pose proof (date_byte_plain _ (Format_date t)) as H. generalize dependent (FormatRFC3339Nano t).
  intros w H. cbn [wf]. intros rest. by apply scan_plain.
Qed.

Lemma to_json_wf (m : Metadata) :
  encodable m -> wf (to_json m) /\ (height (to_json m) <= 3)%nat.
Proof.
  intros [[? ?] Hh ? [Hd Hb]]. destruct (header_json_wf _ Hh) as [Hw Hht].
  assert (Forall (fun m => utf8 (fst m) /\ wf (snd m) /\ (height (snd m) <= 2)%nat)
    ([("status", JNum (FormatInt (Status m))); ("header", header_json (Header_ m));
      ("stored_at", JStr (FormatRFC3339Nano (StoredAt m)));
      ("content_bytes", JNum (FormatInt (ContentBytes m)))]
     ++ omitempty "content_digest" (ContentDigest m) ++ omitempty "body_file" (BodyFile m))) as Hall.
  { repeat apply Forall_app_2; [|eapply Forall_impl; [by apply omitempty_wf; [by apply ascii_utf8|]|]..].
    - pose proof (wf_date (StoredAt m)).
      repeat apply Forall_cons_2; try apply Forall_nil_2; cbn [fst snd];
        (split; [by apply ascii_utf8|]); (split; [first [done | by apply FormatInt_good]|]);
        first [done | cbn [height]; lia].
    - intros [k v] (? & ? & Hz). cbn in *. split_and!; try done. lia.
    - intros [k v] (? & ? & Hz). cbn in *. split_and!; try done. lia. }
  split.
  - apply wf_members. eapply Forall_impl; [exact Hall|]. intros ? (? & ? & _). done.
  - apply height_members. eapply Forall_impl; [exact Hall|]. by intros ? (_ & _ & ?).
Qed.

Section SetMember.
Variables (status : Z) (header : Header) (storedAt : Time) (contentBytes : Z)
          (digest bodyFile : string).
Let m := mkMetadata status header storedAt contentBytes digest bodyFile.

Lemma set_status (v : json) :
  set_member (Some m) ("status", v)
  = z ← int_value status v; Some (mkMetadata z header storedAt contentBytes digest bodyFile).
Proof. reflexivity. Qed.
Lemma set_header (v : json) :
  set_member (Some m) ("header", v)
  = h ← header_value header v; Some (mkMetadata status h storedAt contentBytes digest bodyFile).
Proof. reflexivity. Qed.
Lemma set_stored_at (v : json) :
  set_member (Some m) ("stored_at", v)
  = t ← time_value storedAt v; Some (mkMetadata status header t contentBytes digest bodyFile).
Proof. reflexivity. Qed.
Lemma set_content_bytes (v : json) :
  set_member (Some m) ("content_bytes", v)
  = z ← int_value contentBytes v; Some (mkMetadata status header storedAt z digest bodyFile).
Proof. reflexivity. Qed.
Lemma set_content_digest (v : json) :
  set_member (Some m) ("content_digest", v)
  = s ← string_value digest v; Some (mkMetadata status header storedAt contentBytes s bodyFile).
Proof. reflexivity. Qed.
Lemma set_body_file (v : json) :
  set_member (Some m) ("body_file", v)
  = s ← string_value bodyFile v; Some (mkMetadata status header storedAt contentBytes digest s).
Proof. reflexivity. Qed.
End SetMember.

Lemma int_roundtrip (old z : Z) : int64 z -> int_value old (JNum (FormatInt z)) = Some z.
Proof. intros H. cbn [int_value]. by rewrite ParseInt_FormatInt_id. Qed.

Lemma set_optional_digest (status : Z) (header : Header) (t : Time) (n : Z) (s : string) :
  utf8 s ->
  foldl set_member (Some (mkMetadata status header t n EmptyString EmptyString))
    (omitempty "content_digest" s)
  = Some (mkMetadata status header t n s EmptyString).
Proof.
  intros Hs. unfold omitempty. destruct (String.eqb_spec s EmptyString) as [->|_]; [done|].
  cbn [foldl]. by rewrite set_content_digest, unquote_JString.
Qed.

Lemma set_optional_body (status : Z) (header : Header) (t : Time) (n : Z) (d s : string) :
  utf8 s ->
  foldl set_member (Some (mkMetadata status header t n d EmptyString)) (omitempty "body_file" s)
  = Some (mkMetadata status header t n d s).
Proof.
  intros Hs. unfold omitempty. destruct (String.eqb_spec s EmptyString) as [->|_]; [done|].
  cbn [foldl]. by rewrite set_body_file, unquote_JString.
Qed.

Lemma Unmarshal_encode (m : Metadata) : encodable m -> Unmarshal (encode (to_json m)) = Some m.
Proof.
  intros He. destruct (to_json_wf m He) as [Hw Hh]. unfold Unmarshal.
  rewrite decode_encode by (done || unfold maxNestingDepth; lia). clear Hw Hh.
  destruct He as [[Hs Hc] Hh Ht [Hd Hb]]. destruct m as [status header t n digest body].
  cbn [Status Header_ StoredAt ContentBytes ContentDigest BodyFile] in *.
  unfold to_json. cbn [mbind option_bind Status Header_ StoredAt ContentBytes ContentDigest BodyFile].
  rewrite !foldl_app. cbn [foldl]. unfold zeroMetadata.
  rewrite set_status, int_roundtrip by done. cbn [mbind option_bind].
  rewrite set_header, header_roundtrip by done. cbn [mbind option_bind].
  rewrite set_stored_at. cbn [time_value]. rewrite ParseRFC3339_Format by done. cbn [mbind option_bind].
  rewrite set_content_bytes, int_roundtrip by done. cbn [mbind option_bind].
  by rewrite set_optional_digest, set_optional_body.
Qed.

(** Nesting and member names aside, any text JSON accepts for this record gives one. *)
Example unmarshal_examples :
  (map Unmarshal ["null"; "[]"; "{" ++ quoted_raw "STATUS" ++ ":200," ++ quoted_raw "other" ++ ":[1]}";
                  "{" ++ quoted_raw "status" ++ ":2.5}"])
  = [Some zeroMetadata; None; Some (mkMetadata 200 ∅ zeroTime 0 EmptyString EmptyString); None].
Proof. vm_compute. reflexivity. Qed.

(** ** The codec as the store sees it *)

(** What the cache needs of its metadata format: encoding may fail, and what was
    encoded from representable metadata decodes to it. *)
Class MetadataCodec := {
  marshal : Metadata -> option string;
  unmarshal : string -> option Metadata;
  representable : Metadata -> Prop;
  codec_roundtrip (m : Metadata) :
    representable m -> exists text, marshal m = Some text /\ unmarshal text = Some m
}.

Lemma Marshal_roundtrip (m : Metadata) :
  encodable m -> exists text, Marshal m = Some text /\ Unmarshal text = Some m.
Proof.
  intros He. exists (encode (to_json m)). split; [|by apply Unmarshal_encode].
  unfold Marshal. destruct He as [_ _ Ht _]. unfold between.
  by replace ((0 <=? year_of (StoredAt m)) && (year_of (StoredAt m) <=? 9999)) with true
    by (symmetry; apply andb_true_iff; lia).
Qed.

#[export] Instance json_codec : MetadataCodec := {
  marshal := Marshal;
  unmarshal := Unmarshal;
  representable := encodable;
  codec_roundtrip := Marshal_roundtrip
}.

(** ** Properties *)

(** C34: metadata written to disk reads back exactly, for every status and size that
    is an [int64], every time in the years 0 to 9999 and every header, digest and file
    name that is valid UTF-8. *)
Theorem metadata_roundtrip (m : Metadata) :
  encodable m -> exists text, Marshal m = Some text /\ Unmarshal text = Some m.
Proof. apply Marshal_roundtrip. Qed.

Definition sample_metadata : Metadata :=
  mkMetadata 200 (<["Content-Type" := ["text/html; <q>"]]> ∅) (1721922330 * nanos + 120000000) 42
    EmptyString "ab.body.7".

Lemma sample_encodable : encodable sample_metadata.
Proof.
  split; cbn; try (split; int64_lia || by apply ascii_utf8).
  - intros k vs Hk. apply lookup_insert_Some in Hk as [[<- <-]|[_ Hk]]; [|by rewrite lookup_empty in Hk].
    split; [by apply ascii_utf8|]. constructor; [by apply ascii_utf8|constructor].
  - by vm_compute.
Qed.

Lemma metadata_roundtrip_witness :
  exists text, Marshal sample_metadata = Some text /\ Unmarshal text = Some sample_metadata.
Proof. apply (metadata_roundtrip sample_metadata). exact sample_encodable. Defined.
