(* ===== verification/Fs.v ===== *)
(** * The file system

    The part of [os] the program uses, on a map from cleaned paths to nodes.  A call
    that the system refuses for its own reasons (permissions, a full disk, a failing
    device) is a call its [oracle] does not let through; such a call changes nothing. *)

From S2P Require Import Prelude Time.
From Stdlib Require Import String.
Local Open Scope string_scope.
Local Open Scope Z_scope.

Inductive kind := Regular | Directory | Other.

Record node := mkNode { nkind : kind; data : string; mtime : Time }.

Abbreviation fs := (gmap string node).

Inductive os_error := ErrNotExist | ErrIO.

Inductive call :=
  | CMkdirAll | CCreateTemp | CWrite | CSync | CClose | COpen | CRead | CStat
  | CRemove | CRename | CRenameAgain | CChtimes | CChmod | CLink | CReadDir.

#[export] Instance call_eq_dec : EqDecision call.
Proof. solve_decision. Defined.

Definition oracle := call -> string -> bool.

(** No call is refused. *)
Definition calm : oracle := fun _ _ => true.

Definition is_regular (n : node) : bool := match nkind n with Regular => true | _ => false end.
Definition is_dir (n : node) : bool := match nkind n with Directory => true | _ => false end.
Definition size_of (n : node) : Z := Z.of_nat (String.length (data n)).

Definition guard_call {A : Type} (ok : bool) (r : result os_error A) : result os_error A :=
  if ok then r else Err ErrIO.

Definition existing (path : string) (files : fs) : result os_error node :=
  match files !! path with Some n => Ok n | None => Err ErrNotExist end.

Definition Stat (io : oracle) (path : string) (files : fs) : result os_error node :=
  guard_call (io CStat path) (existing path files).

Definition Open (io : oracle) (path : string) (files : fs) : result os_error node :=
  guard_call (io COpen path) (existing path files).

Definition os_Remove (io : oracle) (path : string) (files : fs) : result os_error fs :=
  guard_call (io CRemove path)
    (match files !! path with Some _ => Ok (delete path files) | None => Err ErrNotExist end).

(** [again] tells a second attempt on the same path from the first. *)
Definition Rename (io : oracle) (again : bool) (source destination : string) (files : fs)
    : result os_error fs :=
  guard_call (io (if again then CRenameAgain else CRename) source)
    (match files !! source with
     | Some n => Ok (<[destination := n]> (delete source files))
     | None => Err ErrNotExist
     end).

Definition Chtimes (io : oracle) (path : string) (t : Time) (files : fs) : result os_error fs :=
  guard_call (io CChtimes path)
    (match files !! path with
     | Some n => Ok (<[path := mkNode (nkind n) (data n) t]> files)
     | None => Err ErrNotExist
     end).

(** [os.Link]: the new name must be free. *)
Inductive link_error := LinkExists | LinkFailed.

Definition Link (io : oracle) (source destination : string) (files : fs) : result link_error fs :=
  if negb (io CLink destination) then Err LinkFailed
  else match files !! destination, files !! source with
  | Some _, _ => Err LinkExists
  | None, None => Err LinkFailed
  | None, Some n => Ok (<[destination := n]> files)
  end.

(** An ignored error leaves the file system as it was. *)
Definition ignore_error (r : result os_error fs) (files : fs) : fs :=
  match r with Ok files' => files' | Err _ => files end.
