(* ===== verification/Store.v ===== *)
(** * The cache store: [internal/cache/store.go]

    A [Store] with the files below its root.  Every method that holds the store's
    mutex for its whole body is one function; [PutStreamVerified] is cut where it
    takes and gives back the mutex, and composed of the pieces.  [io] is the oracle
    of the calls the system lets through and [now] the time a method reads. *)

From S2P Require Import Prelude GoStrings FilePath Sha256 Http HttpPolicy Time Metadata Fs.
From S2P Require Storage.
From Stdlib Require Import Ascii String.
Local Open Scope string_scope.
Local Open Scope Z_scope.

Section Store.
Context {codec : MetadataCodec}.

(** ** Data *)

Record Store := mkStore {
  root : string;
  bytes : Z;
  objects : Z;
  controller : option Storage.Controller;
  activeTemps : gset string;
  files : fs
}.

Definition set_files (f : fs) (s : Store) : Store :=
  mkStore (root s) (bytes s) (objects s) (controller s) (activeTemps s) f.
Definition set_usage (b o : Z) (s : Store) : Store :=
  mkStore (root s) b o (controller s) (activeTemps s) (files s).
Definition set_controller (c : option Storage.Controller) (s : Store) : Store :=
  mkStore (root s) (bytes s) (objects s) c (activeTemps s) (files s).
Definition set_temps (t : gset string) (s : Store) : Store :=
  mkStore (root s) (bytes s) (objects s) (controller s) t (files s).

Definition SetController (c : Storage.Controller) (s : Store) : Store := set_controller (Some c) s.

(** [s.bytes.Add] and [s.objects.Add]. *)
Definition add_usage (b o : Z) (s : Store) : Store :=
  set_usage (wrap64 (bytes s + b)) (wrap64 (objects s + o)) s.

Record Entry := mkEntry { EntryMetadata : Metadata; BodyPath : string; Body : string }.

Record TempCleanupResult := mkTempCleanupResult { Files : Z; TempBytes : Z }.
Record GCResult := mkGCResult { Objects : Z; GCBytes : Z; Skipped : Z }.

Record Candidate := mkCandidate {
  metadataPath : string;
  bodyPath : string;
  CandidateBytes : Z;
  LastUsed : Time
}.

Inductive copy_error := ReadFailed | WriteFailed | ShortWrite.

Inductive store_error :=
  | ReadMetadata (e : os_error)
  | MetadataTooLarge
  | DecodeMetadata
  | ResolveBody (file : string)
  | StatBody
  | SizeMismatch (got want : Z)
  | OpenBody
  | RemoveFailed (e : os_error)
  | AgeNotPositive
  | WalkFailed (e : os_error)
  | ReadCapacity
  | CopyFailed (e : copy_error)
  | CreateShard
  | CreateBody
  | StreamBody (e : copy_error)
  | SyncBody
  | CloseBody
  | VerifyBody
  | EncodeMetadata
  | CreateMetadata
  | WriteMetadata
  | SyncMetadata
  | CloseMetadata
  | CommitBody
  | SetAccessTime
  | CommitMetadata
  | ExceededReservation.

(** ** Paths *)

Definition maxMetadataBytes : Z := 1048576.

Definition hash_paths (root hash : string) : string * string :=
  let base := filepath_Join [root; substring 0 2 hash; hash] in
  (base ++ ".body", base ++ ".json").

(** The body and metadata paths of a key. *)
Definition paths (s : Store) (key : string) : string * string :=
  hash_paths (root s) (sha256_hex key).

Definition bodyPathForMetadata (metadataPath : string) : option string :=
  if negb (Ext metadataPath =? ".json")%string then None
  else
    let base := TrimSuffix metadataPath ".json" in
    let hash := Base base in
    if negb (String.length hash =? 64)%nat
       || negb (Base (Dir base) =? substring 0 2 hash)%string
    then None
    else match hex_DecodeString hash with
         | None => None
         | Some _ => Some (base ++ ".body")
         end.

Definition bodyPathForEntry (metadataPath legacyBodyPath : string) (metadata : Metadata)
    : result store_error string :=
  if (BodyFile metadata =? EmptyString)%string then Ok legacyBodyPath
  else if negb (Base (BodyFile metadata) =? BodyFile metadata)%string
          || negb (HasPrefix (BodyFile metadata)
                     (TrimSuffix (Base metadataPath) ".json" ++ ".body."))
  then Err (ResolveBody (BodyFile metadata))
  else Ok (filepath_Join [Dir metadataPath; BodyFile metadata]).

Definition isTempName (name : string) : bool :=
  HasPrefix name ".body-" || HasPrefix name ".metadata-".

Definition readMetadata (io : oracle) (path : string) (files : fs) : result store_error Metadata :=
  match Open io path files with
  | Err e => Err (ReadMetadata e)
  | Ok n =>
      if negb (io CRead path) || negb (is_regular n) then Err (ReadMetadata ErrIO)
      else if maxMetadataBytes <? size_of n then Err MetadataTooLarge
      else match unmarshal (data n) with
           | Some m => Ok m
           | None => Err DecodeMetadata
           end
  end.

Definition contentLength (header : Header) : Z * bool :=
  let raw := Get header "Content-Length" in
  if (raw =? EmptyString)%string then (0, false)
  else match ParseInt raw with
       | Ok value => (value, 0 <? value)
       | Err _ => (0, false)
       end.

(** ** [Lookup] *)

Definition Lookup (io : oracle) (now : Time) (s : Store) (key : string) (ttl : Z)
    : result store_error (option Entry) * Store :=
  let '(legacyBodyPath, metadataPath) := paths s key in
  match readMetadata io metadataPath (files s) with
  | Err (ReadMetadata ErrNotExist) => (Ok None, s)
  | Err e => (Err e, s)
  | Ok metadata =>
      if ttl <=? Sub now (StoredAt metadata) then (Ok None, s)
      else match bodyPathForEntry metadataPath legacyBodyPath metadata with
      | Err e => (Err e, s)
      | Ok bodyPath =>
          match Stat io bodyPath (files s) with
          | Err ErrNotExist => (Ok None, s)
          | Err ErrIO => (Err StatBody, s)
          | Ok info =>
              if negb (size_of info =? ContentBytes metadata)
              then (Err (SizeMismatch (size_of info) (ContentBytes metadata)), s)
              else match Open io bodyPath (files s) with
              | Err ErrNotExist => (Ok None, s)
              | Err ErrIO => (Err OpenBody, s)
              | Ok body =>
                  let f := ignore_error (Chtimes io bodyPath now (files s)) (files s) in
                  (Ok (Some (mkEntry metadata bodyPath (data body))), set_files f s)
              end
          end
      end
  end.

(** ** Walks

    What [filepath.WalkDir] visits below the root: the paths in the order it chose,
    up to an error it may stop with. *)

Record Walk := mkWalk { visited : list string; walk_error : option os_error }.

Definition walked_dir (f : fs) (path : string) : bool :=
  match f !! path with Some n => is_dir n | None => false end.

(** A missing directory is no error for the methods that walk. *)
Definition walk_result (w : option os_error) : option os_error :=
  match w with Some ErrNotExist => None | _ => w end.

(** The complete entry whose metadata is at [path]: its metadata, its body and the
    body's node. *)
Definition entry_at (io : oracle) (f : fs) (path : string)
    : option (Metadata * string * node) :=
  if walked_dir f path || negb (Ext path =? ".json")%string then None
  else
    legacyBodyPath ← bodyPathForMetadata path;
    match readMetadata io path f with
    | Err _ => None
    | Ok metadata =>
        match bodyPathForEntry path legacyBodyPath metadata with
        | Err _ => None
        | Ok bodyPath =>
            match Stat io bodyPath f with
            | Err _ => None
            | Ok info =>
                if negb (is_regular info) || negb (size_of info =? ContentBytes metadata) then None
                else Some (metadata, bodyPath, info)
            end
        end
    end.

Definition candidate_at (io : oracle) (s : Store) (path : string) : option Candidate :=
  '(metadata, bodyPath, info) ← entry_at io (files s) path;
  let lastUsed := if IsZero (mtime info) then StoredAt metadata else mtime info in
  Some (mkCandidate path bodyPath (size_of info) lastUsed).

Definition used_before (a b : Candidate) : Prop := LastUsed a <= LastUsed b.

#[export] Instance used_before_dec : RelDecision used_before.
Proof. intros a b. unfold used_before. apply _. Defined.

(** Candidates of equal age come in any order; this is one of them. *)
Definition Candidates (io : oracle) (w : Walk) (s : Store) : list Candidate * option os_error :=
  (merge_sort used_before (omap (candidate_at io s) (visited w)), walk_result (walk_error w)).

Definition RemoveCandidate (io : oracle) (s : Store) (candidate : Candidate)
    : bool * option store_error * Store :=
  match bodyPathForMetadata (metadataPath candidate) with
  | None => (false, None, s)
  | Some legacyBodyPath =>
      match readMetadata io (metadataPath candidate) (files s) with
      | Err (ReadMetadata ErrNotExist) => (false, None, s)
      | Err e => (false, Some e, s)
      | Ok metadata =>
          match bodyPathForEntry (metadataPath candidate) legacyBodyPath metadata with
          | Err _ => (false, None, s)
          | Ok path =>
              if negb (path =? bodyPath candidate)%string
                 || negb (ContentBytes metadata =? CandidateBytes candidate)
              then (false, None, s)
              else match os_Remove io path (files s) with
              | Err ErrNotExist => (false, None, s)
              | Err ErrIO => (false, Some (RemoveFailed ErrIO), s)
              | Ok f =>
                  let s := add_usage (- CandidateBytes candidate) (-1) (set_files f s) in
                  match os_Remove io (metadataPath candidate) (files s) with
                  | Err e => (true, Some (RemoveFailed e), s)
                  | Ok f => (true, None, set_files f s)
                  end
              end
          end
      end
  end.

(** ** Counters *)

Definition Size (s : Store) : Z * Z := (bytes s, objects s).

Definition count_entry (io : oracle) (s : Store) (acc : Z * Z) (path : string) : Z * Z :=
  match entry_at io (files s) path with
  | Some (_, _, info) => (wrap64 (fst acc + size_of info), wrap64 (snd acc + 1))
  | None => acc
  end.

Definition Reconcile (io : oracle) (w : Walk) (s : Store) : Z * Z * option os_error * Store :=
  let '(b, o) := foldl (count_entry io s) (0, 0) (visited w) in
  let err := walk_result (walk_error w) in
  (b, o, err, match err with None => set_usage b o s | Some _ => s end).

(** [New] once the root exists: the store, unless the scan failed. *)
Definition New (io : oracle) (w : Walk) (root : string) (files : fs) : option Store :=
  if negb (io CMkdirAll root) then None
  else
    let s := mkStore root 0 0 None ∅ files in
    match Reconcile io w s with
    | (_, _, None, s) => Some s
    | (_, _, Some _, _) => None
    end.

(** ** [CleanupStaleTemps] *)

(** The callback of the walk: [Err] stops it. *)
Definition cleanup_visit (io : oracle) (cutoff : Time) (path : string)
    (acc : TempCleanupResult * Store) : result os_error (TempCleanupResult * Store) :=
  let '(r, s) := acc in
  if walked_dir (files s) path || negb (isTempName (Base path)) then Ok acc
  else if bool_decide (path ∈ activeTemps s) then Ok acc
  else match Stat io path (files s) with
  | Err e => Err e
  | Ok info =>
      if After (mtime info) cutoff then Ok acc
      else match os_Remove io path (files s) with
      | Err e => Err e
      | Ok f =>
          Ok (mkTempCleanupResult (wrap64 (Files r + 1)) (wrap64 (TempBytes r + size_of info)),
              set_files f s)
      end
  end.

Fixpoint cleanup_walk (io : oracle) (cutoff : Time) (paths : list string)
    (acc : TempCleanupResult * Store) : TempCleanupResult * Store * option os_error :=
  match paths with
  | [] => (acc, None)
  | path :: paths =>
      match cleanup_visit io cutoff path acc with
      | Err e => (acc, Some e)
      | Ok acc => cleanup_walk io cutoff paths acc
      end
  end.

Definition CleanupStaleTemps (io : oracle) (now : Time) (w : Walk) (s : Store) (maxAge : Z)
    : TempCleanupResult * option store_error * Store :=
  let zero := mkTempCleanupResult 0 0 in
  if maxAge <=? 0 then (zero, Some AgeNotPositive, s)
  else
    let cutoff := TimeAdd now (- maxAge) in
    let '(r, s, err) := cleanup_walk io cutoff (visited w) (zero, s) in
    let err := match err with Some e => Some e | None => walk_error w end in
    (r, WalkFailed <$> walk_result err, s).

(** ** [GC] *)

Definition skip (r : GCResult) : GCResult :=
  mkGCResult (Objects r) (GCBytes r) (wrap64 (Skipped r + 1)).

(** The callback of the walk, which never stops it. *)
Definition gc_visit (io : oracle) (cutoff : Time) (acc : GCResult * Store) (path : string)
    : GCResult * Store :=
  let '(r, s) := acc in
  if walked_dir (files s) path || negb (Ext path =? ".json")%string then acc
  else match bodyPathForMetadata path with
  | None => acc
  | Some legacyBodyPath =>
      match readMetadata io path (files s) with
      | Err _ => (skip r, s)
      | Ok metadata =>
          if IsZero (StoredAt metadata) || After (StoredAt metadata) cutoff then acc
          else match bodyPathForEntry path legacyBodyPath metadata with
          | Err _ => (skip r, s)
          | Ok bodyPath =>
              match Stat io bodyPath (files s) with
              | Err _ => (skip r, s)
              | Ok info =>
                  if negb (is_regular info) || negb (size_of info =? ContentBytes metadata)
                  then (skip r, s)
                  else match os_Remove io bodyPath (files s) with
                  | Err _ => (skip r, s)
                  | Ok f =>
                      let s := add_usage (- size_of info) (-1) (set_files f s) in
                      let r := mkGCResult (wrap64 (Objects r + 1)) (wrap64 (GCBytes r + size_of info))
                                 (Skipped r) in
                      match os_Remove io path (files s) with
                      | Err _ => (skip r, s)
                      | Ok f => (r, set_files f s)
                      end
                  end
              end
          end
      end
  end.

Definition GC (io : oracle) (now : Time) (w : Walk) (s : Store) (maxAge : Z)
    : GCResult * option store_error * Store :=
  let zero := mkGCResult 0 0 0 in
  if maxAge <=? 0 then (zero, Some AgeNotPositive, s)
  else
    let cutoff := TimeAdd now (- maxAge) in
    let '(r, s) := foldl (gc_visit io cutoff) (zero, s) (visited w) in
    (r, WalkFailed <$> walk_result (walk_error w), s).

(** ** [PutStreamVerified]: streaming *)

(** What reading the source yields: its chunks, and whether it then fails. *)
Record Source := mkSource { chunks : list string; failed : bool }.

Definition content (src : Source) : string := String.concat EmptyString (chunks src).

(** What a writer does with a chunk after what it accepted before: how many bytes it
    takes and whether it fails.  No writer takes more than it is given. *)
Definition Writer := string -> string -> nat * bool.

Definition accepts_all : Writer := fun _ chunk => (String.length chunk, false).

(** [io.Copy] into a writer with a state of its own. *)
Fixpoint io_Copy {S : Type} (write : S -> string -> nat * bool * S) (chunks : list string)
    (failed : bool) (written : Z) (st : S) : Z * option copy_error * S :=
  match chunks with
  | [] => (written, if failed then Some ReadFailed else None, st)
  | chunk :: chunks =>
      if (chunk =? EmptyString)%string then io_Copy write chunks failed written st
      else
        let '(n, err, st) := write st chunk in
        let written := wrap64 (written + Z.of_nat n) in
        if (err : bool) then (written, Some WriteFailed, st)
        else if negb (n =? String.length chunk)%nat then (written, Some ShortWrite, st)
        else io_Copy write chunks failed written st
  end.

(** A writer that records what it accepts. *)
Definition record_write (w : Writer) (down : string) (chunk : string) : nat * bool * string :=
  let '(n, err) := w down chunk in
  let n := Nat.min n (String.length chunk) in
  (n, err, down ++ substring 0 n chunk).

Definition copy_through (w : Writer) (src : Source) : Z * option copy_error * string :=
  io_Copy (record_write w) (chunks src) (failed src) 0 EmptyString.

(** [boundedCacheWriter] with what its two writers hold. *)
Record sink := mkSink {
  limit : Z;
  enabled : bool;
  overflow : bool;
  sinkWritten : Z;
  cache : string;
  downstream : string
}.

(** [cacheFails] tells whether the write of a chunk to the cache file fails. *)
Definition sink_Write (w : Writer) (cacheFails : string -> string -> bool) (k : sink) (body : string)
    : nat * bool * sink :=
  let '(n, err, down) := record_write w (downstream k) body in
  let part := substring 0 n body in
  let k := mkSink (limit k) (enabled k) (overflow k) (sinkWritten k) (cache k) down in
  if (0 <? n)%nat && enabled k && negb (overflow k) then
    let total := wrap64 (sinkWritten k + Z.of_nat n) in
    if (0 <=? limit k) && (wrap64 (limit k - sinkWritten k) <? Z.of_nat n) then
      (n, err, mkSink (limit k) (enabled k) true total (cache k) down)
    else if cacheFails (cache k) part then (n, true, k)
    else (n, err, mkSink (limit k) (enabled k) false total (cache k ++ part) down)
  else (n, err, k).

Definition copy_cached (w : Writer) (cacheFails : string -> string -> bool) (lim : Z) (src : Source)
    : Z * option copy_error * sink :=
  io_Copy (sink_Write w cacheFails) (chunks src) (failed src) 0
    (mkSink lim true false 0 EmptyString EmptyString).

(** ** [PutStreamVerified]: the pieces *)

Inductive admission :=
  | Refused (e : store_error)
  | Bypassed
  | Granted (reservation : option Storage.Reservation) (expectedBytes : Z).

(** [freeBytes] is what [storage.FreeBytes] returns, [None] when it fails. *)
Definition admitPut (s : Store) (header : Header) (freeBytes : option Z) : admission * Store :=
  let '(expectedBytes, sizeKnown) := contentLength header in
  match controller s with
  | None => (Granted None expectedBytes, s)
  | Some c =>
      match freeBytes with
      | None => (Refused ReadCapacity, s)
      | Some free =>
          if negb sizeKnown then (Bypassed, set_controller (Some (Storage.RecordBypass c 0)) s)
          else match Storage.Reserve c expectedBytes free with
          | (None, c) => (Bypassed, set_controller (Some c) s)
          | (Some r, c) => (Granted (Some r) expectedBytes, set_controller (Some c) s)
          end
      end
  end.

Definition Release (r : option Storage.Reservation) (s : Store) : Store :=
  match controller s with
  | Some c => set_controller (Some (snd (Storage.Release c r))) s
  | None => s
  end.

Definition RecordBypass (written : Z) (s : Store) : Store :=
  set_controller (option_map (fun c => Storage.RecordBypass c written) (controller s)) s.

(** [os.CreateTemp] with the random suffix it found free, and its registration. *)
Definition create_temp (io : oracle) (path : string) (now : Time) (s : Store) : option Store :=
  if io CCreateTemp path
  then Some (set_temps ({[ path ]} ∪ activeTemps s)
               (set_files (<[path := mkNode Regular EmptyString now]> (files s)) s))
  else None.

Definition body_temp (directory suffix : string) : string := child directory (".body-" ++ suffix).
Definition metadata_temp (directory suffix : string) : string :=
  child directory (".metadata-" ++ suffix).

Definition write_file (path text : string) (now : Time) (s : Store) : Store :=
  set_files (<[path := mkNode Regular text now]> (files s)) s.

(** The deferred removal of a temporary file, kept when it was renamed, and its
    deregistration. *)
Definition drop_temp (io : oracle) (keep : bool) (path : string) (s : Store) : Store :=
  let f := if keep then files s else ignore_error (os_Remove io path (files s)) (files s) in
  set_temps (activeTemps s ∖ {[ path ]}) (set_files f s).

(** [replace]: a rename, retried after removing what is in the way. *)
Definition replace (io : oracle) (source destination : string) (f : fs) : result os_error fs * fs :=
  match Rename io false source destination f with
  | Ok f' => (Ok f', f')
  | Err _ =>
      match Stat io destination f with
      | Ok _ =>
          match os_Remove io destination f with
          | Err e => (Err e, f)
          | Ok f =>
              match Rename io true source destination f with
              | Ok f' => (Ok f', f')
              | Err e => (Err e, f)
              end
          end
      | Err _ =>
          match Rename io true source destination f with
          | Ok f' => (Ok f', f')
          | Err e => (Err e, f)
          end
      end
  end.

(** The entry that is about to be replaced: its body path, empty when there is none,
    its size and whether it is complete. *)
Definition previous_entry (io : oracle) (s : Store) (bodyPath metadataPath : string)
    : string * Z * bool :=
  match readMetadata io metadataPath (files s) with
  | Err _ => (EmptyString, 0, false)
  | Ok previous =>
      match bodyPathForEntry metadataPath bodyPath previous with
      | Err _ => (EmptyString, 0, false)
      | Ok path =>
          if (path =? EmptyString)%string then (EmptyString, 0, false)
          else match Stat io path (files s) with
          | Err _ => (path, 0, false)
          | Ok info =>
              if is_regular info && (size_of info =? ContentBytes previous)
              then (path, size_of info, true) else (path, 0, false)
          end
      end
  end.

(** [reservation.Commit]; without a controller there is no reservation. *)
Definition commit_reservation (r : option Storage.Reservation) (written previousBytes : Z) (s : Store)
    : bool * option Storage.Reservation * Store :=
  match r, controller s with
  | Some r, Some c =>
      let '(ok, r, c) := Storage.Commit c (Some r) written previousBytes in
      (ok, r, set_controller (Some c) s)
  | r, _ => (true, r, s)
  end.

(** The last critical section.  The flags tell whether the body and the metadata
    temporary files were renamed away. *)
Definition commit (io : oracle) (bodyPath metadataPath bodyTemp metadataTemp generation : string)
    (storedAt : Time) (written : Z) (r : option Storage.Reservation) (s : Store)
    : option store_error * bool * bool * option Storage.Reservation * Store :=
  let '(previousBodyPath, previousBytes, previousValid) :=
    previous_entry io s bodyPath metadataPath in
  match Rename io false bodyTemp generation (files s) with
  | Err _ => (Some CommitBody, false, false, r, s)
  | Ok f =>
      let drop_generation f := ignore_error (os_Remove io generation f) f in
      match Chtimes io generation storedAt f with
      | Err _ => (Some SetAccessTime, true, false, r, set_files (drop_generation f) s)
      | Ok f =>
          match replace io metadataTemp metadataPath f with
          | (Err _, f) => (Some CommitMetadata, true, false, r, set_files (drop_generation f) s)
          | (Ok f, _) =>
              let '(ok, r, s) := commit_reservation r written previousBytes s in
              if negb ok
              then (Some ExceededReservation, true, true, r, set_files (drop_generation f) s)
              else
                let s := add_usage (written - previousBytes) (if previousValid then 0 else 1)
                           (set_files f s) in
                let f := if negb (previousBodyPath =? EmptyString)%string
                            && negb (previousBodyPath =? generation)%string
                         then ignore_error (os_Remove io previousBodyPath f) f else f in
                (None, true, true, r, set_files f s)
          end
      end
  end.

(** ** [PutStreamVerified] *)

(** What the system and the clock do during one call: the calls let through, the free
    bytes reported, the random suffixes of the two temporary files, the time and the
    writes to the cache file that fail. *)
Record PutEnv := mkPutEnv {
  io : oracle;
  freeBytes : option Z;
  bodySuffix : string;
  metadataSuffix : string;
  clock : Time;
  cacheFails : string -> string -> bool
}.

(** The metadata as it is written. *)
Definition stored_metadata (m : Metadata) (entries : list (string * list string)) (now : Time)
    (written : Z) (generation : string) : Metadata :=
  mkMetadata (Status m) (CacheMetadataHeaders (Header_ m) entries) now written (ContentDigest m)
    (Base generation).

(** From the encoded metadata to the commit. *)
Definition put_metadata (env : PutEnv) (bodyPath metadataPath bodyTemp generation : string)
    (now : Time) (written : Z) (text : string) (r : option Storage.Reservation) (s : Store)
    : option store_error * bool * option Storage.Reservation * Store :=
  let metadataTemp := metadata_temp (Dir bodyPath) (metadataSuffix env) in
  match create_temp (io env) metadataTemp (clock env) s with
  | None => (Some CreateMetadata, false, r, s)
  | Some s =>
      let drop keep s := drop_temp (io env) keep metadataTemp s in
      if negb (io env CWrite metadataTemp) then (Some WriteMetadata, false, r, drop false s)
      else
        let s := write_file metadataTemp text (clock env) s in
        if negb (io env CSync metadataTemp) then (Some SyncMetadata, false, r, drop false s)
        else if negb (io env CClose metadataTemp) then (Some CloseMetadata, false, r, drop false s)
        else
          let '(err, keepBody, keepMetadata, r, s) :=
            commit (io env) bodyPath metadataPath bodyTemp metadataTemp generation now written r s in
          (err, keepBody, r, drop keepMetadata s)
  end.

(** From the streamed body on, with the body's temporary file in place. *)
Definition put_body (env : PutEnv) (bodyPath metadataPath bodyTemp : string) (metadata : Metadata)
    (entries : list (string * list string)) (lim : Z) (src : Source) (w : Writer)
    (verify : option (Z -> bool)) (r : option Storage.Reservation) (s : Store)
    : option store_error * string * bool * option Storage.Reservation * Store :=
  let generation := bodyPath ++ "." ++ TrimPrefix (Base bodyTemp) ".body-" in
  let '(written, err, k) := copy_cached w (cacheFails env) lim src in
  let down := downstream k in
  let s := write_file bodyTemp (cache k) (clock env) s in
  match err with
  | Some e => (Some (StreamBody e), down, false, r, s)
  | None =>
  if negb (io env CSync bodyTemp) then (Some SyncBody, down, false, r, s)
  else if negb (io env CClose bodyTemp) then (Some CloseBody, down, false, r, s)
  else if match verify with Some v => negb (v written) | None => false end
  then (Some VerifyBody, down, false, r, s)
  else if overflow k then (None, down, false, r, RecordBypass written s)
  else
    match marshal (stored_metadata metadata entries (clock env) written generation) with
    | None => (Some EncodeMetadata, down, false, r, s)
    | Some text =>
        let '(err, keepBody, r, s) :=
          put_metadata env bodyPath metadataPath bodyTemp generation (clock env) written text r s in
        (err, down, keepBody, r, s)
    end
  end.

(** The error, what the downstream writer received and the store.  [entries] are the
    entries of the metadata's header in the order its loops visit them. *)
Definition PutStreamVerified (env : PutEnv) (s : Store) (key : string) (metadata : Metadata)
    (entries : list (string * list string)) (src : Source) (w : Writer)
    (verify : option (Z -> bool)) : option store_error * string * Store :=
  let hasController := is_Some_b (controller s) in
  match admitPut s (Header_ metadata) (freeBytes env) with
  | (Refused e, s) => (Some e, EmptyString, s)
  | (Bypassed, s) =>
      let '(_, err, down) := copy_through w src in
      (CopyFailed <$> err, down, s)
  | (Granted r expectedBytes, s) =>
      let '(bodyPath, metadataPath) := paths s key in
      let directory := Dir bodyPath in
      if negb (io env CMkdirAll directory) then (Some CreateShard, EmptyString, Release r s)
      else
        let bodyTemp := body_temp directory (bodySuffix env) in
        match create_temp (io env) bodyTemp (clock env) s with
        | None => (Some CreateBody, EmptyString, Release r s)
        | Some s =>
            let '(err, down, keepBody, r, s) :=
              put_body env bodyPath metadataPath bodyTemp metadata entries
                (if hasController then expectedBytes else -1) src w verify r s in
            (err, down, Release r (drop_temp (io env) keepBody bodyTemp s))
        end
  end.

Definition PutStream (env : PutEnv) (s : Store) (key : string) (metadata : Metadata)
    (entries : list (string * list string)) (src : Source) (w : Writer)
    : option store_error * string * Store :=
  PutStreamVerified env s key metadata entries src w None.

(** [byteReader]: [Read] into a buffer of a given size, [None] at the end. *)
Record byteReader := mkByteReader { bytesData : string; offset : nat }.

Definition bytesReader (data : string) : byteReader := mkByteReader data 0.

Definition byteReader_Read (r : byteReader) (target : nat) : option (string * byteReader) :=
  if (String.length (bytesData r) <=? offset r)%nat then None
  else
    let piece := substring (offset r) target (bytesData r) in
    Some (piece, mkByteReader (bytesData r) (offset r + String.length piece)%nat).

(** What [io.Copy] reads from it with its buffer of 32 KiB. *)
Fixpoint read_pieces (fuel : nat) (r : byteReader) : list string :=
  match fuel with
  | O => []
  | S fuel =>
      match byteReader_Read r (Z.to_nat 32768) with
      | None => []
      | Some (piece, r) => piece :: read_pieces fuel r
      end
  end.

Definition bytes_source (body : string) : Source :=
  mkSource (read_pieces (S (String.length body)) (bytesReader body)) false.

Definition PutBytes (env : PutEnv) (s : Store) (key : string) (metadata : Metadata)
    (entries : list (string * list string)) (body : string)
    : option store_error * Store :=
  let '(err, _, s) := PutStream env s key metadata entries (bytes_source body) accepts_all in
  (err, s).

End Store.
