(* ===== verification/StoreFacts.v ===== *)
(** * Facts about the store's paths and entries

    The names a store gives its files, which of them can belong to one entry, and how
    the map of complete entries changes with the files. *)

From S2P Require Import Prelude GoStrings FilePath Sha256 Time Metadata Fs Store.
From Stdlib Require Import Ascii String.
Local Open Scope string_scope.
Local Open Scope Z_scope.

(** ** Hashes *)

(** Sixty-four hexadecimal digits. *)
Definition hash_ok (h : string) : Prop :=
  String.length h = 64%nat /\ exists bs, hex_DecodeString h = Some bs.

Lemma sha256_hash_ok (key : string) : hash_ok (sha256_hex key).
Proof. split; [apply sha256_hex_length|]. eexists. apply sha256_hex_decode. Qed.

Definition hex_byte_b (c : ascii) : bool := is_Some_b (hexValue c).

Lemma hex_all (s : string) (bs : list Z) :
  hex_DecodeString s = Some bs -> str_forall hex_byte_b s = true.
Proof.
  revert bs. induction s as [s IH] using (induction_ltof1 _ String.length). unfold ltof in IH.
  intros bs E. destruct s as [|a [|b s]]; [done|done|]. cbn [hex_DecodeString] in E.
  cbn [str_forall]. unfold hex_byte_b at 1 2.
  destruct (hexValue a), (hexValue b), (hex_DecodeString s) eqn:Es; try done. cbn.
  eapply IH; [cbn; lia|done].
Qed.

Lemma hex_no_byte (c : ascii) (s : string) :
  hexValue c = None -> str_forall hex_byte_b s = true -> contains_byte c s = false.
Proof.
  intros Hc. induction s as [|d s IH]; [done|]. cbn [str_forall contains_byte].
  intros [Hd Hs]%andb_true_iff. rewrite IH, orb_false_r by done.
  apply Ascii.eqb_neq. intros ->. unfold hex_byte_b in Hd. by rewrite Hc in Hd.
Qed.

Lemma hash_no_slash (h : string) : hash_ok h -> contains_byte slash h = false.
Proof. intros (_ & bs & H%hex_all). by apply hex_no_byte. Qed.

Lemma hash_head (h : string) : hash_ok h ->
  exists a b r, h = String a (String b r) /\ hex_byte_b a = true /\ hex_byte_b b = true.
Proof.
  intros (Hl & bs & H%hex_all). destruct h as [|a [|b r]]; [done|done|].
  cbn [str_forall] in H. exists a, b, r. split_and!; [done|..];
    by apply andb_true_iff in H as [? [? ?]%andb_true_iff].
Qed.

Lemma hex_not_dot (c : ascii) : hex_byte_b c = true -> c <> "."%char /\ c <> slash.
Proof. intros H. by split; intros ->. Qed.

Lemma hash_plain (h rest : string) :
  hash_ok h -> contains_byte slash rest = false -> plain (h ++ rest).
Proof.
  intros Hh Hr. pose proof (hash_no_slash h Hh) as Hs.
  destruct (hash_head h Hh) as (a & b & r & -> & Ha%hex_not_dot & _).
  split_and!; try done; [intros [=]; naive_solver..|].
  by rewrite contains_byte_app, Hs, Hr.
Qed.

Lemma shard_plain (h : string) : hash_ok h -> plain (substring 0 2 h).
Proof.
  intros Hh. destruct (hash_head h Hh) as (a & b & r & -> & [Ha Ha']%hex_not_dot & [Hb Hb']%hex_not_dot).
  assert (substring 0 2 (String a (String b r)) = String a (String b EmptyString)) as ->
    by by destruct r.
  split_and!; try done; [intros [=]; naive_solver|].
  cbn [contains_byte]. apply Ascii.eqb_neq in Ha', Hb'. by rewrite Ha', Hb'.
Qed.

(** ** Names *)

Definition shard (root h : string) : string := child root (substring 0 2 h).
Definition meta_path (dir h : string) : string := child dir (h ++ ".json").
Definition body_path (dir h rest : string) : string := child dir (h ++ ".body" ++ rest).

Lemma hash_paths_eq (root h : string) :
  clean_dir root -> hash_ok h ->
  hash_paths root h = (body_path (shard root h) h EmptyString, meta_path (shard root h) h).
Proof.
  intros Hr Hh. unfold hash_paths.
  pose proof (hash_plain h EmptyString Hh eq_refl) as Hp. rewrite app_empty_r in Hp.
  rewrite Join_child2 by (done || by apply shard_plain).
  unfold body_path, meta_path, child, shard, child. by rewrite !app_assoc_str.
Qed.

Lemma child_inj2 (d1 d2 n1 n2 : string) :
  clean_dir d1 -> clean_dir d2 -> plain n1 -> plain n2 -> child d1 n1 = child d2 n2 ->
  d1 = d2 /\ n1 = n2.
Proof.
  intros Hd1 Hd2 (Hn1 & _ & _ & Hs1) (Hn2 & _ & _ & Hs2) E. split.
  - rewrite <- (Dir_child d1 n1), <- (Dir_child d2 n2) by done. by rewrite E.
  - rewrite <- (Base_child d1 n1), <- (Base_child d2 n2) by done. by rewrite E.
Qed.

Lemma app_same_length (s1 s2 t1 t2 : string) :
  String.length s1 = String.length s2 -> s1 ++ t1 = s2 ++ t2 -> s1 = s2 /\ t1 = t2.
Proof.
  revert s2. induction s1 as [|c s1 IH]; intros [|d s2] Hl E; try done.
  cbn in *. injection Hl as Hl. injection E as -> E. destruct (IH s2 Hl E) as [-> ->]. done.
Qed.

Lemma hash_name_inj (h1 h2 r1 r2 : string) :
  hash_ok h1 -> hash_ok h2 -> h1 ++ r1 = h2 ++ r2 -> h1 = h2 /\ r1 = r2.
Proof. intros [H1 _] [H2 _]. apply app_same_length. congruence. Qed.

Lemma bodyPathForMetadata_meta (dir h : string) :
  clean_dir dir -> hash_ok h -> Base dir = substring 0 2 h ->
  bodyPathForMetadata (meta_path dir h) = Some (body_path dir h EmptyString).
Proof.
  intros Hd Hh Hb. pose proof (hash_plain h EmptyString Hh eq_refl) as Hp.
  rewrite app_empty_r in Hp. unfold bodyPathForMetadata, meta_path.
  assert (child dir (h ++ ".json") = child dir h ++ ".json") as ->
    by (unfold child; by rewrite !app_assoc_str).
  rewrite Ext_app by by right. change (Ext ".json" =? ".json")%string with true. cbn [negb].
  rewrite TrimSuffix_app, Base_child by apply Hp.
  rewrite Dir_child by (done || apply Hp). destruct Hh as (-> & bs & ->).
  rewrite Hb, String.eqb_refl. cbn [negb Nat.eqb orb]. f_equal.
  unfold body_path, child. rewrite !app_assoc_str. done.
Qed.

(** A cleaned path below a directory. *)
Definition proper (p : string) : Prop :=
  exists dir name, clean_dir dir /\ plain name /\ p = child dir name.

Lemma Ext_suffix (p : string) : exists q, p = q ++ Ext p.
Proof.
  induction p as [|c p [q IH]]; [by exists EmptyString|]. cbn [Ext].
  destruct (Ascii.eqb c "." && _ && _); [by exists EmptyString|].
  exists (String c q). cbn. congruence.
Qed.

Lemma plain_base (dir name : string) :
  clean_dir dir -> plain name -> Base (child dir name) = name /\ Dir (child dir name) = dir.
Proof. intros Hd (Hn & _ & _ & Hs). split; [by apply Base_child | by apply Dir_child]. Qed.

Lemma Base_trailing (p : string) : p <> EmptyString -> Base (child p EmptyString) = Base p.
Proof.
  intros Hp. unfold Base, child.
  assert (forall s, str_forall (fun c => contains_byte c "/") (s ++ "/")
    = str_forall (fun c => contains_byte c "/") s) as Hall.
  { intros s. rewrite str_forall_app. by rewrite andb_true_r. }
  assert (forall s, TrimRight (s ++ "/") "/" = TrimRight s "/") as Ht.
  { induction s as [|c s IH]; [done|]. cbn [String.append TrimRight].
    pose proof (Hall (String c s)) as E. cbn [String.append] in E. by rewrite E, IH. }
  change ("/" ++ EmptyString) with "/". rewrite Ht. by destruct p.
Qed.

Lemma length_substring_le (n m : nat) (s : string) : (String.length (substring n m s) <= m)%nat.
Proof.
  revert n m. induction s as [|c s IH]; intros [|n] [|m]; cbn; try lia; [|apply IH..].
  specialize (IH O m). lia.
Qed.

Lemma bodyPathForMetadata_inv (p legacy : string) :
  proper p -> bodyPathForMetadata p = Some legacy ->
  exists dir h, clean_dir dir /\ hash_ok h /\ p = meta_path dir h
    /\ legacy = body_path dir h EmptyString.
Proof.
  intros (dir & name & Hd & Hn & ->). unfold bodyPathForMetadata.
  destruct (String.eqb_spec (Ext (child dir name)) ".json") as [E|]; [|done]. cbn [negb].
  destruct (Ext_suffix (child dir name)) as [q Hq]. rewrite E in Hq.
  rewrite Hq, TrimSuffix_app.
  assert (exists w, name = w ++ ".json" /\ q = child dir w) as (w & -> & ->).
  { revert Hq. clear -Hn. destruct Hn as (_ & _ & _ & Hs). unfold child. revert q.
    induction dir as [|c dir IH]; intros q Hq; cbn in Hq.
    - destruct q as [|d q]; [done|]. cbn in Hq. injection Hq as <- Hq. by exists q.
    - destruct q as [|d q]; cbn in Hq.
      + exfalso. injection Hq as -> Hq.
        assert (contains_byte slash "json" = true); [|done]. rewrite <- Hq.
        rewrite contains_byte_app. by destruct (contains_byte slash dir).
      + injection Hq as <- Hq. destruct (IH q Hq) as (w & -> & ->). by exists w. }
  destruct (Nat.eqb_spec (String.length (Base (child dir w))) 64) as [Hl|]; [|done].
  assert (contains_byte slash w = false) as Hsw.
  { destruct Hn as (_ & _ & _ & Hs). rewrite contains_byte_app in Hs. apply orb_false_iff in Hs as [Hs _]. exact Hs. }
  destruct (decide (w = EmptyString)) as [->|Hw].
  { rewrite Dir_child by done. rewrite Base_trailing in * by by apply clean_dir_nonempty.
    destruct (String.eqb_spec (Base dir) (substring 0 2 (Base dir))) as [Ec|]; [|done].
    pose proof (length_substring_le 0 2 (Base dir)) as Hle. rewrite <- Ec in Hle. lia. }
  rewrite Base_child in * by done. rewrite Dir_child by done.
  destruct (String.eqb_spec (Base dir) (substring 0 2 w)) as [Hb|]; [|done]. cbn [negb orb].
  destruct (hex_DecodeString w) as [bs|] eqn:Ew; [|done]. intros [= <-].
  exists dir, w. split_and!; [done|by split; eauto|done|].
  unfold body_path, child. by rewrite !app_assoc_str.
Qed.

Lemma no_slash_app (s t : string) :
  contains_byte slash (s ++ t) = false <-> contains_byte slash s = false /\ contains_byte slash t = false.
Proof. rewrite contains_byte_app. apply orb_false_iff. Qed.

Lemma Base_no_slash (f : string) : Base f = f -> f <> "/" -> contains_byte slash f = false.
Proof.
  intros Hb Hne. rewrite <- Hb. unfold Base in *.
  destruct (String.eqb_spec f EmptyString); [done|].
  destruct (TrimRight f "/") as [|c r] eqn:E; [by subst f|].
  pose proof (Split_nonempty (String c r) slash) as Hnil.
  destruct (exists_last Hnil) as (l & x & El). rewrite El, last_last.
  apply (Split_parts (String c r) slash). rewrite El. apply elem_of_app. right. by left.
Qed.

Lemma bodyPathForEntry_inv (dir h b : string) (m : Metadata) :
  clean_dir dir -> hash_ok h ->
  bodyPathForEntry (meta_path dir h) (body_path dir h EmptyString) m = Ok b ->
  exists rest, contains_byte slash rest = false /\ b = body_path dir h rest.
Proof.
  intros Hd Hh. unfold bodyPathForEntry.
  destruct (String.eqb_spec (BodyFile m) EmptyString); [intros [= <-]; by exists EmptyString|].
  pose proof (hash_plain h ".json" Hh eq_refl) as Hp.
  destruct (plain_base dir (h ++ ".json") Hd Hp) as [Eb Ed].
  unfold meta_path. rewrite Eb, Ed, TrimSuffix_app.
  destruct (String.eqb_spec (Base (BodyFile m)) (BodyFile m)) as [Hb|]; [|done].
  destruct (HasPrefix (BodyFile m) (h ++ ".body.")) eqn:Hpre; [|done].
  apply HasPrefix_spec in Hpre as [rest Hf]. cbn [negb orb]. intros [= <-].
  assert (BodyFile m <> "/") as Hne.
  { rewrite Hf. intros E. destruct (hash_head h Hh) as (x & y & r & -> & _). done. }
  pose proof (Base_no_slash _ Hb Hne) as Hs. rewrite Hf in Hs |- *.
  apply no_slash_app in Hs as [Hs1 Hs2]. rewrite app_assoc_str in *.
  exists ("." ++ rest). split; [done|].
  rewrite Join_child; [done|done|]. by apply hash_plain.
Qed.

Lemma bodyPathForEntry_generation (dir h suffix legacy : string) (m : Metadata) :
  clean_dir dir -> hash_ok h -> contains_byte slash suffix = false ->
  BodyFile m = h ++ ".body." ++ suffix ->
  bodyPathForEntry (meta_path dir h) legacy m = Ok (body_path dir h ("." ++ suffix)).
Proof.
  intros Hd Hh Hs Hf. unfold bodyPathForEntry.
  pose proof (hash_plain h (".body." ++ suffix) Hh) as Hpl. rewrite <- Hf in Hpl.
  assert (plain (BodyFile m)) as (Hne & _ & _ & Hns) by by apply Hpl. clear Hpl.
  destruct (String.eqb_spec (BodyFile m) EmptyString); [done|].
  rewrite Base_plain, String.eqb_refl by done. cbn [negb orb].
  pose proof (hash_plain h ".json" Hh eq_refl) as Hp.
  destruct (plain_base dir (h ++ ".json") Hd Hp) as [Eb Ed].
  unfold meta_path. rewrite Eb, Ed, TrimSuffix_app.
  assert (HasPrefix (BodyFile m) (h ++ ".body.") = true) as ->.
  { apply HasPrefix_spec. exists suffix. by rewrite Hf, !app_assoc_str. }
  cbn [negb]. rewrite Hf, Join_child; [done|done|]. by apply hash_plain.
Qed.

(** *** Which files can belong to an entry *)

Definition valid_meta (p : string) (dir h : string) : Prop :=
  clean_dir dir /\ hash_ok h /\ p = meta_path dir h.

(** [q] is the metadata or a possible body of the entry at [meta_path dir h]. *)
Definition belongs (q dir h : string) : Prop :=
  q = meta_path dir h
  \/ exists rest, contains_byte slash rest = false /\ q = body_path dir h rest.

Lemma body_path_plain (h rest : string) :
  hash_ok h -> contains_byte slash rest = false -> plain (h ++ ".body" ++ rest).
Proof. intros. apply hash_plain; [done|]. by apply no_slash_app. Qed.

Lemma belongs_name (q dir h : string) :
  clean_dir dir -> hash_ok h -> belongs q dir h ->
  exists rest, q = child dir (h ++ rest) /\ plain (h ++ rest).
Proof.
  intros Hd Hh [->|(rest & Hr & ->)].
  - exists ".json". split; [done|]. by apply hash_plain.
  - exists (".body" ++ rest). split; [done|]. by apply body_path_plain.
Qed.

Lemma belongs_inj (q d1 h1 d2 h2 : string) :
  clean_dir d1 -> hash_ok h1 -> clean_dir d2 -> hash_ok h2 ->
  belongs q d1 h1 -> belongs q d2 h2 -> d1 = d2 /\ h1 = h2.
Proof.
  intros Hd1 Hh1 Hd2 Hh2 H1 H2.
  destruct (belongs_name q d1 h1 Hd1 Hh1 H1) as (r1 & E1 & Hp1).
  destruct (belongs_name q d2 h2 Hd2 Hh2 H2) as (r2 & E2 & Hp2).
  rewrite E1 in E2. apply child_inj2 in E2 as [-> E2]; [|done..].
  by apply hash_name_inj in E2 as [-> _].
Qed.

Lemma body_not_meta (d1 h1 rest d2 h2 : string) :
  clean_dir d1 -> hash_ok h1 -> clean_dir d2 -> hash_ok h2 -> contains_byte slash rest = false ->
  body_path d1 h1 rest <> meta_path d2 h2.
Proof.
  intros Hd1 Hh1 Hd2 Hh2 Hr E. unfold body_path, meta_path in E.
  apply child_inj2 in E as [-> E]; [|done|done|by apply body_path_plain|by apply hash_plain].
  by apply hash_name_inj in E as [-> E].
Qed.

Lemma belongs_dec (q dir h : string) : belongs q dir h \/ ~ belongs q dir h.
Proof.
  destruct (decide (q = meta_path dir h)) as [|Hm]; [by left; left|].
  destruct (after_prefix (child dir (h ++ ".body")) q) as [rest|] eqn:E.
  - apply after_prefix_Some in E. assert (q = body_path dir h rest) as Eq
      by (rewrite E; unfold body_path, child; by rewrite !app_assoc_str).
    destruct (contains_byte slash rest) eqn:Hs; [right|left; right; eauto].
    intros [|(r & Hr & Er)]; [done|]. rewrite Eq in Er.
    apply child_inj in Er. apply app_inj_l, app_inj_l in Er. congruence.
  - right. intros [|(r & _ & ->)]; [done|].
    assert (after_prefix (child dir (h ++ ".body")) (body_path dir h r) = Some r); [|congruence].
    apply after_prefix_Some. unfold body_path, child. by rewrite !app_assoc_str.
Qed.

(** A temporary file belongs to no entry. *)
Lemma temp_belongs (t dir d h : string) :
  contains_byte slash t = false -> clean_dir dir -> clean_dir d -> hash_ok h ->
  ~ belongs (child dir (String "." (String "b" t))) d h
  /\ ~ belongs (child dir (String "." (String "m" t))) d h.
Proof.
  intros Ht Hdir Hd Hh.
  assert (forall c, c <> slash -> c <> "."%char -> ~ belongs (child dir (String "." (String c t))) d h) as H.
  { intros c Hc Hc' Hb. destruct (belongs_name _ d h Hd Hh Hb) as (r & E & Hp).
    apply child_inj2 in E as [-> E]; [|done|done| |done].
    - destruct (hash_head h Hh) as (x & y & z & -> & [Hx _]%hex_not_dot & _).
      cbn in E. injection E as <- _. done.
    - split_and!; [done|done|intros [=]; naive_solver|].
      cbn [contains_byte]. apply Ascii.eqb_neq in Hc. by rewrite Hc. }
  split; by apply H.
Qed.

(** ** Complete entries *)

(** Every path of the store is cleaned, as the paths [WalkDir] builds are. *)
Definition wf_files (f : fs) : Prop := forall p, is_Some (f !! p) -> proper p.

(** The system answers every read; writes and removals may still fail. *)
Definition reads_ok (io : oracle) : Prop :=
  forall p, io COpen p = true /\ io CRead p = true /\ io CStat p = true.

Lemma reads_calm : reads_ok calm.
Proof. done. Qed.

(** No entry contains the file. *)
Definition foreign (q : string) : Prop :=
  forall d h, clean_dir d -> hash_ok h -> ~ belongs q d h.

Section Entries.
Context {codec : MetadataCodec}.

Definition entries (f : fs) : gmap string (Metadata * string * node) :=
  map_imap (fun p _ => entry_at calm f p) f.

Lemma readMetadata_ok (io : oracle) (f : fs) (p : string) :
  reads_ok io -> readMetadata io p f = readMetadata calm p f.
Proof.
  intros H. destruct (H p) as (H1 & H2 & _). unfold readMetadata, Open, guard_call.
  by rewrite H1, H2.
Qed.

Lemma Stat_ok (io : oracle) (f : fs) (p : string) : reads_ok io -> Stat io p f = existing p f.
Proof. intros H. destruct (H p) as (_ & _ & H3). unfold Stat, guard_call. by rewrite H3. Qed.

Lemma Open_ok (io : oracle) (f : fs) (p : string) : reads_ok io -> Open io p f = existing p f.
Proof. intros H. destruct (H p) as (H1 & _ & _). unfold Open, guard_call. by rewrite H1. Qed.

Lemma entry_at_ok (io : oracle) (f : fs) (p : string) :
  reads_ok io -> entry_at io f p = entry_at calm f p.
Proof.
  intros H. unfold entry_at. destruct (walked_dir f p || _); [done|].
  destruct (bodyPathForMetadata p); [|done]. cbn [mbind option_bind].
  rewrite (readMetadata_ok io) by done. destruct (readMetadata calm p f); [|done].
  destruct (bodyPathForEntry _ _ _); [|done]. by rewrite !Stat_ok.
Qed.

Lemma Stat_calm (f : fs) (p : string) : Stat calm p f = existing p f.
Proof. done. Qed.

Lemma readMetadata_Ok (f : fs) (p : string) (m : Metadata) :
  readMetadata calm p f = Ok m <->
  exists n, f !! p = Some n /\ is_regular n = true /\ size_of n <= maxMetadataBytes
    /\ unmarshal (data n) = Some m.
Proof.
  unfold readMetadata, Open, existing, calm. cbn [guard_call negb orb].
  destruct (f !! p) as [n|]; [|split; [done|by intros (? & ? & _)]].
  destruct (is_regular n) eqn:Hr; cbn [negb]; [|split; [done|intros (? & [= <-] & ? & _); congruence]].
  destruct (Z.ltb_spec maxMetadataBytes (size_of n)); [split; [done|intros (? & [= <-] & _ & ? & _); lia]|].
  destruct (unmarshal (data n)) eqn:E.
  - split; [intros [= <-]; eauto|]. intros (? & [= <-] & _ & _ & ?). congruence.
  - split; [done|]. intros (? & [= <-] & _ & _ & ?). congruence.
Qed.

Lemma entry_at_Some (f : fs) (p : string) (m : Metadata) (b : string) (n : node) :
  entry_at calm f p = Some (m, b, n) <->
  walked_dir f p = false /\ Ext p = ".json"
  /\ readMetadata calm p f = Ok m
  /\ (exists legacy, bodyPathForMetadata p = Some legacy /\ bodyPathForEntry p legacy m = Ok b)
  /\ f !! b = Some n /\ is_regular n = true /\ size_of n = ContentBytes m.
Proof.
  unfold entry_at. split.
  - destruct (walked_dir f p); [done|].
    destruct (String.eqb_spec (Ext p) ".json"); [|done]. cbn [negb orb].
    destruct (bodyPathForMetadata p) as [legacy|]; [|done]. cbn [mbind option_bind].
    destruct (readMetadata calm p f) as [m'|]; [|done].
    destruct (bodyPathForEntry p legacy m') as [b'|] eqn:Eb; [|done]. rewrite Stat_calm.
    unfold existing. destruct (f !! b') as [n'|] eqn:En; [|done].
    destruct (is_regular n') eqn:Er; [|done]. cbn [negb orb].
    destruct (Z.eqb_spec (size_of n') (ContentBytes m')); [|done]. intros [= <- <- <-].
    split_and!; eauto.
  - intros (-> & -> & -> & (legacy & -> & Hb) & Hn & Hr & Hs). cbn [negb orb].
    rewrite String.eqb_refl. cbn [negb mbind option_bind]. rewrite Hb, Stat_calm. unfold existing.
    by rewrite Hn, Hr, Hs, Z.eqb_refl.
Qed.

Lemma lookup_entries (f : fs) (p : string) : entries f !! p = entry_at calm f p.
Proof.
  unfold entries. rewrite map_lookup_imap. destruct (f !! p) eqn:E; [done|].
  cbn. symmetry. destruct (entry_at calm f p) as [[[m b] n]|] eqn:Ee; [|done].
  apply entry_at_Some in Ee as (_ & _ & Hm & _).
  apply readMetadata_Ok in Hm as (? & Hm & _). congruence.
Qed.

Lemma entry_at_inv (f : fs) (p : string) (m : Metadata) (b : string) (n : node) :
  proper p -> entry_at calm f p = Some (m, b, n) ->
  exists dir h rest, valid_meta p dir h /\ contains_byte slash rest = false
    /\ b = body_path dir h rest.
Proof.
  intros Hp (_ & _ & _ & (legacy & Hl & Hb) & _)%entry_at_Some.
  destruct (bodyPathForMetadata_inv p legacy Hp Hl) as (dir & h & Hd & Hh & -> & ->).
  apply bodyPathForEntry_inv in Hb as (rest & Hr & ->); [|done..].
  exists dir, h, rest. by split_and!.
Qed.

(** An entry depends on its metadata and on the body that names. *)
Lemma entry_at_frame (f f' : fs) (p : string) :
  f !! p = f' !! p ->
  (forall legacy m b, readMetadata calm p f = Ok m -> bodyPathForMetadata p = Some legacy ->
     bodyPathForEntry p legacy m = Ok b -> f !! b = f' !! b) ->
  entry_at calm f p = entry_at calm f' p.
Proof.
  intros Hp Hb. unfold entry_at.
  assert (walked_dir f p = walked_dir f' p) as -> by (unfold walked_dir; by rewrite Hp).
  assert (readMetadata calm p f = readMetadata calm p f') as Em
    by (unfold readMetadata, Open, existing; by rewrite Hp).
  destruct (walked_dir f' p || _); [done|].
  destruct (bodyPathForMetadata p) as [legacy|]; [|done]. cbn [mbind option_bind].
  rewrite <- Em. destruct (readMetadata calm p f) as [m|]; [|done].
  destruct (bodyPathForEntry p legacy m) as [b|] eqn:Eb; [|done].
  unfold Stat, existing. by rewrite (Hb legacy m b).
Qed.

(** An entry depends on the files that belong to it alone. *)
Lemma entry_at_local (f f' : fs) (p : string) :
  proper p ->
  (forall dir h q, valid_meta p dir h -> belongs q dir h -> f !! q = f' !! q) ->
  entry_at calm f p = entry_at calm f' p.
Proof.
  intros Hp Hag. destruct (bodyPathForMetadata p) as [legacy|] eqn:El.
  - destruct (bodyPathForMetadata_inv p legacy Hp El) as (dir & h & Hd & Hh & -> & ->).
    assert (valid_meta (meta_path dir h) dir h) as Hv by done. apply entry_at_frame.
    + apply (Hag _ _ _ Hv). by left.
    + intros l m b _ Hl Hb. rewrite El in Hl. injection Hl as <-.
      apply bodyPathForEntry_inv in Hb as (rest & Hr & ->); [|done..].
      apply (Hag _ _ _ Hv). right. eauto.
  - unfold entry_at. rewrite El. by destruct (walked_dir f p || _), (walked_dir f' p || _).
Qed.

Lemma entry_at_missing (f : fs) (p : string) : f !! p = None -> entry_at calm f p = None.
Proof.
  intros Hf. destruct (entry_at calm f p) as [[[m b] n]|] eqn:E; [|done].
  apply entry_at_Some in E as (_ & _ & (? & Hm & _)%readMetadata_Ok & _). congruence.
Qed.

(** A change confined to one entry and to foreign files changes that entry alone. *)
Lemma entries_change (f f' : fs) (dir h : string) :
  wf_files f -> wf_files f' -> clean_dir dir -> hash_ok h ->
  (forall q, f !! q = f' !! q \/ foreign q \/ belongs q dir h) ->
  entries f' = partial_alter (fun _ => entry_at calm f' (meta_path dir h)) (meta_path dir h) (entries f).
Proof.
  intros Hf Hf' Hd Hh Hq. apply map_eq. intros p. rewrite lookup_partial_alter.
  case_decide as E; [by rewrite <- E, lookup_entries|]. rewrite !lookup_entries.
  destruct (f !! p) eqn:Ef, (f' !! p) eqn:Ef'.
  all: try (assert (proper p) as Hp by (first [apply Hf; by eauto | apply Hf'; by eauto]);
    symmetry; apply entry_at_local; [done|]; intros d1 h1 q (Hd1 & Hh1 & ->) Hb;
    destruct (Hq q) as [->|[Hfor|Hb']]; [done|by destruct (Hfor d1 h1 Hd1 Hh1 Hb)|];
    exfalso; apply E; by destruct (belongs_inj q dir h d1 h1 Hd Hh Hd1 Hh1 Hb' Hb) as [-> ->]).
  by rewrite !entry_at_missing.
Qed.

Lemma entries_foreign (f f' : fs) :
  wf_files f -> wf_files f' -> (forall q, f !! q = f' !! q \/ foreign q) -> entries f' = entries f.
Proof.
  intros Hf Hf' Hq. apply map_eq. intros p. rewrite !lookup_entries.
  destruct (f !! p) eqn:Ef, (f' !! p) eqn:Ef'.
  all: try (assert (proper p) as Hp by (first [apply Hf; by eauto | apply Hf'; by eauto]);
    symmetry; apply entry_at_local; [done|]; intros d1 h1 q (Hd1 & Hh1 & ->) Hb;
    destruct (Hq q) as [->|Hfor]; [done|by destruct (Hfor d1 h1 Hd1 Hh1 Hb)]).
  by rewrite !entry_at_missing.
Qed.

(** *** Usage *)

Definition entry_size (e : Metadata * string * node) : Z := size_of (snd e).
Definition usage_bytes (f : fs) : Z := map_sum entry_size (entries f).
Definition usage_objects (f : fs) : Z := Z.of_nat (size (entries f)).

(** The counters are those of the complete entries, modulo the width of an int64. *)
Definition exact (s : Store) : Prop :=
  bytes s = wrap64 (usage_bytes (files s)) /\ objects s = wrap64 (usage_objects (files s)).

(** A body that is there is whole: bodies appear by renaming finished files. *)
Definition no_torn (f : fs) : Prop :=
  forall p legacy m b n, readMetadata calm p f = Ok m -> bodyPathForMetadata p = Some legacy ->
    bodyPathForEntry p legacy m = Ok b -> f !! b = Some n ->
    is_regular n = true /\ size_of n = ContentBytes m.

Lemma wf_delete (f : fs) (p : string) : wf_files f -> wf_files (delete p f).
Proof. intros H q [n Hq]. apply lookup_delete_Some in Hq as [_ Hq]. apply H. eauto. Qed.

Lemma wf_insert (f : fs) (p : string) (n : node) : wf_files f -> proper p -> wf_files (<[p := n]> f).
Proof.
  intros H Hp q [n' Hq]. apply lookup_insert_Some in Hq as [[<- _]|[_ Hq]]; [done|]. apply H. eauto.
Qed.

Lemma wrap64_add_l (a b : Z) : wrap64 (wrap64 a + b) = wrap64 (a + b).
Proof.
  unfold wrap64. f_equal.
  replace ((a + 9223372036854775808) mod 18446744073709551616 - 9223372036854775808 + b
           + 9223372036854775808)
    with ((a + 9223372036854775808) mod 18446744073709551616 + b) by lia.
  rewrite Zplus_mod_idemp_l. f_equal. lia.
Qed.

(** Changing one entry of a map of entries. *)
Definition size_at (f : fs) (p : string) : Z :=
  match entry_at calm f p with Some e => entry_size e | None => 0 end.
Definition count_at (f : fs) (p : string) : Z :=
  match entry_at calm f p with Some _ => 1 | None => 0 end.

Lemma usage_change (f f' : fs) (p : string) :
  entries f' = partial_alter (fun _ => entry_at calm f' p) p (entries f) ->
  usage_bytes f' = usage_bytes f - size_at f p + size_at f' p
  /\ usage_objects f' = usage_objects f - count_at f p + count_at f' p.
Proof.
  intros E. unfold usage_bytes, usage_objects, size_at, count_at. rewrite E.
  rewrite <- (lookup_entries f p).
  destruct (entry_at calm f' p) as [e'|] eqn:Ee'.
  - change (partial_alter (fun _ => Some e') p (entries f)) with (<[p := e']> (entries f)).
    destruct (entries f !! p) as [e|] eqn:Ee.
    + rewrite (map_sum_update _ _ _ e) by done. rewrite map_size_insert_Some by eauto. lia.
    + rewrite map_sum_insert, map_size_insert_None by done. lia.
  - change (partial_alter (fun _ => None) p (entries f)) with (delete p (entries f)).
    destruct (entries f !! p) as [e|] eqn:Ee.
    + rewrite (map_sum_delete _ (entries f) p e) by done.
      rewrite map_size_delete_Some by eauto.
      assert (size (entries f) <> 0%nat); [|lia]. intros Hz. apply map_size_empty_inv in Hz.
      by rewrite Hz, lookup_empty in Ee.
    + rewrite delete_id by done. lia.
Qed.

(** A change of one entry, told to the counters, keeps them exact. *)
Lemma exact_change (s s' : Store) (p : string) (db dob : Z) :
  exact s -> entries (files s') = partial_alter (fun _ => entry_at calm (files s') p) p (entries (files s)) ->
  bytes s' = wrap64 (bytes s + db) -> objects s' = wrap64 (objects s + dob) ->
  db = size_at (files s') p - size_at (files s) p ->
  dob = count_at (files s') p - count_at (files s) p -> exact s'.
Proof.
  intros [Hb Ho] E Eb Eo -> ->. destruct (usage_change _ _ _ E) as [Ub Uo].
  split; rewrite ?Eb, ?Eo, ?Hb, ?Ho, wrap64_add_l, ?Ub, ?Uo; f_equal; lia.
Qed.

Lemma exact_same (s s' : Store) :
  exact s -> entries (files s') = entries (files s) -> bytes s' = bytes s -> objects s' = objects s ->
  exact s'.
Proof. unfold exact, usage_bytes, usage_objects. by intros [? ?] -> -> ->. Qed.

(** *** Removing an entry *)

Lemma entries_remove_body (f : fs) (p : string) (m : Metadata) (b : string) (n : node) :
  wf_files f -> proper p -> entry_at calm f p = Some (m, b, n) ->
  entry_at calm (delete b f) p = None /\ p <> b
  /\ entries (delete b f) = partial_alter (fun _ => entry_at calm (delete b f) p) p (entries f).
Proof.
  intros Hf Hp He. destruct (entry_at_inv f p m b n Hp He) as (dir & h & rest & (Hd & Hh & ->) & Hr & ->).
  assert (meta_path dir h <> body_path dir h rest) as Hne by (intros E; by eapply body_not_meta).
  split_and!; [|done|].
  - destruct (entry_at calm (delete _ f) _) as [[[m' b'] n']|] eqn:E; [|done]. exfalso.
    apply entry_at_Some in E as (_ & _ & Hm' & (l' & Hl' & Hb') & Hn' & _).
    apply entry_at_Some in He as (_ & _ & Hm & (l & Hl & Hb) & _).
    apply readMetadata_Ok in Hm' as (n1 & Hn1 & _ & _ & Hu1). rewrite lookup_delete_ne in Hn1 by done.
    apply readMetadata_Ok in Hm as (n2 & Hn2 & _ & _ & Hu2). simplify_eq.
    rewrite Hb in Hb'. injection Hb' as <-. by rewrite lookup_delete_eq in Hn'.
  - apply (entries_change f _ dir h); [done|by apply wf_delete|done|done|].
    intros q. destruct (decide (q = body_path dir h rest)) as [->|Hq].
    + right. right. right. eauto.
    + left. by rewrite lookup_delete_ne.
Qed.

Lemma entries_remove_meta (f : fs) (p legacy : string) :
  wf_files f -> proper p -> bodyPathForMetadata p = Some legacy -> entries f !! p = None ->
  entries (delete p f) = entries f.
Proof.
  intros Hf Hp Hl He. destruct (bodyPathForMetadata_inv p legacy Hp Hl) as (dir & h & Hd & Hh & -> & _).
  rewrite (entries_change f _ dir h); [|done|by apply wf_delete|done|done|].
  - rewrite entry_at_missing by apply lookup_delete_eq. exact (delete_id _ _ He).
  - intros q. destruct (decide (q = meta_path dir h)) as [->|Hq]; [right; right; by left|].
    left. by rewrite lookup_delete_ne.
Qed.

Lemma no_torn_delete (f : fs) (p : string) : no_torn f -> no_torn (delete p f).
Proof.
  intros H q legacy m b n Hm Hl Hb Hn. apply lookup_delete_Some in Hn as [_ Hn].
  apply (H q legacy m b n); try done. apply readMetadata_Ok in Hm as (nm & Hnm & ?).
  apply lookup_delete_Some in Hnm as [_ Hnm]. apply readMetadata_Ok. eauto.
Qed.

(** A body that is named by metadata of the same content in [f] is whole there. *)
Lemma no_torn_same (f f' : fs) (dir h legacy b : string) (m : Metadata) (n : node) :
  clean_dir dir -> hash_ok h -> (forall q, belongs q dir h -> f !! q = f' !! q) -> no_torn f ->
  legacy = body_path dir h EmptyString -> bodyPathForMetadata (meta_path dir h) = Some legacy ->
  readMetadata calm (meta_path dir h) f' = Ok m -> bodyPathForEntry (meta_path dir h) legacy m = Ok b ->
  f' !! b = Some n -> is_regular n = true /\ size_of n = ContentBytes m.
Proof.
  intros Hd Hh Hsame Hw -> Hl Hm Hb Hn.
  pose proof Hb as Hb'. apply bodyPathForEntry_inv in Hb' as (rest & Hr & ->); [|done..].
  eapply Hw; [|done|done|rewrite Hsame; [done|right; eauto]].
  revert Hm. unfold readMetadata, Open, existing. by rewrite Hsame by by left.
Qed.

Lemma no_torn_change (f f' : fs) (dir h : string) :
  wf_files f' -> clean_dir dir -> hash_ok h ->
  (forall q, f !! q = f' !! q \/ foreign q \/ belongs q dir h) -> no_torn f ->
  (forall legacy m b n, readMetadata calm (meta_path dir h) f' = Ok m ->
     bodyPathForMetadata (meta_path dir h) = Some legacy ->
     bodyPathForEntry (meta_path dir h) legacy m = Ok b -> f' !! b = Some n ->
     is_regular n = true /\ size_of n = ContentBytes m) ->
  no_torn f'.
Proof.
  intros Hf' Hd Hh Hq Hw Hown p legacy m b n Hm Hl Hb Hn.
  assert (proper p) as Hp by (apply Hf'; apply readMetadata_Ok in Hm as (? & ? & _); eauto).
  destruct (bodyPathForMetadata_inv p legacy Hp Hl) as (d1 & h1 & Hd1 & Hh1 & -> & El).
  destruct (decide (d1 = dir /\ h1 = h)) as [[-> ->]|Hne]; [by eapply Hown|].
  apply (no_torn_same f f' d1 h1 legacy b m n); try done.
  intros q Hqb. destruct (Hq q) as [?|[Hfor|Hb']]; [done|by destruct (Hfor d1 h1)|].
  exfalso. apply Hne. by destruct (belongs_inj q dir h d1 h1 Hd Hh Hd1 Hh1 Hb' Hqb).
Qed.

Lemma no_torn_foreign (f f' : fs) :
  wf_files f' -> (forall q, f !! q = f' !! q \/ foreign q) -> no_torn f -> no_torn f'.
Proof.
  intros Hf' Hq Hw p legacy m b n Hm Hl Hb Hn.
  assert (proper p) as Hp by (apply Hf'; apply readMetadata_Ok in Hm as (? & ? & _); eauto).
  destruct (bodyPathForMetadata_inv p legacy Hp Hl) as (d1 & h1 & Hd1 & Hh1 & -> & El).
  apply (no_torn_same f f' d1 h1 legacy b m n); try done.
  intros q Hqb. destruct (Hq q) as [?|Hfor]; [done|by destruct (Hfor d1 h1)].
Qed.

End Entries.
