(* ===== verification/StoreOps.v ===== *)
(** * The store's operations on what it holds

    What [Lookup], [Candidates], [RemoveCandidate], [Reconcile], [CleanupStaleTemps] and
    [GC] do to the files and the counters of a store in good order. *)

From S2P Require Import Prelude GoStrings FilePath Sha256 Time Metadata Fs Store StoreFacts.
From S2P Require Storage.
From Stdlib Require Import Ascii String.
Local Open Scope string_scope.
Local Open Scope Z_scope.

Section StoreOps.
Context {codec : MetadataCodec}.

(** A store in good order: cleaned paths, exact counters, whole bodies. *)
Record store_ok (s : Store) : Prop := {
  ok_root : clean_dir (root s);
  ok_wf : wf_files (files s);
  ok_exact : exact s;
  ok_torn : no_torn (files s)
}.

(** What an operation that only removes entries leaves: everything but the counters
    and files that belong to removed entries. *)
Record trims (s s' : Store) : Prop := {
  trim_root : root s' = root s;
  trim_controller : controller s' = controller s;
  trim_temps : activeTemps s' = activeTemps s;
  trim_foreign : forall q, foreign q -> files s' !! q = files s !! q;
  trim_files : files s' ⊆ files s;
  trim_entries : entries (files s') ⊆ entries (files s)
}.

#[export] Instance trims_preorder : PreOrder trims.
Proof.
  split.
  - by intros s.
  - intros s1 s2 s3 [] []. split; try congruence; [|by etransitivity..].
    intros q Hq. rewrite trim_foreign1 by done. by apply trim_foreign0.
Qed.

Lemma trims_same (s s' : Store) :
  root s' = root s -> controller s' = controller s -> activeTemps s' = activeTemps s ->
  files s' = files s -> trims s s'.
Proof. intros ? ? ? E. split; try done; by rewrite E. Qed.

(** ** Removing the files of an entry *)

(** The store after the body of an entry was removed and counted. *)
Definition without_body (s : Store) (b : string) (n : node) : Store :=
  add_usage (- size_of n) (-1) (set_files (delete b (files s)) s).

Lemma without_body_ok (s : Store) (p : string) (m : Metadata) (b : string) (n : node) :
  store_ok s -> proper p -> entry_at calm (files s) p = Some (m, b, n) ->
  store_ok (without_body s b n) /\ trims s (without_body s b n)
  /\ entry_at calm (files (without_body s b n)) p = None /\ p <> b.
Proof.
  intros [] Hp He. destruct (entries_remove_body _ _ _ _ _ ok_wf0 Hp He) as (Hnone & Hne & Hent).
  split; [|split; [|done]].
  - split; [done|by apply wf_delete| |by apply no_torn_delete].
    eapply (exact_change s _ p (- size_of n) (-1)); [done|done|reflexivity|reflexivity|..];
      unfold size_at, count_at; cbn [files without_body add_usage set_usage set_files];
      rewrite Hnone, He; unfold entry_size; cbn [snd]; lia.
  - split; try done; cbn.
    + intros q Hq. apply lookup_delete_ne. intros <-.
      destruct (entry_at_inv _ _ _ _ _ Hp He) as (dir & h & rest & (Hd & Hh & _) & Hr & ->).
      apply (Hq dir h Hd Hh). right. eauto.
    + apply delete_subseteq.
    + rewrite Hent, Hnone.
      change (delete p (entries (files s)) ⊆ entries (files s)). apply delete_subseteq.
Qed.

Lemma without_meta_ok (s : Store) (p legacy : string) :
  store_ok s -> proper p -> bodyPathForMetadata p = Some legacy ->
  entry_at calm (files s) p = None ->
  store_ok (set_files (delete p (files s)) s) /\ trims s (set_files (delete p (files s)) s).
Proof.
  intros [] Hp Hl He. rewrite <- lookup_entries in He.
  pose proof (entries_remove_meta _ _ _ ok_wf0 Hp Hl He) as E. split.
  - split; [done|by apply wf_delete|by apply (exact_same s)|by apply no_torn_delete].
  - split; try done; cbn.
    + intros q Hq. apply lookup_delete_ne. intros <-.
      destruct (bodyPathForMetadata_inv _ _ Hp Hl) as (dir & h & Hd & Hh & -> & _).
      apply (Hq dir h Hd Hh). by left.
    + apply delete_subseteq.
    + by rewrite E.
Qed.

Lemma os_Remove_cases (io : oracle) (p : string) (f : fs) :
  (exists e, os_Remove io p f = Err e)
  \/ (os_Remove io p f = Ok (delete p f) /\ is_Some (f !! p) /\ io CRemove p = true).
Proof.
  unfold os_Remove, guard_call. destruct (io CRemove p); [|by left; eexists].
  destruct (f !! p) eqn:E; [right|left; by eexists]. split_and!; eauto.
Qed.

(** ** [GC] *)

(** Whether [GC] with this cutoff takes an entry. *)
Definition expired (cutoff : Time) (m : Metadata) : bool :=
  negb (IsZero (StoredAt m) || After (StoredAt m) cutoff).

Definition gc_counted (r : GCResult) (n : node) : GCResult :=
  mkGCResult (wrap64 (Objects r + 1)) (wrap64 (GCBytes r + size_of n)) (Skipped r).

(** One visit: nothing but the count of skipped entries changes, or an expired entry
    loses its body, is counted, and loses its metadata if the system lets it. *)
Lemma gc_visit_cases (io : oracle) (cutoff : Time) (r : GCResult) (s : Store) (p : string) :
  reads_ok io ->
  (snd (gc_visit io cutoff (r, s) p) = s
   /\ fst (gc_visit io cutoff (r, s) p) ∈ [r; skip r]
   /\ (forall m b n, entry_at calm (files s) p = Some (m, b, n) -> expired cutoff m = true ->
       io CRemove b = false))
  \/ exists m b n legacy, entry_at calm (files s) p = Some (m, b, n) /\ expired cutoff m = true
      /\ bodyPathForMetadata p = Some legacy
      /\ gc_visit io cutoff (r, s) p
         = let s1 := without_body s b n in
           match os_Remove io p (files s1) with
           | Err _ => (skip (gc_counted r n), s1)
           | Ok f => (gc_counted r n, set_files f s1)
           end.
Proof.
  intros Hio. unfold gc_visit, expired.
  destruct (walked_dir (files s) p) eqn:Hdir; cbn [orb].
  { left. split_and!; [done|by left|]. intros m b n (? & _)%entry_at_Some. congruence. }
  destruct (String.eqb_spec (Ext p) ".json") as [Hext|]; cbn [negb].
  2: { left. split_and!; [done|by left|]. by intros m' b n' (_ & ? & _)%entry_at_Some. }
  destruct (bodyPathForMetadata p) as [legacy|] eqn:Hl.
  2: { left. split_and!; [done|by left|]. intros m b n (_ & _ & _ & (? & ? & _) & _)%entry_at_Some. congruence. }
  rewrite (readMetadata_ok io) by done.
  destruct (readMetadata calm p (files s)) as [m|] eqn:Hm.
  2: { left. split_and!; [done|by right; left|]. intros m b n (_ & _ & ? & _)%entry_at_Some. congruence. }
  destruct (IsZero (StoredAt m) || After (StoredAt m) cutoff) eqn:Hexp.
  { left. split_and!; [done|by left|]. intros m' b n (_ & _ & ? & _)%entry_at_Some. simplify_eq.
    replace m' with m by congruence. by rewrite Hexp. }
  destruct (bodyPathForEntry p legacy m) as [b|] eqn:Hb.
  2: { left. split_and!; [done|by right; left|].
       intros m' b n (_ & _ & ? & (? & ? & ?) & _)%entry_at_Some. congruence. }
  rewrite Stat_ok by done. unfold existing. destruct (files s !! b) as [n|] eqn:Hn.
  2: { left. split_and!; [done|by right; left|].
       intros m' b' n (_ & _ & ? & (? & ? & ?) & ? & _)%entry_at_Some. congruence. }
  destruct (is_regular n) eqn:Hr; cbn [negb orb].
  2: { left. split_and!; [done|by right; left|].
       intros m' b' n' (_ & _ & ? & (? & ? & ?) & ? & ? & _)%entry_at_Some. congruence. }
  destruct (Z.eqb_spec (size_of n) (ContentBytes m)) as [Hs|Hs]; cbn [negb].
  2: { left. split_and!; [done|by right; left|].
       intros m' b' n' (_ & _ & ? & (? & ? & ?) & ? & ? & ?)%entry_at_Some. congruence. }
  assert (entry_at calm (files s) p = Some (m, b, n)) as He
    by (apply entry_at_Some; split_and!; eauto).
  assert (os_Remove io b (files s) = if io CRemove b then Ok (delete b (files s)) else Err ErrIO) as ->
    by (unfold os_Remove; by rewrite Hn).
  destruct (io CRemove b) eqn:Hrm.
  - right. exists m, b, n, legacy. rewrite Hexp. done.
  - left. split_and!; [done|by right; left|]. intros m' b' n' E. congruence.
Qed.

Lemma gc_visit_ok (io : oracle) (cutoff : Time) (r : GCResult) (s : Store) (p : string) :
  reads_ok io -> store_ok s -> proper p ->
  store_ok (snd (gc_visit io cutoff (r, s) p)) /\ trims s (snd (gc_visit io cutoff (r, s) p)).
Proof.
  intros Hio Hs Hp. destruct (gc_visit_cases io cutoff r s p Hio) as [(-> & _)|(m & b & n & legacy & He & _ & Hl & ->)];
    [done|]. cbv zeta.
  destruct (without_body_ok s p m b n Hs Hp He) as (Hs1 & Ht1 & He1 & _).
  destruct (os_Remove_cases io p (files (without_body s b n))) as [[e ->]|(-> & _)]; [done|].
  destruct (without_meta_ok _ p legacy Hs1 Hp Hl He1) as [Hs2 Ht2].
  split; [done|]. by etransitivity.
Qed.

Lemma gc_fold_ok (io : oracle) (cutoff : Time) (paths : list string) (r : GCResult) (s : Store) :
  reads_ok io -> store_ok s -> Forall proper paths ->
  store_ok (snd (foldl (gc_visit io cutoff) (r, s) paths))
  /\ trims s (snd (foldl (gc_visit io cutoff) (r, s) paths)).
Proof.
  intros Hio Hs Hall. revert r s Hs. induction Hall as [|p paths Hp _ IH]; intros r s Hs; [done|].
  cbn [foldl]. destruct (gc_visit_ok io cutoff r s p Hio Hs Hp) as [Hs1 Ht1].
  destruct (gc_visit io cutoff (r, s) p) as [r1 s1]. destruct (IH r1 s1 Hs1) as [Hs2 Ht2].
  split; [done|]. by etransitivity.
Qed.

Lemma GC_ok (io : oracle) (now : Time) (w : Walk) (s : Store) (maxAge : Z) :
  reads_ok io -> store_ok s -> Forall proper (visited w) ->
  store_ok (snd (GC io now w s maxAge)) /\ trims s (snd (GC io now w s maxAge)).
Proof.
  intros Hio Hs Hw. unfold GC. destruct (maxAge <=? 0); [done|].
  pose proof (gc_fold_ok io (TimeAdd now (- maxAge)) (visited w) (mkGCResult 0 0 0) s Hio Hs Hw) as H.
  by destruct (foldl _ _ _) as [r s'].
Qed.

(** ** [RemoveCandidate] *)

Lemma RemoveCandidate_cases (io : oracle) (s : Store) (c : Candidate) :
  reads_ok io -> no_torn (files s) ->
  (exists e, RemoveCandidate io s c = (false, e, s))
  \/ exists m n legacy, entry_at calm (files s) (metadataPath c) = Some (m, bodyPath c, n)
      /\ size_of n = CandidateBytes c /\ bodyPathForMetadata (metadataPath c) = Some legacy
      /\ RemoveCandidate io s c
         = let s1 := without_body s (bodyPath c) n in
           match os_Remove io (metadataPath c) (files s1) with
           | Err e => (true, Some (RemoveFailed e), s1)
           | Ok f => (true, None, set_files f s1)
           end.
Proof.
  intros Hio Hw. unfold RemoveCandidate. destruct (bodyPathForMetadata (metadataPath c)) as [legacy|] eqn:Hl;
    [|left; by eexists].
  rewrite (readMetadata_ok io) by done. destruct (readMetadata calm _ _) as [m|e] eqn:Hm.
  2: { left. destruct e as [[]| | | | | | | | | | | | | | | | | | | | | | | | | |]; by eexists. }
  destruct (bodyPathForEntry _ legacy m) as [b|] eqn:Hb; [|left; by eexists].
  destruct (String.eqb_spec b (bodyPath c)) as [->|]; [|left; by eexists]. cbn [negb orb].
  destruct (Z.eqb_spec (ContentBytes m) (CandidateBytes c)) as [Hs|]; [|left; by eexists]. cbn [negb].
  destruct (os_Remove_cases io (bodyPath c) (files s)) as [[[] ->]|(-> & [n Hn] & _)];
    [left; by eexists..|right].
  destruct (Hw _ _ _ _ _ Hm Hl Hb Hn) as [Hr Hsz]. exists m, n, legacy.
  assert (size_of n = CandidateBytes c) as Hc by congruence.
  split; [|split; [done|split; [done|by unfold without_body; rewrite Hc]]].
  apply entry_at_Some. pose proof Hm as (nm & Hnm & Hreg & _)%readMetadata_Ok. split_and!; eauto.
  - unfold walked_dir. rewrite Hnm. revert Hreg. unfold is_regular, is_dir. by destruct (nkind nm).
  - revert Hl. unfold bodyPathForMetadata. by destruct (String.eqb_spec (Ext (metadataPath c)) ".json").
Qed.

Lemma RemoveCandidate_ok (io : oracle) (s : Store) (c : Candidate) :
  reads_ok io -> store_ok s -> proper (metadataPath c) ->
  store_ok (snd (RemoveCandidate io s c)) /\ trims s (snd (RemoveCandidate io s c)).
Proof.
  intros Hio Hs Hp. pose proof (ok_torn s Hs) as Hw.
  destruct (RemoveCandidate_cases io s c Hio Hw) as [[e ->]|(m & n & legacy & He & _ & Hl & ->)]; [done|].
  cbv zeta. destruct (without_body_ok s _ m _ n Hs Hp He) as (Hs1 & Ht1 & He1 & _).
  destruct (os_Remove_cases io (metadataPath c) (files (without_body s (bodyPath c) n))) as [[e ->]|(-> & _)];
    [done|].
  destruct (without_meta_ok _ _ legacy Hs1 Hp Hl He1) as [Hs2 Ht2].
  split; [done|]. by etransitivity.
Qed.

(** ** [CleanupStaleTemps] *)

Lemma temp_name_foreign (p : string) : proper p -> isTempName (Base p) = true -> foreign p.
Proof.
  intros (dir & name & Hd & Hn & ->). destruct (plain_base dir name Hd Hn) as [-> _].
  intros Ht d h Hd' Hh Hb. destruct (belongs_name _ d h Hd' Hh Hb) as (rest & E & Hp).
  apply child_inj2 in E as [-> ->]; [|done..].
  destruct (hash_head h Hh) as (x & y & z & -> & [Hx _]%hex_not_dot & _).
  unfold isTempName in Ht. apply orb_true_iff in Ht as [[r Hr]%HasPrefix_spec|[r Hr]%HasPrefix_spec];
    cbn in Hr; injection Hr as -> _; done.
Qed.

(** What a cleanup may remove: old temporary files no put is using. *)
Definition stale (cutoff : Time) (s : Store) (q : string) : Prop :=
  isTempName (Base q) = true /\ (q ∉ activeTemps s)
  /\ exists n, files s !! q = Some n /\ mtime n <= cutoff.

Record cleans (cutoff : Time) (s s' : Store) : Prop := {
  clean_same : root s' = root s /\ controller s' = controller s /\ activeTemps s' = activeTemps s
               /\ bytes s' = bytes s /\ objects s' = objects s;
  clean_files : forall q, files s' !! q = files s !! q \/ (stale cutoff s q /\ files s' !! q = None);
  clean_entries : entries (files s') = entries (files s)
}.

Lemma cleans_refl (cutoff : Time) (s : Store) : cleans cutoff s s.
Proof. split; [done| |done]. by left. Qed.

Lemma cleans_trans (cutoff : Time) (s1 s2 s3 : Store) :
  cleans cutoff s1 s2 -> cleans cutoff s2 s3 -> cleans cutoff s1 s3.
Proof.
  intros [(E1 & E2 & E3 & E4 & E5) Hf He] [(E1' & E2' & E3' & E4' & E5') Hf' He'].
  split; [by split_and!; congruence| |congruence].
  intros q. destruct (Hf q) as [Hq|[Hq Hn]], (Hf' q) as [Hq'|[Hq' Hn']].
  - left. congruence.
  - right. split; [|done]. destruct Hq' as (? & Ha & n & Hn & ?).
    split_and!; [done|by rewrite <- E3|]. exists n. by rewrite <- Hq.
  - right. by rewrite Hq'.
  - by right.
Qed.

Lemma cleanup_visit_ok (io : oracle) (cutoff : Time) (p : string) (r : TempCleanupResult) (s : Store)
    (r' : TempCleanupResult) (s' : Store) :
  store_ok s -> proper p -> cleanup_visit io cutoff p (r, s) = Ok (r', s') ->
  store_ok s' /\ cleans cutoff s s'.
Proof.
  intros Hs Hp. pose proof (cleans_refl cutoff s) as Hrefl. unfold cleanup_visit.
  destruct (walked_dir (files s) p); cbn [orb]; [by intros [= _ <-]|].
  destruct (isTempName (Base p)) eqn:Ht; cbn [negb]; [|by intros [= _ <-]].
  case_bool_decide as Ha; [by intros [= _ <-]|].
  unfold Stat, guard_call, existing. destruct (io CStat p); [|done].
  destruct (files s !! p) as [n|] eqn:Hn; [|done]. unfold After.
  destruct (Z.ltb_spec cutoff (mtime n)); [by intros [= _ <-]|].
  destruct (os_Remove_cases io p (files s)) as [[e ->]|(-> & _)]; [done|]. intros [= _ <-].
  pose proof (temp_name_foreign p Hp Ht) as Hfor. pose proof Hs as [].
  assert (entries (delete p (files s)) = entries (files s)) as E.
  { apply entries_foreign; [done|by apply wf_delete|]. intros q.
    destruct (decide (q = p)) as [->|]; [by right|left; by rewrite lookup_delete_ne]. }
  split.
  - split; [done|by apply wf_delete|by apply (exact_same s)|by apply no_torn_delete].
  - split; [done| |done]. intros q. cbn. destruct (decide (q = p)) as [->|].
    + right. rewrite lookup_delete_eq. split; [|done]. split_and!; [done|done|eauto].
    + left. by rewrite lookup_delete_ne.
Qed.

Lemma cleanup_walk_ok (io : oracle) (cutoff : Time) (paths : list string) (r : TempCleanupResult)
    (s : Store) :
  store_ok s -> Forall proper paths ->
  let s' := snd (fst (cleanup_walk io cutoff paths (r, s))) in store_ok s' /\ cleans cutoff s s'.
Proof.
  intros Hs Hall. revert r s Hs.
  induction Hall as [|p paths Hp _ IH]; intros r s Hs; cbn [cleanup_walk].
  { split; [done|apply cleans_refl]. }
  destruct (cleanup_visit io cutoff p (r, s)) as [[r1 s1]|e] eqn:E.
  - destruct (cleanup_visit_ok _ _ _ _ _ _ _ Hs Hp E) as [Hs1 Hc1].
    destruct (IH r1 s1 Hs1) as [Hs2 Hc2]. split; [done|]. by eapply cleans_trans.
  - split; [done|apply cleans_refl].
Qed.

Lemma CleanupStaleTemps_ok (io : oracle) (now : Time) (w : Walk) (s : Store) (maxAge : Z) :
  store_ok s -> Forall proper (visited w) ->
  let s' := snd (CleanupStaleTemps io now w s maxAge) in
  store_ok s' /\ cleans (now - maxAge) s s'.
Proof.
  intros Hs Hw. unfold CleanupStaleTemps. destruct (maxAge <=? 0); [split; [done|apply cleans_refl]|].
  pose proof (cleanup_walk_ok io (TimeAdd now (- maxAge)) (visited w) (mkTempCleanupResult 0 0) s Hs Hw) as H.
  by destruct (cleanup_walk _ _ _ _) as [[r s'] e].
Qed.

(** ** [Reconcile] *)

Lemma count_entries (io : oracle) (s : Store) (paths : list string) (b o : Z) :
  reads_ok io ->
  foldl (count_entry io s) (wrap64 b, wrap64 o) paths
  = (wrap64 (b + fold_right (fun p acc => at_key entry_size (entries (files s)) p + acc) 0 paths),
     wrap64 (o + fold_right (fun p acc => at_key (fun _ => 1) (entries (files s)) p + acc) 0 paths)).
Proof.
  intros Hio. revert b o. induction paths as [|p paths IH]; intros b o; cbn [foldl fold_right].
  { by rewrite !Z.add_0_r. }
  unfold count_entry at 2. rewrite entry_at_ok by done. unfold at_key at 1 3. rewrite lookup_entries.
  destruct (entry_at calm (files s) p) as [[[m q] n]|]; cbn [fst snd].
  - rewrite !wrap64_add_l, IH. unfold entry_size at 2. cbn [snd]. do 2 f_equal; lia.
  - rewrite IH. do 2 f_equal; lia.
Qed.

(** A walk that visited every file once, without an error. *)
Definition full_walk (w : Walk) (s : Store) : Prop :=
  NoDup (visited w) /\ walk_result (walk_error w) = None
  /\ forall p, is_Some (files s !! p) -> p ∈ visited w.

Lemma full_walk_entries (w : Walk) (s : Store) (p : string) :
  full_walk w s -> is_Some (entries (files s) !! p) -> p ∈ visited w.
Proof.
  intros (_ & _ & H) [e He]. apply H. rewrite lookup_entries in He.
  destruct (files s !! p) eqn:E; [eauto|]. by rewrite entry_at_missing in He.
Qed.

Lemma Reconcile_exact (io : oracle) (w : Walk) (s : Store) :
  reads_ok io -> full_walk w s ->
  Reconcile io w s
  = (wrap64 (usage_bytes (files s)), wrap64 (usage_objects (files s)), None,
     set_usage (wrap64 (usage_bytes (files s))) (wrap64 (usage_objects (files s))) s).
Proof.
  intros Hio Hw. unfold Reconcile. change (0, 0) with (wrap64 0, wrap64 0).
  rewrite count_entries by done. pose proof Hw as (Hnd & -> & _).
  pose proof (full_walk_entries w s) as Hin.
  rewrite <- (map_sum_list entry_size) by eauto. rewrite <- (map_sum_list (fun _ => 1)) by eauto.
  rewrite map_sum_ones. done.
Qed.

(** ** [Lookup] *)

(** Files that differ in their access times alone. *)
Definition same_data (f f' : fs) : Prop :=
  forall q, (fun n => (nkind n, data n)) <$> f !! q = (fun n => (nkind n, data n)) <$> f' !! q.

Lemma same_data_lookup (f f' : fs) (q : string) (n : node) :
  same_data f f' -> f !! q = Some n ->
  exists n', f' !! q = Some n' /\ nkind n' = nkind n /\ data n' = data n.
Proof.
  intros H Hq. specialize (H q). rewrite Hq in H. cbn in H.
  destruct (f' !! q) as [n'|]; [|done]. cbn in H. injection H as -> ->. eauto.
Qed.

Lemma same_data_meta (f f' : fs) (p : string) (m : Metadata) :
  same_data f f' -> readMetadata calm p f = Ok m -> readMetadata calm p f' = Ok m.
Proof.
  intros H (n & Hn & Hr & Hs & Hu)%readMetadata_Ok.
  destruct (same_data_lookup f f' p n H Hn) as (n' & Hn' & Hk & Hd).
  apply readMetadata_Ok. exists n'. unfold is_regular, size_of in *. by rewrite Hk, Hd.
Qed.

Lemma same_data_entry (f f' : fs) (p : string) (m : Metadata) (b : string) (n : node) :
  same_data f f' -> entry_at calm f p = Some (m, b, n) ->
  exists n', entry_at calm f' p = Some (m, b, n') /\ data n' = data n.
Proof.
  intros H (Hw & Hx & Hm & Hl & Hn & Hr & Hs)%entry_at_Some.
  destruct (same_data_lookup f f' b n H Hn) as (n' & Hn' & Hk & Hd). exists n'. split; [|done].
  apply entry_at_Some. split_and!; try done; [|by eapply same_data_meta|..].
  - unfold walked_dir in *. destruct (f' !! p) as [np|] eqn:E; [|done].
    specialize (H p). rewrite E in H. cbn in H. destruct (f !! p) as [np0|]; [|done].
    cbn in H. injection H as Hk' _. unfold is_dir in *. by rewrite <- Hk'.
  - unfold is_regular in *. by rewrite Hk.
  - unfold size_of in *. by rewrite Hd.
Qed.

Lemma same_data_sym (f f' : fs) : same_data f f' -> same_data f' f.
Proof. intros H q. by rewrite H. Qed.

Lemma same_data_sizes (f f' : fs) :
  same_data f f' -> entry_size <$> entries f = entry_size <$> entries f'.
Proof.
  intros H. apply map_eq. intros p. rewrite !lookup_fmap, !lookup_entries.
  destruct (entry_at calm f p) as [[[m b] n]|] eqn:E.
  - destruct (same_data_entry f f' p m b n H E) as (n' & -> & Hd). cbn. unfold entry_size, size_of.
    cbn. by rewrite Hd.
  - destruct (entry_at calm f' p) as [[[m b] n]|] eqn:E'; [|done].
    apply same_data_sym in H. destruct (same_data_entry f' f p m b n H E') as (n' & ? & _). congruence.
Qed.

Lemma same_data_usage (f f' : fs) :
  same_data f f' -> usage_bytes f = usage_bytes f' /\ usage_objects f = usage_objects f'.
Proof.
  intros H%same_data_sizes. unfold usage_bytes, usage_objects. split.
  - transitivity (map_sum (fun z => z) (entry_size <$> entries f));
      [symmetry; apply (map_sum_fmap entry_size (fun z => z))|].
    rewrite H. apply (map_sum_fmap entry_size (fun z => z)).
  - by rewrite <- (map_size_fmap entry_size), H, map_size_fmap.
Qed.

Lemma same_data_torn (f f' : fs) : same_data f f' -> no_torn f -> no_torn f'.
Proof.
  intros H Hw p legacy m b n Hm Hl Hb Hn. apply same_data_sym in H.
  destruct (same_data_lookup f' f b n H Hn) as (n' & Hn' & Hk & Hd).
  destruct (Hw p legacy m b n') as [Hr Hs]; [by eapply same_data_meta|done..|].
  unfold is_regular, size_of in *. by rewrite <- Hk, <- Hd.
Qed.

Lemma same_data_ok (s : Store) (f : fs) :
  same_data (files s) f -> wf_files f -> store_ok s -> store_ok (set_files f s).
Proof.
  intros H Hf []. destruct (same_data_usage _ _ H) as [Eb Eo].
  split; [done|done| |by eapply same_data_torn]. destruct ok_exact0 as [Hb Ho].
  split; cbn; by rewrite <- ?Eb, <- ?Eo.
Qed.

(** The metadata path of a key and the entry it names. *)
Definition key_path (s : Store) (key : string) : string :=
  meta_path (shard (root s) (sha256_hex key)) (sha256_hex key).

Lemma shard_clean (root h : string) : clean_dir root -> hash_ok h -> clean_dir (shard root h).
Proof. intros. apply clean_dir_child; [done|]. by apply shard_plain. Qed.

Lemma paths_eq (s : Store) (key : string) :
  clean_dir (root s) ->
  paths s key = (body_path (shard (root s) (sha256_hex key)) (sha256_hex key) EmptyString, key_path s key).
Proof. intros Hr. apply hash_paths_eq; [done|]. apply sha256_hash_ok. Qed.

Lemma key_legacy (s : Store) (key : string) :
  clean_dir (root s) ->
  bodyPathForMetadata (key_path s key)
  = Some (body_path (shard (root s) (sha256_hex key)) (sha256_hex key) EmptyString).
Proof.
  intros Hr. pose proof (sha256_hash_ok key) as Hh.
  apply bodyPathForMetadata_meta; [by apply shard_clean|done|].
  apply (plain_base (root s)); [done|by apply shard_plain].
Qed.

Lemma key_path_proper (s : Store) (key : string) : clean_dir (root s) -> proper (key_path s key).
Proof.
  intros Hr. pose proof (sha256_hash_ok key) as Hh. eexists _, _.
  split; [by apply (shard_clean (root s) _ Hr Hh)|]. split; [|reflexivity]. by apply hash_plain.
Qed.

Lemma body_path_proper (root h rest : string) :
  clean_dir root -> hash_ok h -> contains_byte slash rest = false ->
  proper (body_path (shard root h) h rest).
Proof.
  intros Hr Hh Hs. eexists _, _. split; [by apply (shard_clean root h)|].
  split; [|reflexivity]. by apply body_path_plain.
Qed.

Lemma key_entry (s : Store) (key : string) (m : Metadata) (b : string) (n : node) :
  clean_dir (root s) ->
  entry_at calm (files s) (key_path s key) = Some (m, b, n) <->
  readMetadata calm (key_path s key) (files s) = Ok m
  /\ bodyPathForEntry (key_path s key) (fst (paths s key)) m = Ok b
  /\ files s !! b = Some n /\ is_regular n = true /\ size_of n = ContentBytes m.
Proof.
  intros Hr. rewrite entry_at_Some, key_legacy, paths_eq by done. cbn [fst]. split.
  - intros (_ & _ & ? & (l & [= <-] & ?) & ? & ? & ?). by split_and!.
  - intros (Hm & Hb & ? & ? & ?). split_and!; eauto.
    + apply readMetadata_Ok in Hm as (nm & Hnm & Hreg & _). unfold walked_dir. rewrite Hnm.
      revert Hreg. unfold is_regular, is_dir. by destruct (nkind nm).
    + pose proof (key_legacy s key Hr) as Hl. revert Hl. unfold bodyPathForMetadata.
      by destruct (String.eqb_spec (Ext (key_path s key)) ".json").
Qed.

Lemma touch_same_data (io : oracle) (b : string) (t : Time) (f : fs) :
  same_data f (ignore_error (Chtimes io b t f) f).
Proof.
  unfold Chtimes, guard_call. destruct (io CChtimes b); [|done].
  destruct (f !! b) as [n|] eqn:E; [|done]. cbn. intros q.
  destruct (decide (q = b)) as [->|]; [by rewrite lookup_insert_eq, E|by rewrite lookup_insert_ne].
Qed.

Lemma touch_wf (io : oracle) (b : string) (t : Time) (f : fs) :
  wf_files f -> wf_files (ignore_error (Chtimes io b t f) f).
Proof.
  intros Hf q Hq. apply Hf. pose proof (touch_same_data io b t f q) as E.
  destruct Hq as [n' Hn']. rewrite Hn' in E. destruct (f !! q); [eauto|done].
Qed.

(** The outcome of a lookup: a miss or an error that changes nothing, or a hit on a
    complete entry that is younger than [ttl], which only touches its access time. *)
Lemma Lookup_cases (io : oracle) (now : Time) (s : Store) (key : string) (ttl : Z) :
  reads_ok io -> store_ok s ->
  (snd (Lookup io now s key ttl) = s /\ (forall e, fst (Lookup io now s key ttl) <> Ok (Some e))
   /\ forall m b n, entry_at calm (files s) (key_path s key) = Some (m, b, n) -> ttl <= Sub now (StoredAt m))
  \/ exists m b n, entry_at calm (files s) (key_path s key) = Some (m, b, n)
      /\ Sub now (StoredAt m) < ttl
      /\ Lookup io now s key ttl
         = (Ok (Some (mkEntry m b (data n))),
            set_files (ignore_error (Chtimes io b now (files s)) (files s)) s).
Proof.
  intros Hio []. unfold Lookup. setoid_rewrite key_entry; [|done..]. rewrite paths_eq by done. cbn [fst].
  rewrite (readMetadata_ok io) by done. destruct (readMetadata calm _ _) as [m|e] eqn:Hm.
  2: { left. destruct e as [[]| | | | | | | | | | | | | | | | | | | | | | | | | |]; split_and!; try done;
       by intros ? ? ? (? & _). }
  destruct (Z.leb_spec ttl (Sub now (StoredAt m))).
  { left. split_and!; try done. intros ? ? ? ([= <-] & _). done. }
  destruct (bodyPathForEntry _ _ m) as [b|] eqn:Hb.
  2: { left. split_and!; try done. intros ? ? ? ([= <-] & ? & _). congruence. }
  rewrite Stat_ok, Open_ok by done. unfold existing. destruct (files s !! b) as [n|] eqn:Hn.
  2: { left. split_and!; try done. intros ? ? ? ([= <-] & ? & ? & _). congruence. }
  destruct (ok_torn0 _ _ _ _ _ Hm (key_legacy s key ok_root0) Hb Hn) as [Hr Hsz].
  rewrite Hsz, Z.eqb_refl. cbn [negb]. right. exists m, b, n. by split_and!.
Qed.

Lemma Lookup_ok (io : oracle) (now : Time) (s : Store) (key : string) (ttl : Z) :
  reads_ok io -> store_ok s ->
  let s' := snd (Lookup io now s key ttl) in
  store_ok s' /\ s' = set_files (files s') s /\ same_data (files s) (files s').
Proof.
  intros Hio Hs. destruct (Lookup_cases io now s key ttl Hio Hs) as [(-> & _)|(m & b & n & _ & _ & ->)].
  - split; [done|]. split; [by destruct s|done].
  - cbn. pose proof (touch_same_data io b now (files s)) as Ht. split; [|done].
    apply same_data_ok; [done| |done]. apply touch_wf, Hs.
Qed.

End StoreOps.
