(* ===== verification/StorePut.v ===== *)
(** * The critical section of a put

    What [commit] does to a store in good order, on each of its outcomes. *)

From S2P Require Import Prelude GoStrings FilePath Sha256 Time Metadata Fs Store StoreFacts StoreOps.
From S2P Require Storage.
From Stdlib Require Import Ascii String.
Local Open Scope string_scope.
Local Open Scope Z_scope.

Section StorePut.
Context {codec : MetadataCodec}.

(** ** Temporary files and generations *)

(** A random suffix of [os.CreateTemp]. *)
Definition suffix_ok (suffix : string) : Prop := contains_byte slash suffix = false.

Lemma temp_names (dir suffix : string) :
  clean_dir dir -> suffix_ok suffix ->
  proper (body_temp dir suffix) /\ proper (metadata_temp dir suffix)
  /\ foreign (body_temp dir suffix) /\ foreign (metadata_temp dir suffix)
  /\ Base (body_temp dir suffix) = ".body-" ++ suffix
  /\ Base (metadata_temp dir suffix) = ".metadata-" ++ suffix.
Proof.
  intros Hd Hs. unfold suffix_ok in Hs.
  assert (plain (".body-" ++ suffix) /\ plain (".metadata-" ++ suffix)) as [Hb Hm]
    by (split; split_and!; done).
  assert (proper (body_temp dir suffix) /\ proper (metadata_temp dir suffix)) as [Pb Pm]
    by (split; eexists _, _; eauto).
  destruct (plain_base _ _ Hd Hb) as [Eb _]. destruct (plain_base _ _ Hd Hm) as [Em _].
  split_and!; try done; apply temp_name_foreign; try done; unfold body_temp, metadata_temp;
    rewrite ?Eb, ?Em; unfold isTempName; apply orb_true_iff; [left|right];
    apply HasPrefix_spec; by eexists.
Qed.

Lemma temps_differ (d1 d2 s1 s2 : string) : suffix_ok s1 -> suffix_ok s2 ->
  body_temp d1 s1 <> metadata_temp d2 s2.
Proof.
  intros H1 H2 E. apply (f_equal Base) in E. unfold body_temp, metadata_temp in E.
  rewrite !Base_child in E by done. done.
Qed.

Definition generation_name (dir h suffix : string) : string := body_path dir h ("." ++ suffix).

Lemma generation_eq (dir h suffix : string) :
  clean_dir dir -> hash_ok h -> suffix_ok suffix ->
  body_path dir h EmptyString ++ "." ++ TrimPrefix (Base (body_temp dir suffix)) ".body-"
  = generation_name dir h suffix
  /\ Base (generation_name dir h suffix) = h ++ ".body." ++ suffix.
Proof.
  intros Hd Hh Hs. destruct (temp_names dir suffix Hd Hs) as (_ & _ & _ & _ & -> & _).
  rewrite TrimPrefix_app. unfold generation_name, body_path. split.
  - unfold child. by rewrite !app_assoc_str.
  - by apply plain_base; [|apply body_path_plain].
Qed.

(** No file has the generation's name, and the metadata in place does not name it. *)
Definition fresh_generation (f : fs) (mp gen : string) : Prop :=
  f !! gen = None
  /\ forall legacy m b, readMetadata calm mp f = Ok m -> bodyPathForMetadata mp = Some legacy ->
       bodyPathForEntry mp legacy m = Ok b -> b <> gen.

(** [replace] never gets stuck between removing its target and the second rename. *)
Definition replace_safe (io : oracle) (source destination : string) : Prop :=
  io CRename source = false -> io CRenameAgain source = false -> io CRemove destination = false.

Lemma replace_cases (io : oracle) (source destination : string) (f : fs) (n : node) :
  reads_ok io -> replace_safe io source destination -> f !! source = Some n -> source <> destination ->
  (exists e, replace io source destination f = (Err e, f))
  \/ replace io source destination f
     = (Ok (<[destination := n]> (delete source f)), <[destination := n]> (delete source f)).
Proof.
  intros Hio Hsafe Hn Hne. unfold replace. rewrite Stat_ok by done.
  unfold Rename, guard_call, existing. rewrite Hn.
  destruct (io CRename source) eqn:E1; [by right|].
  destruct (f !! destination) eqn:Ed.
  - destruct (os_Remove_cases io destination f) as [[e ->]|(-> & _ & Hrm)]; [left; by eexists|].
    destruct (io CRenameAgain source) eqn:E2.
    + right. rewrite lookup_delete_ne, Hn by done.
      rewrite delete_delete, insert_delete_eq. done.
    + by rewrite Hsafe in Hrm.
  - destruct (io CRenameAgain source); [by right|left; by eexists].
Qed.

(** The previous entry as [commit] sees it: its size and presence are those of the
    complete entry, and the path to remove is one of the entry's bodies. *)
Lemma previous_entry_cases (io : oracle) (s : Store) (dir h : string) :
  reads_ok io -> no_torn (files s) -> clean_dir dir -> hash_ok h ->
  let mp := meta_path dir h in
  bodyPathForMetadata mp = Some (body_path dir h EmptyString) ->
  exists p (valid : bool),
    previous_entry io s (body_path dir h EmptyString) mp = (p, size_at (files s) mp, valid)
    /\ count_at (files s) mp = (if valid then 1 else 0)
    /\ (p = EmptyString \/ (belongs p dir h /\ p <> mp)).
Proof.
  intros Hio Hw Hd Hh mp Hl. unfold previous_entry. rewrite (readMetadata_ok io) by done.
  unfold size_at, count_at.
  assert (entry_at calm (files s) mp = None ->
    (match entry_at calm (files s) mp with Some e => entry_size e | None => 0 end) = 0
    /\ (match entry_at calm (files s) mp with Some _ => 1 | None => 0 end) = 0) as Hnone
    by by intros ->.
  destruct (entry_at calm (files s) mp) as [[[m b] n]|] eqn:He; [clear Hnone|destruct (Hnone eq_refl)].
  - apply entry_at_Some in He as (_ & _ & -> & (l & Hl' & Hb) & Hn & Hr & Hs).
    rewrite Hl in Hl'. injection Hl' as <-. rewrite Hb.
    apply bodyPathForEntry_inv in Hb as (rest & Hrest & ->); [|done..].
    destruct (String.eqb_spec (body_path dir h rest) EmptyString) as [E|_].
    { exfalso. unfold body_path, child in E. by destruct dir. }
    rewrite Stat_ok by done. unfold existing. rewrite Hn, Hr, Hs, Z.eqb_refl. cbn [andb].
    eexists _, true. split_and!; [by rewrite <- Hs|done|right].
    split; [right; eauto|]. intros E. by eapply body_not_meta.
  - exists (fst (fst (previous_entry calm s (body_path dir h EmptyString) mp))), false.
    unfold previous_entry.
    destruct (readMetadata calm mp (files s)) as [m|e] eqn:Hm; [|split_and!; [done|done|by left]].
    destruct (bodyPathForEntry _ _ m) as [b|] eqn:Hb; [|split_and!; [done|done|by left]].
    pose proof Hb as Hb'. apply bodyPathForEntry_inv in Hb' as (rest & Hr & ->); [|done..].
    destruct (String.eqb_spec (body_path dir h rest) EmptyString); [split_and!; [done|done|by left]|].
    rewrite (Stat_ok io) by done. unfold Stat, existing. cbn [guard_call calm].
    assert (belongs (body_path dir h rest) dir h /\ body_path dir h rest <> mp) as Hbel.
    { split; [right; eauto|]. intros E. by eapply body_not_meta. }
    destruct (files s !! body_path dir h rest) as [n'|] eqn:Hn; [|split_and!; [done|done|by right]].
    exfalso. destruct (Hw _ _ _ _ _ Hm Hl Hb Hn) as [Hreg Hsz].
    assert (entry_at calm (files s) mp = Some (m, body_path dir h rest, n')); [|congruence].
    pose proof Hm as (nm & Hnm & Hregm & _)%readMetadata_Ok.
    apply entry_at_Some. split_and!; eauto.
    + unfold walked_dir. rewrite Hnm. revert Hregm. unfold is_regular, is_dir. by destruct (nkind nm).
    + revert Hl. unfold bodyPathForMetadata. by destruct (String.eqb_spec (Ext mp) ".json").
Qed.

(** ** The two ways the files can end up *)

Section Files.
Context (f : fs) (dir h suffix : string).
Context (Hf : wf_files f) (Hd : clean_dir dir) (Hh : hash_ok h) (Hs : suffix_ok suffix).
Context (Htorn : no_torn f).

Let mp := meta_path dir h.
Let gen := generation_name dir h suffix.
Let bt := body_temp dir suffix.

Context (Hfresh : fresh_generation f mp gen).

Lemma meta_belongs : belongs mp dir h.
Proof. by left. Qed.

Lemma gen_belongs : belongs gen dir h.
Proof. right. by exists ("." ++ suffix). Qed.

Lemma foreign_ne (q q' : string) : foreign q -> belongs q' dir h -> q <> q'.
Proof. intros Hq Hb ->. by destruct (Hq dir h Hd Hh). Qed.

Lemma mp_ne_gen : mp <> gen.
Proof. intros E. by eapply (body_not_meta dir h ("." ++ suffix) dir h). Qed.

Lemma named_body (f0 : fs) (legacy b : string) (m : Metadata) :
  bodyPathForMetadata mp = Some legacy -> bodyPathForEntry mp legacy m = Ok b ->
  belongs b dir h /\ b <> mp.
Proof.
  intros Hl Hb. assert (proper mp) as Hp.
  { exists dir, (h ++ ".json"). split_and!; [done|by apply hash_plain|done]. }
  destruct (bodyPathForMetadata_inv mp legacy Hp Hl) as (d' & h' & Hd' & Hh' & E & ->).
  apply child_inj2 in E as [<- E]; [|done|done|by apply hash_plain..].
  apply hash_name_inj in E as [<- _]; [|done..].
  apply bodyPathForEntry_inv in Hb as (rest & Hr & ->); [|done..].
  split; [right; eauto|]. intros E. by eapply body_not_meta.
Qed.

(** Only the temporary body and an unreferenced generation changed. *)
Lemma orphan_files (f' : fs) :
  wf_files f' -> (forall q, q <> bt -> q <> gen -> f' !! q = f !! q) ->
  entries f' = entries f /\ no_torn f'.
Proof.
  intros Hf' Hq. destruct (temp_names dir suffix Hd Hs) as (_ & _ & Hfor & _).
  assert (forall q, f !! q = f' !! q \/ foreign q \/ belongs q dir h) as Hch.
  { intros q. destruct (decide (q = bt)) as [->|]; [by right; left|].
    destruct (decide (q = gen)) as [->|]; [right; right; apply gen_belongs|left; by rewrite Hq]. }
  assert (f !! mp = f' !! mp) as Hmp.
  { rewrite Hq; [done|apply not_eq_sym, foreign_ne; [done|apply meta_belongs]|apply mp_ne_gen]. }
  assert (forall legacy m b, readMetadata calm mp f = Ok m -> bodyPathForMetadata mp = Some legacy ->
    bodyPathForEntry mp legacy m = Ok b -> f !! b = f' !! b) as Hbody.
  { intros legacy m b Hm Hl Hb. rewrite Hq; [done| |by eapply Hfresh].
    apply not_eq_sym, foreign_ne; [done|]. by eapply named_body. }
  split.
  - rewrite (entries_change f f' dir h) by done.
    rewrite <- (entry_at_frame f f' (meta_path dir h)) by done.
    rewrite <- lookup_entries. apply partial_alter_self.
  - apply (no_torn_change f f' dir h); try done. intros legacy m b n Hm Hl Hb Hn.
    assert (readMetadata calm mp f = Ok m) as Hm0.
    { rewrite <- Hm. unfold readMetadata, Open, existing. fold mp. by rewrite Hmp. }
    apply (Htorn mp legacy m b n Hm0 Hl Hb). rewrite (Hbody _ _ _ Hm0 Hl Hb). exact Hn.
Qed.

(** The metadata names the new generation and nothing else of the entry is needed. *)
Lemma committed_files (f' : fs) (msuffix : string) (m : Metadata) (nm nb : node) :
  suffix_ok msuffix -> wf_files f' ->
  bodyPathForMetadata mp <> None ->
  f' !! mp = Some nm -> is_regular nm = true -> size_of nm <= maxMetadataBytes ->
  unmarshal (data nm) = Some m -> BodyFile m = h ++ ".body." ++ suffix ->
  f' !! gen = Some nb -> is_regular nb = true -> size_of nb = ContentBytes m ->
  (forall q, q <> bt -> q <> metadata_temp dir msuffix -> ~ belongs q dir h -> f' !! q = f !! q) ->
  entries f' = <[mp := (m, gen, nb)]> (entries f) /\ no_torn f'.
Proof.
  intros Hms Hf' Hl Hnm Hrm Hsm Hu Hbf Hnb Hrb Hsb Hq.
  destruct (temp_names dir suffix Hd Hs) as (_ & _ & Hfb & _).
  destruct (temp_names dir msuffix Hd Hms) as (_ & _ & _ & Hfm & _).
  assert (readMetadata calm mp f' = Ok m) as Hm by (apply readMetadata_Ok; eauto).
  assert (forall legacy, bodyPathForEntry mp legacy m = Ok gen) as Hgen
    by (intros; by apply bodyPathForEntry_generation).
  assert (exists legacy, bodyPathForMetadata mp = Some legacy) as [legacy Hlg]
    by (destruct (bodyPathForMetadata mp); [eauto|done]).
  assert (forall q, f !! q = f' !! q \/ foreign q \/ belongs q dir h) as Hch.
  { intros q. destruct (decide (q = bt)) as [->|]; [by right; left|].
    destruct (decide (q = metadata_temp dir msuffix)) as [->|]; [by right; left|].
    destruct (belongs_dec q dir h) as [|Hnb']; [by right; right|]. left. by rewrite Hq. }
  split.
  - rewrite (entries_change f f' dir h) by done.
    assert (entry_at calm f' (meta_path dir h) = Some (m, gen, nb)) as ->; [|done].
    apply entry_at_Some. split_and!; eauto.
    + unfold walked_dir. fold mp. rewrite Hnm. revert Hrm. unfold is_regular, is_dir. by destruct (nkind nm).
    + revert Hlg. unfold bodyPathForMetadata. unfold mp. by destruct (String.eqb_spec (Ext (meta_path dir h)) ".json").
  - apply (no_torn_change f f' dir h); try done. intros l m' b n Hm' _ Hb Hn. fold mp in Hm', Hb.
    rewrite Hm in Hm'. injection Hm' as <-. rewrite Hgen in Hb. injection Hb as <-. by simplify_eq.
Qed.
End Files.

(** ** [commit] *)

(** The files a put has ready when it commits. *)
Record ready (f : fs) (dir h suffix msuffix : string) (m : Metadata) (nb nm : node) : Prop := {
  r_suffix : suffix_ok suffix;
  r_msuffix : suffix_ok msuffix;
  r_body : f !! body_temp dir suffix = Some nb;
  r_body_regular : is_regular nb = true;
  r_meta : f !! metadata_temp dir msuffix = Some nm;
  r_meta_regular : is_regular nm = true;
  r_meta_size : size_of nm <= maxMetadataBytes;
  r_decodes : unmarshal (data nm) = Some m;
  r_file : BodyFile m = h ++ ".body." ++ suffix;
  r_bytes : ContentBytes m = size_of nb
}.

(** The outcome of a commit: the files of the put alone move; on an error the entries and
    the counters are what they were, and on success exactly the key's entry is new and the
    reservation is [spent]. *)
Record committed (s s' : Store) (dir h suffix msuffix : string) (m : Metadata) (nb nm : node)
    (storedAt : Time) (spent : option Storage.Controller) (err : option store_error) (kb km : bool) : Prop := {
  c_ok : store_ok s';
  c_same : root s' = root s /\ activeTemps s' = activeTemps s;
  c_foreign : forall q, foreign q -> q <> body_temp dir suffix -> q <> metadata_temp dir msuffix ->
    files s' !! q = files s !! q;
  c_body : files s' !! body_temp dir suffix = if kb then None else Some nb;
  c_meta : files s' !! metadata_temp dir msuffix = if km then None else Some nm;
  c_entries :
    match err with
    | None => kb = true /\ km = true
        /\ entries (files s') = <[meta_path dir h := (m, generation_name dir h suffix,
                                    mkNode Regular (data nb) storedAt)]> (entries (files s))
    | Some _ => entries (files s') = entries (files s) /\ bytes s' = bytes s /\ objects s' = objects s
    end;
  c_controller : controller s' = match err with None => spent | Some _ => controller s end
}.

Section Commit.
Context (io : oracle) (s : Store) (h suffix msuffix : string) (m : Metadata) (nb nm : node)
        (storedAt : Time).
Let dir := shard (root s) h.
Let mp := meta_path dir h.
Let bt := body_temp dir suffix.
Let mt := metadata_temp dir msuffix.
Let gen := generation_name dir h suffix.
Let legacy := body_path dir h EmptyString.

Context (Hio : reads_ok io) (Hok : store_ok s) (Hh : hash_ok h).
Context (Hready : ready (files s) dir h suffix msuffix m nb nm).
Context (Hfresh : fresh_generation (files s) mp gen).

Lemma c_dir : clean_dir dir.
Proof. apply shard_clean; [apply Hok|done]. Qed.

Lemma c_legacy : bodyPathForMetadata mp = Some legacy.
Proof.
  apply bodyPathForMetadata_meta; [apply c_dir|done|].
  apply (plain_base (root s)); [apply Hok|by apply shard_plain].
Qed.

Lemma c_proper : proper mp /\ proper gen.
Proof.
  split; [|apply body_path_proper; [apply Hok|done|apply Hready]].
  exists dir, (h ++ ".json"). split_and!; [apply c_dir|by apply hash_plain|done].
Qed.

(** The four names are distinct. *)
Lemma c_distinct : bt <> mt /\ bt <> gen /\ mt <> gen /\ bt <> mp /\ mt <> mp /\ mp <> gen.
Proof.
  destruct Hready as [Hs Hms]. pose proof c_dir as Hd.
  destruct (temp_names dir suffix Hd Hs) as (_ & _ & Fb & _).
  destruct (temp_names dir msuffix Hd Hms) as (_ & _ & _ & Fm & _).
  pose proof (gen_belongs dir h suffix Hs) as Bg. pose proof (meta_belongs dir h) as Bm.
  split_and!; [by apply temps_differ|..]; try (by eapply foreign_ne).
  by apply mp_ne_gen.
Qed.

(** The store is unchanged but for files no entry refers to. *)
Lemma commit_failed (spent : option Storage.Controller) (f' : fs) (err : store_error) (kb : bool) :
  wf_files f' -> (forall q, q <> bt -> q <> gen -> f' !! q = files s !! q) ->
  f' !! bt = (if kb then None else Some nb) ->
  committed s (set_files f' s) dir h suffix msuffix m nb nm storedAt spent (Some err) kb false.
Proof.
  intros Hf' Hq Hb. destruct c_distinct as (D1 & D2 & D3 & D4 & D5 & D6). pose proof Hok as [Kr Kw Ke Kt].
  destruct (orphan_files (files s) dir h suffix Kw c_dir Hh (r_suffix _ _ _ _ _ _ _ _ Hready)
    Kt Hfresh f' Hf' Hq) as [E Ht].
  split; try done.
  - split; [done|done|by apply (exact_same s)|done].
  - intros q Hfor Hqb _. apply Hq; [done|]. apply (foreign_ne dir h c_dir Hh); [done|].
    apply gen_belongs, Hready.
  - change (f' !! mt = Some nm). rewrite Hq; [apply Hready|by apply not_eq_sym|done].
Qed.

(** The entry is replaced, its previous body gone if the system let it go. *)
Lemma commit_succeeded (f' : fs) (c : option Storage.Controller) :
  let nb' := mkNode Regular (data nb) storedAt in
  wf_files f' -> f' !! bt = None -> f' !! mt = None -> f' !! mp = Some nm -> f' !! gen = Some nb' ->
  (forall q, q <> bt -> q <> mt -> ~ belongs q dir h -> f' !! q = files s !! q) ->
  committed s (add_usage (size_of nb - size_at (files s) mp)
                 (1 - count_at (files s) mp) (set_files f' (set_controller c s)))
    dir h suffix msuffix m nb nm storedAt c None true true.
Proof.
  intros nb' Hf' Hbt Hmt Hmp Hgen Hq. pose proof Hok as [Kr Kw Ke Kt]. pose proof Hready as [Rs Rms Rb Rbr Rm Rmr Rmz Rd Rf Rn].
  destruct (committed_files (files s) dir h suffix Kw c_dir Hh Rs Kt f' msuffix m nm nb')
    as [E Ht]; try done; [by rewrite (c_legacy : bodyPathForMetadata (meta_path dir h) = _)|].
  assert (entry_at calm f' mp = Some (m, gen, nb')) as He
    by (rewrite <- lookup_entries, E; apply lookup_insert_eq).
  split; try done.
  - split; [done|done| |done].
    apply (exact_change s _ mp (size_of nb - size_at (files s) mp) (1 - count_at (files s) mp));
      try done; cbn [files add_usage set_usage set_files].
    + by rewrite E, He.
    + assert (size_at f' mp = size_of nb) as -> by (unfold size_at; by rewrite He). done.
    + assert (count_at f' mp = 1) as -> by (unfold count_at; by rewrite He). done.
  - intros q Hfor Hqb Hqm. apply Hq; [done|done|]. apply Hfor; [apply c_dir|done].
Qed.
Lemma commit_reservation_store (r : option Storage.Reservation) (written previous : Z) :
  exists c, snd (commit_reservation r written previous s) = set_controller c s.
Proof.
  assert (s = set_controller (controller s) s) as Hs by by destruct s.
  unfold commit_reservation. destruct r as [r|]; [|eauto].
  destruct (controller s) as [c|] eqn:Hc; [|eauto].
  destruct (Storage.Commit _ _ _ _) as [[? ?] ?]. cbn. eauto.
Qed.

(** What is left of the new generation once it is dropped. *)
Lemma dropped_generation (f' : fs) :
  wf_files f' -> (forall q, q <> bt -> q <> gen -> f' !! q = files s !! q) -> f' !! bt = None ->
  let f1 := ignore_error (os_Remove io gen f') f' in
  wf_files f1 /\ (forall q, q <> bt -> q <> gen -> f1 !! q = files s !! q) /\ f1 !! bt = None.
Proof.
  intros Hf' Hq Hb f1. unfold f1.
  destruct (os_Remove_cases io gen f') as [[e ->]|(-> & _ & _)]; cbn [ignore_error]; [done|].
  split_and!; [by apply wf_delete| |].
  - intros q Hqb Hqg. rewrite lookup_delete_ne by done. by apply Hq.
  - rewrite lookup_delete_ne; [done|]. by destruct c_distinct as (_ & ? & _); apply not_eq_sym.
Qed.

(** Dropping the previous body, or nothing. *)
Lemma dropped_previous (f' : fs) (p : string) :
  wf_files f' -> (p = EmptyString \/ (belongs p dir h /\ p <> mp)) ->
  let f1 := if negb (p =? EmptyString)%string && negb (p =? gen)%string
            then ignore_error (os_Remove io p f') f' else f' in
  wf_files f1 /\ f1 !! mp = f' !! mp /\ f1 !! gen = f' !! gen
  /\ (forall q, ~ belongs q dir h -> f1 !! q = f' !! q).
Proof.
  intros Hf' Hp f1. unfold f1.
  destruct (String.eqb_spec p EmptyString) as [|Hne]; [done|]. destruct Hp as [|[Hb Hm]]; [done|].
  destruct (String.eqb_spec p gen) as [|Hg]; [done|]. cbn [negb andb].
  destruct (os_Remove_cases io p f') as [[e ->]|(-> & _ & _)]; cbn [ignore_error]; [done|].
  split_and!; [by apply wf_delete|by rewrite lookup_delete_ne..|].
  intros q Hq. rewrite lookup_delete_ne; [done|]. by intros ->.
Qed.

Lemma commit_ok (r : option Storage.Reservation) :
  replace_safe io mt mp ->
  fst (fst (commit_reservation r (size_of nb) (size_at (files s) mp) s)) = true ->
  let '(err, kb, km, r', s') := commit io legacy mp bt mt gen storedAt (size_of nb) r s in
  committed s s' dir h suffix msuffix m nb nm storedAt
    (controller (snd (commit_reservation r (size_of nb) (size_at (files s) mp) s))) err kb km
  /\ (err <> None -> r' = r).
Proof.
  intros Hsafe Hres. destruct c_distinct as (D1 & D2 & D3 & D4 & D5 & D6).
  destruct c_proper as [Pm Pg]. pose proof Hok as [Kr Kw Ke Kt].
  pose proof Hready as [Rs Rms Rb Rbr Rm Rmr Rmz Rd Rf Rn].
  unfold commit. destruct (previous_entry_cases io s dir h Hio Kt c_dir Hh c_legacy)
    as (p & valid & Hprev & Hvalid & Hp). fold mp in Hprev, Hvalid, Hp.
  unfold legacy at 1. rewrite Hprev.
  assert (s = set_files (files s) s) as Hs by by destruct s.
  unfold Rename, guard_call. fold bt mt in Rb, Rm. rewrite Rb. destruct (io CRename bt).
  2: { split; [|done]. rewrite Hs at 2. by apply commit_failed. }
  set (f1 := <[gen:=nb]> (delete bt (files s))).
  assert (wf_files f1) as W1 by (apply wf_insert; [by apply wf_delete|done]).
  assert (forall q, q <> bt -> q <> gen -> f1 !! q = files s !! q) as Q1
    by (intros q ? ?; unfold f1; rewrite lookup_insert_ne, lookup_delete_ne by done; done).
  assert (f1 !! bt = None) as B1
    by (unfold f1; rewrite lookup_insert_ne by done; apply lookup_delete_eq).
  unfold Chtimes, guard_call. unfold f1 at 1. rewrite lookup_insert_eq. fold f1.
  destruct (io CChtimes gen).
  2: { split; [|done]. destruct (dropped_generation f1 W1 Q1 B1) as (? & ? & ?). by apply commit_failed. }
  set (nb' := mkNode (nkind nb) (data nb) storedAt). set (f2 := <[gen := nb']> f1).
  assert (wf_files f2) as W2 by by apply wf_insert.
  assert (forall q, q <> bt -> q <> gen -> f2 !! q = files s !! q) as Q2
    by (intros q ? ?; unfold f2; rewrite lookup_insert_ne by done; by apply Q1).
  assert (f2 !! bt = None) as B2 by (unfold f2; by rewrite lookup_insert_ne).
  destruct (replace_cases io mt mp f2 nm Hio Hsafe) as [[e ->]|E];
    [by rewrite Q2 by (by try apply not_eq_sym)|done| |].
  { split; [|done]. destruct (dropped_generation f2 W2 Q2 B2) as (? & ? & ?). by apply commit_failed. }
  rewrite E. destruct (commit_reservation_store r (size_of nb) (size_at (files s) mp)) as [c Hc].
  destruct (commit_reservation _ _ _ _) as [[ok r'] s1] eqn:Ec. cbn in Hres, Hc. subst ok s1.
  split; [|done]. cbn [negb]. set (f3 := <[mp := nm]> (delete mt f2)).
  assert (wf_files f3) as W3 by (apply wf_insert; [by apply wf_delete|done]).
  destruct (dropped_previous f3 p W3 Hp) as (W4 & M4 & G4 & Q4).
  assert (count_at (files s) mp = 1 /\ (if valid then 0 else 1) = 0
    \/ count_at (files s) mp = 0 /\ (if valid then 0 else 1) = 1) as Hcnt
    by (rewrite Hvalid; destruct valid; auto).
  assert ((if valid then 0 else 1) = 1 - count_at (files s) mp) as -> by lia.
  assert (~ belongs bt dir h /\ ~ belongs mt dir h) as NB
    by (split; [apply (temp_names dir suffix)|apply (temp_names dir msuffix)]; done || apply c_dir).
  refine (commit_succeeded _ c W4 _ _ _ _ _).
  - rewrite Q4 by apply NB. unfold f3. by rewrite lookup_insert_ne, lookup_delete_ne by done.
  - rewrite Q4 by apply NB. unfold f3. rewrite lookup_insert_ne by done. apply lookup_delete_eq.
  - rewrite M4. apply lookup_insert_eq.
  - rewrite G4. unfold f3. rewrite lookup_insert_ne, lookup_delete_ne by done.
    unfold f2. rewrite lookup_insert_eq. unfold nb'. revert Rbr. unfold is_regular. by destruct (nkind nb).
  - intros q Hqb Hqm Hq. rewrite Q4 by done. unfold f3.
    rewrite lookup_insert_ne, lookup_delete_ne; [|done|intros <-; apply Hq, meta_belongs].
    apply Q2; [done|]. intros ->. by apply Hq, gen_belongs.
Qed.
End Commit.

End StorePut.
