(* ===== verification/StoreStream.v ===== *)
(** * Streaming through a put

    What reaches the client and what reaches the cache while [PutStreamVerified]
    copies its source: the two writers of [boundedCacheWriter]. *)

From S2P Require Import Prelude GoStrings Time Metadata Fs Store.
From Stdlib Require Import Ascii String.
Local Open Scope string_scope.
Local Open Scope Z_scope.

Definition len (s : string) : Z := Z.of_nat (String.length s).

Lemma len_app (s t : string) : len (s ++ t) = len s + len t.
Proof. unfold len. rewrite length_app_str. lia. Qed.

Lemma concat_cons (c : string) (cs : list string) :
  String.concat EmptyString (c :: cs) = c ++ String.concat EmptyString cs.
Proof. destruct cs; [symmetry; apply app_empty_r|done]. Qed.

Lemma substring_whole (s : string) : substring 0 (String.length s) s = s.
Proof. induction s as [|c s IH]; [done|]. cbn. by rewrite IH. Qed.

Lemma record_write_full (w : Writer) (down chunk down' : string) (n : nat) :
  record_write w down chunk = (n, false, down') -> n = String.length chunk -> down' = down ++ chunk.
Proof.
  unfold record_write. destruct (w down chunk) as [n' err]. intros [= <- -> <-] ->.
  by rewrite substring_whole.
Qed.

(** The sink after it accepted [acc]: below its limit both writers hold it, above it
    the client alone does. *)
Definition sink_good (lim : Z) (acc : string) (k : sink) : Prop :=
  limit k = lim /\ enabled k = true /\ downstream k = acc
  /\ overflow k = (0 <=? lim) && (lim <? len acc)
  /\ (overflow k = false -> cache k = acc /\ sinkWritten k = len acc).

Lemma sink_Write_good (w : Writer) (cacheFails : string -> string -> bool) (lim : Z) (acc chunk : string)
    (k k' : sink) (n : nat) :
  -1 <= lim <= maxInt64 -> len (acc ++ chunk) <= maxInt64 -> chunk <> EmptyString ->
  sink_good lim acc k -> sink_Write w cacheFails k chunk = (n, false, k') ->
  n = String.length chunk -> sink_good lim (acc ++ chunk) k'.
Proof.
  intros Hlim Hlen Hne (Hl & He & Hd & Ho & Hc) Hw ->. rewrite len_app in Hlen.
  assert (0 < len chunk) as Hpos by (destruct chunk; [done|unfold len; cbn; lia]).
  assert (0 <= len acc) by (unfold len; lia).
  unfold sink_Write in Hw. destruct (record_write w (downstream k) chunk) as [[n err] down] eqn:Er.
  assert (n = String.length chunk /\ err = false) as [-> ->] by (repeat case_match; by simplify_eq).
  apply record_write_full in Er as ->; [|done]. rewrite substring_whole, He, Hd, Hl in Hw.
  assert ((0 <? String.length chunk)%nat = true) as Hp by (apply Nat.ltb_lt; unfold len in *; lia).
  rewrite Hp in Hw. cbn [andb overflow enabled limit sinkWritten cache] in Hw. unfold sink_good. rewrite len_app.
  change (Z.of_nat (String.length chunk)) with (len chunk) in Hw.
  destruct (overflow k) eqn:Hov; cbn [negb] in Hw.
  - injection Hw as <-. cbn. symmetry in Ho. apply andb_true_iff in Ho as [Ho1 Ho2%Z.ltb_lt].
    split_and!; try done. rewrite Ho1. cbn. symmetry. apply Z.ltb_lt. lia.
  - destruct (Hc eq_refl) as [Hca Hsw]. rewrite Hsw, !wrap64_id in Hw by int64_lia.
    assert (lim < 0 \/ len acc <= lim) as Hb
      by (symmetry in Ho; apply andb_false_iff in Ho as [?%Z.leb_gt|?%Z.ltb_ge]; lia).
    destruct (Z.leb_spec 0 lim) as [Hl0|Hl0]; cbn [andb] in Hw |- *.
    + destruct (Z.ltb_spec (lim - len acc) (len chunk)).
      * injection Hw as <-. cbn. split_and!; try done. symmetry. apply Z.ltb_lt. lia.
      * destruct (cacheFails _ _); [congruence|]. injection Hw as <-. cbn. rewrite Hca.
        split_and!; try done. symmetry. apply Z.ltb_ge. lia.
    + destruct (cacheFails _ _); [congruence|]. injection Hw as <-. cbn. by rewrite Hca.
Qed.

Lemma io_Copy_good (w : Writer) (cacheFails : string -> string -> bool) (lim : Z) (chunks : list string)
    (failed : bool) (acc : string) (k k' : sink) (written : Z) :
  -1 <= lim <= maxInt64 -> len (acc ++ String.concat EmptyString chunks) <= maxInt64 ->
  sink_good lim acc k ->
  io_Copy (sink_Write w cacheFails) chunks failed (len acc) k = (written, None, k') ->
  failed = false /\ written = len (acc ++ String.concat EmptyString chunks)
  /\ sink_good lim (acc ++ String.concat EmptyString chunks) k'.
Proof.
  intros Hlim. revert acc k. induction chunks as [|c cs IH]; intros acc k Hlen Hk Hw; cbn [io_Copy] in Hw.
  - rewrite app_empty_r. destruct failed; [done|]. by injection Hw as <- <-.
  - rewrite concat_cons in *. destruct (String.eqb_spec c EmptyString) as [->|Hne]; [by apply (IH acc k)|].
    destruct (sink_Write w cacheFails k c) as [[n err] k1] eqn:Ew.
    destruct err; [done|]. destruct (Nat.eqb_spec n (String.length c)) as [->|]; [|done].
    cbn [negb] in Hw. rewrite <- app_assoc_str in *. rewrite len_app in Hlen.
    assert (0 <= len (String.concat EmptyString cs)) by (unfold len; lia).
    assert (wrap64 (len acc + Z.of_nat (String.length c)) = len (acc ++ c)) as E.
    { rewrite len_app in Hlen. rewrite wrap64_id; [by rewrite len_app|]. unfold len in *. int64_lia. }
    rewrite E in Hw. eapply IH; [by rewrite len_app| |done].
    eapply sink_Write_good; eauto. lia.
Qed.

(** A copy that succeeds delivered the whole content; the cache overflowed exactly when
    the content is longer than the limit, and otherwise holds it all. *)
Lemma copy_cached_ok (w : Writer) (cacheFails : string -> string -> bool) (lim : Z) (src : Source)
    (written : Z) (k : sink) :
  -1 <= lim <= maxInt64 -> len (content src) <= maxInt64 ->
  copy_cached w cacheFails lim src = (written, None, k) ->
  failed src = false /\ written = len (content src) /\ downstream k = content src
  /\ overflow k = (0 <=? lim) && (lim <? len (content src))
  /\ (overflow k = false -> cache k = content src).
Proof.
  intros Hlim Hlen Hw.
  destruct (io_Copy_good w cacheFails lim (chunks src) (failed src) EmptyString
    (mkSink lim true false 0 EmptyString EmptyString) k written) as (Hf & Hwr & _ & _ & Hd & Ho & Hc); try done.
  - split_and!; try done. cbn. destruct (Z.leb_spec 0 lim); [|done]. cbn. symmetry. by apply Z.ltb_ge.
  - split_and!; try done. intros Hov. by destruct (Hc Hov).
Qed.

Lemma copy_through_ok (w : Writer) (src : Source) (written : Z) (down : string) :
  copy_through w src = (written, None, down) -> failed src = false /\ down = content src.
Proof.
  unfold copy_through, content. change (content src) with (EmptyString ++ content src).
  assert (forall cs acc wr, io_Copy (record_write w) cs (failed src) wr acc = (written, None, down) ->
    failed src = false /\ down = acc ++ String.concat EmptyString cs) as H; [|apply H].
  induction cs as [|c cs IH]; intros acc wr Hw; cbn [io_Copy] in Hw.
  - rewrite app_empty_r. destruct (failed src); [done|]. by injection Hw as _ <-.
  - rewrite concat_cons. destruct (String.eqb_spec c EmptyString) as [->|Hne]; [by eapply IH|].
    destruct (record_write w acc c) as [[n err] down1] eqn:Ew.
    destruct err; [done|]. destruct (Nat.eqb_spec n (String.length c)) as [->|]; [|done].
    cbn [negb] in Hw. apply record_write_full in Ew as ->; [|done].
    rewrite <- app_assoc_str. by eapply IH.
Qed.

(** While the cache file takes what it is given, the copy into both writers is, for the
    client, the copy into its own. *)
Lemma copy_cached_transparent (w : Writer) (cacheFails : string -> string -> bool) (lim : Z) (src : Source) :
  (forall held chunk, cacheFails held chunk = false) ->
  let '(written, err, k) := copy_cached w cacheFails lim src in
  copy_through w src = (written, err, downstream k).
Proof.
  intros Hcf. unfold copy_cached, copy_through.
  set (k0 := mkSink lim true false 0 EmptyString EmptyString).
  change EmptyString with (downstream k0). generalize k0. clear k0.
  generalize 0. induction (chunks src) as [|c cs IH]; intros wr k; cbn [io_Copy]; [done|].
  destruct (String.eqb_spec c EmptyString) as [->|Hne]; [apply IH|].
  assert (exists n err k', sink_Write w cacheFails k c = (n, err, k')
    /\ record_write w (downstream k) c = (n, err, downstream k')) as (n & err & k' & -> & ->).
  { unfold sink_Write. destruct (record_write w (downstream k) c) as [[n err] down].
    rewrite Hcf. destruct_ifs; by eexists _, _, _. }
  destruct err; [done|]. destruct (n =? String.length c)%nat; [apply IH|done].
Qed.

(** A writer that takes everything fails no copy of a source that does not fail. *)
Lemma copy_cached_total (cacheFails : string -> string -> bool) (lim : Z) (src : Source) :
  (forall held chunk, cacheFails held chunk = false) -> failed src = false ->
  exists written k, copy_cached accepts_all cacheFails lim src = (written, None, k).
Proof.
  intros Hcf Hf. unfold copy_cached. generalize (mkSink lim true false 0 EmptyString EmptyString).
  generalize 0. induction (chunks src) as [|c cs IH]; intros wr k; cbn [io_Copy].
  - rewrite Hf. eauto.
  - destruct (String.eqb_spec c EmptyString) as [->|Hne]; [apply IH|].
    assert (exists k', sink_Write accepts_all cacheFails k c = (String.length c, false, k')) as [k' ->].
    { unfold sink_Write, record_write, accepts_all. rewrite Nat.min_id, Hcf. destruct_ifs; eauto. }
    rewrite Nat.eqb_refl. apply IH.
Qed.

(** ** [byteReader] *)

Lemma substring_skip (s : string) (i j k : nat) :
  substring i j s ++ substring (i + j) k s = substring i (j + k) s.
Proof.
  revert i j k. induction s as [|c s IH]; intros i j k.
  - by destruct i, j, k; cbn.
  - destruct i as [|i]; cbn [Nat.add].
    + destruct j as [|j]; cbn [Nat.add]; [destruct k; done|].
      cbn [substring String.append]. f_equal. apply (IH O j k).
    + cbn [substring]. apply IH.
Qed.

Lemma substring_beyond (s : string) (i j : nat) :
  (String.length s <= i)%nat -> substring i j s = EmptyString.
Proof. revert i. induction s as [|c s IH]; intros [|i] H; cbn in *; [by destruct j..|lia|apply IH; lia]. Qed.

Lemma length_substring (s : string) (i j : nat) :
  String.length (substring i j s) = Nat.min j (String.length s - i).
Proof.
  revert i j. induction s as [|c s IH]; intros [|i] [|j]; cbn; try done; rewrite IH; f_equal; lia.
Qed.

Lemma read_pieces_content (fuel : nat) (body : string) (off : nat) :
  (String.length body - off < fuel)%nat -> (off <= String.length body)%nat ->
  String.concat EmptyString (read_pieces fuel (mkByteReader body off))
  = substring off (String.length body - off) body.
Proof.
  revert off. induction fuel as [|fuel IH]; intros off Hf Ho; [lia|].
  cbn [read_pieces]. unfold byteReader_Read. cbn [bytesData offset].
  destruct (Nat.leb_spec (String.length body) off).
  { replace (String.length body - off)%nat with O by lia. cbn.
    pose proof (length_substring body off 0) as E. by destruct (substring off 0 body). }
  assert (0 < Z.to_nat 32768)%nat as Hp by lia. revert Hp. generalize (Z.to_nat 32768). intros b Hb.
  rewrite concat_cons, IH by (rewrite length_substring; lia). rewrite length_substring.
  set (j := Nat.min b (String.length body - off)).
  assert (substring off b body = substring off j body) as ->.
  { unfold j. destruct (Nat.min_spec b (String.length body - off)) as [[_ ->]|[Hle ->]]; [done|].
    pose proof (substring_skip body off (String.length body - off) (b - (String.length body - off))) as E.
    rewrite (substring_beyond body (_ + _)), app_empty_r in E by lia. rewrite E. f_equal. lia. }
  rewrite substring_skip. f_equal. unfold j. lia.
Qed.

(** [PutBytes] streams exactly its bytes. *)
Lemma bytes_source_content (body : string) : content (bytes_source body) = body.
Proof.
  unfold content, bytes_source, bytesReader. cbn [chunks].
  rewrite read_pieces_content by lia. rewrite Nat.sub_0_r. apply substring_whole.
Qed.
