(* ===== verification/StoreSystem.v ===== *)
(** * The cache store under concurrency

    Any number of puts in flight, each between two of its critical sections, over one
    store on which the other operations run.  A step is a critical section of
    [internal/cache/store.go] or a write to a file that is the put's own; an os call a
    deferred function makes is taken with the critical section next to it.  The random
    suffixes [os.CreateTemp] draws are those of no other file of the same put key.  The
    budget may count the bytes of other stores too: the class [Elsewhere]. *)

From S2P Require Import Prelude GoStrings FilePath Sha256 Http HttpPolicy Time Metadata Fs Store StoreFacts StoreOps StorePut StoreStream.
From S2P Require Storage.
From Stdlib Require Import Ascii String.
Local Open Scope string_scope.
Local Open Scope Z_scope.

(** The bytes that others hold under the same budget: stores of other repositories. *)
Class Elsewhere := { elsewhere : Z; elsewhere_nonneg : 0 <= elsewhere }.

Section StoreSystem.
Context {codec : MetadataCodec} {company : Elsewhere}.

(** ** Puts in flight *)

Inductive Stage :=
  | Streaming                                     (* the body is being copied *)
  | Streamed (body : string)                      (* the body is complete and verified *)
  | Describing (body metadataSuffix : string)     (* the metadata file exists *)
  | Described (body : string) (m : Metadata) (metadataSuffix : string)  (* and is complete *)
  | Ending (keepBody : bool) (metadata : option (string * bool)).  (* the deferred functions run *)

Record Flight := mkFlight {
  fkey : string;
  fsuffix : string;
  freservation : option Storage.Reservation;
  flimit : Z;
  fverify : option (Z -> bool);
  fstage : Stage
}.

Definition set_stage (st : Stage) (fl : Flight) : Flight :=
  mkFlight (fkey fl) (fsuffix fl) (freservation fl) (flimit fl) (fverify fl) st.
Definition set_reservation (r : option Storage.Reservation) (fl : Flight) : Flight :=
  mkFlight (fkey fl) (fsuffix fl) r (flimit fl) (fverify fl) (fstage fl).

(** The two temporary files of a flight. *)
Definition body_name (s : Store) (fl : Flight) : string :=
  body_temp (Dir (fst (paths s (fkey fl)))) (fsuffix fl).
Definition metadata_name (s : Store) (fl : Flight) (metadataSuffix : string) : string :=
  metadata_temp (Dir (fst (paths s (fkey fl)))) metadataSuffix.
Definition generation_of (s : Store) (fl : Flight) : string :=
  fst (paths s (fkey fl)) ++ "." ++ TrimPrefix (Base (body_name s fl)) ".body-".

Definition metadata_suffix (st : Stage) : option string :=
  match st with
  | Streaming | Streamed _ => None
  | Describing _ ms | Described _ _ ms => Some ms
  | Ending _ ms => fst <$> ms
  end.

Definition is_ending (st : Stage) : bool := match st with Ending _ _ => true | _ => false end.

Definition verified (v : option (Z -> bool)) (written : Z) : bool :=
  match v with Some v => v written | None => true end.

(** ** The system

    [history] lists, newest first, what was committed: the path of the metadata, the
    metadata and the content. *)

Record System := mkSystem {
  store : Store;
  flights : gmap nat Flight;
  history : list (string * Metadata * string)
}.

(** The budget counts at least the bytes of this store and those held elsewhere. *)
Definition accounted (s : Store) : Prop :=
  forall c, controller s = Some c ->
    elsewhere + usage_bytes (files s) <= Storage.committedBytes c <= maxInt64.

Inductive step : System -> System -> Prop :=
  | step_turned_away s fs hs header free a s' :
      admitPut s header free = (a, s') -> (forall r n, a <> Granted r n) ->
      step (mkSystem s fs hs) (mkSystem s' fs hs)
  | step_no_temp s fs hs header free r n s' :
      admitPut s header free = (Granted r n, s') ->
      step (mkSystem s fs hs) (mkSystem (Release r s') fs hs)
  | step_open s fs hs i io header free r n s1 s2 key suffix verify now :
      let fl := mkFlight key suffix r (if is_Some_b (controller s) then n else -1) verify Streaming in
      admitPut s header free = (Granted r n, s1) ->
      fs !! i = None -> suffix_ok suffix ->
      files s !! body_name s fl = None -> body_name s fl ∉ activeTemps s ->
      create_temp io (body_name s fl) now s1 = Some s2 ->
      step (mkSystem s fs hs) (mkSystem s2 (<[i := fl]> fs) hs)
  | step_write s fs hs i fl text now :
      fs !! i = Some fl -> fstage fl = Streaming ->
      step (mkSystem s fs hs) (mkSystem (write_file (body_name s fl) text now s) fs hs)
  | step_streamed s fs hs i fl w cacheFails src written k now :
      fs !! i = Some fl -> fstage fl = Streaming -> len (content src) <= maxInt64 ->
      copy_cached w cacheFails (flimit fl) src = (written, None, k) ->
      overflow k = false -> verified (fverify fl) written = true ->
      step (mkSystem s fs hs)
        (mkSystem (write_file (body_name s fl) (cache k) now s)
           (<[i := set_stage (Streamed (cache k)) fl]> fs) hs)
  | step_overflow s fs hs i fl written :
      fs !! i = Some fl -> fstage fl = Streaming ->
      step (mkSystem s fs hs)
        (mkSystem (RecordBypass written s) (<[i := set_stage (Ending false None) fl]> fs) hs)
  | step_describe s fs hs i fl io body ms now s' :
      fs !! i = Some fl -> fstage fl = Streamed body -> suffix_ok ms ->
      files s !! metadata_name s fl ms = None -> metadata_name s fl ms ∉ activeTemps s ->
      create_temp io (metadata_name s fl ms) now s = Some s' ->
      step (mkSystem s fs hs) (mkSystem s' (<[i := set_stage (Describing body ms) fl]> fs) hs)
  | step_write_metadata s fs hs i fl body ms m0 order now text :
      fs !! i = Some fl -> fstage fl = Describing body ms ->
      let m := stored_metadata m0 order now (len body) (generation_of s fl) in
      representable m -> marshal m = Some text -> len text <= maxMetadataBytes ->
      step (mkSystem s fs hs)
        (mkSystem (write_file (metadata_name s fl ms) text now s)
           (<[i := set_stage (Described body m ms) fl]> fs) hs)
  | step_commit s fs hs i fl io body m ms err kb km r s' :
      fs !! i = Some fl -> fstage fl = Described body m ms ->
      reads_ok io -> replace_safe io (metadata_name s fl ms) (key_path s (fkey fl)) ->
      fresh_generation (files s) (key_path s (fkey fl)) (generation_of s fl) ->
      commit io (fst (paths s (fkey fl))) (snd (paths s (fkey fl))) (body_name s fl)
        (metadata_name s fl ms) (generation_of s fl) (StoredAt m) (ContentBytes m)
        (freservation fl) s = (err, kb, km, r, s') ->
      elsewhere + usage_bytes (files s') <= maxInt64 ->
      step (mkSystem s fs hs)
        (mkSystem s' (<[i := set_reservation r (set_stage (Ending kb (Some (ms, km))) fl)]> fs)
           (match err with
            | None => (key_path s (fkey fl), m, body) :: hs
            | Some _ => hs
            end))
  | step_fail s fs hs i fl :
      fs !! i = Some fl -> is_ending (fstage fl) = false ->
      let ms := metadata_suffix (fstage fl) in
      step (mkSystem s fs hs)
        (mkSystem s (<[i := set_stage (Ending false ((fun x => (x, false)) <$> ms)) fl]> fs) hs)
  | step_drop_metadata s fs hs i fl io kb ms km :
      fs !! i = Some fl -> fstage fl = Ending kb (Some (ms, km)) ->
      step (mkSystem s fs hs)
        (mkSystem (drop_temp io km (metadata_name s fl ms) s)
           (<[i := set_stage (Ending kb None) fl]> fs) hs)
  | step_close s fs hs i fl io kb :
      fs !! i = Some fl -> fstage fl = Ending kb None ->
      step (mkSystem s fs hs)
        (mkSystem (Release (freservation fl) (drop_temp io kb (body_name s fl) s)) (delete i fs) hs)
  | step_lookup s fs hs io now key ttl :
      reads_ok io -> step (mkSystem s fs hs) (mkSystem (snd (Lookup io now s key ttl)) fs hs)
  | step_gc s fs hs io now w maxAge :
      reads_ok io -> Forall proper (visited w) ->
      step (mkSystem s fs hs) (mkSystem (snd (GC io now w s maxAge)) fs hs)
  | step_cleanup s fs hs io now w maxAge :
      Forall proper (visited w) ->
      step (mkSystem s fs hs) (mkSystem (snd (CleanupStaleTemps io now w s maxAge)) fs hs)
  | step_remove s fs hs io c :
      reads_ok io -> proper (metadataPath c) ->
      step (mkSystem s fs hs) (mkSystem (snd (RemoveCandidate io s c)) fs hs)
  | step_reconcile s fs hs io w :
      reads_ok io -> full_walk w s ->
      step (mkSystem s fs hs) (mkSystem (snd (Reconcile io w s)) fs hs)
  | step_controller s fs hs c :
      accounted (SetController c s) -> (controller s = None -> fs = ∅) -> step (mkSystem s fs hs) (mkSystem (SetController c s) fs hs)
  | step_restart s fs hs io w s' :
      reads_ok io -> full_walk w s -> New io w (root s) (files s) = Some s' ->
      step (mkSystem s fs hs) (mkSystem s' ∅ hs).

(** Everything a store starts with is taken as committed. *)
Definition initial (y : System) : Prop :=
  store_ok (store y) /\ accounted (store y) /\ flights y = ∅
  /\ forall p m b n, entry_at calm (files (store y)) p = Some (m, b, n) -> (p, m, data n) ∈ history y.

Inductive reachable (y0 : System) : System -> Prop :=
  | reach_start : reachable y0 y0
  | reach_step y y' : reachable y0 y -> step y y' -> reachable y0 y'.

(** ** The invariant *)

(** The names a flight holds. *)
Definition names (s : Store) (fl : Flight) : list string :=
  body_name s fl :: match metadata_suffix (fstage fl) with
                    | Some ms => [metadata_name s fl ms]
                    | None => []
                    end.

Definition body_gone (st : Stage) : bool := match st with Ending kb _ => kb | _ => false end.
Definition metadata_gone (st : Stage) : bool :=
  match st with Ending _ (Some (_, km)) => km | _ => false end.

(** The finished body of a flight that can still commit it. *)
Definition body_of (st : Stage) : option string :=
  match st with Streamed b | Describing b _ | Described b _ _ => Some b | _ => None end.

(** A temporary file in place until it was renamed away. *)
Definition holds (s : Store) (name : string) (gone : bool) (P : string -> Prop) : Prop :=
  name ∈ activeTemps s
  /\ exists n, is_regular n = true /\ files s !! name = (if gone then None else Some n) /\ P (data n).

(** The metadata file of a flight is complete and names its generation. *)
Definition describes (s : Store) (fl : Flight) (text : string) : Prop :=
  match fstage fl with
  | Described body m _ =>
      unmarshal text = Some m /\ len text <= maxMetadataBytes
      /\ BodyFile m = Base (generation_of s fl) /\ ContentBytes m = len body
  | _ => True
  end.

Record flight_ok (s : Store) (fl : Flight) : Prop := {
  fo_suffix : suffix_ok (fsuffix fl);
  fo_body : holds s (body_name s fl) (body_gone (fstage fl))
              (fun text => forall body, body_of (fstage fl) = Some body -> text = body);
  fo_metadata : forall ms, metadata_suffix (fstage fl) = Some ms ->
    suffix_ok ms
    /\ holds s (metadata_name s fl ms) (metadata_gone (fstage fl)) (describes s fl);
  fo_limit : -1 <= flimit fl <= maxInt64;
  fo_reservation : is_ending (fstage fl) = false -> forall r, freservation fl = Some r ->
    Storage.once r = false /\ Storage.bytes r = flimit fl /\ 0 <= flimit fl;
  fo_budget : is_ending (fstage fl) = false -> is_Some (controller s) -> is_Some (freservation fl);
  fo_fits : forall body, body_of (fstage fl) = Some body ->
    verified (fverify fl) (len body) = true /\ len body <= maxInt64 /\ (0 <= flimit fl -> len body <= flimit fl)
}.

Record Inv (y : System) : Prop := {
  i_ok : store_ok (store y);
  i_accounted : accounted (store y);
  i_flights : forall i fl, flights y !! i = Some fl -> flight_ok (store y) fl;
  i_disjoint : forall i j fl fl' q, flights y !! i = Some fl -> flights y !! j = Some fl' -> i <> j ->
    q ∈ names (store y) fl -> q ∉ names (store y) fl';
  i_history : forall p m b n, entry_at calm (files (store y)) p = Some (m, b, n) ->
    (p, m, data n) ∈ history y
}.

(** *** Names *)

Lemma dir_of_key (s : Store) (key : string) : clean_dir (root s) ->
  Dir (fst (paths s key)) = shard (root s) (sha256_hex key)
  /\ clean_dir (shard (root s) (sha256_hex key)).
Proof.
  intros Hr. pose proof (sha256_hash_ok key) as Hh. pose proof (shard_clean _ _ Hr Hh) as Hd.
  rewrite paths_eq by done. cbn [fst]. split; [|done].
  by apply plain_base; [|apply body_path_plain].
Qed.

Lemma body_name_eq (s : Store) (fl : Flight) : clean_dir (root s) ->
  body_name s fl = body_temp (shard (root s) (sha256_hex (fkey fl))) (fsuffix fl).
Proof. intros Hr. unfold body_name. by destruct (dir_of_key s (fkey fl) Hr) as [-> _]. Qed.

Lemma metadata_name_eq (s : Store) (fl : Flight) (ms : string) : clean_dir (root s) ->
  metadata_name s fl ms = metadata_temp (shard (root s) (sha256_hex (fkey fl))) ms.
Proof. intros Hr. unfold metadata_name. by destruct (dir_of_key s (fkey fl) Hr) as [-> _]. Qed.

Lemma generation_of_eq (s : Store) (fl : Flight) :
  clean_dir (root s) -> suffix_ok (fsuffix fl) ->
  let h := sha256_hex (fkey fl) in
  generation_of s fl = generation_name (shard (root s) h) h (fsuffix fl)
  /\ Base (generation_of s fl) = h ++ ".body." ++ fsuffix fl.
Proof.
  intros Hr Hs h. destruct (dir_of_key s (fkey fl) Hr) as [_ Hd]. unfold generation_of.
  rewrite body_name_eq, paths_eq by done. cbn [fst]. fold h.
  destruct (generation_eq (shard (root s) h) h (fsuffix fl)) as [-> E]; [done|apply sha256_hash_ok|done|].
  done.
Qed.

Lemma names_facts (s : Store) (fl : Flight) (q : string) :
  store_ok s -> flight_ok s fl -> q ∈ names s fl -> foreign q /\ q ∈ activeTemps s /\ proper q.
Proof.
  intros [Hr _ _ _] Hfl Hq. destruct (dir_of_key s (fkey fl) Hr) as [_ Hd].
  apply elem_of_cons in Hq as [->|Hq].
  - destruct (fo_body _ _ Hfl) as [Ha _]. rewrite body_name_eq in * by done.
    destruct (temp_names _ (fsuffix fl) Hd (fo_suffix _ _ Hfl)) as (? & ? & ? & ? & _). done.
  - destruct (metadata_suffix (fstage fl)) as [ms|] eqn:Em; [|by apply not_elem_of_nil in Hq].
    apply list_elem_of_singleton in Hq as ->. destruct (fo_metadata _ _ Hfl ms Em) as [Hms [Ha _]].
    rewrite metadata_name_eq in * by done.
    destruct (temp_names _ ms Hd Hms) as (? & ? & ? & ? & _). done.
Qed.

Lemma names_root (s s' : Store) (fl : Flight) : root s' = root s ->
  body_name s' fl = body_name s fl
  /\ (forall ms, metadata_name s' fl ms = metadata_name s fl ms)
  /\ generation_of s' fl = generation_of s fl /\ names s' fl = names s fl.
Proof.
  intros E. unfold names, generation_of, metadata_name, body_name, paths. by rewrite E.
Qed.

Lemma flight_ok_frame (s s' : Store) (fl : Flight) :
  root s' = root s -> (is_Some (controller s') -> is_Some (controller s)) ->
  (forall q, q ∈ names s fl -> q ∈ activeTemps s -> q ∈ activeTemps s' /\ files s' !! q = files s !! q) ->
  flight_ok s fl -> flight_ok s' fl.
Proof.
  intros Hr Hc Hq [H1 H2 H3 H4 H5 Hbu H6]. destruct (names_root s s' fl Hr) as (Eb & Em & Eg & En).
  assert (forall q g P, q ∈ names s fl -> holds s q g P -> holds s' q g P) as Hh.
  { intros q g P Hin [Ha (n & Hn & Hf & HP)]. destruct (Hq q Hin Ha) as [Ha' Hf'].
    split; [done|]. exists n. by rewrite Hf'. }
  split; try done; [| |by eauto].
  - rewrite Eb. apply Hh; [by left|done].
  - intros ms Hms. destruct (H3 ms Hms) as [Hsm Hold]. split; [done|]. rewrite Em.
    assert (describes s' fl = describes s fl) as -> by (unfold describes; by rewrite Eg).
    apply Hh; [|done]. unfold names. rewrite Hms. right. by left.
Qed.

(** *** Changes of the budget alone *)

(** [s'] differs from [s] in the budget, and there not in the committed bytes. *)
Definition recounts (s s' : Store) : Prop :=
  exists c, s' = set_controller c s
    /\ match controller s, c with
       | Some a, Some b => Storage.committedBytes b = Storage.committedBytes a
       | None, None => True
       | _, _ => False
       end.

Lemma recounts_refl (s : Store) : recounts s s.
Proof. exists (controller s). split; [by destruct s|]. by destruct (controller s). Qed.

Lemma recounts_accounted (s s' : Store) : recounts s s' -> accounted s -> accounted s'.
Proof.
  intros (c & -> & Hc) Ha c' E. cbn in E. subst c. destruct (controller s) as [c0|] eqn:E0; [|done].
  rewrite Hc. by apply Ha.
Qed.

Lemma store_ok_controller (s : Store) (c : option Storage.Controller) :
  store_ok s -> store_ok (set_controller c s).
Proof. intros []. by split. Qed.

Lemma recounts_ok (s s' : Store) : recounts s s' -> store_ok s -> store_ok s'.
Proof. intros (c & -> & _). apply store_ok_controller. Qed.

Lemma Release_recounts (r : option Storage.Reservation) (s : Store) : recounts s (Release r s).
Proof.
  unfold Release. destruct (controller s) as [c|] eqn:E; [|apply recounts_refl].
  eexists. split; [done|]. rewrite E. unfold Storage.Release.
  destruct r as [r|]; [|done]. by destruct (Storage.once r).
Qed.

Lemma RecordBypass_recounts (written : Z) (s : Store) : recounts s (RecordBypass written s).
Proof. eexists. split; [done|]. by destruct (controller s). Qed.

Lemma ParseInt_range (raw : string) (v : Z) : ParseInt raw = Ok v -> int64 v.
Proof.
  unfold ParseInt. intros H. repeat case_match; simplify_eq;
    match goal with E : _ && _ = true |- _ => apply andb_true_iff in E as [?%Z.leb_le ?%Z.leb_le] end; done.
Qed.

Lemma contentLength_known (header : Header) (n : Z) :
  contentLength header = (n, true) -> 0 < n <= maxInt64.
Proof.
  unfold contentLength. destruct (_ =? _)%string; [done|].
  destruct (ParseInt _) as [v|] eqn:E; [|done]. intros [= <- H%Z.ltb_lt].
  apply ParseInt_range in E. int64_lia.
Qed.

Lemma admit_recounts (s : Store) (header : Header) (free : option Z) :
  recounts s (snd (admitPut s header free)).
Proof.
  unfold admitPut. destruct (contentLength header) as [n known].
  destruct (controller s) as [c|] eqn:E; [|apply recounts_refl].
  destruct free as [free|]; [|apply recounts_refl].
  destruct known; cbn [negb]; [|eexists; split; [done|by rewrite E]].
  destruct (Storage.Reserve c n free) as [[r|] c'] eqn:Er; (eexists; split; [done|]); rewrite E;
    revert Er; unfold Storage.Reserve; case_match; intros; by simplify_eq.
Qed.

(** What a granted admission hands out. *)
Lemma admit_granted (s : Store) (header : Header) (free : option Z) (r : option Storage.Reservation)
    (n : Z) (s' : Store) :
  admitPut s header free = (Granted r n, s') ->
  let lim := if is_Some_b (controller s) then n else -1 in
  -1 <= lim <= maxInt64 /\ (is_Some (controller s) -> is_Some r)
  /\ forall r0, r = Some r0 -> Storage.once r0 = false /\ Storage.bytes r0 = lim /\ 0 <= lim.
Proof.
  unfold admitPut. destruct (contentLength header) as [v known] eqn:Hv.
  destruct (controller s) as [c|]; cbn [is_Some_b].
  - destruct free as [free|]; [|done]. destruct known; [|done]. cbn [negb].
    pose proof (contentLength_known _ _ Hv).
    destruct (Storage.Reserve c v free) as [[r'|] c'] eqn:Er; [|done]. intros [= <- <- <-].
    split; [lia|]. split; [done|]. intros r0 [= <-]. revert Er. unfold Storage.Reserve. case_match; [done|].
    intros [= <- _]. cbn. split_and!; [done|done|lia].
  - intros [= <- <- <-]. split; [unfold maxInt64; lia|]. split; [by intros [? ?]|done].
Qed.

(** *** Changes of a temporary file *)

Lemma foreign_update (s : Store) (f' : fs) (q0 : string) :
  store_ok s -> foreign q0 -> wf_files f' -> (forall q, q <> q0 -> f' !! q = files s !! q) ->
  store_ok (set_files f' s) /\ entries f' = entries (files s).
Proof.
  intros [Kr Kw Ke Kt] Hfor Hf' Hq.
  assert (entries f' = entries (files s)) as E.
  { apply entries_foreign; [done|done|]. intros q.
    destruct (decide (q = q0)) as [->|]; [by right|left; by rewrite Hq]. }
  split; [|done]. split; [done|done|by apply (exact_same s)|].
  intros p legacy m b n Hm Hl Hb Hn. cbn [files set_files] in *.
  assert (proper p) as Hp by (apply Hf'; apply readMetadata_Ok in Hm as (? & ? & _); eauto).
  destruct (bodyPathForMetadata_inv p legacy Hp Hl) as (dir & h & Hd & Hh & -> & ->).
  assert (forall q, belongs q dir h -> f' !! q = files s !! q) as Hag
    by (intros q Hb'; apply Hq; intros ->; by destruct (Hfor dir h Hd Hh)).
  apply (Kt (meta_path dir h) (body_path dir h EmptyString) m b n); try done.
  - revert Hm. unfold readMetadata, Open, existing. by rewrite Hag by by left.
  - rewrite <- Hag; [done|]. apply bodyPathForEntry_inv in Hb as (rest & Hr & ->); [|done..].
    right. eauto.
Qed.

(** What a change of the own temporary file [q0] leaves of a store. *)
Record touches (q0 : string) (s s' : Store) : Prop := {
  to_ok : store_ok s';
  to_same : root s' = root s /\ controller s' = controller s;
  to_files : forall q, q <> q0 -> files s' !! q = files s !! q;
  to_temps : forall q, q <> q0 -> (q ∈ activeTemps s' <-> q ∈ activeTemps s);
  to_entries : entries (files s') = entries (files s)
}.

Lemma create_touches (io : oracle) (q0 : string) (now : Time) (s s' : Store) :
  store_ok s -> foreign q0 -> proper q0 -> create_temp io q0 now s = Some s' ->
  touches q0 s s' /\ holds s' q0 false (fun _ => True).
Proof.
  intros Hs Hfor Hp. unfold create_temp. destruct (io CCreateTemp q0); [|done]. intros [= <-].
  pose proof (ok_wf _ Hs) as Hw. set (n := mkNode Regular EmptyString now).
  destruct (foreign_update s (<[q0 := n]> (files s)) q0 Hs Hfor) as [Hok E];
    [by apply wf_insert|by intros; apply lookup_insert_ne|].
  split; [split; try done|split].
  - by destruct Hok.
  - intros q Hq. by apply lookup_insert_ne.
  - cbn. set_solver.
  - cbn. set_solver.
  - exists n. split_and!; [done|apply lookup_insert_eq|done].
Qed.

Lemma write_touches (q0 text : string) (now : Time) (s : Store) :
  store_ok s -> foreign q0 -> proper q0 -> q0 ∈ activeTemps s ->
  touches q0 s (write_file q0 text now s)
  /\ holds (write_file q0 text now s) q0 false (fun t => t = text).
Proof.
  intros Hs Hfor Hp Ha. pose proof (ok_wf _ Hs) as Hw. set (n := mkNode Regular text now).
  destruct (foreign_update s (<[q0 := n]> (files s)) q0 Hs Hfor) as [Hok E];
    [by apply wf_insert|by intros; apply lookup_insert_ne|].
  split; [split; try done|split; [done|]].
  - intros q Hq. by apply lookup_insert_ne.
  - exists n. split_and!; [done|apply lookup_insert_eq|done].
Qed.

Lemma drop_touches (io : oracle) (keep : bool) (q0 : string) (s : Store) :
  store_ok s -> foreign q0 -> touches q0 s (drop_temp io keep q0 s).
Proof.
  intros Hs Hfor. pose proof (ok_wf _ Hs) as Hw.
  assert (exists f, drop_temp io keep q0 s = set_temps (activeTemps s ∖ {[q0]}) (set_files f s)
    /\ wf_files f /\ forall q, q <> q0 -> f !! q = files s !! q) as (f & -> & Hf & Hq).
  { unfold drop_temp. destruct keep; [by eexists|].
    destruct (os_Remove_cases io q0 (files s)) as [[e ->]|(-> & _)]; cbn [ignore_error]; [by eexists|].
    eexists. split_and!; [done|by apply wf_delete|]. intros q ?. by apply lookup_delete_ne. }
  destruct (foreign_update s f q0 Hs Hfor Hf Hq) as [[] E].
  split; try done. cbn. set_solver.
Qed.

(** *** Frames for the invariant *)

Lemma entries_history (hs : list (string * Metadata * string)) (s s' : Store) :
  entries (files s') = entries (files s) ->
  (forall p m b n, entry_at calm (files s) p = Some (m, b, n) -> (p, m, data n) ∈ hs) ->
  forall p m b n, entry_at calm (files s') p = Some (m, b, n) -> (p, m, data n) ∈ hs.
Proof. intros E H p m b n. rewrite <- lookup_entries, E, lookup_entries. apply H. Qed.

Lemma entries_accounted (s s' : Store) :
  entries (files s') = entries (files s) -> controller s' = controller s -> accounted s -> accounted s'.
Proof. unfold accounted, usage_bytes. by intros -> ->. Qed.

(** No flight is concerned. *)
Lemma Inv_keeps (s s' : Store) (fs : gmap nat Flight) (hs : list (string * Metadata * string)) :
  Inv (mkSystem s fs hs) -> store_ok s' -> accounted s' -> root s' = root s ->
  activeTemps s' = activeTemps s -> (is_Some (controller s') -> is_Some (controller s)) ->
  (forall q, foreign q -> q ∈ activeTemps s -> files s' !! q = files s !! q) ->
  (forall p m b n, entry_at calm (files s') p = Some (m, b, n) ->
     exists n', entry_at calm (files s) p = Some (m, b, n') /\ data n' = data n) ->
  Inv (mkSystem s' fs hs).
Proof.
  intros [Iok Ia If Id Ih] Hok Ha Hr Ht Hcn Hq He. cbn in *. split; try done; cbn.
  - intros i fl Hi. apply (flight_ok_frame s); [done|done| |by eapply If].
    intros q Hin Hact. rewrite Ht. split; [done|]. apply Hq; [|done].
    by apply (names_facts s fl q Iok (If i fl Hi)).
  - intros i j fl fl' q Hi Hj Hne. destruct (names_root s s' fl Hr) as (_ & _ & _ & ->).
    destruct (names_root s s' fl' Hr) as (_ & _ & _ & ->). by eapply Id.
  - intros p m b n H. destruct (He _ _ _ _ H) as (n' & H' & <-). by eapply Ih.
Qed.

(** One flight moves on, the names of the others are left alone. *)
Lemma Inv_moves (s s' : Store) (fs : gmap nat Flight) (hs hs' : list (string * Metadata * string))
    (i : nat) (fl' : Flight) :
  Inv (mkSystem s fs hs) -> store_ok s' -> accounted s' -> root s' = root s ->
  (is_Some (controller s') -> is_Some (controller s)) -> flight_ok s' fl' ->
  (forall j fl q, fs !! j = Some fl -> j <> i -> q ∈ names s fl ->
     (q ∉ names s fl') /\ (q ∈ activeTemps s -> q ∈ activeTemps s' /\ files s' !! q = files s !! q)) ->
  (forall p m b n, entry_at calm (files s') p = Some (m, b, n) -> (p, m, data n) ∈ hs') ->
  Inv (mkSystem s' (<[i := fl']> fs) hs').
Proof.
  intros [Iok Ia If Id Ih] Hok Ha Hr Hcn Hfl Hq Hh. cbn in *. split; try done; cbn.
  - intros j fl Hj. apply lookup_insert_Some in Hj as [[<- <-]|[Hne Hj]]; [done|].
    apply (flight_ok_frame s); [done|done| |by eapply If]. intros q Hin.
    by apply (Hq j fl q Hj (not_eq_sym Hne) Hin).
  - intros j k fl1 fl2 q Hj Hk Hne.
    destruct (names_root s s' fl1 Hr) as (_ & _ & _ & ->).
    destruct (names_root s s' fl2 Hr) as (_ & _ & _ & ->).
    apply lookup_insert_Some in Hj as [[<- <-]|[Hij Hj]]; apply lookup_insert_Some in Hk as [Hk|[Hik Hk]].
    + by destruct Hk.
    + intros H1 H2. by destruct (Hq k fl2 q Hk (not_eq_sym Hik) H2).
    + destruct Hk as [<- <-]. intros H1. by apply (Hq j fl1 q Hj (not_eq_sym Hij) H1).
    + by eapply Id.
Qed.

(** The common case: a flight moves on and only a file of its own changed. *)
Lemma Inv_own (s s' : Store) (fs : gmap nat Flight) (hs : list (string * Metadata * string))
    (i : nat) (fl' : Flight) (q0 : string) :
  Inv (mkSystem s fs hs) -> touches q0 s s' -> flight_ok s' fl' ->
  (q0 ∈ names s fl' \/ exists fl, fs !! i = Some fl /\ q0 ∈ names s fl) ->
  (forall q, q ∈ names s fl' ->
     (exists fl, fs !! i = Some fl /\ q ∈ names s fl) \/ (q = q0 /\ q0 ∉ activeTemps s)) ->
  Inv (mkSystem s' (<[i := fl']> fs) hs).
Proof.
  intros HI [Tok [Tr Tc] Tf Tt Te] Hfl Hq0 Hn. pose proof HI as [Iok Ia If Id Ih]. cbn in *.
  eapply Inv_moves; try done; [by eapply entries_accounted|by rewrite Tc| |by eapply entries_history].
  intros j fl1 q Hj Hne Hq.
  assert (forall q', q' ∈ names s fl1 -> q' ∈ names s fl' -> False) as Hdis.
  { intros q' H1 H2. destruct (Hn q' H2) as [(fl & Hi & H3)|[-> H3]]; [by eapply (Id j i)|].
    apply H3. by apply (names_facts s fl1 _ Iok (If j fl1 Hj)). }
  split; [by intros ?; eapply Hdis|]. intros Ha.
  assert (q <> q0) as Hqq.
  { intros ->. destruct Hq0 as [|(fl & Hi & H3)]; [by eapply Hdis|by eapply (Id j i)]. }
  split; [by apply Tt|by apply Tf].
Qed.

Lemma holds_touch (q0 q : string) (s s' : Store) (g : bool) (P : string -> Prop) :
  touches q0 s s' -> q <> q0 -> holds s q g P -> holds s' q g P.
Proof.
  intros [_ _ Tf Tt _] Hq [Ha (n & Hn & Hf & HP)]. split; [by apply Tt|].
  exists n. by rewrite Tf.
Qed.

Lemma holds_weaken (s : Store) (q : string) (g : bool) (P Q : string -> Prop) :
  (forall t, P t -> Q t) -> holds s q g P -> holds s q g Q.
Proof. intros H [Ha (n & Hn & Hf & HP)]. split; [done|]. exists n. eauto. Qed.

(** *** The reservation of a commit *)

(** A body within its reservation that replaces an entry the budget knows is always
    committed, and the budget then counts it. *)
Lemma commit_granted (s : Store) (r : option Storage.Reservation) (written previous : Z) :
  accounted s -> (is_Some (controller s) -> is_Some r) ->
  (forall r0, r = Some r0 -> Storage.once r0 = false /\ written <= Storage.bytes r0) ->
  0 <= written <= maxInt64 -> 0 <= previous <= usage_bytes (files s) ->
  fst (fst (commit_reservation r written previous s)) = true
  /\ forall c, controller (snd (commit_reservation r written previous s)) = Some c ->
       elsewhere + (usage_bytes (files s) - previous + written) <= maxInt64 ->
       elsewhere + (usage_bytes (files s) - previous + written) <= Storage.committedBytes c <= maxInt64.
Proof.
  intros Ha Hsome Hr Hw Hp. unfold commit_reservation. unfold accounted in Ha.
  destruct (controller s) as [c0|] eqn:Hc.
  2: { assert (forall x, controller (snd (true, x : option Storage.Reservation, s)) = None) as E by done.
       destruct r; (split; [done|]); intros c; rewrite E; done. }
  destruct (Hsome ltac:(by eexists)) as [r0 ->]. destruct (Hr r0 eq_refl) as [Ho Hb].
  specialize (Ha c0 eq_refl). pose proof elsewhere_nonneg. unfold Storage.Commit, Storage.commitOnce. rewrite Ho.
  rewrite !(proj2 (Z.leb_le _ _)) by (cbn; lia). cbn. split; [done|].
  intros c [= <-] Husage. cbn. rewrite wrap64_id by int64_lia.
  rewrite Storage.saturatingAdd_spec by int64_lia. int64_lia.
Qed.

Lemma size_at_bound (f : fs) (p : string) : 0 <= size_at f p <= usage_bytes f.
Proof.
  assert (forall k e, entries f !! k = Some e -> 0 <= entry_size e) as Hpos
    by (intros ? [[? ?] ?] _; unfold entry_size, size_of; lia).
  unfold size_at, usage_bytes. rewrite <- lookup_entries. pose proof (map_sum_nonneg _ _ Hpos).
  destruct (entries f !! p) as [e|] eqn:E; [|lia].
  pose proof (map_sum_elem_le _ _ p e Hpos E). specialize (Hpos _ _ E). lia.
Qed.

(** *** The steps of a flight *)

Section Steps.
Context (s : Store) (fs : gmap nat Flight) (hs : list (string * Metadata * string)).
Context (HI : Inv (mkSystem s fs hs)).

Lemma Inv_recounts (s' : Store) : recounts s s' -> Inv (mkSystem s' fs hs).
Proof.
  intros Hr. pose proof HI as [Iok Ia _ _ _]. pose proof (recounts_ok _ _ Hr Iok).
  pose proof (recounts_accounted _ _ Hr Ia). destruct Hr as (c & -> & Hc).
  eapply Inv_keeps; try done; [|by eauto]. cbn. by destruct (controller s), c; try intros [? ?].
Qed.

Context (i : nat) (fl : Flight) (Hi : fs !! i = Some fl).

Lemma own_flight : flight_ok s fl.
Proof. by apply HI with i. Qed.

Lemma own_names (q : string) : q ∈ names s fl -> foreign q /\ q ∈ activeTemps s /\ proper q.
Proof. apply names_facts; [apply HI|apply own_flight]. Qed.

Lemma own_body : body_name s fl ∈ names s fl.
Proof. by left. Qed.

Lemma own_metadata (ms : string) :
  metadata_suffix (fstage fl) = Some ms -> metadata_name s fl ms ∈ names s fl.
Proof. intros E. unfold names. rewrite E. right. by left. Qed.

Lemma body_not_metadata (ms : string) : suffix_ok ms -> body_name s fl <> metadata_name s fl ms.
Proof.
  intros Hms. pose proof HI as [[Kr _ _ _] _ _ _ _]. cbn in Kr.
  rewrite body_name_eq, metadata_name_eq by done. apply temps_differ; [|done]. apply own_flight.
Qed.

Lemma Inv_write (text : string) (now : Time) :
  fstage fl = Streaming -> Inv (mkSystem (write_file (body_name s fl) text now s) fs hs).
Proof.
  intros Hst. destruct (own_names _ own_body) as (Hf & Ha & Hp). pose proof own_flight as Hfl.
  destruct (write_touches (body_name s fl) text now s) as [T H]; [apply HI|done..|].
  assert (<[i := fl]> fs = fs) as <- by by apply insert_id.
  eapply Inv_own; [done|done| |left; apply own_body|eauto].
  destruct Hfl as [H1 H2 H3 H4 H5 Hbu H6]. rewrite Hst in *. split; try (rewrite Hst; done); try done.
  rewrite Hst. by eapply holds_weaken; [|exact H].
Qed.

Lemma Inv_streamed (w : Writer) (cacheFails : string -> string -> bool) (src : Source) (written : Z)
    (k : sink) (now : Time) :
  fstage fl = Streaming -> len (content src) <= maxInt64 ->
  copy_cached w cacheFails (flimit fl) src = (written, None, k) ->
  overflow k = false -> verified (fverify fl) written = true ->
  Inv (mkSystem (write_file (body_name s fl) (cache k) now s)
         (<[i := set_stage (Streamed (cache k)) fl]> fs) hs).
Proof.
  intros Hst Hlen Hcopy Hov Hver. destruct (own_names _ own_body) as (Hf & Ha & Hp).
  pose proof own_flight as [H1 H2 H3 H4 H5 Hbu H6].
  destruct (copy_cached_ok _ _ _ _ _ _ H4 Hlen Hcopy) as (_ & -> & _ & Ho & Hc).
  rewrite Hov in Ho. specialize (Hc Hov).
  destruct (write_touches (body_name s fl) (cache k) now s) as [T H]; [apply HI|done..|].
  eapply Inv_own; [done|done| |left; by left|].
  - split; try done.
    + eapply holds_weaken; [|exact H]. cbn. intros t -> body [= <-]. done.
    + intros _. apply H5. by rewrite Hst.
    + intros _. apply Hbu. by rewrite Hst.
    + intros body [= <-]. rewrite Hc. split; [done|]. split; [done|]. cbn. intros Hl.
      symmetry in Ho. apply andb_false_iff in Ho as [?%Z.leb_gt|?%Z.ltb_ge]; lia.
  - intros q Hq. left. exists fl. split; [done|]. unfold names in *. by rewrite Hst.
Qed.

Lemma Inv_describe (io : oracle) (body ms : string) (now : Time) (s' : Store) :
  fstage fl = Streamed body -> suffix_ok ms -> metadata_name s fl ms ∉ activeTemps s ->
  create_temp io (metadata_name s fl ms) now s = Some s' ->
  Inv (mkSystem s' (<[i := set_stage (Describing body ms) fl]> fs) hs).
Proof.
  intros Hst Hms Hfresh Hc. pose proof own_flight as [H1 H2 H3 H4 H5 Hbu H6].
  pose proof HI as [[Kr _ _ _] _ _ _ _]. cbn in Kr. destruct (dir_of_key s (fkey fl) Kr) as [_ Hd].
  destruct (temp_names _ ms Hd Hms) as (_ & Hp & _ & Hf & _).
  rewrite <- metadata_name_eq in Hp, Hf by done.
  destruct (create_touches _ _ _ _ _ (i_ok _ HI) Hf Hp Hc) as [T H].
  destruct (names_root s s' fl (proj1 (to_same _ _ _ T))) as (Eb & Em & _ & _).
  assert (body_name s fl <> metadata_name s fl ms) as Hne by by apply body_not_metadata.
  eapply Inv_own; [done|done| |left; right; by left|].
  - rewrite Hst in *. split; try done.
    + change (body_name s' (set_stage _ fl)) with (body_name s' fl). rewrite Eb.
      by eapply holds_touch.
    + intros ms' [= <-]. split; [done|].
      change (metadata_name s' (set_stage _ fl) ms) with (metadata_name s' fl ms). by rewrite Em.
    + intros _ Hsome. apply Hbu; [done|]. pose proof (proj2 (to_same _ _ _ T)) as Ec.
      cbn in Ec. by rewrite <- Ec.
  - intros q Hq. apply elem_of_cons in Hq as [->|Hq%list_elem_of_singleton].
    + left. exists fl. split; [done|apply own_body].
    + right. by rewrite Hq.
Qed.

Lemma Inv_write_metadata (body ms text : string) (m : Metadata) (now : Time) :
  fstage fl = Describing body ms -> BodyFile m = Base (generation_of s fl) ->
  ContentBytes m = len body -> unmarshal text = Some m -> len text <= maxMetadataBytes ->
  Inv (mkSystem (write_file (metadata_name s fl ms) text now s)
         (<[i := set_stage (Described body m ms) fl]> fs) hs).
Proof.
  intros Hst Hb Hcb Hu Hlen. pose proof own_flight as [H1 H2 H3 H4 H5 Hbu H6].
  rewrite Hst in *. destruct (H3 ms eq_refl) as [Hms _].
  assert (metadata_name s fl ms ∈ names s fl) as Hin by (apply own_metadata; by rewrite Hst).
  destruct (own_names _ Hin) as (Hf & Ha & Hp).
  destruct (write_touches (metadata_name s fl ms) text now s) as [T H]; [apply HI|done..|].
  assert (body_name s fl <> metadata_name s fl ms) as Hne by by apply body_not_metadata.
  eapply Inv_own; [done|done| |right; by eexists|].
  - split; try done.
    + by eapply holds_touch.
    + intros ms' [= <-]. split; [done|]. eapply holds_weaken; [|exact H].
      intros t ->. unfold describes. by cbn.
  - intros q Hq. left. exists fl. split; [done|]. unfold names in *. by rewrite Hst.
Qed.

(** The flight gives up, whatever it was doing. *)
Lemma Inv_fail :
  is_ending (fstage fl) = false ->
  Inv (mkSystem s
         (<[i := set_stage (Ending false ((fun x => (x, false)) <$> metadata_suffix (fstage fl))) fl]> fs)
         hs).
Proof.
  intros He. pose proof own_flight as [H1 H2 H3 H4 H5 Hbu H6]. pose proof HI as [Iok Ia If Id Ih].
  set (fl' := set_stage _ fl).
  assert (metadata_suffix (fstage fl') = metadata_suffix (fstage fl)) as Em
    by (cbn; by destruct (metadata_suffix (fstage fl))).
  assert (body_gone (fstage fl) = false /\ metadata_gone (fstage fl) = false) as [Eb Eg]
    by (revert He; by destruct (fstage fl)).
  assert (names s fl' = names s fl) as En by (unfold names; rewrite Em; done).
  eapply Inv_moves; try done.
  - split; try done.
    + cbn. rewrite <- Eb. by eapply holds_weaken; [|exact H2].
    + intros ms Hms. rewrite Em in Hms. destruct (H3 ms Hms) as [Hs Hh]. split; [done|].
      cbn. rewrite Hms. cbn. rewrite <- Eg. by eapply holds_weaken; [|exact Hh].
  - intros j fl1 q Hj Hne Hq. rewrite En. split; [|done]. by eapply (Id j i).
Qed.

Lemma Inv_drop_metadata (io : oracle) (kb km : bool) (ms : string) :
  fstage fl = Ending kb (Some (ms, km)) ->
  Inv (mkSystem (drop_temp io km (metadata_name s fl ms) s)
         (<[i := set_stage (Ending kb None) fl]> fs) hs).
Proof.
  intros Hst. pose proof own_flight as [H1 H2 H3 H4 H5 Hbu H6]. rewrite Hst in *.
  destruct (H3 ms eq_refl) as [Hms _].
  assert (metadata_name s fl ms ∈ names s fl) as Hin by (apply own_metadata; by rewrite Hst).
  destruct (own_names _ Hin) as (Hf & Ha & Hp).
  pose proof (drop_touches io km (metadata_name s fl ms) s (i_ok _ HI) Hf) as T.
  assert (body_name s fl <> metadata_name s fl ms) as Hne by by apply body_not_metadata.
  destruct (names_root s _ fl (proj1 (to_same _ _ _ T))) as (Eb & _).
  eapply Inv_own; [done|done| |right; by eexists|].
  - split; try done.
    change (body_name ?x (set_stage _ fl)) with (body_name x fl). rewrite Eb. by eapply holds_touch.
  - intros q Hq%list_elem_of_singleton. left. exists fl. split; [done|]. rewrite Hq. by left.
Qed.

Lemma Inv_close (io : oracle) (kb : bool) :
  fstage fl = Ending kb None ->
  Inv (mkSystem (Release (freservation fl) (drop_temp io kb (body_name s fl) s)) (delete i fs) hs).
Proof.
  intros Hst. destruct (own_names _ own_body) as (Hf & Ha & Hp).
  pose proof HI as [Iok Ia If Id Ih]. cbn in *.
  destruct (drop_touches io kb (body_name s fl) s Iok Hf) as [Tok [Tr Tc] Tf Tt Te].
  set (s1 := drop_temp io kb (body_name s fl) s) in *.
  pose proof (Release_recounts (freservation fl) s1) as R.
  pose proof (recounts_ok _ _ R Tok). assert (accounted s1) by by eapply entries_accounted.
  pose proof (recounts_accounted _ _ R ltac:(done)).
  destruct R as (c & E & Hc). rewrite E in *.
  assert (is_Some c -> is_Some (controller s)) as Hcs
    by (rewrite <- Tc; intros [? ->]; by destruct (controller s1)).
  split; try done; cbn.
  - intros j fl1 [Hne Hj]%lookup_delete_Some. apply (flight_ok_frame s); [done|done| |by eapply If].
    intros q Hq Hact. assert (q <> body_name s fl)
      by (intros ->; by apply (Id j i fl1 fl _ Hj Hi (not_eq_sym Hne) Hq), own_body).
    split; [by apply Tt|by apply Tf].
  - intros j k fl1 fl2 q [_ Hj]%lookup_delete_Some [_ Hk]%lookup_delete_Some Hne.
    destruct (names_root s (set_controller c s1) fl1 Tr) as (_ & _ & _ & ->).
    destruct (names_root s (set_controller c s1) fl2 Tr) as (_ & _ & _ & ->). by eapply Id.
  - by apply (entries_history hs s s1).
Qed.

(** The commit of a flight, on each of its outcomes. *)
Section Commit.
Context (io : oracle) (body ms : string) (m : Metadata) (err : option store_error) (kb km : bool)
        (r : option Storage.Reservation) (s' : Store).
Context (Hst : fstage fl = Described body m ms).
Context (Hio : reads_ok io) (Hsafe : replace_safe io (metadata_name s fl ms) (key_path s (fkey fl))).
Context (Hfresh : fresh_generation (files s) (key_path s (fkey fl)) (generation_of s fl)).
Context (Hcommit : commit io (fst (paths s (fkey fl))) (snd (paths s (fkey fl))) (body_name s fl)
    (metadata_name s fl ms) (generation_of s fl) (StoredAt m) (ContentBytes m)
    (freservation fl) s = (err, kb, km, r, s')).

Lemma commit_outcome :
  exists nb nm, data nb = body /\ is_regular nb = true /\ is_regular nm = true
    /\ describes s fl (data nm)
    /\ committed s s' (shard (root s) (sha256_hex (fkey fl))) (sha256_hex (fkey fl)) (fsuffix fl) ms
         m nb nm (StoredAt m)
         (controller (snd (commit_reservation (freservation fl) (ContentBytes m)
                            (size_at (files s) (key_path s (fkey fl))) s))) err kb km.
Proof.
  pose proof own_flight as [H1 H2 H3 H4 H5 Hbu H6]. rewrite Hst in *.
  pose proof HI as [Iok Ia If Id Ih]. pose proof (ok_root _ Iok) as Kr. cbn in Iok, Ia, If, Id, Ih, Kr.
  pose proof (sha256_hash_ok (fkey fl)) as Hh.
  destruct (generation_of_eq s fl Kr H1) as [Eg Ebg].
  pose proof Hcommit as Hc. pose proof Hfresh as Hf. pose proof Hsafe as Hrs.
  rewrite paths_eq in Hc by done. cbn [fst snd] in Hc.
  destruct H2 as [Hba (nb & Hbr & Hbf & Hbd)]. cbn in Hbf. specialize (Hbd body eq_refl).
  destruct (H3 ms eq_refl) as [Hms [Hma (nm & Hmr & Hmf & Hmd)]]. cbn in Hmf.
  pose proof Hmd as Hmd'. unfold describes in Hmd'. rewrite Hst in Hmd'.
  destruct Hmd' as (Hu & Hml & Hbfile & Hcb).
  rewrite body_name_eq, metadata_name_eq in * by done. rewrite Eg in Hc, Hf.
  exists nb, nm. split_and!; try done. unfold key_path in *.
  set (h := sha256_hex (fkey fl)) in *. set (dir := shard (root s) h) in *.
  assert (ready (files s) dir h (fsuffix fl) ms m nb nm) as Hready.
  { split; try done; [by rewrite Hbfile|]. by rewrite Hcb, <- Hbd. }
  assert (ContentBytes m = size_of nb) as Hsize by apply Hready. rewrite Hsize in Hc |- *.
  destruct (H6 body eq_refl) as (_ & Hmax & Hfit).
  destruct (commit_granted s (freservation fl) (size_of nb) (size_at (files s) (meta_path dir h)))
    as [Hgrant _]; [done|by apply Hbu| | |apply size_at_bound|].
  { intros r0 Hr0. destruct (H5 eq_refl r0 Hr0) as (? & -> & Hl). rewrite <- Hsize, Hcb. auto. }
  { rewrite <- Hsize, Hcb. unfold len in *. lia. }
  pose proof (commit_ok io s h (fsuffix fl) ms m nb nm (StoredAt m) Hio Iok Hh Hready Hf
    (freservation fl) Hrs Hgrant) as Hout.
  fold dir in Hout. rewrite Hc in Hout. by destruct Hout.
Qed.

(** A commit that fails changes no entry and no counter; one that succeeds puts the
    key's entry in place and touches no other. *)
Lemma commit_effect :
  match err with
  | None => kb = true /\ km = true
      /\ entries (files s') = <[key_path s (fkey fl) :=
            (m, generation_of s fl, mkNode Regular body (StoredAt m))]> (entries (files s))
  | Some _ => entries (files s') = entries (files s) /\ bytes s' = bytes s /\ objects s' = objects s
      /\ controller s' = controller s
  end.
Proof.
  destruct commit_outcome as (nb & nm & Hb & _ & _ & _ & C).
  destruct (generation_of_eq s fl) as [-> _]; [apply (i_ok _ HI)|apply own_flight|].
  pose proof (c_entries _ _ _ _ _ _ _ _ _ _ _ _ _ _ C) as Ce.
  pose proof (c_controller _ _ _ _ _ _ _ _ _ _ _ _ _ _ C) as Cc.
  destruct err as [e|]; [by split_and!; try apply Ce|]. by rewrite <- Hb.
Qed.

Lemma commit_usage :
  usage_bytes (files s') = match err with
    | None => usage_bytes (files s) - size_at (files s) (key_path s (fkey fl)) + ContentBytes m
    | Some _ => usage_bytes (files s)
    end.
Proof.
  pose proof commit_effect as Ce. pose proof commit_outcome as Hout. destruct err as [e|].
  - destruct Ce as (Ce & _). unfold usage_bytes. by rewrite Ce.
  - destruct Hout as (nb & nm & Hb & _ & _ & Hdesc & _).
    unfold describes in Hdesc. rewrite Hst in Hdesc. destruct Hdesc as (_ & _ & _ & Hcb).
    destruct Ce as (_ & _ & Ce). set (p := key_path s (fkey fl)) in *.
    set (nb' := mkNode Regular body (StoredAt m)) in *.
    assert (entry_at calm (files s') p = Some (m, generation_of s fl, nb')) as He
      by (rewrite <- lookup_entries, Ce; apply lookup_insert_eq).
    destruct (usage_change (files s) (files s') p) as [-> _]; [rewrite Ce, He; done|].
    f_equal. unfold size_at. by rewrite He, Hcb.
Qed.

Lemma commit_accounted : elsewhere + usage_bytes (files s') <= maxInt64 -> accounted s'.
Proof.
  rewrite commit_usage. intros Husage c Ec. rewrite commit_usage. pose proof HI as [Iok Ia If Id Ih].
  cbn in Iok, Ia. pose proof own_flight as [H1 H2 H3 H4 H5 Hbu H6]. rewrite Hst in *.
  destruct commit_outcome as (nb & nm & Hb & _ & _ & Hdesc & C).
  unfold describes in Hdesc. rewrite Hst in Hdesc. destruct Hdesc as (_ & _ & _ & Hcb).
  pose proof (c_controller _ _ _ _ _ _ _ _ _ _ _ _ _ _ C) as Cc.
  rewrite Ec in Cc. destruct err as [e|]; [by apply Ia|].
  destruct (H6 body eq_refl) as (_ & Hmax & Hfit).
  destruct (commit_granted s (freservation fl) (ContentBytes m)
    (size_at (files s) (key_path s (fkey fl)))) as [_ Hspent]; [done|by apply Hbu| | |apply size_at_bound|].
  - intros r0 Hr0. destruct (H5 eq_refl r0 Hr0) as (? & -> & Hl). rewrite Hcb. auto.
  - rewrite Hcb. unfold len in *. lia.
  - by apply Hspent.
Qed.

Lemma Inv_commit :
  elsewhere + usage_bytes (files s') <= maxInt64 ->
  Inv (mkSystem s' (<[i := set_reservation r (set_stage (Ending kb (Some (ms, km))) fl)]> fs)
         (match err with None => (key_path s (fkey fl), m, body) :: hs | Some _ => hs end)).
Proof.
  intros Husage. pose proof HI as [Iok Ia If Id Ih]. pose proof (ok_root _ Iok) as Kr.
  cbn in Iok, Ia, If, Id, Ih, Kr. pose proof own_flight as [H1 H2 H3 H4 H5 Hbu H6]. rewrite Hst in *.
  pose proof (commit_accounted Husage) as Hacc. pose proof commit_effect as He.
  destruct commit_outcome as (nb & nm & Hb & Hbr & Hmr & _ & [Cok [Crt Cact] Cfor Cb Cm _ Cc]).
  rewrite <- (body_name_eq s fl), <- (metadata_name_eq s fl) in * by done.
  set (fl' := set_reservation r _).
  assert (names s fl' = names s fl) as En by (unfold names; by rewrite Hst).
  destruct (names_root s s' fl' Crt) as (Enb & Enm & _).
  destruct (H3 ms eq_refl) as [Hms [Hma _]]. destruct H2 as [Hba _].
  eapply Inv_moves; try done.
  - rewrite Cc. destruct err; [done|]. intros [c Ec]. revert Ec. unfold commit_reservation.
    destruct (controller s) eqn:Ecs; [by eexists|]. destruct (freservation fl); cbn; congruence.
  - split; try done; cbn.
    + rewrite Enb. split; [by rewrite Cact|]. exists nb. by destruct kb.
    + intros ms' [= <-]. split; [done|]. rewrite Enm. split; [by rewrite Cact|].
      exists nm. by destruct km.
  - intros j fl1 q Hj Hne Hq. rewrite En.
    assert (q ∉ names s fl) as Hq' by by eapply (Id j i).
    split; [done|]. intros Hact. rewrite Cact. split; [done|].
    unfold names in Hq'. rewrite Hst in Hq'. cbn in Hq'.
    apply Cfor; [by apply (names_facts s fl1 q Iok (If j fl1 Hj))| |]; intros ->; apply Hq'; set_solver.
  - destruct err as [e|]; [by eapply entries_history; [apply He|]|]. destruct He as (_ & _ & He).
    intros p m1 b1 n1. rewrite <- lookup_entries, He, lookup_insert_Some, lookup_entries.
    intros [[<- E]|[_ E]]; [|right; by eapply Ih]. simplify_eq. cbn. by left.
Qed.
End Commit.

End Steps.

Lemma Inv_open (s : Store) (fs : gmap nat Flight) (hs : list (string * Metadata * string)) (i : nat)
    (io : oracle) (header : Header) (free : option Z) (r : option Storage.Reservation) (n : Z)
    (s1 s2 : Store) (key suffix : string) (verify : option (Z -> bool)) (now : Time) :
  let fl := mkFlight key suffix r (if is_Some_b (controller s) then n else -1) verify Streaming in
  Inv (mkSystem s fs hs) -> admitPut s header free = (Granted r n, s1) ->
  fs !! i = None -> suffix_ok suffix -> body_name s fl ∉ activeTemps s ->
  create_temp io (body_name s fl) now s1 = Some s2 ->
  Inv (mkSystem s2 (<[i := fl]> fs) hs).
Proof.
  intros fl HI Ha Hi Hs Hfresh Hc. pose proof (admit_recounts s header free) as R. rewrite Ha in R.
  cbn [snd] in R. pose proof (Inv_recounts _ _ _ HI _ R) as HI1.
  assert (root s1 = root s /\ activeTemps s1 = activeTemps s) as [Er Et] by by destruct R as (c & -> & _).
  destruct (names_root s s1 fl Er) as (Eb & _). rewrite <- Eb in Hc, Hfresh. rewrite <- Et in Hfresh.
  pose proof (ok_root _ (i_ok _ HI1)) as Kr. cbn in Kr.
  destruct (dir_of_key s1 key Kr) as [_ Hd]. destruct (temp_names _ suffix Hd Hs) as (Hp & _ & Hf & _).
  change suffix with (fsuffix fl) in Hp, Hf. change key with (fkey fl) in Hp, Hf.
  rewrite <- body_name_eq in Hp, Hf by done.
  destruct (create_touches _ _ _ _ _ (i_ok _ HI1) Hf Hp Hc) as [T H].
  destruct (names_root s1 s2 fl (proj1 (to_same _ _ _ T))) as (Eb2 & _).
  destruct (admit_granted _ _ _ _ _ _ Ha) as (Hlim & Hsome & Hr).
  eapply Inv_own; [done|done| |left; by left|].
  - split; try done.
    + rewrite Eb2. by eapply holds_weaken; [|exact H].
    + intros _ H2. apply Hsome. rewrite (proj2 (to_same _ _ _ T)) in H2.
      destruct R as (c & -> & Hc'). cbn in H2. destruct H2 as [c2 ->].
      by destruct (controller s).
  - intros q ->%list_elem_of_singleton. by right.
Qed.

End StoreSystem.
