(* ===== verification/StoreSafety.v ===== *)
(** * What the cache store guarantees under concurrency

    Every step of the system preserves the invariant of [StoreSystem], and what
    follows for the counters, for hits and for the files of puts in flight. *)

From S2P Require Import Prelude GoStrings FilePath Sha256 Http HttpPolicy Time Metadata Fs Store StoreFacts StoreOps StorePut StoreStream StoreSystem.
From S2P Require Storage.
From Stdlib Require Import Ascii String.
Local Open Scope string_scope.
Local Open Scope Z_scope.

Section StoreSafety.
Context {codec : MetadataCodec} {company : Elsewhere}.

(** ** Operations that concern no put *)

Lemma usage_subset (f f' : fs) : entries f' ⊆ entries f -> usage_bytes f' <= usage_bytes f.
Proof.
  intros H. apply map_sum_subseteq; [|done].
  intros k [[m b] n] _. unfold entry_size, size_of. lia.
Qed.

Lemma Inv_trims (s s' : Store) (fs : gmap nat Flight) (hs : list (string * Metadata * string)) :
  Inv (mkSystem s fs hs) -> store_ok s' -> trims s s' -> Inv (mkSystem s' fs hs).
Proof.
  intros HI Hok [Hr Hc Ht Hf _ He]. pose proof (i_accounted _ HI) as Ha. cbn in Ha.
  eapply Inv_keeps; try done.
  - intros c Ec. rewrite Hc in Ec. pose proof (usage_subset _ _ He). specialize (Ha c Ec). lia.
  - by rewrite Hc.
  - intros q Hq _. by apply Hf.
  - intros p m b n Hp. exists n. split; [|done]. rewrite <- lookup_entries in *.
    by eapply lookup_weaken.
Qed.

Lemma Inv_cleans (cutoff : Time) (s s' : Store) (fs : gmap nat Flight)
    (hs : list (string * Metadata * string)) :
  Inv (mkSystem s fs hs) -> store_ok s' -> cleans cutoff s s' -> Inv (mkSystem s' fs hs).
Proof.
  intros HI Hok [(Hr & Hc & Ht & _) Hf He]. pose proof (i_accounted _ HI) as Ha. cbn in Ha.
  eapply Inv_keeps; try done.
  - by eapply entries_accounted.
  - by rewrite Hc.
  - intros q _ Hq. destruct (Hf q) as [|[(_ & Hn & _) _]]; done.
  - intros p m b n. rewrite <- !lookup_entries, He. eauto.
Qed.

Lemma Lookup_foreign (io : oracle) (now : Time) (s : Store) (key : string) (ttl : Z) (q : string) :
  reads_ok io -> store_ok s -> foreign q ->
  files (snd (Lookup io now s key ttl)) !! q = files s !! q.
Proof.
  intros Hio Hok Hq.
  destruct (Lookup_cases io now s key ttl Hio Hok) as [[-> _]|(m & b & n & He & _ & ->)]; [done|].
  cbn [snd files set_files].
  destruct (entry_at_inv _ _ _ _ _ (key_path_proper s key (ok_root _ Hok)) He)
    as (dir & h & rest & (Hd & Hh & _) & Hr & ->).
  unfold Chtimes, guard_call. destruct (io CChtimes _); [|done].
  destruct (files s !! body_path dir h rest); [|done]. cbn [ignore_error].
  apply lookup_insert_ne. intros <-. apply (Hq dir h Hd Hh). right. eauto.
Qed.

Lemma Inv_lookup (io : oracle) (now : Time) (s : Store) (key : string) (ttl : Z)
    (fs : gmap nat Flight) (hs : list (string * Metadata * string)) :
  reads_ok io -> Inv (mkSystem s fs hs) -> Inv (mkSystem (snd (Lookup io now s key ttl)) fs hs).
Proof.
  intros Hio HI. pose proof (i_ok _ HI) as Hok. pose proof (i_accounted _ HI) as Ha. cbn in Hok, Ha.
  destruct (Lookup_ok io now s key ttl Hio Hok) as (Hok' & E & Hsame).
  set (s' := snd (Lookup io now s key ttl)) in *. eapply Inv_keeps; try done.
  - intros c Ec. destruct (same_data_usage _ _ Hsame) as [<- _]. apply Ha. rewrite E in Ec. done.
  - by rewrite E.
  - by rewrite E.
  - by rewrite E.
  - intros q Hq _. by apply Lookup_foreign.
  - intros p m b n Hp. destruct (same_data_entry _ _ _ _ _ _ (same_data_sym _ _ Hsame) Hp)
      as (n' & Hn' & Hd). eauto.
Qed.

Lemma reconciled_ok (io : oracle) (w : Walk) (s : Store) :
  reads_ok io -> full_walk w s -> store_ok s ->
  store_ok (snd (Reconcile io w s)) /\ files (snd (Reconcile io w s)) = files s.
Proof. intros Hio Hw [Hr Hf He Ht]. rewrite Reconcile_exact by done. by split. Qed.

(** A store opened on the files of another, whatever its counters were. *)
Lemma New_ok (io : oracle) (w : Walk) (s s' : Store) :
  reads_ok io -> full_walk w s -> store_ok s -> New io w (root s) (files s) = Some s' ->
  store_ok s' /\ files s' = files s /\ root s' = root s /\ controller s' = None /\ activeTemps s' = ∅.
Proof.
  intros Hio Hw [Hr Hf He Ht]. unfold New. destruct (io CMkdirAll (root s)); [|done]. cbn [negb].
  rewrite Reconcile_exact by done. by intros [= <-].
Qed.

(** ** Every step preserves the invariant *)

Lemma Inv_initial (y : System) : initial y -> Inv y.
Proof.
  destruct y as [s fs hs]. intros (Hok & Ha & Hf & Hh). cbn in *. subst fs. split; try done; cbn.
Qed.

Lemma Inv_step (y y' : System) : Inv y -> step y y' -> Inv y'.
Proof.
  intros HI Hstep. destruct Hstep.
  - pose proof (admit_recounts s header free) as R. rewrite H in R. by eapply Inv_recounts.
  - pose proof (admit_recounts s header free) as R. rewrite H in R.
    eapply Inv_recounts; [|apply Release_recounts]. by eapply Inv_recounts.
  - by eapply Inv_open.
  - by eapply Inv_write.
  - by eapply Inv_streamed.
  - assert (Inv (mkSystem (RecordBypass written s) fs hs)) as HI'
      by (eapply Inv_recounts; [done|apply RecordBypass_recounts]).
    pose proof (Inv_fail _ _ _ HI' i fl H) as Hf. rewrite H0 in Hf. by apply Hf.
  - by eapply Inv_describe.
  - destruct (codec_roundtrip m ltac:(done)) as (text' & E & Hu).
    assert (text' = text) as -> by congruence. by eapply Inv_write_metadata.
  - by eapply Inv_commit.
  - by eapply Inv_fail.
  - by eapply Inv_drop_metadata.
  - by eapply Inv_close.
  - by apply Inv_lookup.
  - destruct (GC_ok io now w s maxAge) as [? ?]; [done|apply HI|done|]. by eapply Inv_trims.
  - destruct (CleanupStaleTemps_ok io now w s maxAge) as [? ?]; [apply HI|done|]. by eapply Inv_cleans.
  - destruct (RemoveCandidate_ok io s c) as [? ?]; [done|apply HI|done|]. by eapply Inv_trims.
  - destruct (reconciled_ok io w s) as [Hok Hf]; [done|done|apply HI|].
    pose proof (i_accounted _ HI) as Ha. cbn in Ha. rewrite Reconcile_exact in * by done. cbn in *.
    eapply Inv_keeps; try done. eauto.
  - assert (Inv (mkSystem s fs hs)) as HI' by done. destruct HI' as [Iok Ia If Id Ih]. cbn in *.
    split; try done; cbn; [by apply store_ok_controller|].
    intros i fl Hi. destruct (controller s) eqn:Ec; [|rewrite H0 in Hi by done; done].
    apply (flight_ok_frame s); [done|by eexists|done|by eapply If].
  - destruct (New_ok io w s s') as (Hok & Hf & Hr & Hc & Ht); [done|done|apply HI|done|].
    pose proof (i_history _ HI) as Ih. cbn in Ih.
    split; try done; cbn; [intros c Ec; congruence|]. by rewrite Hf.
Qed.

Lemma Inv_reachable (y0 y : System) : initial y0 -> reachable y0 y -> Inv y.
Proof. intros H0. induction 1; [by apply Inv_initial|]. by eapply Inv_step. Qed.

End StoreSafety.
