(* ===== verification/StoreRuns.v ===== *)
(** * A put is a run of the system

    [PutStreamVerified], taken as one call, is a sequence of steps of [StoreSystem] on
    each of its paths, and what it returns tells what became of the store. *)

From S2P Require Import Prelude GoStrings FilePath Sha256 Http HttpPolicy Time Metadata Fs Store StoreFacts StoreOps StorePut StoreStream StoreSystem StoreSafety.
From S2P Require Storage.
From Stdlib Require Import Ascii String.
Local Open Scope string_scope.
Local Open Scope Z_scope.

Section StoreRuns.
Context {codec : MetadataCodec} {company : Elsewhere}.

(** ** Steps that change no entry *)

(** Some steps that leave the files of all entries as they are. *)
Record quiet (y y' : System) : Prop := {
  q_inv : Inv y';
  q_steps : rtc step y y';
  q_root : root (store y') = root (store y);
  q_files : forall q d h, clean_dir d -> hash_ok h -> belongs q d h ->
    files (store y') !! q = files (store y) !! q;
  q_entries : entries (files (store y')) = entries (files (store y));
  q_history : history y' = history y
}.

Lemma quiet_refl (y : System) : Inv y -> quiet y y.
Proof. intros HI. by split. Qed.

Lemma quiet_trans (y1 y2 y3 : System) : quiet y1 y2 -> quiet y2 y3 -> quiet y1 y3.
Proof.
  intros [_ S1 R1 F1 E1 H1] [I2 S2 R2 F2 E2 H2]. split; [done|by etrans|congruence| |congruence|congruence].
  intros q d h Hd Hh Hb. rewrite (F2 q d h) by done. by apply (F1 q d h).
Qed.

Lemma quiet_step (s s' : Store) (fs fs' : gmap nat Flight) (hs : list (string * Metadata * string)) :
  Inv (mkSystem s fs hs) -> step (mkSystem s fs hs) (mkSystem s' fs' hs) ->
  root s' = root s -> files s' = files s -> quiet (mkSystem s fs hs) (mkSystem s' fs' hs).
Proof.
  intros HI Hs Hr Hf. split; cbn; try done; [by eapply Inv_step|by apply rtc_once| |by rewrite Hf].
  intros; by rewrite Hf.
Qed.

Lemma quiet_touch (s s' : Store) (fs fs' : gmap nat Flight) (hs : list (string * Metadata * string))
    (q0 : string) :
  Inv (mkSystem s fs hs) -> step (mkSystem s fs hs) (mkSystem s' fs' hs) ->
  touches q0 s s' -> foreign q0 -> quiet (mkSystem s fs hs) (mkSystem s' fs' hs).
Proof.
  intros HI Hs [_ [Tr _] Tf _ Te] Hfor.
  split; cbn; try done; [by eapply Inv_step|by apply rtc_once|].
  intros q d h Hd Hh Hb. apply Tf. intros ->. by apply (Hfor d h).
Qed.

(** A generation that was fresh stays so. *)
Lemma quiet_fresh (y y' : System) (dir h suffix : string) :
  quiet y y' -> clean_dir dir -> hash_ok h -> suffix_ok suffix ->
  fresh_generation (files (store y)) (meta_path dir h) (generation_name dir h suffix) ->
  fresh_generation (files (store y')) (meta_path dir h) (generation_name dir h suffix).
Proof.
  intros [_ _ _ F _ _] Hd Hh Hs [H1 H2]. split.
  - rewrite (F _ dir h) by (done || by apply gen_belongs). done.
  - intros legacy m b Hm. apply H2. revert Hm. unfold readMetadata, Open, existing.
    by rewrite (F _ dir h) by (done || apply meta_belongs).
Qed.

(** What quiet steps leave to a flight: the generation it will commit, and the room. *)
Lemma quiet_generation (y y' : System) (fl : Flight) :
  Inv y -> quiet y y' -> suffix_ok (fsuffix fl) ->
  fresh_generation (files (store y)) (key_path (store y) (fkey fl)) (generation_of (store y) fl) ->
  fresh_generation (files (store y')) (key_path (store y) (fkey fl)) (generation_of (store y) fl).
Proof.
  intros HI Q Hs. pose proof (ok_root _ (i_ok _ HI)) as Kr. destruct (generation_of_eq (store y) fl Kr Hs) as [-> _].
  apply (quiet_fresh _ _ _ _ _ Q); [|apply sha256_hash_ok|done]. apply shard_clean; [done|apply sha256_hash_ok].
Qed.

Lemma quiet_usage (y y' : System) : quiet y y' -> usage_bytes (files (store y')) = usage_bytes (files (store y)).
Proof. intros Q. unfold usage_bytes. by rewrite (q_entries _ _ Q). Qed.

(** *** The quiet steps of one flight *)

Section Flight.
Context (s : Store) (fs : gmap nat Flight) (hs : list (string * Metadata * string)).
Context (i : nat) (fl : Flight).
Context (HI : Inv (mkSystem s (<[i := fl]> fs) hs)).

Let here (st : Stage) := mkSystem s (<[i := set_stage st fl]> fs) hs.

Lemma at_i : (<[i := fl]> fs) !! i = Some fl.
Proof. apply lookup_insert_eq. Qed.

Lemma over_i (st : Stage) : <[i := set_stage st fl]> fs = <[i := set_stage st fl]> (<[i := fl]> fs).
Proof. symmetry. apply insert_insert_eq. Qed.

Lemma flight_here : flight_ok s fl.
Proof. eapply own_flight; [done|apply at_i]. Qed.

Lemma body_here : foreign (body_name s fl) /\ body_name s fl ∈ activeTemps s /\ proper (body_name s fl).
Proof. apply (names_facts s fl); [apply HI|apply flight_here|by left]. Qed.

Lemma metadata_here (ms : string) : metadata_suffix (fstage fl) = Some ms ->
  foreign (metadata_name s fl ms) /\ metadata_name s fl ms ∈ activeTemps s /\ proper (metadata_name s fl ms).
Proof.
  intros Hms. apply (names_facts s fl); [apply HI|apply flight_here|].
  unfold names. rewrite Hms. right. by left.
Qed.

Lemma quiet_write (text : string) (now : Time) :
  fstage fl = Streaming ->
  quiet (mkSystem s (<[i := fl]> fs) hs)
    (mkSystem (write_file (body_name s fl) text now s) (<[i := fl]> fs) hs).
Proof.
  intros Hst. destruct body_here as (Hf & Ha & Hp).
  eapply quiet_touch; [done|eapply step_write; [apply at_i|done]|apply write_touches; [apply HI|done..]|done].
Qed.

Lemma quiet_fail :
  is_ending (fstage fl) = false ->
  quiet (mkSystem s (<[i := fl]> fs) hs)
    (mkSystem s (<[i := set_stage (Ending false ((fun x => (x, false)) <$> metadata_suffix (fstage fl))) fl]> fs) hs).
Proof.
  intros Hst. apply quiet_step; [done| |done|done].
  rewrite over_i. by eapply step_fail; [apply at_i|].
Qed.

Lemma quiet_drop (io : oracle) (kb km : bool) (ms : string) :
  fstage fl = Ending kb (Some (ms, km)) ->
  quiet (mkSystem s (<[i := fl]> fs) hs)
    (mkSystem (drop_temp io km (metadata_name s fl ms) s) (<[i := set_stage (Ending kb None) fl]> fs) hs).
Proof.
  intros Hst. destruct (metadata_here ms) as (Hf & _); [by rewrite Hst|].
  eapply quiet_touch; [done| |apply drop_touches; [apply HI|done]|done].
  rewrite over_i. by eapply step_drop_metadata; [apply at_i|].
Qed.

Lemma quiet_describe (io : oracle) (body ms : string) (now : Time) (s' : Store) :
  fstage fl = Streamed body -> suffix_ok ms -> files s !! metadata_name s fl ms = None ->
  metadata_name s fl ms ∉ activeTemps s -> create_temp io (metadata_name s fl ms) now s = Some s' ->
  quiet (mkSystem s (<[i := fl]> fs) hs)
    (mkSystem s' (<[i := set_stage (Describing body ms) fl]> fs) hs).
Proof.
  intros Hst Hms Hn Ha Hc. pose proof (ok_root _ (i_ok _ HI)) as Kr. cbn in Kr.
  destruct (dir_of_key s (fkey fl) Kr) as [_ Hd].
  destruct (temp_names _ ms Hd Hms) as (_ & Hp & _ & Hf & _).
  rewrite <- metadata_name_eq in Hp, Hf by done.
  destruct (create_touches _ _ _ _ _ (i_ok _ HI) Hf Hp Hc) as [T _].
  eapply quiet_touch; [done| |exact T|done].
  rewrite over_i. by eapply step_describe; [apply at_i|..].
Qed.

Lemma quiet_write_metadata (body ms : string) (m0 : Metadata) (order : list (string * list string))
    (now : Time) (text : string) :
  fstage fl = Describing body ms ->
  let m := stored_metadata m0 order now (len body) (generation_of s fl) in
  representable m -> marshal m = Some text -> len text <= maxMetadataBytes ->
  quiet (mkSystem s (<[i := fl]> fs) hs)
    (mkSystem (write_file (metadata_name s fl ms) text now s)
       (<[i := set_stage (Described body m ms) fl]> fs) hs).
Proof.
  intros Hst m Hr Hm Hl. destruct (metadata_here ms) as (Hf & Ha & Hp); [by rewrite Hst|].
  eapply quiet_touch; [done| |apply write_touches; [apply HI|done..]|done].
  rewrite over_i. by eapply step_write_metadata; [apply at_i|..].
Qed.

End Flight.

(** A failure once the metadata file exists, and the deferred functions that remove it. *)
Lemma quiet_fail_drop (s : Store) (fs : gmap nat Flight) (hs : list (string * Metadata * string))
    (i : nat) (fl : Flight) (io : oracle) (ms : string) :
  Inv (mkSystem s (<[i := fl]> fs) hs) ->
  is_ending (fstage fl) = false -> metadata_suffix (fstage fl) = Some ms ->
  quiet (mkSystem s (<[i := fl]> fs) hs)
    (mkSystem (drop_temp io false (metadata_name s fl ms) s)
       (<[i := set_stage (Ending false None) fl]> fs) hs).
Proof.
  intros HI Hst Hms. pose proof (quiet_fail s fs hs i fl HI Hst) as Q. rewrite Hms in Q. cbn in Q.
  eapply quiet_trans; [exact Q|]. destruct Q as [HI' _ _ _ _ _].
  by apply (quiet_drop s fs hs i _ HI' io false false ms).
Qed.

(** ** What a put leaves *)

(** Steps that leave the entries as they are, or commit the one entry given. *)
Record lands (y y' : System) (path : string) (m : Metadata) (gen body : string) (stored : bool) : Prop := {
  l_inv : Inv y';
  l_steps : rtc step y y';
  l_root : root (store y') = root (store y);
  l_history : history y' = if stored then (path, m, body) :: history y else history y;
  l_entries : entries (files (store y'))
    = if stored then <[path := (m, gen, mkNode Regular body (StoredAt m))]> (entries (files (store y)))
      else entries (files (store y))
}.

Lemma quiet_lands (y1 y2 y3 : System) (path : string) (m : Metadata) (gen body : string) (stored : bool) :
  quiet y1 y2 -> lands y2 y3 path m gen body stored -> lands y1 y3 path m gen body stored.
Proof.
  intros [_ S1 R1 _ E1 H1] [I2 S2 R2 H2 E2]. split; [done|by etrans|congruence|by rewrite <- H1|by rewrite <- E1].
Qed.

Lemma lands_quiet (y1 y2 y3 : System) (path : string) (m : Metadata) (gen body : string) (stored : bool) :
  lands y1 y2 path m gen body stored -> quiet y2 y3 -> lands y1 y3 path m gen body stored.
Proof.
  intros [I1 S1 R1 H1 E1] [I2 S2 R2 _ E2 H2]. split; [done|by etrans|congruence..].
Qed.

Lemma quiet_only (y y' : System) (path : string) (m : Metadata) (gen body : string) :
  quiet y y' -> lands y y' path m gen body false.
Proof. by intros [? ? ? _ ? ?]. Qed.

Lemma set_reservation_same (fl : Flight) (st : Stage) :
  set_reservation (freservation fl) (set_stage st fl) = set_stage st fl.
Proof. by destruct fl. Qed.

Lemma commit_lands (s : Store) (fs : gmap nat Flight) (hs : list (string * Metadata * string))
    (i : nat) (fl : Flight) (io : oracle) (body ms : string) (m : Metadata) (err : option store_error)
    (kb km : bool) (r : option Storage.Reservation) (s' : Store) :
  let path := key_path s (fkey fl) in
  Inv (mkSystem s (<[i := fl]> fs) hs) -> fstage fl = Described body m ms ->
  reads_ok io -> replace_safe io (metadata_name s fl ms) path ->
  fresh_generation (files s) path (generation_of s fl) ->
  commit io (fst (paths s (fkey fl))) (snd (paths s (fkey fl))) (body_name s fl)
    (metadata_name s fl ms) (generation_of s fl) (StoredAt m) (ContentBytes m)
    (freservation fl) s = (err, kb, km, r, s') ->
  elsewhere + usage_bytes (files s) + ContentBytes m <= maxInt64 ->
  lands (mkSystem s (<[i := fl]> fs) hs)
    (mkSystem s' (<[i := set_reservation r (set_stage (Ending kb (Some (ms, km))) fl)]> fs)
       (match err with None => (path, m, body) :: hs | Some _ => hs end))
    path m (generation_of s fl) body (negb (is_Some_b err)).
Proof.
  intros path HI Hst Hio Hsafe Hfresh Hc Hroom. pose proof (at_i fs i fl) as Hi.
  pose proof (commit_effect s _ hs HI i fl Hi io body ms m err kb km r s' Hst Hio Hsafe Hfresh Hc) as He.
  destruct (commit_outcome s _ hs HI i fl Hi io body ms m err kb km r s' Hst Hio Hsafe Hfresh Hc)
    as (nb & nm' & _ & _ & _ & _ & C).
  assert (elsewhere + usage_bytes (files s') <= maxInt64) as Hu.
  { rewrite (commit_usage s _ hs HI i fl Hi io body ms m err kb km r s' Hst Hio Hsafe Hfresh Hc).
    pose proof (size_at_bound (files s) (key_path s (fkey fl))). destruct err; [|lia].
    pose proof (flight_here _ _ _ _ _ HI) as Hfl. destruct (fo_metadata _ _ Hfl ms) as [_ [_ (nm & _ & _ & Hd)]];
      [by rewrite Hst|]. unfold describes in Hd. rewrite Hst in Hd. destruct Hd as (_ & _ & _ & Hcb).
    unfold len in Hcb. lia. }
  pose proof (Inv_commit s _ hs HI i fl Hi io body ms m err kb km r s' Hst Hio Hsafe Hfresh Hc Hu) as HI'.
  pose proof (step_commit s _ hs i fl io body m ms err kb km r s' Hi Hst Hio Hsafe Hfresh Hc Hu) as Hstep.
  rewrite insert_insert_eq in HI', Hstep.
  split; cbn; [done|by apply rtc_once|by apply (c_same _ _ _ _ _ _ _ _ _ _ _ _ _ _ C)|by destruct err|].
  destruct err as [e|]; cbn; apply He.
Qed.

(** The same with the deferred removal of the metadata file. *)
Lemma commit_dropped (s : Store) (fs : gmap nat Flight) (hs : list (string * Metadata * string))
    (i : nat) (fl : Flight) (io : oracle) (body ms : string) (m : Metadata) (err : option store_error)
    (kb km : bool) (r : option Storage.Reservation) (s' : Store) :
  let path := key_path s (fkey fl) in
  Inv (mkSystem s (<[i := fl]> fs) hs) -> fstage fl = Described body m ms ->
  reads_ok io -> replace_safe io (metadata_name s fl ms) path ->
  fresh_generation (files s) path (generation_of s fl) ->
  commit io (fst (paths s (fkey fl))) (snd (paths s (fkey fl))) (body_name s fl)
    (metadata_name s fl ms) (generation_of s fl) (StoredAt m) (ContentBytes m)
    (freservation fl) s = (err, kb, km, r, s') ->
  elsewhere + usage_bytes (files s) + ContentBytes m <= maxInt64 ->
  exists hs', lands (mkSystem s (<[i := fl]> fs) hs)
    (mkSystem (drop_temp io km (metadata_name s fl ms) s')
       (<[i := set_reservation r (set_stage (Ending kb None) fl)]> fs) hs')
    path m (generation_of s fl) body (negb (is_Some_b err)).
Proof.
  intros path HI Hst Hio Hsafe Hfresh Hc Hroom.
  pose proof (commit_lands s fs hs i fl io body ms m err kb km r s' HI Hst Hio Hsafe Hfresh Hc Hroom) as L.
  eexists. eapply lands_quiet; [exact L|].
  pose proof (quiet_drop s' fs _ i _ (l_inv _ _ _ _ _ _ _ L) io kb km ms eq_refl) as D.
  destruct (names_root s s' fl (l_root _ _ _ _ _ _ _ L)) as (_ & En & _).
  change (metadata_name s' _ ms) with (metadata_name s' fl ms) in D. rewrite En in D. exact D.
Qed.

(** *** From the streamed body to the commit *)

Section Metadata.
Context (env : PutEnv) (s : Store) (fs : gmap nat Flight) (hs : list (string * Metadata * string)).
Context (i : nat) (fl : Flight) (body text : string) (m0 : Metadata) (order : list (string * list string)).
Context (HI : Inv (mkSystem s (<[i := fl]> fs) hs)) (Hst : fstage fl = Streamed body).

Let ms := metadataSuffix env.
Let m := stored_metadata m0 order (clock env) (len body) (generation_of s fl).
Let path := key_path s (fkey fl).

Context (Hreads : reads_ok (io env)) (Hms : suffix_ok ms).
Context (Hnew : files s !! metadata_name s fl ms = None) (Hfree : metadata_name s fl ms ∉ activeTemps s).
Context (Hsafe : replace_safe (io env) (metadata_name s fl ms) path).
Context (Hfresh : fresh_generation (files s) path (generation_of s fl)).
Context (Hrep : representable m) (Htext : marshal m = Some text) (Hlen : len text <= maxMetadataBytes).
Context (Hroom : elsewhere + usage_bytes (files s) + len body <= maxInt64).

Lemma put_metadata_run (err : option store_error) (kb : bool) (r : option Storage.Reservation) (s' : Store) :
  put_metadata env (fst (paths s (fkey fl))) (snd (paths s (fkey fl))) (body_name s fl)
    (generation_of s fl) (clock env) (len body) text (freservation fl) s = (err, kb, r, s') ->
  exists hs', lands (mkSystem s (<[i := fl]> fs) hs)
    (mkSystem s' (<[i := set_reservation r (set_stage (Ending kb None) fl)]> fs) hs')
    path m (generation_of s fl) body (negb (is_Some_b err)).
Proof.
  unfold put_metadata. change (metadata_temp _ _) with (metadata_name s fl ms).
  destruct (create_temp _ _ _ _) as [s1|] eqn:Ec.
  2: { intros [= <- <- <- <-]. exists hs. rewrite set_reservation_same.
       pose proof (quiet_fail s fs hs i fl HI) as Q. rewrite Hst in Q.
       apply quiet_only, Q. done. }
  pose proof (quiet_describe s fs hs i fl HI (io env) body ms (clock env) s1 Hst Hms Hnew Hfree Ec) as Q1.
  pose proof (q_inv _ _ Q1) as I1. set (fl1 := set_stage (Describing body ms) fl) in *.
  destruct (names_root s s1 fl1 (q_root _ _ Q1)) as (_ & En1 & Eg1 & _).
  change (generation_of s fl1) with (generation_of s fl) in Eg1.
  pose proof (fun io => quiet_fail_drop s1 fs hs i fl1 io ms I1 eq_refl eq_refl) as D1.
  rewrite (En1 ms : _ = metadata_name s fl ms) in D1.
  assert (forall y, quiet (mkSystem s1 (<[i := fl1]> fs) hs) y ->
    lands (mkSystem s (<[i := fl]> fs) hs) y path m (generation_of s fl) body false) as Hq
    by (intros y Q; apply quiet_only; by eapply quiet_trans).
  destruct (io env CWrite _); cbn [negb].
  2: { intros [= <- <- <- <-]. exists hs. rewrite set_reservation_same. by apply Hq, D1. }
  pose proof (quiet_write_metadata s1 fs hs i fl1 I1 body ms m0 order (clock env) text eq_refl) as Q2.
  rewrite Eg1, (En1 ms : _ = metadata_name s fl ms) in Q2. cbv zeta in Q2. fold m in Q2.
  specialize (Q2 Hrep Htext Hlen). set (s2 := write_file _ _ _ s1) in *.
  pose proof (q_inv _ _ Q2) as I2.
  change (set_stage (Described body m ms) fl1) with (set_stage (Described body m ms) fl) in *.
  set (fl2 := set_stage (Described body m ms) fl) in *.
  destruct (names_root s s2 fl2 (q_root _ _ Q1)) as (Eb2 & En2 & Eg2 & _).
  pose proof (fun io => quiet_fail_drop s2 fs hs i fl2 io ms I2 eq_refl eq_refl) as D2.
  rewrite (En2 ms : _ = metadata_name s fl ms) in D2.
  pose proof (quiet_trans _ _ _ Q1 Q2) as Q12.
  destruct (io env CSync _); cbn [negb].
  2: { intros [= <- <- <- <-]. exists hs. rewrite set_reservation_same. apply Hq. eapply quiet_trans; [exact Q2|apply D2]. }
  destruct (io env CClose _); cbn [negb].
  2: { intros [= <- <- <- <-]. exists hs. rewrite set_reservation_same. apply Hq. eapply quiet_trans; [exact Q2|apply D2]. }
  destruct (commit _ _ _ _ _ _ _ _ _ _) as [[[[err' kb'] km'] r'] s3] eqn:Ecommit.
  intros [= -> -> -> <-].
  assert (root s2 = root s) as Er by apply (q_root _ _ Q1).
  assert (paths s2 (fkey fl) = paths s (fkey fl)) as Ep by (unfold paths; by rewrite Er).
  assert (key_path s2 (fkey fl) = path) as Ek by (unfold path, key_path; by rewrite Er).
  destruct (commit_dropped s2 fs hs i fl2 (io env) body ms m err kb km' r s3 I2 eq_refl Hreads) as [hs' L];
    change (fkey fl2) with (fkey fl); rewrite ?Ek, ?Ep, ?Eb2, ?En2, ?Eg2; try done.
  - apply (quiet_generation _ _ fl HI Q12); [apply (flight_here _ _ _ _ _ HI)|done].
  - change (files s2) with (files (store (mkSystem s2 (<[i := fl2]> fs) hs))). by rewrite (quiet_usage _ _ Q12).
  - exists hs'. change (fkey fl2) with (fkey fl) in L. rewrite Ek, En2, Eg2 in L. by eapply quiet_lands.
Qed.
End Metadata.

(** *** From the first byte on *)

Section Body.
Context (env : PutEnv) (s : Store) (fs : gmap nat Flight) (hs : list (string * Metadata * string)).
Context (i : nat) (fl : Flight) (m0 : Metadata) (order : list (string * list string)).
Context (src : Source) (w : Writer).
Context (HI : Inv (mkSystem s (<[i := fl]> fs) hs)) (Hst : fstage fl = Streaming).

Let ms := metadataSuffix env.
Let m := stored_metadata m0 order (clock env) (len (content src)) (generation_of s fl).
Let path := key_path s (fkey fl).

Context (Hreads : reads_ok (io env)) (Hms : suffix_ok ms).
Context (Hnew : files s !! metadata_name s fl ms = None) (Hfree : metadata_name s fl ms ∉ activeTemps s).
Context (Hsafe : replace_safe (io env) (metadata_name s fl ms) path).
Context (Hfresh : fresh_generation (files s) path (generation_of s fl)).
Context (Hrep : representable m) (Hlen : forall text, marshal m = Some text -> len text <= maxMetadataBytes).
Context (Hroom : elsewhere + usage_bytes (files s) + len (content src) <= maxInt64).

Lemma content_bound : len (content src) <= maxInt64.
Proof. pose proof (size_at_bound (files s) path). pose proof elsewhere_nonneg. lia. Qed.

Lemma quiet_streamed (written : Z) (k : sink) :
  copy_cached w (cacheFails env) (flimit fl) src = (written, None, k) ->
  overflow k = false -> verified (fverify fl) written = true ->
  quiet (mkSystem s (<[i := fl]> fs) hs)
    (mkSystem (write_file (body_name s fl) (cache k) (clock env) s)
       (<[i := set_stage (Streamed (cache k)) fl]> fs) hs).
Proof.
  intros Hc Ho Hv. destruct (body_here s fs hs i fl HI) as (Hf & Ha & Hp).
  eapply quiet_touch; [done| |apply write_touches; [apply HI|done..]|done].
  rewrite over_i. eapply step_streamed; [apply at_i|done|apply content_bound|done..].
Qed.

Lemma put_body_run (err : option store_error) (down : string) (kb : bool)
    (r : option Storage.Reservation) (s' : Store) :
  put_body env (fst (paths s (fkey fl))) (snd (paths s (fkey fl))) (body_name s fl) m0 order
    (flimit fl) src w (fverify fl) (freservation fl) s = (err, down, kb, r, s') ->
  exists hs' stored,
    lands (mkSystem s (<[i := fl]> fs) hs)
      (mkSystem s' (<[i := set_reservation r (set_stage (Ending kb None) fl)]> fs) hs')
      path m (generation_of s fl) (content src) stored
    /\ (err <> None -> stored = false)
    /\ (err = None -> down = content src
         /\ stored = negb ((0 <=? flimit fl) && (flimit fl <? len (content src)))).
Proof.
  unfold put_body. change (fst (paths s (fkey fl)) ++ _) with (generation_of s fl).
  destruct (copy_cached w (cacheFails env) (flimit fl) src) as [[written e] k] eqn:Ecopy.
  set (s0 := write_file (body_name s fl) (cache k) (clock env) s).
  pose proof (quiet_write s fs hs i fl HI (cache k) (clock env) Hst) as Q0. fold s0 in Q0.
  pose proof (quiet_fail s0 fs hs i fl (q_inv _ _ Q0)) as F0. rewrite Hst in F0. specialize (F0 eq_refl).
  assert (forall x, set_reservation (freservation fl) (set_stage x fl) = set_stage x fl) as Hsame
    by (intros; apply set_reservation_same).
  assert (forall e, (Some e = None -> down = content src
    /\ false = negb ((0 <=? flimit fl) && (flimit fl <? len (content src))))) as Habs by done.
  pose proof (quiet_only _ _ path m (generation_of s fl) (content src) (quiet_trans _ _ _ Q0 F0)) as L0.
  destruct e as [e|]; cbn [is_Some_b].
  { intros [= <- <- <- <- <-]. exists hs, false. by rewrite Hsame. }
  destruct (io env CSync _); cbn [negb]; [|intros [= <- <- <- <- <-]; exists hs, false; by rewrite Hsame].
  destruct (io env CClose _); cbn [negb]; [|intros [= <- <- <- <- <-]; exists hs, false; by rewrite Hsame].
  destruct (match fverify fl with Some v => negb (v written) | None => false end) eqn:Ever.
  { intros [= <- <- <- <- <-]. exists hs, false. by rewrite Hsame. }
  assert (verified (fverify fl) written = true) as Hver
    by (unfold verified; destruct (fverify fl); [by apply negb_false_iff|done]).
  destruct (copy_cached_ok _ _ _ _ _ _ (fo_limit _ _ (flight_here _ _ _ _ _ HI)) content_bound Ecopy)
    as (_ & -> & Hdown & Ho & Hcache).
  destruct (overflow k) eqn:Eo.
  { intros [= <- <- <- <- <-]. exists hs, false. rewrite Hsame, <- Ho. split; [|by split].
    apply quiet_only. eapply quiet_trans; [exact Q0|]. apply quiet_step; [apply Q0| |done|done].
    rewrite over_i. by apply step_overflow; [apply at_i|]. }
  specialize (Hcache eq_refl).
  pose proof (quiet_streamed _ _ Ecopy Eo Hver) as Q1. fold s0 in Q1. rewrite Hcache in Q1.
  pose proof (q_inv _ _ Q1) as I1. set (fl1 := set_stage (Streamed (content src)) fl) in *.
  destruct (names_root s s0 fl1 eq_refl) as (Eb & En & Eg & _).
  destruct (codec_roundtrip m Hrep) as (text & Etext & _). fold m. rewrite Etext.
  destruct (put_metadata env _ _ _ _ _ _ _ _ _) as [[[err' kb'] r'] s1] eqn:Eput.
  intros [= -> <- -> -> ->].
  assert (metadata_name s fl ms <> body_name s fl) as Hne.
  { apply not_eq_sym. by eapply body_not_metadata; [done|apply at_i|]. }
  destruct (put_metadata_run env s0 fs hs i fl1 (content src) text m0 order I1 eq_refl Hreads Hms)
    with (err := err) (kb := kb) (r := r) (s' := s') as [hs' L]; try done.
  - change (metadata_name s0 fl1 _) with (metadata_name s fl ms). unfold s0, write_file. cbn.
    by rewrite lookup_insert_ne by by apply not_eq_sym.
  - apply (quiet_generation _ _ fl HI Q1); [apply (flight_here _ _ _ _ _ HI)|done].
  - by apply Hlen.
  - change (files s0) with (files (store (mkSystem s0 (<[i := fl1]> fs) hs))). by rewrite (quiet_usage _ _ Q1).
  - exists hs', (negb (is_Some_b err)). split; [by eapply quiet_lands|]. rewrite <- Ho. split.
    + by destruct err.
    + by intros ->.
Qed.
End Body.

(** *** Opening and closing a flight *)

Lemma quiet_open (s : Store) (fs : gmap nat Flight) (hs : list (string * Metadata * string)) (i : nat)
    (io : oracle) (header : Header) (free : option Z) (r : option Storage.Reservation) (n : Z)
    (s1 s2 : Store) (key suffix : string) (verify : option (Z -> bool)) (now : Time) :
  let fl := mkFlight key suffix r (if is_Some_b (controller s) then n else -1) verify Streaming in
  Inv (mkSystem s fs hs) -> admitPut s header free = (Granted r n, s1) -> fs !! i = None ->
  suffix_ok suffix -> files s !! body_name s fl = None -> body_name s fl ∉ activeTemps s ->
  create_temp io (body_name s fl) now s1 = Some s2 ->
  quiet (mkSystem s fs hs) (mkSystem s2 (<[i := fl]> fs) hs)
  /\ files s2 = <[body_name s fl := mkNode Regular EmptyString now]> (files s)
  /\ activeTemps s2 = {[ body_name s fl ]} ∪ activeTemps s.
Proof.
  intros fl HI Ha Hi Hs Hn Hfree Hc.
  assert (step (mkSystem s fs hs) (mkSystem s2 (<[i := fl]> fs) hs)) as Hstep
    by (by eapply step_open).
  pose proof (Inv_step _ _ HI Hstep) as HI2.
  pose proof (admit_recounts s header free) as (c & R & _). rewrite Ha in R. cbn [snd] in R. subst s1.
  revert Hc. unfold create_temp. destruct (io CCreateTemp _); [|done]. intros [= <-].
  destruct (body_here _ _ _ _ _ HI2) as (Hf & _ & Hp).
  change (foreign (body_name s fl)) in Hf. change (proper (body_name s fl)) in Hp.
  split; [|done]. split; cbn; try done; [by apply rtc_once| |].
  - intros q d h Hd Hh Hb. apply lookup_insert_ne. intros <-. by apply (Hf d h).
  - apply entries_foreign; [apply HI|by apply wf_insert; [apply HI|]|].
    intros q. destruct (decide (q = body_name s fl)) as [->|]; [by right|left].
    by rewrite lookup_insert_ne.
Qed.

Lemma quiet_close (s : Store) (fs : gmap nat Flight) (hs : list (string * Metadata * string)) (i : nat)
    (fl : Flight) (io : oracle) (kb : bool) :
  Inv (mkSystem s (<[i := fl]> fs) hs) -> fs !! i = None -> fstage fl = Ending kb None ->
  quiet (mkSystem s (<[i := fl]> fs) hs)
    (mkSystem (Release (freservation fl) (drop_temp io kb (body_name s fl) s)) fs hs).
Proof.
  intros HI Hi Hst. destruct (body_here _ _ _ _ _ HI) as (Hf & _).
  pose proof (step_close s _ hs i fl io kb (at_i fs i fl) Hst) as Hstep. rewrite delete_insert_id in Hstep by done.
  pose proof (Inv_step _ _ HI Hstep) as HI2.
  destruct (drop_touches io kb (body_name s fl) s (i_ok _ HI) Hf) as [_ [Tr _] Tf _ Te].
  destruct (Release_recounts (freservation fl) (drop_temp io kb (body_name s fl) s)) as (c & E & _).
  rewrite E in *. split; cbn; try done; [by apply rtc_once|].
  intros q d h Hd Hh Hb. apply Tf. intros ->. by apply (Hf d h).
Qed.

(** ** The whole call *)

(** What one call relies on: reads succeed, the suffixes drawn are new, a body's
    generation was not used before, [replace] does not get stuck, the metadata is within
    what the format and [readMetadata] take, and sizes are those of an [int64]. *)
Record put_assumptions (env : PutEnv) (s : Store) (key : string) (metadata : Metadata)
    (order : list (string * list string)) (src : Source) : Prop := {
  pa_reads : reads_ok (io env);
  pa_suffixes : suffix_ok (bodySuffix env) /\ suffix_ok (metadataSuffix env);
  pa_body : files s !! body_temp (Dir (fst (paths s key))) (bodySuffix env) = None
    /\ body_temp (Dir (fst (paths s key))) (bodySuffix env) ∉ activeTemps s;
  pa_metadata : files s !! metadata_temp (Dir (fst (paths s key))) (metadataSuffix env) = None
    /\ metadata_temp (Dir (fst (paths s key))) (metadataSuffix env) ∉ activeTemps s;
  pa_replace : replace_safe (io env)
    (metadata_temp (Dir (fst (paths s key))) (metadataSuffix env)) (key_path s key);
  pa_generation : fresh_generation (files s) (key_path s key)
    (fst (paths s key) ++ "." ++ bodySuffix env);
  pa_stored : let m := stored_metadata metadata order (clock env) (len (content src))
                         (fst (paths s key) ++ "." ++ bodySuffix env) in
    representable m /\ forall text, marshal m = Some text -> len text <= maxMetadataBytes;
  pa_room : elsewhere + usage_bytes (files s) + len (content src) <= maxInt64
}.

(** Whether a put that succeeds is kept: the budget granted what the response
    announced, and the body is no longer than that. *)
Definition kept (env : PutEnv) (s : Store) (metadata : Metadata) (src : Source) : bool :=
  match fst (admitPut s (Header_ metadata) (freeBytes env)) with
  | Granted _ n => negb (is_Some_b (controller s)) || (len (content src) <=? n)
  | _ => false
  end.

Lemma generation_suffix (s : Store) (fl : Flight) :
  clean_dir (root s) -> suffix_ok (fsuffix fl) ->
  generation_of s fl = fst (paths s (fkey fl)) ++ "." ++ fsuffix fl.
Proof.
  intros Hr Hs. unfold generation_of. rewrite body_name_eq by done.
  destruct (dir_of_key s (fkey fl) Hr) as [_ Hd].
  destruct (temp_names _ (fsuffix fl) Hd Hs) as (_ & _ & _ & _ & -> & _). by rewrite TrimPrefix_app.
Qed.

Lemma kept_granted (env : PutEnv) (s s1 : Store) (metadata : Metadata) (src : Source)
    (r : option Storage.Reservation) (n : Z) :
  admitPut s (Header_ metadata) (freeBytes env) = (Granted r n, s1) ->
  let lim := if is_Some_b (controller s) then n else -1 in
  negb ((0 <=? lim) && (lim <? len (content src))) = kept env s metadata src.
Proof.
  intros Ea lim. unfold kept. rewrite Ea. cbn [fst]. destruct (admit_granted _ _ _ _ _ _ Ea) as (_ & Hsome & Hr).
  unfold lim in *. destruct (controller s) as [c0|] eqn:Ec0; cbn [is_Some_b negb orb] in *; [|done].
  destruct (Hsome ltac:(by eexists)) as [r0 ->]. destruct (Hr r0 eq_refl) as (_ & _ & Hn).
  rewrite (proj2 (Z.leb_le _ _) Hn). cbn [andb]. by rewrite Z.leb_antisym.
Qed.

(** From the moment the body's file is open. *)
Lemma flight_lands (env : PutEnv) (s : Store) (fs : gmap nat Flight) (hs : list (string * Metadata * string))
    (key : string) (metadata : Metadata) (order : list (string * list string)) (src : Source) (w : Writer)
    (verify : option (Z -> bool)) (i : nat) (r r' : option Storage.Reservation) (lim : Z) (s2 s3 : Store)
    (err : option store_error) (down : string) (kb : bool) :
  let fl := mkFlight key (bodySuffix env) r lim verify Streaming in
  let gen := fst (paths s key) ++ "." ++ bodySuffix env in
  let m := stored_metadata metadata order (clock env) (len (content src)) gen in
  Inv (mkSystem s fs hs) -> put_assumptions env s key metadata order src -> fs !! i = None ->
  quiet (mkSystem s fs hs) (mkSystem s2 (<[i := fl]> fs) hs) ->
  files s2 = <[body_name s fl := mkNode Regular EmptyString (clock env)]> (files s) ->
  activeTemps s2 = {[ body_name s fl ]} ∪ activeTemps s ->
  put_body env (fst (paths s key)) (snd (paths s key)) (body_name s fl) metadata order lim src w verify r s2
    = (err, down, kb, r', s3) ->
  exists hs' stored,
    lands (mkSystem s fs hs) (mkSystem (Release r' (drop_temp (io env) kb (body_name s fl) s3)) fs hs')
      (key_path s key) m gen (content src) stored
    /\ (err <> None -> stored = false)
    /\ (err = None -> down = content src /\ stored = negb ((0 <=? lim) && (lim <? len (content src)))).
Proof.
  intros fl gen m HI [Hreads [Hbs Hms] _ [Hm1 Hm2] Hsafe Hgen [Hrep Hlen] Hroom] Hi Q Ef2 Et2 Eput.
  pose proof (q_inv _ _ Q) as I2. assert (root s2 = root s) as Er by apply (q_root _ _ Q).
  destruct (names_root s s2 fl Er) as (Eb & Em & Eg & _).
  assert (paths s2 key = paths s key) as Ep by (unfold paths; by rewrite Er).
  assert (key_path s2 key = key_path s key) as Ek by (unfold key_path; by rewrite Er).
  assert (generation_of s fl = gen) as Egen by (apply generation_suffix; [apply (i_ok _ HI)|done]).
  assert (metadata_name s fl (metadataSuffix env) <> body_name s fl) as Hne.
  { rewrite metadata_name_eq, body_name_eq by apply (i_ok _ HI). by apply not_eq_sym, temps_differ. }
  destruct (put_body_run env s2 fs hs i fl metadata order src w I2 eq_refl Hreads Hms)
    with (err := err) (down := down) (kb := kb) (r := r') (s' := s3)
    as (hs' & stored & L & Hfail & Hdone);
    change (fkey fl) with key; rewrite ?Ep, ?Eb, ?Em, ?Eg, ?Ek, ?Egen; try done.
  - rewrite Ef2. by rewrite lookup_insert_ne by by apply not_eq_sym.
  - rewrite Et2. set_solver.
  - rewrite <- Egen. apply (quiet_generation _ _ fl HI Q); [done|]. cbn [store]. by rewrite Egen.
  - change (files s2) with (files (store (mkSystem s2 (<[i := fl]> fs) hs))). by rewrite (quiet_usage _ _ Q).
  - exists hs', stored. rewrite Eg, Egen in L. change (fkey fl) with key in L. rewrite Ek in L. fold m in L.
    split; [|split; [done|exact Hdone]]. eapply quiet_lands; [exact Q|]. eapply lands_quiet; [exact L|].
    pose proof (quiet_close s3 fs hs' i _ (io env) kb (l_inv _ _ _ _ _ _ _ L) Hi eq_refl) as Qc.
    destruct (names_root s2 s3 fl (l_root _ _ _ _ _ _ _ L)) as (Eb3 & _).
    change (body_name s3 (set_reservation _ _)) with (body_name s3 fl) in Qc.
    rewrite Eb3, Eb in Qc. exact Qc.
Qed.

Lemma put_lands (env : PutEnv) (s : Store) (fs : gmap nat Flight) (hs : list (string * Metadata * string))
    (key : string) (metadata : Metadata) (order : list (string * list string)) (src : Source) (w : Writer)
    (verify : option (Z -> bool)) (err : option store_error) (down : string) (s' : Store) :
  let gen := fst (paths s key) ++ "." ++ bodySuffix env in
  let m := stored_metadata metadata order (clock env) (len (content src)) gen in
  Inv (mkSystem s fs hs) -> put_assumptions env s key metadata order src ->
  PutStreamVerified env s key metadata order src w verify = (err, down, s') ->
  exists hs' stored,
    lands (mkSystem s fs hs) (mkSystem s' fs hs') (key_path s key) m gen (content src) stored
    /\ (err <> None -> stored = false)
    /\ (err = None -> down = content src /\ stored = kept env s metadata src).
Proof.
  intros gen m HI Ha. unfold PutStreamVerified.
  destruct (admitPut s (Header_ metadata) (freeBytes env)) as [a s1] eqn:Ea.
  pose proof (admit_recounts s (Header_ metadata) (freeBytes env)) as (c & R & _).
  rewrite Ea in R. cbn [snd] in R.
  destruct a as [e| |r n].
  - intros [= <- <- <-]. exists hs, false. split; [|done]. apply quiet_only.
    apply quiet_step; [done|by eapply step_turned_away|by rewrite R..].
  - destruct (copy_through w src) as [[written e] d] eqn:Ecopy. intros [= <- <- <-].
    exists hs, false. split; [|split; [done|]].
    + apply quiet_only. apply quiet_step; [done|by eapply step_turned_away|by rewrite R..].
    + intros He. destruct e; [done|]. unfold kept. rewrite Ea. by apply copy_through_ok in Ecopy as [_ ->].
  - assert (paths s1 key = paths s key) as Ep by (unfold paths; by rewrite R).
    rewrite Ep. destruct (paths s key) as [bodyPath metadataPath] eqn:Epaths.
    assert (quiet (mkSystem s fs hs) (mkSystem (Release r s1) fs hs)) as Qno.
    { destruct (Release_recounts r s1) as (c' & R' & _).
      apply quiet_step; [done|by eapply step_no_temp|by rewrite R', R..]. }
    destruct (io env CMkdirAll (Dir bodyPath)); cbn [negb].
    2: { intros [= <- <- <-]. exists hs, false. split; [by apply quiet_only|done]. }
    set (fl := mkFlight key (bodySuffix env) r (if is_Some_b (controller s) then n else -1) verify Streaming).
    assert (body_temp (Dir bodyPath) (bodySuffix env) = body_name s fl) as Ebn
      by (unfold body_name; cbn [fkey fl]; by rewrite Epaths).
    rewrite Ebn. destruct (create_temp _ _ _ s1) as [s2|] eqn:Ec.
    2: { intros [= <- <- <-]. exists hs, false. split; [by apply quiet_only|done]. }
    assert (exists i, fs !! i = None) as [i Hi]
      by (exists (fresh (dom fs)); apply not_elem_of_dom, is_fresh).
    destruct (pa_body _ _ _ _ _ _ Ha) as [Hb1 Hb2]. rewrite Epaths in Hb1, Hb2. cbn [fst] in Hb1, Hb2. rewrite Ebn in Hb1, Hb2.
    destruct (quiet_open s fs hs i (io env) (Header_ metadata) (freeBytes env) r n s1 s2 key
      (bodySuffix env) verify (clock env) HI Ea Hi (proj1 (pa_suffixes _ _ _ _ _ _ Ha)) Hb1 Hb2 Ec) as (Q & Ef2 & Et2).
    destruct (put_body env _ _ _ _ _ _ _ _ _ _ _) as [[[[err' down'] kb] r'] s3] eqn:Eput. intros [= <- <- <-].
    rewrite <- (kept_granted env s s1 metadata src r n Ea). unfold m, gen.
    pose proof (flight_lands env s fs hs key metadata order src w verify i r r' _ s2 s3 err' down' kb HI Ha Hi Q Ef2 Et2) as H.
    cbv zeta in H. rewrite Epaths in H. exact (H Eput).
Qed.

End StoreRuns.
