(* ===== verification/StoreEnds.v ===== *)
(** * Every put can end

    Whatever is in flight, each put can be brought to its end by steps of its own, three
    at most, without the others: it fails, or its deferred functions run.  What it leaves
    is what was there but its temporary files. *)

From S2P Require Import Prelude GoStrings FilePath Time Metadata Fs Store StoreFacts StoreOps StorePut StoreStream StoreSystem StoreSafety StoreRuns.
From Stdlib Require Import Ascii String.
Local Open Scope string_scope.
Local Open Scope Z_scope.

Section StoreEnds.
Context {codec : MetadataCodec} {company : Elsewhere}.

(** ** Temporary files *)

Definition gone (s : Store) (q : string) : Prop := (q ∉ activeTemps s) /\ files s !! q = None.

Definition same_at (s s' : Store) (q : string) : Prop :=
  (q ∈ activeTemps s' <-> (q ∈ activeTemps s)) /\ files s' !! q = files s !! q.

Lemma drop_gone (s : Store) (q : string) (renamed : bool) (P : string -> Prop) :
  holds s q renamed P -> gone (drop_temp calm renamed q s) q.
Proof.
  intros [_ (n & Hr & Hf & _)]. split; [cbn; set_solver|]. unfold drop_temp. destruct renamed; [exact Hf|].
  unfold os_Remove. cbn. rewrite Hf. destruct n as [[] d t]; [|done..]. cbn. apply lookup_delete_eq.
Qed.

Lemma touches_same (q0 q : string) (s s' : Store) : touches q0 s s' -> q <> q0 -> same_at s s' q.
Proof. intros [_ _ Hf Ht _] Hq. split; [by apply Ht|by apply Hf]. Qed.

(** ** One put *)

(** From [y] to [y'] the put [i], whose flight is [fl], ends. *)
Record settles (i : nat) (fl : Flight) (y y' : System) : Prop := {
  se_quiet : quiet y y';
  se_flights : flights y' = delete i (flights y);
  se_gone : forall q, q ∈ names (store y) fl -> gone (store y') q;
  se_others : forall q, q ∉ names (store y) fl -> same_at (store y) (store y') q
}.

Lemma settle_close (s : Store) (fs : gmap nat Flight) (hs : list (string * Metadata * string)) (i : nat) (fl : Flight) (kb : bool) :
  Inv (mkSystem s (<[i := fl]> fs) hs) -> fstage fl = Ending kb None ->
  exists y', settles i fl (mkSystem s (<[i := fl]> fs) hs) y'.
Proof.
  intros HI Hst. destruct (body_here s fs hs i fl HI) as (Hf & _).
  pose proof (flight_here s fs hs i fl HI) as Hfl. pose proof (drop_touches calm kb _ s (i_ok _ HI) Hf) as T.
  set (s1 := drop_temp calm kb (body_name s fl) s) in *.
  destruct (Release_recounts (freservation fl) s1) as (c & Ec & _).
  assert (files (Release (freservation fl) s1) = files s1 /\ activeTemps (Release (freservation fl) s1) = activeTemps s1
    /\ root (Release (freservation fl) s1) = root s1) as (Ef & Ea & Er) by (rewrite Ec; done).
  assert (forall q, same_at s s1 q -> same_at s (Release (freservation fl) s1) q) as Hsame
    by (intros q; unfold same_at; by rewrite Ef, Ea).
  assert (names s fl = [body_name s fl]) as En by (unfold names; by rewrite Hst).
  exists (mkSystem (Release (freservation fl) s1) (delete i (<[i := fl]> fs)) hs). split; [|done|..].
  - assert (step (mkSystem s (<[i := fl]> fs) hs) (mkSystem (Release (freservation fl) s1) (delete i (<[i := fl]> fs)) hs)) as Hstep
      by (eapply step_close; [apply at_i|done]).
    destruct T as [_ [Tr _] Tf _ Te]. split; cbn; [by eapply Inv_step|by apply rtc_once|congruence| |by rewrite Ef|done].
    intros q d h Hd Hh Hb. rewrite Ef. apply Tf. intros ->. by apply (Hf d h).
  - cbn. rewrite En. intros q ->%list_elem_of_singleton. unfold gone. rewrite Ef, Ea.
    apply (drop_gone s _ kb (fun text => forall body, body_of (fstage fl) = Some body -> text = body)).
    pose proof (fo_body _ _ Hfl) as H. by rewrite Hst in H |- *.
  - cbn. rewrite En. intros q Hq. apply Hsame, (touches_same _ _ _ _ T). set_solver.
Qed.

Lemma settle_drop (s : Store) (fs : gmap nat Flight) (hs : list (string * Metadata * string)) (i : nat) (fl : Flight)
    (kb km : bool) (ms : string) :
  Inv (mkSystem s (<[i := fl]> fs) hs) -> fstage fl = Ending kb (Some (ms, km)) ->
  exists y', settles i fl (mkSystem s (<[i := fl]> fs) hs) y'.
Proof.
  intros HI Hst. destruct (metadata_here s fs hs i fl HI ms) as (Hf & _); [by rewrite Hst|].
  pose proof (flight_here s fs hs i fl HI) as Hfl.
  pose proof (quiet_drop s fs hs i fl HI calm kb km ms Hst) as Q.
  pose proof (drop_touches calm km _ s (i_ok _ HI) Hf) as T.
  set (s1 := drop_temp calm km (metadata_name s fl ms) s) in *.
  destruct (settle_close s1 fs hs i (set_stage (Ending kb None) fl) kb (q_inv _ _ Q) eq_refl) as (y' & [Q' Fl Hg Ho]).
  exists y'. assert (names s fl = [body_name s fl; metadata_name s fl ms]) as En by (unfold names; by rewrite Hst).
  assert (names s1 (set_stage (Ending kb None) fl) = [body_name s fl]) as En1.
  { destruct (names_root s s1 fl) as (Eb & _); [apply T|]. unfold names. cbn. by rewrite <- Eb. }
  cbn [store] in Hg, Ho. rewrite En1 in Hg, Ho.
  assert (metadata_name s fl ms <> body_name s fl) as Hne.
  { apply not_eq_sym, (body_not_metadata s (<[i := fl]> fs) hs HI i fl (at_i fs i fl)). apply (fo_metadata _ _ Hfl ms). by rewrite Hst. }
  split; [by eapply quiet_trans|rewrite Fl; cbn; by rewrite !delete_insert_eq| |]; cbn [store]; rewrite En.
  - intros q [->|[->|[]%elem_of_nil]%elem_of_cons]%elem_of_cons; [apply Hg, list_elem_of_here|].
    destruct (Ho (metadata_name s fl ms)) as [H1 H2]; [by intros ?%list_elem_of_singleton|].
    assert (gone s1 (metadata_name s fl ms)) as [G1 G2].
    { destruct (fo_metadata _ _ Hfl ms) as [_ H]; [by rewrite Hst|]. rewrite Hst in H. cbn in H. by eapply drop_gone. }
    split; [by rewrite H1|by rewrite H2].
  - intros q Hq. destruct (Ho q) as [H1 H2]; [set_solver|].
    destruct (touches_same _ q _ _ T) as [H3 H4]; [set_solver|]. split; [by rewrite H1|by rewrite H2].
Qed.

Lemma settle (y : System) (i : nat) (fl : Flight) :
  Inv y -> flights y !! i = Some fl -> exists y', settles i fl y y'.
Proof.
  destruct y as [s fs hs]. intros HI Hi. cbn in Hi.
  assert (<[i := fl]> fs = fs) as E by by apply insert_id. rewrite <- E in HI |- *.
  destruct (is_ending (fstage fl)) eqn:Hst.
  - destruct (fstage fl) as [| | | |kb [[ms km]|]] eqn:Es; try done; [by eapply settle_drop|by eapply settle_close].
  - pose proof (quiet_fail s fs hs i fl HI Hst) as Q. set (st := Ending false _) in Q.
    pose proof (q_inv _ _ Q) as HI1.
    assert (exists y', settles i (set_stage st fl) (mkSystem s (<[i := set_stage st fl]> fs) hs) y') as (y' & [Q' Fl Hg Ho]).
    { unfold st in *. destruct (metadata_suffix (fstage fl)) as [ms|]; [by eapply settle_drop|by eapply settle_close]. }
    assert (names s (set_stage st fl) = names s fl) as En.
    { unfold st, names, metadata_name, body_name. cbn. by destruct (metadata_suffix (fstage fl)). }
    cbn [store] in Hg, Ho. rewrite En in Hg, Ho. exists y'.
    split; [by eapply quiet_trans|rewrite Fl; cbn; by rewrite !delete_insert_eq|done|done].
Qed.

(** *** All puts *)

(** The names of all puts in flight. *)
Definition temporary (y : System) (q : string) : Prop :=
  exists i fl, flights y !! i = Some fl /\ q ∈ names (store y) fl.

(** From [y] to [y'] every put ends. *)
Record drains (y y' : System) : Prop := {
  dr_quiet : quiet y y';
  dr_none : flights y' = ∅;
  dr_gone : forall q, temporary y q -> gone (store y') q;
  dr_others : forall q, ~ temporary y q -> same_at (store y) (store y') q
}.

Lemma settle_then (i : nat) (fl : Flight) (y y1 y' : System) :
  Inv y -> flights y !! i = Some fl -> settles i fl y y1 -> drains y1 y' -> drains y y'.
Proof.
  intros HI Hi [Q Fl Hg Ho] [Q' Hn Hg' Ho'].
  assert (forall fl', names (store y1) fl' = names (store y) fl') as En
    by (intros fl'; apply (names_root (store y) (store y1) fl'), Q).
  assert (forall q, temporary y1 q <-> exists j fl', j <> i /\ flights y !! j = Some fl' /\ q ∈ names (store y) fl') as Ht.
  { intros q. unfold temporary. rewrite Fl. setoid_rewrite lookup_delete_Some. setoid_rewrite En. naive_solver. }
  assert (forall q, q ∈ names (store y) fl -> ~ temporary y1 q) as Hdis.
  { intros q Hq (j & fl' & Hji & Hj & Hq')%Ht. by eapply (i_disjoint _ HI i j). }
  split; [by eapply quiet_trans|done|..].
  - intros q (j & fl' & Hj & Hq). destruct (decide (j = i)) as [->|Hne].
    + assert (fl' = fl) as -> by congruence. destruct (Ho' q (Hdis q Hq)) as [H1 H2]. destruct (Hg q Hq) as [G1 G2].
      split; [by rewrite H1|by rewrite H2].
    + apply Hg', Ht. by exists j, fl'.
  - intros q Hq. destruct (Ho q) as [H1 H2]; [by intros Hin; apply Hq; exists i, fl|].
    destruct (Ho' q) as [H3 H4]; [intros (j & fl' & _ & Hj & Hin)%Ht; by apply Hq; exists j, fl'|].
    split; [by rewrite H3|by rewrite H4].
Qed.

Lemma drain (n : nat) (y : System) : Inv y -> size (flights y) = n -> exists y', drains y y'.
Proof.
  revert y. induction n as [|n IH]; intros y HI Hn.
  - apply map_size_empty_inv in Hn. exists y. split; [by apply quiet_refl|done| |by split].
    intros q (i & fl & Hi & _). by rewrite Hn, lookup_empty in Hi.
  - destruct (map_choose (flights y)) as (i & fl & Hi); [intros E; by rewrite E, map_size_empty in Hn|].
    destruct (settle y i fl HI Hi) as [y1 S]. destruct (IH y1) as [y' D]; [apply S| |by exists y'; eapply settle_then].
    rewrite (se_flights _ _ _ _ S), map_size_delete_Some by done. lia.
Qed.

(** C9: In every state the store can reach, with any number of puts in flight at any of their
    stages, all of them can end: without another entry than there was, without a change
    to an entry, and without a temporary file of theirs; all other files and claims on
    files stay. *)
Theorem puts_can_end (y0 y : System) :
  initial y0 -> reachable y0 y ->
  exists y', rtc step y y' /\ flights y' = ∅
    /\ entries (files (store y')) = entries (files (store y)) /\ history y' = history y
    /\ (forall q, temporary y q -> gone (store y') q)
    /\ forall q, ~ temporary y q -> same_at (store y) (store y') q.
Proof.
  intros H0 Hr. destruct (drain _ y (Inv_reachable _ _ H0 Hr) eq_refl) as [y' [[_ Hs _ _ He Hh] Hn Hg Ho]].
  by exists y'.
Qed.

End StoreEnds.
