(* ===== verification/StoreTheorems.v ===== *)
(** * The cache store: theorems

    What a caller of [internal/cache] can rely on: puts, hits, counters, collection,
    eviction, the removal of stale files and the rescan at startup. *)

From S2P Require Import Prelude GoStrings FilePath Sha256 Http HttpPolicy Time Metadata Fs Store StoreFacts StoreOps StorePut StoreStream StoreSystem StoreSafety StoreRuns.
From S2P Require Storage.
From Stdlib Require Import Ascii String Sorted.
Local Open Scope string_scope.
Local Open Scope Z_scope.

Section StoreTheorems.
Context {codec : MetadataCodec} {company : Elsewhere}.

(** ** Collection *)

Lemma without_body_entries (s : Store) (p : string) (m : Metadata) (b : string) (n : node) :
  store_ok s -> proper p -> entry_at calm (files s) p = Some (m, b, n) ->
  entries (files (without_body s b n)) = delete p (entries (files s)).
Proof.
  intros Hok Hp He. destruct (entries_remove_body _ _ _ _ _ (ok_wf _ Hok) Hp He) as (Hnone & _ & E).
  cbn [files without_body add_usage set_usage set_files]. by rewrite E, Hnone.
Qed.

(** Removing the metadata that is left of an entry, if the system lets it. *)
Lemma meta_removal_entries (io : oracle) (s : Store) (p legacy : string) :
  store_ok s -> proper p -> bodyPathForMetadata p = Some legacy -> entry_at calm (files s) p = None ->
  match os_Remove io p (files s) with
  | Err _ => True
  | Ok f => entries f = entries (files s)
  end.
Proof.
  intros Hok Hp Hl He. destruct (os_Remove_cases io p (files s)) as [[e ->]|(-> & _)]; [done|].
  eapply entries_remove_meta; [apply Hok|done|done|by rewrite lookup_entries].
Qed.

(** One visit takes away nothing, or the one expired entry it reports. *)
Lemma gc_visit_entries (io : oracle) (cutoff : Time) (r : GCResult) (s : Store) (p : string) :
  reads_ok io -> store_ok s -> proper p ->
  let '(r', s') := gc_visit io cutoff (r, s) p in
  (entries (files s') = entries (files s) /\ Objects r' = Objects r /\ GCBytes r' = GCBytes r
   /\ forall m b n, entries (files s) !! p = Some (m, b, n) -> expired cutoff m = true ->
        io CRemove b = false)
  \/ exists m b n, entries (files s) !! p = Some (m, b, n) /\ expired cutoff m = true
      /\ entries (files s') = delete p (entries (files s))
      /\ Objects r' = wrap64 (Objects r + 1) /\ GCBytes r' = wrap64 (GCBytes r + size_of n).
Proof.
  intros Hio Hok Hp. destruct (gc_visit_cases io cutoff r s p Hio) as [(Hs & Hr & Hx)|H].
  - destruct (gc_visit io cutoff (r, s) p) as [r' s']. cbn in Hs, Hr. subst s'. left.
    split; [done|]. assert (Objects r' = Objects r /\ GCBytes r' = GCBytes r) as [-> ->].
    { apply elem_of_cons in Hr as [->|Hr%list_elem_of_singleton]; [done|by rewrite Hr]. }
    split_and!; try done. intros m b n. rewrite lookup_entries. apply Hx.
  - destruct H as (m & b & n & legacy & He & Hexp & Hl & ->).
    pose proof (without_body_entries s p m b n Hok Hp He) as E.
    destruct (without_body_ok s p m b n Hok Hp He) as (Hok1 & _ & Hnone & _). cbv zeta.
    pose proof (meta_removal_entries io (without_body s b n) p legacy Hok1 Hp Hl Hnone) as Hm.
    destruct (os_Remove io p (files (without_body s b n))) as [f|e]; right; exists m, b, n;
      rewrite lookup_entries; split_and!; try done. cbn [files set_files]. congruence.
Qed.

(** The entries in [f] that a collection with this cutoff may take away. *)
Definition collectable (cutoff : Time) (f : fs) (p : string) : Prop :=
  exists m b n, entries f !! p = Some (m, b, n) /\ expired cutoff m = true.

(** What a collection did: it took away only collectable entries, and counts them. *)
Record collected (cutoff : Time) (f f' : fs) (r r' : GCResult) : Prop := {
  col_subset : entries f' ⊆ entries f;
  col_expired : forall p, is_Some (entries f !! p) -> entries f' !! p = None -> collectable cutoff f p;
  col_objects : Objects r' = wrap64 (Objects r + (usage_objects f - usage_objects f'));
  col_bytes : GCBytes r' = wrap64 (GCBytes r + (usage_bytes f - usage_bytes f'))
}.

Lemma wrap64_idem (z : Z) : wrap64 (wrap64 z) = wrap64 z.
Proof. apply wrap64_id, wrap64_range. Qed.

Lemma usage_delete (f f' : fs) (p : string) (m : Metadata) (b : string) (n : node) :
  entries f !! p = Some (m, b, n) -> entries f' = delete p (entries f) ->
  usage_bytes f - usage_bytes f' = size_of n /\ usage_objects f - usage_objects f' = 1.
Proof.
  intros He E. assert (entry_at calm f' p = None) as Hn
    by (rewrite <- lookup_entries, E; apply lookup_delete_eq).
  destruct (usage_change f f' p) as [Hb Ho]; [by rewrite Hn, E|].
  unfold size_at, count_at in Hb, Ho. rewrite Hn in Hb, Ho. rewrite lookup_entries in He.
  rewrite He in Hb, Ho. unfold entry_size in Hb. cbn in Hb. lia.
Qed.

Lemma gc_fold_collected (io : oracle) (cutoff : Time) (paths : list string) (r : GCResult) (s : Store) :
  reads_ok io -> store_ok s -> Forall proper paths -> int64 (Objects r) -> int64 (GCBytes r) ->
  let '(r', s') := foldl (gc_visit io cutoff) (r, s) paths in
  collected cutoff (files s) (files s') r r'
  /\ ((forall q, io CRemove q = true) ->
      forall p, p ∈ paths -> ~ collectable cutoff (files s') p).
Proof.
  intros Hio. revert r s. induction paths as [|p ps IH]; intros r s Hok Hp Hro Hrb; cbn [foldl].
  { split; [|intros _ p Hin; by apply not_elem_of_nil in Hin].
    split; [done|intros p [e He]; congruence|by rewrite Z.sub_diag, Z.add_0_r, wrap64_id..]. }
  apply Forall_cons in Hp as [Hp Hps].
  pose proof (gc_visit_entries io cutoff r s p Hio Hok Hp) as Hv.
  destruct (gc_visit_ok io cutoff r s p Hio Hok Hp) as [Hok1 _].
  destruct (gc_visit io cutoff (r, s) p) as [r1 s1]. cbn [snd] in Hok1.
  assert (int64 (Objects r1) /\ int64 (GCBytes r1)) as [Hro1 Hrb1].
  { destruct Hv as [(_ & -> & -> & _)|(m & b & n & _ & _ & _ & -> & ->)]; [done|].
    split; apply wrap64_range. }
  specialize (IH r1 s1 Hok1 Hps Hro1 Hrb1). destruct (foldl _ _ _) as [r' s'].
  destruct IH as [[Hsub Hexp Ho Hb] Hall].
  destruct Hv as [(E & Eo & Eb & Hx)|(m & b & n & He & Hxp & E & Eo & Eb)].
  - assert (usage_bytes (files s1) = usage_bytes (files s)
      /\ usage_objects (files s1) = usage_objects (files s)) as [Ub Uo]
      by (unfold usage_bytes, usage_objects; by rewrite E).
    unfold collectable in *. rewrite E in *. rewrite Eo, Eb, Ub, Uo in *. split; [by split|].
    intros Hrm q Hq. apply elem_of_cons in Hq as [->|Hq]; [|by apply Hall].
    intros (m & b & n & He & Hxp). assert (io CRemove b = false); [|by rewrite Hrm in *].
    eapply Hx; [|done]. by eapply lookup_weaken.
  - destruct (usage_delete _ _ p m b n He E) as [Ub Uo]. rewrite E in Hsub, Hexp. split.
    + split.
      * etransitivity; [exact Hsub|apply delete_subseteq].
      * intros q Hq Hn. destruct (decide (q = p)) as [->|Hne]; [by exists m, b, n|].
        destruct (Hexp q) as (m' & b' & n' & He' & Hx'); [by rewrite lookup_delete_ne|done|].
        rewrite E, lookup_delete_ne in He' by done. by exists m', b', n'.
      * rewrite Ho, Eo, wrap64_add_l. f_equal. lia.
      * rewrite Hb, Eb, wrap64_add_l. f_equal. lia.
    + intros Hrm q Hq. apply elem_of_cons in Hq as [->|Hq]; [|by apply Hall].
      intros (m' & b' & n' & He' & _). eapply lookup_weaken in He'; [|exact Hsub].
      by rewrite lookup_delete_eq in He'.
Qed.

(** ** Hits *)

(** A hit is an entry of the key that is younger than the time to live. *)
Lemma Lookup_hit (io : oracle) (now : Time) (s : Store) (key : string) (ttl : Z) (e : Entry) :
  reads_ok io -> store_ok s ->
  fst (Lookup io now s key ttl) = Ok (Some e) <->
  exists n, entries (files s) !! key_path s key = Some (EntryMetadata e, BodyPath e, n)
    /\ Body e = data n /\ Sub now (StoredAt (EntryMetadata e)) < ttl.
Proof.
  intros Hio Hok. rewrite lookup_entries.
  destruct (Lookup_cases io now s key ttl Hio Hok) as [(_ & Hno & Hold)|(m & b & n & He & Hfresh & ->)].
  - split; [intros H; by destruct (Hno e)|].
    intros (n & He & _ & Hlt). specialize (Hold _ _ _ He). lia.
  - rewrite He. cbn [fst]. split.
    + intros [= <-]. exists n. by split_and!.
    + intros (n' & E & Hb & _). destruct e. cbn in *. by simplify_eq.
Qed.

Definition hit (r : result store_error (option Entry)) : option (Metadata * string) :=
  match r with Ok (Some e) => Some (EntryMetadata e, Body e) | _ => None end.

Lemma hit_same (io : oracle) (now : Time) (s s' : Store) (key : string) (ttl : Z) :
  reads_ok io -> store_ok s -> store_ok s' -> root s' = root s ->
  entries (files s') !! key_path s key = entries (files s) !! key_path s key ->
  hit (fst (Lookup io now s' key ttl)) = hit (fst (Lookup io now s key ttl)).
Proof.
  intros Hio Hok Hok' Hr E.
  assert (key_path s' key = key_path s key) as Ek by (unfold key_path; by rewrite Hr).
  assert (forall e, fst (Lookup io now s' key ttl) = Ok (Some e)
    <-> fst (Lookup io now s key ttl) = Ok (Some e)) as H
    by (intros e; rewrite !Lookup_hit by done; by rewrite Ek, E).
  destruct (fst (Lookup io now s' key ttl)) as [[e|]|] eqn:E1;
    destruct (fst (Lookup io now s key ttl)) as [[e'|]|] eqn:E2; try done;
    try (by specialize (proj1 (H e) eq_refl)); try (by specialize (proj2 (H e') eq_refl)).
  specialize (proj1 (H e) eq_refl). congruence.
Qed.

(** ** Candidates for eviction *)

Lemma candidate_at_Some (io : oracle) (s : Store) (p : string) (c : Candidate) :
  reads_ok io ->
  candidate_at io s p = Some c <->
  metadataPath c = p /\ exists m n, entries (files s) !! p = Some (m, bodyPath c, n)
    /\ CandidateBytes c = size_of n
    /\ LastUsed c = (if IsZero (mtime n) then StoredAt m else mtime n).
Proof.
  intros Hio. rewrite lookup_entries. unfold candidate_at. rewrite entry_at_ok by done.
  destruct (entry_at calm (files s) p) as [[[m b] n]|]; cbn [mbind option_bind].
  - split; [intros [= <-]; cbn; split; [done|]; by exists m, n|].
    intros (Hp & m' & n' & E & Hb & Hl). simplify_eq. destruct c. cbn in *. by subst.
  - split; [done|]. by intros (_ & m & n & E & _).
Qed.

#[local] Instance used_before_total : Total used_before.
Proof. intros a b. unfold used_before. lia. Qed.

Lemma omap_NoDup_path (io : oracle) (s : Store) (ps : list string) :
  reads_ok io -> NoDup ps -> NoDup (metadataPath <$> omap (candidate_at io s) ps).
Proof.
  intros Hio. induction ps as [|p ps IH]; intros Hn; [constructor|].
  apply NoDup_cons in Hn as [Hp Hn]. cbn [omap list_omap].
  destruct (candidate_at io s p) as [c|] eqn:Ec; [|by apply IH].
  rewrite fmap_cons. apply NoDup_cons. split; [|by apply IH].
  apply candidate_at_Some in Ec as [-> _]; [|done].
  intros (c' & Hc' & (q & Hq & Ec')%list_elem_of_omap)%list_elem_of_fmap.
  apply candidate_at_Some in Ec' as [<- _]; [|done]. by rewrite <- Hc' in Hq.
Qed.

(** ** Stale temporary files *)

Definition files_bytes (f : fs) : Z := map_sum size_of f.

Record swept (cutoff : Time) (s s' : Store) (r r' : TempCleanupResult) : Prop := {
  sw_files : Files r' = wrap64 (Files r + (Z.of_nat (size (files s)) - Z.of_nat (size (files s'))));
  sw_bytes : TempBytes r' = wrap64 (TempBytes r + (files_bytes (files s) - files_bytes (files s')))
}.

Lemma cleanup_visit_swept (io : oracle) (cutoff : Time) (p : string) (r r' : TempCleanupResult)
    (s s' : Store) :
  int64 (Files r) -> int64 (TempBytes r) ->
  cleanup_visit io cutoff p (r, s) = Ok (r', s') ->
  swept cutoff s s' r r' /\ int64 (Files r') /\ int64 (TempBytes r')
  /\ (stale cutoff s p -> walked_dir (files s) p = false -> files s' !! p = None).
Proof.
  intros Hf Hb. unfold cleanup_visit.
  assert (swept cutoff s s r r) as Hsame
    by (split; by rewrite Z.sub_diag, Z.add_0_r, wrap64_id).
  destruct (walked_dir (files s) p); cbn [orb]; [by intros [= <- <-]|].
  destruct (isTempName (Base p)) eqn:Ht; cbn [negb].
  2: { intros [= <- <-]. split_and!; try done. intros (E & _). congruence. }
  case_bool_decide as Ha; [intros [= <- <-]; split_and!; try done; by intros (_ & ? & _)|].
  unfold Stat, guard_call, existing. destruct (io CStat p); [|done].
  destruct (files s !! p) as [n|] eqn:Hn; [|done]. unfold After.
  destruct (Z.ltb_spec cutoff (mtime n)) as [Hlt|].
  { intros [= <- <-]. split_and!; try done. intros (_ & _ & n' & Hn' & Hm). simplify_eq. lia. }
  destruct (os_Remove_cases io p (files s)) as [[e ->]|(-> & _)]; [done|]. intros [= <- <-].
  split_and!; [|apply wrap64_range..|intros; apply lookup_delete_eq].
  split; cbn [Files TempBytes files set_files]; f_equal.
  - rewrite map_size_delete_Some by eauto.
    assert (size (files s) <> 0%nat); [|lia]. intros Hz. apply map_size_empty_inv in Hz.
    by rewrite Hz, lookup_empty in Hn.
  - unfold files_bytes. rewrite (map_sum_delete size_of (files s) p n Hn). lia.
Qed.

Lemma swept_trans (cutoff : Time) (s1 s2 s3 : Store) (r1 r2 r3 : TempCleanupResult) :
  swept cutoff s1 s2 r1 r2 -> swept cutoff s2 s3 r2 r3 -> swept cutoff s1 s3 r1 r3.
Proof.
  intros [F1 B1] [F2 B2]. split; [rewrite F2, F1|rewrite B2, B1]; rewrite wrap64_add_l; f_equal; lia.
Qed.

Lemma cleanup_walk_swept (io : oracle) (cutoff : Time) (paths : list string) (r : TempCleanupResult)
    (s : Store) :
  store_ok s -> Forall proper paths -> int64 (Files r) -> int64 (TempBytes r) ->
  let '(r', s', err) := cleanup_walk io cutoff paths (r, s) in
  swept cutoff s s' r r'
  /\ (err = None -> forall p, p ∈ paths -> stale cutoff s p -> walked_dir (files s) p = false ->
      files s' !! p = None).
Proof.
  revert r s. induction paths as [|p ps IH]; intros r s Hok Hp Hf Hb; cbn [cleanup_walk].
  { split; [|intros _ p Hin; by apply not_elem_of_nil in Hin].
    split; by rewrite Z.sub_diag, Z.add_0_r, wrap64_id. }
  apply Forall_cons in Hp as [Hp Hps].
  destruct (cleanup_visit io cutoff p (r, s)) as [[r1 s1]|e] eqn:Ev.
  2: { split; [|done]. split; by rewrite Z.sub_diag, Z.add_0_r, wrap64_id. }
  destruct (cleanup_visit_ok io cutoff p r s r1 s1 Hok Hp Ev) as [Hok1 C1].
  destruct (cleanup_visit_swept io cutoff p r r1 s s1 Hf Hb Ev) as (S1 & Hf1 & Hb1 & Hgone).
  specialize (IH r1 s1 Hok1 Hps Hf1 Hb1).
  pose proof (cleanup_walk_ok io cutoff ps r1 s1 Hok1 Hps) as [_ C2].
  destruct (cleanup_walk io cutoff ps (r1, s1)) as [[r' s'] err]. cbn [fst snd] in C2.
  destruct IH as [S2 Hall]. split; [by eapply swept_trans|]. intros He q Hq Hst Hd.
  assert (files s1 !! q = None -> files s' !! q = None) as Hkeep
    by (intros E; destruct (clean_files _ _ _ C2 q) as [->|[_ ?]]; done).
  apply elem_of_cons in Hq as [->|Hq]; [by apply Hkeep, Hgone|].
  destruct (clean_files _ _ _ C1 q) as [E|[_ E]]; [|by apply Hkeep].
  apply Hall; [done|done| |unfold walked_dir; by rewrite E].
  destruct Hst as (Hn & Ha & n & Hn' & Hm). destruct C1 as [(_ & _ & Ht & _) _ _].
  split_and!; [done|by rewrite Ht|]. exists n. by rewrite E.
Qed.

(** Files the walk has listed do not vanish under it: the store's lock is held. *)
Lemma cleanup_visit_local (io : oracle) (cutoff : Time) (p : string) (r : TempCleanupResult) (s : Store) :
  match cleanup_visit io cutoff p (r, s) with
  | Ok (_, s') => forall q, q <> p -> files s' !! q = files s !! q
  | Err e => is_Some (files s !! p) -> e = ErrIO
  end.
Proof.
  unfold cleanup_visit. destruct (_ || _); [done|]. case_bool_decide; [done|].
  unfold Stat, guard_call, existing. destruct (io CStat p); [|done].
  destruct (files s !! p) as [n|] eqn:Hn; [|by intros []]. destruct (After _ _); [done|].
  unfold os_Remove, guard_call. rewrite Hn. destruct (io CRemove p); [|done].
  intros q Hq. by apply lookup_delete_ne.
Qed.

Lemma cleanup_walk_no_missing (io : oracle) (cutoff : Time) (paths : list string) (r : TempCleanupResult)
    (s : Store) :
  NoDup paths -> (forall p, p ∈ paths -> is_Some (files s !! p)) ->
  snd (cleanup_walk io cutoff paths (r, s)) <> Some ErrNotExist.
Proof.
  revert r s. induction paths as [|p ps IH]; intros r s Hn Hall; cbn [cleanup_walk]; [done|].
  apply NoDup_cons in Hn as [Hp Hn]. pose proof (cleanup_visit_local io cutoff p r s) as Hv.
  destruct (cleanup_visit io cutoff p (r, s)) as [[r1 s1]|e].
  - apply IH; [done|]. intros q Hq. rewrite Hv by (by intros ->). apply Hall. by right.
  - cbn. intros [= ->]. by specialize (Hv (Hall p ltac:(by left))).
Qed.

(** ** Streaming past the cache *)

(** The copy the client would see without a cache. *)
Definition client_copy (w : Writer) (src : Source) : option copy_error * string :=
  let '(_, err, down) := copy_through w src in (err, down).

(** Whether a put that ended this way had started to stream. *)
Definition streamed_at_all (err : option store_error) : bool :=
  match err with
  | Some ReadCapacity | Some CreateShard | Some CreateBody => false
  | _ => true
  end.

Definition copy_failed (err : option store_error) : bool :=
  match err with Some (StreamBody _) | Some (CopyFailed _) => true | _ => false end.

(** *** What [put_body] hands to the client *)

Lemma put_metadata_error (env : PutEnv) (bodyPath metadataPath bodyTemp generation : string) (now : Time)
    (written : Z) (text : string) (r : option Storage.Reservation) (s : Store) :
  let err := fst (fst (fst (put_metadata env bodyPath metadataPath bodyTemp generation now written text r s))) in
  streamed_at_all err = true /\ copy_failed err = false.
Proof.
  unfold put_metadata. destruct (create_temp _ _ _ s) as [s1|]; [|done].
  destruct (io env CWrite _); [|done]. destruct (io env CSync _); [|done].
  destruct (io env CClose _); [|done]. cbn [negb]. unfold commit.
  destruct (previous_entry _ _ _ _) as [[pb pn] pv]. destruct (Rename _ _ _ _ _); [|done].
  destruct (Chtimes _ _ _ _); [|done]. destruct (replace _ _ _ _) as [[?|?] ?]; [|done].
  destruct (commit_reservation _ _ _ _) as [[ok ?] ?]. by destruct ok.
Qed.

Lemma put_body_client (env : PutEnv) (bodyPath metadataPath bodyTemp : string) (m : Metadata)
    (order : list (string * list string)) (lim : Z) (src : Source) (w : Writer)
    (verify : option (Z -> bool)) (r : option Storage.Reservation) (s : Store) :
  (forall held chunk, cacheFails env held chunk = false) ->
  let '(err, down, _, _, _) := put_body env bodyPath metadataPath bodyTemp m order lim src w verify r s in
  streamed_at_all err = true /\ down = snd (client_copy w src)
  /\ copy_failed err = is_Some_b (fst (client_copy w src)).
Proof.
  intros Hcf. unfold put_body, client_copy.
  pose proof (copy_cached_transparent w (cacheFails env) lim src Hcf) as Ht.
  destruct (copy_cached w (cacheFails env) lim src) as [[written e] k]. rewrite Ht. cbn [fst snd].
  destruct e as [e|]; [done|]. cbn [is_Some_b].
  destruct (io env CSync _); [|done]. destruct (io env CClose _); [|done]. cbn [negb].
  destruct (match verify with Some v => negb (v written) | None => false end); [done|].
  destruct (overflow k); [done|]. destruct (marshal _); [|done].
  pose proof (put_metadata_error env bodyPath metadataPath bodyTemp
    (bodyPath ++ "." ++ TrimPrefix (Base bodyTemp) ".body-") (clock env) written s0 r
    (write_file bodyTemp (cache k) (clock env) s)) as [H1 H2].
  by destruct (put_metadata _ _ _ _ _ _ _ _ _) as [[[err kb] r'] s'].
Qed.

(** ** Properties *)

Lemma steps_reachable (y0 y y' : System) : reachable y0 y -> rtc step y y' -> reachable y0 y'.
Proof.
  intros Hr Ls. revert Hr. induction Ls as [|y1 y2 y3 Hs _ IH]; [done|].
  intros Hr. apply IH. by eapply reach_step.
Qed.



(** C4: in every reachable state, what a hit returns is a body, with its metadata, that
    a put committed whole under the same metadata path (or that the store was opened
    with); it has the recorded size and is younger than the time to live. *)
Theorem cache_integrity (y0 y : System) (io : oracle) (now : Time) (key : string) (ttl : Z) (e : Entry) :
  initial y0 -> reachable y0 y -> reads_ok io ->
  fst (Lookup io now (store y) key ttl) = Ok (Some e) ->
  (key_path (store y) key, EntryMetadata e, Body e) ∈ history y
  /\ len (Body e) = ContentBytes (EntryMetadata e)
  /\ Sub now (StoredAt (EntryMetadata e)) < ttl.
Proof.
  intros H0 Hr Hio Hl. pose proof (Inv_reachable _ _ H0 Hr) as HI.
  apply Lookup_hit in Hl as (n & He & -> & Hlt); [|done|apply HI]. rewrite lookup_entries in He.
  split_and!; [by eapply i_history|by apply entry_at_Some in He as (_ & _ & _ & _ & _ & _ & He)|done].
Qed.

(** C5: after a put that was kept, a lookup within the time to live returns exactly the
    content and the metadata stored; lookups of every key with another metadata path hit
    and miss as before. *)
Theorem put_then_lookup (y0 : System) (s s' : Store) (fs : gmap nat Flight)
    (hs : list (string * Metadata * string)) (env : PutEnv) (key : string) (metadata : Metadata)
    (order : list (string * list string)) (src : Source) (w : Writer) (verify : option (Z -> bool))
    (down : string) (io : oracle) (now : Time) (ttl : Z) :
  initial y0 -> reachable y0 (mkSystem s fs hs) -> put_assumptions env s key metadata order src ->
  reads_ok io -> kept env s metadata src = true ->
  PutStreamVerified env s key metadata order src w verify = (None, down, s') ->
  let gen := fst (paths s key) ++ "." ++ bodySuffix env in
  let m := stored_metadata metadata order (clock env) (len (content src)) gen in
  (Sub now (clock env) < ttl ->
   fst (Lookup io now s' key ttl) = Ok (Some (mkEntry m gen (content src))))
  /\ forall key', key_path s key' <> key_path s key ->
      hit (fst (Lookup io now s' key' ttl)) = hit (fst (Lookup io now s key' ttl)).
Proof.
  intros H0 Hr Ha Hio Hk Ep gen m. pose proof (Inv_reachable _ _ H0 Hr) as HI.
  destruct (put_lands env s fs hs key metadata order src w verify None down s' HI Ha Ep)
    as (hs' & stored & [HI' _ Lr _ Le] & _ & Hdone). destruct (Hdone eq_refl) as [_ ->].
  rewrite Hk in Le. cbn [store] in Lr, Le. pose proof (i_ok _ HI) as Hok. pose proof (i_ok _ HI') as Hok'.
  split.
  - intros Hlt. apply Lookup_hit; [done|done|].
    assert (key_path s' key = key_path s key) as -> by (unfold key_path; by rewrite Lr).
    rewrite Le. eexists. rewrite lookup_insert_eq. by split_and!.
  - intros key' Hne. apply hit_same; try done. rewrite Le. by rewrite lookup_insert_ne by congruence.
Qed.

(** C8: in every reachable state the temporary files of a put in flight are in place and
    registered until it has renamed or dropped them, no two puts share one, and a body
    that is about to be committed is the verified content within its reservation. *)
Theorem in_flight_files_safe (y0 y : System) (i : nat) (fl : Flight) :
  initial y0 -> reachable y0 y -> flights y !! i = Some fl ->
  (forall q, q ∈ names (store y) fl -> q ∈ activeTemps (store y))
  /\ (body_gone (fstage fl) = false -> is_Some (files (store y) !! body_name (store y) fl))
  /\ (forall j fl' q, flights y !! j = Some fl' -> j <> i ->
        q ∈ names (store y) fl -> q ∉ names (store y) fl')
  /\ forall body, body_of (fstage fl) = Some body ->
       data <$> files (store y) !! body_name (store y) fl = Some body
       /\ verified (fverify fl) (len body) = true
       /\ (forall r, freservation fl = Some r -> Storage.once r = false /\ len body <= Storage.bytes r).
Proof.
  intros H0 Hr Hi. pose proof (Inv_reachable _ _ H0 Hr) as HI.
  pose proof (i_flights _ HI _ _ Hi) as Hfl. pose proof Hfl as [H1 [Ha (n & Hn & Hf & Hd)] H3 H4 H5 H6 H7].
  split_and!.
  - intros q Hq. by apply (names_facts (store y) fl q (i_ok _ HI) Hfl).
  - intros E. rewrite Hf, E. by eexists.
  - intros j fl' q Hj Hne. by eapply (i_disjoint _ HI i j).
  - intros body Hb. destruct (H7 body Hb) as (Hv & _ & Hfit).
    assert (is_ending (fstage fl) = false /\ body_gone (fstage fl) = false) as [He Hg]
      by (revert Hb; by destruct (fstage fl)).
    rewrite Hf, Hg. cbn. split_and!; [by rewrite (Hd body Hb)|done|].
    intros r Hres. destruct (H5 He r Hres) as (? & -> & ?). auto.
Qed.

(** C10: a store opened on the files that any reachable state left behind, a crash in the
    middle of puts included, has exactly the same entries and counters that are exact. *)
Theorem restart_recovers (y0 y : System) (io : oracle) (w : Walk) :
  initial y0 -> reachable y0 y -> reads_ok io -> io CMkdirAll (root (store y)) = true ->
  full_walk w (store y) ->
  exists s', New io w (root (store y)) (files (store y)) = Some s'
    /\ entries (files s') = entries (files (store y)) /\ activeTemps s' = ∅
    /\ Size s' = (wrap64 (usage_bytes (files (store y))), wrap64 (usage_objects (files (store y)))).
Proof.
  intros H0 Hr Hio Hm Hw. unfold New. rewrite Hm. cbn [negb]. rewrite Reconcile_exact; [|done|exact Hw].
  by eexists.
Qed.

(** C26: while the cache file takes its writes, a put that starts to stream hands the
    client exactly the bytes, and the failure if any, of a plain copy of the source,
    whatever the budget, the limit, the verification and the commit decide. *)
Theorem client_unaffected_by_cache (env : PutEnv) (s : Store) (key : string) (metadata : Metadata)
    (order : list (string * list string)) (src : Source) (w : Writer) (verify : option (Z -> bool)) :
  (forall held chunk, cacheFails env held chunk = false) ->
  let '(err, down, _) := PutStreamVerified env s key metadata order src w verify in
  if streamed_at_all err
  then down = snd (client_copy w src) /\ copy_failed err = is_Some_b (fst (client_copy w src))
  else down = EmptyString.
Proof.
  intros Hcf. unfold PutStreamVerified.
  destruct (admitPut s (Header_ metadata) (freeBytes env)) as [[e| |r n] s1] eqn:Ea.
  - assert (e = ReadCapacity) as ->; [|done]. revert Ea. unfold admitPut.
    destruct (contentLength _), (controller s); [|done]. destruct (freeBytes env); [|by intros [= <-]].
    destruct (negb _); [done|]. by destruct (Storage.Reserve _ _ _) as [[?|] ?].
  - unfold client_copy. destruct (copy_through w src) as [[written [e|]] d]; done.
  - destruct (paths s1 key) as [bodyPath metadataPath].
    destruct (io env CMkdirAll _); [|done]. cbn [negb]. destruct (create_temp _ _ _ s1); [|done].
    pose proof (put_body_client env bodyPath metadataPath (body_temp (Dir bodyPath) (bodySuffix env))
      metadata order (if is_Some_b (controller s) then n else -1) src w verify r s0 Hcf) as H.
    destruct (put_body _ _ _ _ _ _ _ _ _ _ _ _) as [[[[err down] kb] r'] s']. by destruct H as (-> & ? & ?).
Qed.

Lemma GC_effect (io : oracle) (now : Time) (w : Walk) (s : Store) (maxAge : Z) :
  reads_ok io -> store_ok s -> Forall proper (visited w) -> 0 < maxAge ->
  let '(r, err, s') := GC io now w s maxAge in
  let cutoff := TimeAdd now (- maxAge) in
  (forall p m b n, entries (files s) !! p = Some (m, b, n) -> expired cutoff m = false ->
     entries (files s') !! p = Some (m, b, n))
  /\ entries (files s') ⊆ entries (files s)
  /\ Size s' = (wrap64 (usage_bytes (files s')), wrap64 (usage_objects (files s')))
  /\ Objects r = wrap64 (usage_objects (files s) - usage_objects (files s'))
  /\ GCBytes r = wrap64 (usage_bytes (files s) - usage_bytes (files s'))
  /\ ((forall q, io CRemove q = true) -> full_walk w s -> err = None /\
      forall p m b n, entries (files s') !! p = Some (m, b, n) -> expired cutoff m = false).
Proof.
  intros Hio Hok Hw Hage. destruct (GC_ok io now w s maxAge Hio Hok Hw) as [Hok' _]. revert Hok'.
  unfold GC. rewrite (proj2 (Z.leb_gt _ _)) by lia. cbv zeta. set (cutoff := TimeAdd now (- maxAge)).
  pose proof (gc_fold_collected io cutoff (visited w) (mkGCResult 0 0 0) s Hio Hok Hw
    ltac:(by cbn) ltac:(by cbn)) as Hc.
  destruct (foldl _ _ _) as [r s']. cbn [snd]. intros [_ _ [Hb Ho] _].
  destruct Hc as [[Hsub Hexp Eo Eb] Hall]. split_and!; try done.
  - intros p m b n He Hx. destruct (entries (files s') !! p) as [e|] eqn:E.
    + rewrite <- He. symmetry. by eapply lookup_weaken.
    + destruct (Hexp p) as (m' & b' & n' & He' & Hx'); [by eexists|done|]. simplify_eq. congruence.
  - unfold Size. by rewrite Hb, Ho.
  - intros Hrm Hfull. split; [by destruct Hfull as (_ & -> & _)|].
    intros p m b n He. destruct (expired cutoff m) eqn:Hx; [|done]. exfalso.
    eapply (Hall Hrm p); [|by exists m, b, n]. eapply full_walk_entries; [exact Hfull|].
    eapply lookup_weaken in He; [|exact Hsub]. by eexists.
Qed.

(** A collection takes away only entries stored at least [maxAge] ago, never one
    whose time is unset, leaves the others as they are, keeps the counters exact and
    reports the number and the bytes of what it took; when the walk is complete and no
    removal is refused, no expired entry is left. *)
Theorem GC_collects_expired (io : oracle) (now : Time) (w : Walk) (s : Store) (maxAge : Z) :
  reads_ok io -> store_ok s -> Forall proper (visited w) -> 0 < maxAge ->
  let '(r, err, s') := GC io now w s maxAge in
  let cutoff := TimeAdd now (- maxAge) in
  (forall p m b n, entries (files s) !! p = Some (m, b, n) -> expired cutoff m = false ->
     entries (files s') !! p = Some (m, b, n))
  /\ entries (files s') ⊆ entries (files s)
  /\ Size s' = (wrap64 (usage_bytes (files s')), wrap64 (usage_objects (files s')))
  /\ Objects r = wrap64 (usage_objects (files s) - usage_objects (files s'))
  /\ GCBytes r = wrap64 (usage_bytes (files s) - usage_bytes (files s'))
  /\ ((forall q, io CRemove q = true) -> full_walk w s -> err = None /\
      forall p m b n, entries (files s') !! p = Some (m, b, n) -> expired cutoff m = false).
Proof. apply GC_effect. Qed.

Lemma Candidates_effect (io : oracle) (w : Walk) (s : Store) :
  reads_ok io -> full_walk w s ->
  let '(cs, err) := Candidates io w s in
  err = None /\ StronglySorted used_before cs /\ NoDup (metadataPath <$> cs)
  /\ forall c, c ∈ cs <-> exists m n,
       entries (files s) !! metadataPath c = Some (m, bodyPath c, n)
       /\ CandidateBytes c = size_of n
       /\ LastUsed c = (if IsZero (mtime n) then StoredAt m else mtime n).
Proof.
  intros Hio Hw. unfold Candidates. set (l := omap (candidate_at io s) (visited w)).
  pose proof (merge_sort_Permutation used_before l) as P.
  split_and!; [apply Hw| | |].
  - apply Sorted_StronglySorted; [intros a b c; unfold used_before; lia|].
    apply Sorted_merge_sort, _.
  - rewrite P. apply omap_NoDup_path; [done|apply Hw].
  - intros c. rewrite P. unfold l. rewrite list_elem_of_omap. split.
    + intros (p & _ & Ec). apply candidate_at_Some in Ec as [-> Ec]; done.
    + intros (m & n & He & H). exists (metadataPath c). split.
      * by eapply full_walk_entries; [|eexists].
      * apply candidate_at_Some; [done|]. split; [done|]. by exists m, n.
Qed.

(** The candidates for eviction are exactly the complete entries on disk, each once,
    with the size of its body and the time of its last use, oldest first. *)
Theorem Candidates_complete_and_ordered (io : oracle) (w : Walk) (s : Store) :
  reads_ok io -> full_walk w s ->
  let '(cs, err) := Candidates io w s in
  err = None /\ StronglySorted used_before cs /\ NoDup (metadataPath <$> cs)
  /\ forall c, c ∈ cs <-> exists m n,
       entries (files s) !! metadataPath c = Some (m, bodyPath c, n)
       /\ CandidateBytes c = size_of n
       /\ LastUsed c = (if IsZero (mtime n) then StoredAt m else mtime n).
Proof. apply Candidates_effect. Qed.

Lemma RemoveCandidate_effect (io : oracle) (s : Store) (c : Candidate) :
  reads_ok io -> store_ok s -> proper (metadataPath c) ->
  let '(removed, err, s') := RemoveCandidate io s c in
  (removed = false -> s' = s)
  /\ (removed = true -> exists m n,
       entries (files s) !! metadataPath c = Some (m, bodyPath c, n) /\ size_of n = CandidateBytes c
       /\ entries (files s') = delete (metadataPath c) (entries (files s))
       /\ Size s' = (wrap64 (bytes s - CandidateBytes c), wrap64 (objects s - 1)))
  /\ (forall m n, entries (files s) !! metadataPath c = Some (m, bodyPath c, n) ->
       size_of n = CandidateBytes c -> io CRemove (bodyPath c) = true -> removed = true).
Proof.
  intros Hio Hok Hp.
  destruct (RemoveCandidate_cases io s c Hio (ok_torn _ Hok)) as [[e E]|(m & n & l & He & Hsz & Hl & E)].
  - rewrite E. split_and!; [done|done|]. intros m n. rewrite lookup_entries.
    intros (_ & _ & Hm & (l & Hl & Hb) & Hn & _ & Hs)%entry_at_Some Hsz Hrm. revert E.
    unfold RemoveCandidate. rewrite Hl, (readMetadata_ok io), Hm, Hb by done.
    rewrite String.eqb_refl, <- Hs, Hsz, Z.eqb_refl. cbn [negb orb].
    unfold os_Remove at 1, guard_call at 1. rewrite Hrm, Hn. by destruct (os_Remove io _ _).
  - pose proof (without_body_entries s _ m _ n Hok Hp He) as Ed.
    destruct (without_body_ok s _ m _ n Hok Hp He) as (Hok1 & _ & Hnone & _).
    pose proof (meta_removal_entries io (without_body s (bodyPath c) n) _ l Hok1 Hp Hl Hnone) as Hm.
    rewrite E. cbv zeta. destruct (os_Remove io _ _) as [f|e]; split_and!; try done; intros _;
      exists m, n; rewrite lookup_entries; split_and!; try done.
    1: cbn [files set_files]; by rewrite Hm.
    all: unfold Size; cbn; by rewrite Hsz.
Qed.

(** An eviction removes the entry the candidate describes and counts it out, or
    removes nothing: an entry that was replaced since, by another generation or another
    size, is never touched. *)
Theorem RemoveCandidate_exact_generation (io : oracle) (s : Store) (c : Candidate) :
  reads_ok io -> store_ok s -> proper (metadataPath c) ->
  let '(removed, err, s') := RemoveCandidate io s c in
  (removed = false -> s' = s)
  /\ (removed = true -> exists m n,
       entries (files s) !! metadataPath c = Some (m, bodyPath c, n) /\ size_of n = CandidateBytes c
       /\ entries (files s') = delete (metadataPath c) (entries (files s))
       /\ Size s' = (wrap64 (bytes s - CandidateBytes c), wrap64 (objects s - 1)))
  /\ (forall m n, entries (files s) !! metadataPath c = Some (m, bodyPath c, n) ->
       size_of n = CandidateBytes c -> io CRemove (bodyPath c) = true -> removed = true).
Proof. apply RemoveCandidate_effect. Qed.

(** C28: the removal of stale temporary files takes away only temporary files of no put
    in flight that are old enough, changes no entry and no counter, and reports the number
    and the bytes of what it took; when it ends without error after a complete walk, none
    of them is left. *)
Theorem CleanupStaleTemps_only_stale (io : oracle) (now : Time) (w : Walk) (s : Store) (maxAge : Z) :
  store_ok s -> Forall proper (visited w) -> 0 < maxAge ->
  let '(r, err, s') := CleanupStaleTemps io now w s maxAge in
  let cutoff := TimeAdd now (- maxAge) in
  (forall q, files s' !! q = files s !! q \/ (stale cutoff s q /\ files s' !! q = None))
  /\ entries (files s') = entries (files s) /\ Size s' = Size s
  /\ Files r = wrap64 (Z.of_nat (size (files s)) - Z.of_nat (size (files s')))
  /\ TempBytes r = wrap64 (files_bytes (files s) - files_bytes (files s'))
  /\ (err = None -> full_walk w s -> walk_error w = None ->
      (forall p, p ∈ visited w -> is_Some (files s !! p)) ->
      forall q, stale cutoff s q -> walked_dir (files s) q = false -> files s' !! q = None).
Proof.
  intros Hok Hw Hage. pose proof (CleanupStaleTemps_ok io now w s maxAge Hok Hw) as [_ C]. revert C.
  unfold CleanupStaleTemps. rewrite (proj2 (Z.leb_gt _ _)) by lia. cbv zeta.
  change (TimeAdd now (- maxAge)) with (now - maxAge). set (cutoff := now - maxAge).
  pose proof (cleanup_walk_swept io cutoff (visited w) (mkTempCleanupResult 0 0) s Hok Hw
    ltac:(by cbn) ltac:(by cbn)) as Hs.
  destruct (cleanup_walk io cutoff (visited w) _) as [[r s'] e] eqn:Ec. cbn [snd fst].
  intros [(_ & _ & _ & Hb & Ho) Hf He]. destruct Hs as [[Ef Eb] Hall].
  split_and!; try done; [unfold Size; by rewrite Hb, Ho|].
  intros Herr Hfull Hwe Hvis q Hst Hd. apply Hall; [|by apply Hfull; destruct Hst as (_ & _ & n & -> & _)|done..].
  pose proof (cleanup_walk_no_missing io cutoff (visited w) (mkTempCleanupResult 0 0) s (proj1 Hfull) Hvis) as Hm.
  rewrite Ec in Hm. revert Herr. by destruct e as [[|]|].
Qed.

End StoreTheorems.
