(* ===== verification/StoreExamples.v ===== *)
(** * The cache store at work

    Concrete stores on which the theorems apply: a store below [/c] with a budget of a
    hundred bytes, one put of five bytes under the key [k], and what follows. *)

From S2P Require Import Prelude GoStrings FilePath Sha256 Http HttpPolicy Time Metadata Fs Store StoreFacts StoreOps StorePut StoreStream StoreSystem StoreSafety StoreRuns StoreEnds StoreTheorems.
From S2P Require Storage.
From Stdlib Require Import Ascii String Sorted.
Local Open Scope string_scope.
Local Open Scope Z_scope.

(** Nothing else is under the budget. *)
#[export] Instance alone : Elsewhere := {| elsewhere := 0; elsewhere_nonneg := ltac:(done) |}.

Definition demo_budget : Storage.Controller := Storage.mkController 100 9000 7500 0 0 0 0 0.
Definition demo_store : Store := mkStore "/c" 0 0 (Some demo_budget) ∅ ∅.
Definition demo_system : System := mkSystem demo_store ∅ [].

Definition demo_entries : list (string * list string) := [("Content-Length", ["5"])].
Definition demo_metadata : Metadata :=
  mkMetadata 200 (<["Content-Length" := ["5"]]> ∅) zeroTime 0 EmptyString EmptyString.
Definition demo_time : Time := 1721922330 * nanos.
Definition demo_env : PutEnv := mkPutEnv calm (Some 1000) "1" "2" demo_time (fun _ _ => false).
Definition demo_source : Source := bytes_source "hello".

Definition demo_put : option store_error * string * Store :=
  PutStreamVerified demo_env demo_store "k" demo_metadata demo_entries demo_source accepts_all None.
Definition demo_after : Store := snd demo_put.

Definition demo_hash : string := "8254c329a92850f6d539dd376f4816ee2764517da5e0235514af433164480d7a".

Example demo_hash_eq : sha256_hex "k" = demo_hash.
Proof. vm_compute. reflexivity. Qed.

(** What was stored. *)
Definition demo_stored : Metadata :=
  mkMetadata 200 (<["Content-Length" := ["5"]]> ∅) demo_time 5 EmptyString
    (demo_hash ++ ".body.1").

Example demo_put_succeeds : fst demo_put = (None, "hello").
Proof. vm_compute. reflexivity. Qed.

Example demo_after_counters :
  (Size demo_after, option_map Storage.committedBytes (controller demo_after), activeTemps demo_after)
  = ((5, 1), Some 5, ∅).
Proof. vm_compute. reflexivity. Qed.

Lemma empty_ok (root : string) (c : option Storage.Controller) :
  clean_dir root -> store_ok (mkStore root 0 0 c ∅ ∅).
Proof.
  intros Hr. split; [done|by intros p [n Hn]|done|].
  intros p l m b n _ _ _ Hn. by apply (lookup_empty_Some b n) in Hn.
Qed.

Lemma demo_initial : initial demo_system.
Proof.
  split_and!.
  - by apply empty_ok.
  - intros c [= <-]. vm_compute. done.
  - done.
  - intros p m b n H. rewrite entry_at_missing in H; [done|apply lookup_empty].
Qed.

Lemma demo_kept : kept demo_env demo_store demo_metadata demo_source = true.
Proof. vm_compute. reflexivity. Qed.

Lemma demo_stored_eq :
  stored_metadata demo_metadata demo_entries (clock demo_env) (len (content demo_source))
    (fst (paths demo_store "k") ++ "." ++ bodySuffix demo_env) = demo_stored.
Proof. vm_compute. reflexivity. Qed.

Lemma demo_encodable : encodable demo_stored.
Proof.
  split.
  - split; unfold demo_stored; int64_lia || (cbn; int64_lia).
  - intros k vs Hk. change (<["Content-Length" := ["5"]]> (∅ : Header) !! k = Some vs) in Hk.
    apply lookup_insert_Some in Hk as [[<- <-]|[_ Hk]];
      [|by apply lookup_empty_Some in Hk].
    split; [by apply ascii_utf8|]. constructor; [by apply ascii_utf8|constructor].
  - by vm_compute.
  - split; apply ascii_utf8; vm_compute; reflexivity.
Qed.

Lemma empty_fresh (mp gen : string) : fresh_generation ∅ mp gen.
Proof.
  split; [apply lookup_empty|]. intros legacy m b Hm. apply readMetadata_Ok in Hm as (n & Hn & _).
  by apply (lookup_empty_Some mp n) in Hn.
Qed.

Lemma demo_assumptions : put_assumptions demo_env demo_store "k" demo_metadata demo_entries demo_source.
Proof.
  split.
  - exact reads_calm.
  - by split.
  - split; [apply lookup_empty|apply not_elem_of_empty].
  - split; [apply lookup_empty|apply not_elem_of_empty].
  - intros H. discriminate H.
  - apply empty_fresh.
  - intros m. assert (m = demo_stored) as -> by exact demo_stored_eq. split; [exact demo_encodable|].
    intros text Ht. assert (Marshal demo_stored = Some text) as Hm by exact Ht.
    assert (option_map len (Marshal demo_stored) = Some 187) as Hl by (vm_compute; reflexivity).
    rewrite Hm in Hl. injection Hl as ->. unfold maxMetadataBytes. lia.
  - vm_compute. discriminate.
Qed.

Lemma demo_reachable : reachable demo_system demo_system.
Proof. constructor. Qed.

Lemma demo_put_eq :
  PutStreamVerified demo_env demo_store "k" demo_metadata demo_entries demo_source accepts_all None
  = (None, "hello", demo_after).
Proof. unfold demo_after. rewrite <- demo_put_succeeds. apply surjective_pairing. Qed.

(** The system after the put. *)
Definition demo_final : System :=
  mkSystem demo_after ∅ [(key_path demo_store "k", demo_stored, "hello")].

Lemma demo_final_lands :
  lands demo_system demo_final (key_path demo_store "k") demo_stored
    (fst (paths demo_store "k") ++ "." ++ bodySuffix demo_env) "hello" true.
Proof.
  destruct (put_lands demo_env demo_store ∅ [] "k" demo_metadata demo_entries demo_source accepts_all None
    None "hello" demo_after (Inv_initial _ demo_initial) demo_assumptions demo_put_eq)
    as (hs' & stored & L & _ & Hdone). destruct (Hdone eq_refl) as [_ ->].
  rewrite demo_kept, demo_stored_eq in L. pose proof (l_history _ _ _ _ _ _ _ L) as E. cbn [history] in E.
  subst hs'. exact L.
Qed.

Lemma demo_final_reachable : reachable demo_system demo_final.
Proof. eapply steps_reachable; [exact demo_reachable|apply demo_final_lands]. Qed.

Lemma demo_final_ok : store_ok demo_after.
Proof. apply (l_inv _ _ _ _ _ _ _ demo_final_lands). Qed.

(** The complete walk of what the put left: the body and the metadata. *)
Definition demo_body : string := "/c/82/" ++ demo_hash ++ ".body.1".
Definition demo_meta : string := "/c/82/" ++ demo_hash ++ ".json".
Definition demo_walk : Walk := mkWalk [demo_body; demo_meta] None.

Lemma walk_covers (w : Walk) (s : Store) :
  forallb (fun x => existsb (String.eqb (fst x)) (visited w)) (map_to_list (files s)) = true ->
  forall p, is_Some (files s !! p) -> p ∈ visited w.
Proof.
  rewrite forallb_forall. intros H p [n Hn]. apply elem_of_map_to_list, list_elem_of_In in Hn.
  apply H, existsb_exists in Hn as (q & Hq & E%String.eqb_eq). cbn in E. subst q.
  by apply list_elem_of_In.
Qed.

Lemma demo_walk_full : full_walk demo_walk demo_after.
Proof.
  split_and!; [|done|by apply walk_covers; vm_compute].
  apply NoDup_cons; split; [|apply NoDup_singleton]. by intros [=]%list_elem_of_singleton.
Qed.

Lemma demo_walk_proper : Forall proper (visited demo_walk).
Proof.
  repeat constructor; [exists "/c/82", (demo_hash ++ ".body.1")|exists "/c/82", (demo_hash ++ ".json")];
    split_and!; by vm_compute.
Qed.

Lemma demo_path : key_path demo_store "k" = demo_meta.
Proof. vm_compute. reflexivity. Qed.

Lemma demo_entry :
  entries (files demo_after) = {[ demo_meta := (demo_stored, demo_body, mkNode Regular "hello" demo_time) ]}.
Proof.
  pose proof (l_entries _ _ _ _ _ _ _ demo_final_lands) as E. cbn [store demo_final demo_system] in E.
  rewrite E, demo_path.
  assert (fst (paths demo_store "k") ++ "." ++ bodySuffix demo_env = demo_body) as -> by (vm_compute; reflexivity).
  reflexivity.
Qed.

(** A put that has just created its body's file. *)
Definition demo_flight : Flight :=
  mkFlight "k" "1" (Some (Storage.mkReservation 5 false)) 5 None Streaming.
Definition demo_temp : string := "/c/82/.body-1".
Definition demo_opened : Store :=
  mkStore "/c" 0 0 (Some (Storage.mkController 100 9000 7500 0 0 5 0 0)) {[ demo_temp ]}
    {[ demo_temp := mkNode Regular EmptyString demo_time ]}.
Definition demo_open : System := mkSystem demo_opened {[ 0%nat := demo_flight ]} [].

Lemma demo_open_reachable : reachable demo_system demo_open.
Proof.
  eapply reach_step; [apply reach_start|].
  assert (body_name demo_store demo_flight = demo_temp) as Eb by (vm_compute; reflexivity).
  refine (step_open demo_store ∅ [] 0%nat calm (Header_ demo_metadata) (Some 1000)
    (Some (Storage.mkReservation 5 false)) 5 _ demo_opened "k" "1" None demo_time _ _ _ _ _ _).
  - vm_compute. reflexivity.
  - apply lookup_empty.
  - done.
  - apply lookup_empty.
  - apply not_elem_of_empty.
  - change (create_temp calm (body_name demo_store demo_flight) demo_time
      (set_controller (Some (Storage.mkController 100 9000 7500 0 0 5 0 0)) demo_store) = Some demo_opened).
    rewrite Eb. vm_compute. reflexivity.
Qed.

(** The store a crash at this point leaves, opened again. *)
Definition demo_crashed : Store :=
  mkStore "/c" 0 0 None ∅ {[ demo_temp := mkNode Regular EmptyString demo_time ]}.

Lemma demo_crashed_reachable : reachable demo_system (mkSystem demo_crashed ∅ []).
Proof.
  eapply reach_step; [exact demo_open_reachable|].
  apply (step_restart _ _ _ calm (mkWalk [demo_temp] None)); [apply reads_calm| |by vm_compute].
  split_and!; [apply NoDup_singleton|done|by apply walk_covers; vm_compute].
Qed.

(** ** Witnesses *)



Definition minute : Z := 60 * nanos.

Lemma cache_integrity_witness :
  fst (Lookup calm (demo_time + nanos) demo_after "k" minute)
    = Ok (Some (mkEntry demo_stored demo_body "hello"))
  /\ (key_path demo_after "k", demo_stored, "hello") ∈ history demo_final.
Proof.
  assert (fst (Lookup calm (demo_time + nanos) demo_after "k" minute)
    = Ok (Some (mkEntry demo_stored demo_body "hello"))) as E by (vm_compute; reflexivity).
  split; [exact E|].
  exact (proj1 (cache_integrity demo_system demo_final calm (demo_time + nanos) "k" minute _
    demo_initial demo_final_reachable reads_calm E)).
Defined.

Lemma put_then_lookup_witness :
  fst (Lookup calm (demo_time + nanos) demo_after "k" minute)
    = Ok (Some (mkEntry demo_stored (fst (paths demo_store "k") ++ "." ++ bodySuffix demo_env) "hello")).
Proof.
  pose proof (put_then_lookup demo_system demo_store demo_after ∅ [] demo_env "k" demo_metadata demo_entries
    demo_source accepts_all None "hello" calm (demo_time + nanos) minute demo_initial demo_reachable
    demo_assumptions reads_calm demo_kept demo_put_eq) as [H _].
  rewrite demo_stored_eq in H. apply H. vm_compute. reflexivity.
Defined.

Lemma in_flight_files_safe_witness : is_Some (files demo_opened !! body_name demo_opened demo_flight).
Proof.
  destruct (in_flight_files_safe demo_system demo_open 0%nat demo_flight demo_initial demo_open_reachable)
    as (_ & H & _); [reflexivity|]. apply H. reflexivity.
Defined.

Lemma puts_can_end_witness :
  exists y', rtc step demo_open y' /\ flights y' = ∅ /\ files (store y') !! demo_temp = None.
Proof.
  destruct (puts_can_end demo_system demo_open demo_initial demo_open_reachable)
    as (y' & Hs & Hn & _ & _ & Hg & _).
  exists y'. split_and!; [exact Hs|exact Hn|]. apply Hg. exists 0%nat, demo_flight.
  split; [reflexivity|]. assert (body_name demo_opened demo_flight = demo_temp) as <- by (vm_compute; reflexivity).
  apply list_elem_of_here.
Defined.

Lemma restart_recovers_witness :
  exists s', New calm demo_walk "/c" (files demo_after) = Some s' /\ Size s' = (5, 1).
Proof.
  destruct (restart_recovers demo_system demo_final calm demo_walk demo_initial demo_final_reachable
    reads_calm eq_refl demo_walk_full) as (s' & Hn & _ & _ & Hs).
  exists s'. split; [exact Hn|]. rewrite Hs. vm_compute. reflexivity.
Defined.

Lemma client_unaffected_by_cache_witness : snd (fst demo_put) = snd (client_copy accepts_all demo_source).
Proof.
  pose proof (client_unaffected_by_cache demo_env demo_store "k" demo_metadata demo_entries demo_source
    accepts_all None (fun _ _ => eq_refl)) as H.
  rewrite demo_put_eq in H. destruct H as [H _]. rewrite demo_put_succeeds. exact H.
Defined.

Lemma GC_collects_expired_witness :
  let '(r, err, s') := GC calm (demo_time + 2 * minute) demo_walk demo_after minute in
  r = mkGCResult 1 5 0 /\ Size s' = (wrap64 (usage_bytes (files s')), wrap64 (usage_objects (files s'))).
Proof.
  pose proof (GC_collects_expired calm (demo_time + 2 * minute) demo_walk demo_after minute reads_calm
    demo_final_ok demo_walk_proper ltac:(reflexivity)) as H.
  assert (fst (fst (GC calm (demo_time + 2 * minute) demo_walk demo_after minute)) = mkGCResult 1 5 0) as E
    by (vm_compute; reflexivity).
  destruct (GC calm (demo_time + 2 * minute) demo_walk demo_after minute) as [[r err] s'].
  split; [exact E|apply H].
Defined.

Definition demo_candidate : Candidate := mkCandidate demo_meta demo_body 5 demo_time.

Lemma Candidates_complete_and_ordered_witness :
  fst (Candidates calm demo_walk demo_after) = [demo_candidate]
  /\ StronglySorted used_before (fst (Candidates calm demo_walk demo_after)).
Proof.
  pose proof (Candidates_complete_and_ordered calm demo_walk demo_after reads_calm demo_walk_full) as H.
  split; [vm_compute; reflexivity|].
  destruct (Candidates calm demo_walk demo_after) as [cs err]. apply H.
Defined.

Lemma RemoveCandidate_exact_generation_witness :
  fst (fst (RemoveCandidate calm demo_after demo_candidate)) = true
  /\ fst (fst (RemoveCandidate calm demo_after (mkCandidate demo_meta (demo_body ++ "0") 5 demo_time))) = false.
Proof.
  split; [|vm_compute; reflexivity].
  pose proof (RemoveCandidate_exact_generation calm demo_after demo_candidate reads_calm demo_final_ok
    (Forall_inv (Forall_inv_tail demo_walk_proper))) as H.
  destruct (RemoveCandidate calm demo_after demo_candidate) as [[removed err] s'].
  destruct H as (_ & _ & H). apply (H demo_stored (mkNode Regular "hello" demo_time)); [|reflexivity..].
  change (entries (files demo_after) !! demo_meta = Some (demo_stored, demo_body, mkNode Regular "hello" demo_time)).
  rewrite demo_entry. apply lookup_insert_eq.
Defined.

Lemma CleanupStaleTemps_only_stale_witness :
  let '(r, err, s') := CleanupStaleTemps calm (demo_time + 2 * minute) (mkWalk [demo_temp] None) demo_crashed minute in
  r = mkTempCleanupResult 1 0 /\ entries (files s') = entries (files demo_crashed).
Proof.
  assert (Forall proper [demo_temp]) as Hp.
  { constructor; [|constructor]. exists "/c/82", ".body-1". by split_and!; vm_compute. }
  pose proof (CleanupStaleTemps_only_stale calm (demo_time + 2 * minute) (mkWalk [demo_temp] None)
    demo_crashed minute (i_ok _ (Inv_reachable _ _ demo_initial demo_crashed_reachable)) Hp
    ltac:(reflexivity)) as H.
  assert (fst (fst (CleanupStaleTemps calm (demo_time + 2 * minute) (mkWalk [demo_temp] None) demo_crashed minute))
    = mkTempCleanupResult 1 0) as E by (vm_compute; reflexivity).
  destruct (CleanupStaleTemps _ _ _ _ _) as [[r err] s']. split; [exact E|apply H].
Defined.

(** ** A replacement that gets stuck *)

Definition stuck_env : PutEnv :=
  mkPutEnv (fun c p => match c with
                       | CRename => negb (isTempName (Base p)) || HasPrefix (Base p) ".body-"
                       | CRenameAgain => false
                       | _ => true
                       end) (Some 1000) "3" "4" (demo_time + nanos) (fun _ _ => false).

