(* ===== verification/Handler.v ===== *)
(** * What a request handler does to the world

    The three proxies serve a request with the same means: the response writer, the
    upstream client, the cache store and a set of counters.  A handler is a function of
    the state monad [M] over a [World] that holds them, in an [Env] that fixes what the
    surroundings decide: the answers of the upstream, the clocks, the order of the
    header loops and what other requests do to the store meanwhile. *)

From S2P Require Import Prelude Float GoStrings Url Http HttpPolicy Time Metadata Fs.
From S2P Require Import Store.
From Stdlib Require Import Ascii String.
Local Open Scope string_scope.
Local Open Scope Z_scope.

(** ** Data *)

Record Response := mkResponse {
  StatusCode : Z;
  RespHeader : Header;
  RespBody : Source;
  BodyError : error   (* what reading the body fails with, when it fails *)
}.

(** The counters of a proxy; the npm proxy has no [rangeRequests] and leaves it. *)
Record counters := mkCounters {
  requests : Z;
  hits : Z;
  misses : Z;
  errors : Z;
  clientCanceled : Z;
  rangeRequests : Z
}.

(** [http.ResponseWriter]: the header map the handler edits, the status and header
    sent by the first [WriteHeader], and the body the connection accepted. *)
Record Reply := mkReply {
  live : Header;
  sent : option (Z * Header);
  replyBody : string
}.

Definition emptyReply : Reply := mkReply ∅ None EmptyString.

Record Put := mkPut {
  putStore : Store;
  putKey : string;
  putMetadata : Metadata;
  putEntries : list (string * list string);
  putSource : Source;
  putVerify : option (Z -> bool)
}.

(** What a handler did, in order. *)
Inductive event :=
  | Sent (r : Request)
  | Putting (p : Put)
  | ServedFile (filename : string) (modified : Time) (text : string).   (* [http.ServeContent] *)

Record World := mkWorld {
  cacheStore : Store;
  stats : counters;
  reply : Reply;
  events : list event
}.

Inductive moment := FirstLookup | SecondLookup | Serving | Storing.
Inductive loop := Forwarding | Responding | Persisting | Copying | Committing.

Record Env := mkEnv {
  order : loop -> Header -> list (string * list string);
  upstreamDo : nat -> Request -> result error Response;   (* the n-th call of the client *)
  contextErr : option error;
  clockAt : moment -> Time;
  ioAt : moment -> oracle;
  others : moment -> Store -> Store;
  putEnv : PutEnv;
  connection : Writer
}.

(** ** The monad *)

Definition M (A : Type) : Type := World -> A * World.

#[export] Instance M_ret : MRet M := fun A a w => (a, w).
#[export] Instance M_bind : MBind M := fun A B f m w => let '(a, w) := m w in f a w.

Definition modify (f : World -> World) : M unit := fun w => (tt, f w).

Definition set_store (s : Store) (w : World) : World :=
  mkWorld s (stats w) (reply w) (events w).
Definition set_stats (c : counters) (w : World) : World :=
  mkWorld (cacheStore w) c (reply w) (events w).
Definition set_reply (r : Reply) (w : World) : World :=
  mkWorld (cacheStore w) (stats w) r (events w).
Definition add_event (e : event) (w : World) : World :=
  mkWorld (cacheStore w) (stats w) (reply w) (events w ++ [e])%list.

(** *** Counters: [Add(1)] on an [atomic.Uint64] *)

Inductive counter := Requests | Hits | Misses | Errors | ClientCanceled | RangeRequests.

Definition bump (k : counter) (c : counters) : counters :=
  let '(mkCounters r h m e cc rr) := c in
  match k with
  | Requests => mkCounters (wrapU64 (r + 1)) h m e cc rr
  | Hits => mkCounters r (wrapU64 (h + 1)) m e cc rr
  | Misses => mkCounters r h (wrapU64 (m + 1)) e cc rr
  | Errors => mkCounters r h m (wrapU64 (e + 1)) cc rr
  | ClientCanceled => mkCounters r h m e (wrapU64 (cc + 1)) rr
  | RangeRequests => mkCounters r h m e cc (wrapU64 (rr + 1))
  end.

Definition count (k : counter) : M unit := modify (fun w => set_stats (bump k (stats w)) w).

(** *** The response writer *)

Definition edit_header (f : Header -> Header) : M unit :=
  modify (fun w => set_reply (mkReply (f (live (reply w))) (sent (reply w)) (replyBody (reply w))) w).

Definition copy_headers (entries : list (string * list string)) : M unit :=
  edit_header (fun h => CopyHeaders h entries).

Definition set_header (key value : string) : M unit := edit_header (fun h => Set_ h key value).

Definition send_head (status : Z) (r : Reply) : Reply :=
  match sent r with
  | Some _ => r
  | None => mkReply (live r) (Some (status, live r)) (replyBody r)
  end.

Definition WriteHeader (status : Z) : M unit :=
  modify (fun w => set_reply (send_head status (reply w)) w).

Definition append_body (text : string) : M unit :=
  modify (fun w =>
    let r := send_head 200 (reply w) in
    set_reply (mkReply (live r) (sent r) (replyBody r ++ text)) w).

Definition newline : string := String "010" EmptyString.

Section Handler.
Context {codec : MetadataCodec} (env : Env).

(** One [Write], its result ignored. *)
Definition write_once (text : string) : M unit :=
  append_body (snd (record_write (connection env) EmptyString text)).

(** [io.Copy(writer, source)]: whether it fails. *)
Definition copy_body (src : Source) : M (option copy_error) :=
  let '(_, err, down) := copy_through (connection env) src in
  _ ← append_body down;
  mret err.

(** [http.Error] and [http.NotFound]. *)
Definition http_Error (message : string) (status : Z) : M unit :=
  _ ← edit_header (fun h => Del h "Content-Length");
  _ ← set_header "Content-Type" "text/plain; charset=utf-8";
  _ ← set_header "X-Content-Type-Options" "nosniff";
  _ ← WriteHeader status;
  write_once (message ++ newline).

Definition NotFound : M unit := http_Error "404 page not found" 404.

(** What the server sends once the handler has returned. *)
Definition final (w : World) : Z * Header * string :=
  let '(status, h) := default (200, live (reply w)) (sent (reply w)) in
  (status, h, replyBody (reply w)).

(** *** The upstream client *)

Definition hasPort (host : string) : bool :=
  match last_cut host ":" with
  | Some (_, after) => negb (Contains after "]")
  | None => false
  end.

Definition removeEmptyPort (host : string) : string :=
  if hasPort host then TrimSuffix host ":" else host.

Definition validMethod (method : string) : bool :=
  nonempty method && str_forall validHeaderFieldByte method.

Definition parseError (url : string) : error := UrlError "parse" url (Some (GoError EmptyString None)).

(** [http.NewRequestWithContext] without a body. *)
Definition NewRequest (method url : string) : result error Request :=
  let method := if (method =? EmptyString)%string then "GET" else method in
  if negb (validMethod method) then Err (GoError "net/http: invalid method" None)
  else match Parse url with
  | None => Err (parseError url)
  | Some u => Ok (mkRequest method (Some (set_authority (User u) (removeEmptyPort (Host u)) u)) ∅)
  end.

Definition set_req_header (h : Header) (r : Request) : Request := mkRequest (Method r) (ReqURL r) h.

Definition is_sent (e : event) : bool := match e with Sent _ => true | _ => false end.

(** [client.Do]. *)
Definition Do (r : Request) : M (result error Response) := fun w =>
  (upstreamDo env (List.length (List.filter is_sent (events w))) r, add_event (Sent r) w).

(** *** Reading a body *)

(** What [io.LimitReader] lets through of chunks, and what it leaves. *)
Fixpoint take_limited (n : Z) (chunks : list string) : string * list string :=
  match chunks with
  | [] => (EmptyString, [])
  | chunk :: rest =>
      if n <=? 0 then (EmptyString, chunks)
      else
        let size := Z.of_nat (String.length chunk) in
        if size <=? n then
          let '(body, remaining) := take_limited (n - size) rest in (chunk ++ body, remaining)
        else
          let k := Z.to_nat n in
          (substring 0 k chunk, substring k (String.length chunk - k) chunk :: rest)
  end.

(** [io.ReadAll(io.LimitReader(body, n))]: the body read, unless reading fails before
    the limit, and what is remaining of the source. *)
Definition ReadLimited (n : Z) (src : Source) : option string * Source :=
  let '(body, remaining) := take_limited n (chunks src) in
  let ended := Z.of_nat (String.length body) <? n in
  (if ended && failed src then None else Some body, mkSource remaining (failed src)).

(** [io.MultiReader(bytes.NewReader(body), rest)]. *)
Definition multi_reader (body : string) (rest : Source) : Source :=
  mkSource (body :: chunks rest) (failed rest).

(** *** The store *)

Definition others_run (at_ : moment) : M unit :=
  modify (fun w => set_store (others env at_ (cacheStore w)) w).

Definition store_Lookup (at_ : moment) (key : string) (ttl : Z) : M (result store_error (option Entry)) :=
  fun w =>
    let '(r, s) := Lookup (ioAt env at_) (clockAt env at_) (cacheStore w) key ttl in
    (r, set_store s w).

(** [p.lookup]: an error is a miss. *)
Definition found_entry (r : result store_error (option Entry)) : option Entry :=
  match r with Ok e => e | Err _ => None end.

(** The body of an entry as the handler reads it from the open file. *)
Definition entry_source (e : Entry) : Source :=
  if ioAt env Serving CRead (BodyPath e) then bytes_source (Body e) else mkSource [] true.

(** A put, after what other requests did meanwhile; the call is recorded. *)
Definition put_stream_now (key : string) (m : Metadata) (src : Source)
    (verify : option (Z -> bool)) : M (option store_error) := fun w =>
  let entries := order env Committing (Header_ m) in
  let '(err, down, s) :=
    PutStreamVerified (putEnv env) (cacheStore w) key m entries src (connection env) verify in
  let p := mkPut (cacheStore w) key m entries src verify in
  (err, add_event (Putting p) (set_store s (snd (append_body down w)))).

Definition store_PutStreamVerified (key : string) (m : Metadata) (src : Source)
    (verify : option (Z -> bool)) : M (option store_error) :=
  _ ← others_run Storing; put_stream_now key m src verify.

Definition put_bytes_now (key : string) (m : Metadata) (body : string) : M (option store_error) := fun w =>
  let entries := order env Committing (Header_ m) in
  let '(err, s) := PutBytes (putEnv env) (cacheStore w) key m entries body in
  let p := mkPut (cacheStore w) key m entries (bytes_source body) None in
  (err, add_event (Putting p) (set_store s w)).

Definition store_PutBytes (key : string) (m : Metadata) (body : string) : M (option store_error) :=
  _ ← others_run Storing; put_bytes_now key m body.

(** [int64(time.Since(t).Seconds())] as the [Age] header has it. *)
Definition Seconds (d : Z) : float64 :=
  f64_add (f64_of_Z (Z.quot d nanos)) (f64_div (f64_of_Z (Z.rem d nanos)) (f64_of_Z nanos)).

Definition age_of (m : Metadata) : string :=
  FormatInt (f64_trunc (Seconds (Sub (clockAt env Serving) (StoredAt m)))).

(** The metadata a handler passes to a put. *)
Definition new_metadata (status : Z) (h : Header) (digest : string) : Metadata :=
  mkMetadata status h zeroTime 0 digest EmptyString.

(** *** Snapshots ([repository.Snapshot]) *)

Record Snapshot := mkSnapshot {
  SnapName : string;
  SnapType : string;
  SnapPath : string;
  SnapUpstream : string;
  SnapRequests : Z;
  SnapHits : Z;
  SnapMisses : Z;
  SnapErrors : Z;
  SnapClientCanceled : Z;
  SnapRangeRequests : Z;
  SnapHitRatio : float64;
  SnapStorageBytes : Z;
  SnapCacheObjects : Z
}.

(** [float64(hits) / float64(hits+misses)], zero before the first of them. *)
Definition hit_ratio (hits misses : Z) : float64 :=
  if 0 <? wrapU64 (hits + misses)
  then f64_div (f64_of_Z hits) (f64_of_Z (wrapU64 (hits + misses))) else f64_of_Z 0.

Definition snapshot_of (name type path : string) (upstream : URL) (c : counters) (s : Store) : Snapshot :=
  mkSnapshot name type path (PublicUpstreamURL (Some upstream)) (requests c) (hits c) (misses c) (errors c)
    (clientCanceled c) (rangeRequests c) (hit_ratio (hits c) (misses c)) (fst (Size s)) (snd (Size s)).

(** *** Errors *)

(** The error a put returns to the handler: the cause of a failed copy is kept. *)
Definition put_failure (response : Response) (e : store_error) : error :=
  match e with
  | StreamBody ReadFailed => GoError "stream cache body" (Some (BodyError response))
  | CopyFailed ReadFailed => BodyError response
  | _ => GoError "store" None
  end.

Definition canceledBy (err : error) : bool :=
  isCanceled err || match contextErr env with Some e => isCanceled e | None => false end.

End Handler.
