(* ===== verification/HandlerFacts.v ===== *)
(** * Reasoning about request handlers

    [effects P I m] says of a handler [m] that every event it adds satisfies [P] and
    that it keeps the property [I] of the store, if the system keeps the promises a put
    needs.  It is closed under the monad's operations, so that the theorems about a
    proxy follow its code.  The rest is the digest invariant of the store. *)

From S2P Require Import Prelude GoStrings Sha256 Url Origin Http HttpPolicy Time Metadata Fs Store StoreFacts StoreOps StorePut StoreStream StoreSystem StoreSafety StoreRuns StoreTheorems Handler.
From Stdlib Require Import Ascii String.
Local Open Scope string_scope.
Local Open Scope Z_scope.

(** [split_str] is [split_bool] with string comparisons as propositions too. *)
Ltac split_str :=
  split_bool;
  repeat match goal with
  | H : (_ =? _)%string = true |- _ => apply String.eqb_eq in H
  | H : (_ =? _)%string = false |- _ => apply String.eqb_neq in H
  end.

Lemma bind_run {A B : Type} (m : M A) (f : A -> M B) (w : World) :
  (m ≫= f) w = f (fst (m w)) (snd (m w)).
Proof. unfold mbind, M_bind. by destruct (m w). Qed.

(** ** Handlers that touch only the reply *)

Definition same_but_reply (w w' : World) : Prop :=
  cacheStore w' = cacheStore w /\ stats w' = stats w /\ events w' = events w.

Definition ReplyOnly {A : Type} (m : M A) : Prop := forall w, same_but_reply w (snd (m w)).

#[export] Instance same_but_reply_preorder : PreOrder same_but_reply.
Proof.
  split; [by intros w|]. intros w1 w2 w3 (A1 & B1 & C1) (A2 & B2 & C2).
  split_and!; congruence.
Qed.

Lemma ret_reply_only {A : Type} (a : A) : ReplyOnly (mret (M := M) a).
Proof. by intros w. Qed.

Lemma bind_reply_only {A B : Type} (m : M A) (f : A -> M B) :
  ReplyOnly m -> (forall a, ReplyOnly (f a)) -> ReplyOnly (m ≫= f).
Proof.
  intros Hm Hf w. unfold mbind, M_bind. pose proof (Hm w) as H. destruct (m w) as [a w1].
  etrans; [exact H|apply Hf].
Qed.

Lemma edit_header_reply_only (f : Header -> Header) : ReplyOnly (edit_header f).
Proof. by intros w. Qed.

Lemma set_header_reply_only (k v : string) : ReplyOnly (set_header k v).
Proof. by intros w. Qed.

Lemma copy_headers_reply_only (entries : list (string * list string)) :
  ReplyOnly (copy_headers entries).
Proof. by intros w. Qed.

Lemma WriteHeader_reply_only (status : Z) : ReplyOnly (WriteHeader status).
Proof. by intros w. Qed.

Lemma append_body_reply_only (text : string) : ReplyOnly (append_body text).
Proof. by intros w. Qed.

Lemma write_once_reply_only (env : Env) (text : string) : ReplyOnly (write_once env text).
Proof. unfold write_once. apply append_body_reply_only. Qed.

Create HintDb reply_only discriminated.
#[export] Hint Resolve ret_reply_only edit_header_reply_only set_header_reply_only
  copy_headers_reply_only WriteHeader_reply_only append_body_reply_only write_once_reply_only
  : reply_only.

(** [reply_only] goes through a handler that touches only the reply. *)
Ltac reply_only :=
  lazymatch goal with
  | |- ReplyOnly (mbind _ _) => apply bind_reply_only; [reply_only|intros ?; reply_only]
  | |- ReplyOnly (if ?b then _ else _) => destruct b; reply_only
  | |- _ => auto with reply_only
  end.

Lemma copy_body_reply_only (env : Env) (src : Source) : ReplyOnly (copy_body env src).
Proof. unfold copy_body. destruct (copy_through _ _) as [[? ?] ?]. reply_only. Qed.

Lemma http_Error_reply_only (env : Env) (message : string) (status : Z) :
  ReplyOnly (http_Error env message status).
Proof. unfold http_Error. reply_only. Qed.

Lemma NotFound_reply_only (env : Env) : ReplyOnly (NotFound env).
Proof. unfold NotFound. apply http_Error_reply_only. Qed.

#[export] Hint Resolve copy_body_reply_only http_Error_reply_only NotFound_reply_only : reply_only.

(** ** What a handler leaves as it was *)

Definition preserves {A X : Type} (f : World -> X) (m : M A) : Prop := forall w, f (snd (m w)) = f w.

Lemma preserves_bind {A B X : Type} (f : World -> X) (m : M A) (k : A -> M B) :
  preserves f m -> (forall a, preserves f (k a)) -> preserves f (m ≫= k).
Proof.
  intros Hm Hk w. unfold mbind, M_bind. pose proof (Hm w) as H. destruct (m w) as [a w1].
  etrans; [apply Hk|exact H].
Qed.

Lemma preserves_reply_only {A X : Type} (g : counters -> X) (m : M A) :
  ReplyOnly m -> preserves (fun w => g (stats w)) m.
Proof. intros H w. destruct (H w) as (_ & E & _). cbn. by rewrite E. Qed.

(** A property of the counters that only [count] can change. *)
Lemma preserves_count {X : Type} (g : counters -> X) (k : counter) :
  (forall c, g (bump k c) = g c) -> preserves (fun w => g (stats w)) (count k).
Proof. intros H w. apply H. Qed.

Lemma preserves_Do {X : Type} (g : counters -> X) (env : Env) (r : Request) :
  preserves (fun w => g (stats w)) (Do env r).
Proof. by intros w. Qed.

Lemma preserves_others_run {X : Type} (g : counters -> X) (env : Env) (at_ : moment) :
  preserves (fun w => g (stats w)) (others_run env at_).
Proof. by intros w. Qed.

Section StorePreserves.
Context {codec : MetadataCodec}.

Lemma preserves_store_Lookup {X : Type} (g : counters -> X) (env : Env) (at_ : moment) (key : string) (ttl : Z) :
  preserves (fun w => g (stats w)) (store_Lookup env at_ key ttl).
Proof. intros w. unfold store_Lookup. by destruct (Lookup _ _ _ _ _). Qed.

Lemma preserves_PutStreamVerified {X : Type} (g : counters -> X) (env : Env) (key : string) (m : Metadata)
    (src : Source) (verify : option (Z -> bool)) :
  preserves (fun w => g (stats w)) (store_PutStreamVerified env key m src verify).
Proof.
  unfold store_PutStreamVerified. apply preserves_bind; [apply preserves_others_run|intros _].
  intros w. unfold put_stream_now. by destruct (PutStreamVerified _ _ _ _ _ _ _ _) as [[? ?] ?].
Qed.

Lemma preserves_PutBytes {X : Type} (g : counters -> X) (env : Env) (key : string) (m : Metadata)
    (body : string) :
  preserves (fun w => g (stats w)) (store_PutBytes env key m body).
Proof.
  unfold store_PutBytes. apply preserves_bind; [apply preserves_others_run|intros _].
  intros w. unfold put_bytes_now. by destruct (PutBytes _ _ _ _ _ _).
Qed.

End StorePreserves.

Create HintDb preserves discriminated.
#[export] Hint Resolve preserves_Do preserves_others_run preserves_store_Lookup
  preserves_PutStreamVerified preserves_PutBytes : preserves.

(** [preserves] goes through a handler none of whose counts changes the projection. *)
Ltac preserves :=
  lazymatch goal with
  | |- preserves _ (mbind _ _) => apply preserves_bind; [preserves|intros ?; preserves]
  | |- preserves _ (if ?b then _ else _) => destruct b; preserves
  | |- preserves _ (match ?x with _ => _ end) => destruct x; preserves
  | |- preserves _ (count _) => apply preserves_count; by intros []
  | |- preserves _ (fun _ => _) => fail "unfold the handler first"
  | |- _ => first [solve [auto with preserves] | solve [apply preserves_reply_only; reply_only]]
  end.

Lemma found_entry_Some (r : result store_error (option Entry)) (e : Entry) :
  found_entry r = Some e -> r = Ok (Some e).
Proof. destruct r as [[?|]|]; cbn; congruence. Qed.

Lemma Get_Set (h : Header) (k v k' : string) :
  Get (Set_ h k v) k'
  = if decide (CanonicalHeaderKey k = CanonicalHeaderKey k') then v else Get h k'.
Proof.
  unfold Get, Set_, Values, vals. rewrite lookup_insert. by case_decide.
Qed.

(** ** How many requests a handler sends *)

Definition sent_count (w : World) : nat := List.length (List.filter is_sent (events w)).

Definition sends {A : Type} (n : nat) (m : M A) : Prop :=
  forall w, (sent_count (snd (m w)) <= sent_count w + n)%nat.

Lemma sends_bind {A B : Type} (n k : nat) (m : M A) (f : A -> M B) :
  sends n m -> (forall a, sends k (f a)) -> sends (n + k) (m ≫= f).
Proof.
  intros Hm Hf w. rewrite bind_run. specialize (Hf (fst (m w)) (snd (m w))). specialize (Hm w). lia.
Qed.

Lemma sends_le {A : Type} (n k : nat) (m : M A) : (n <= k)%nat -> sends n m -> sends k m.
Proof. intros Hn Hm w. specialize (Hm w). lia. Qed.

Lemma sends_same {A : Type} (m : M A) :
  (forall w, sent_count (snd (m w)) = sent_count w) -> sends 0 m.
Proof. intros H w. rewrite H. lia. Qed.

Lemma sends_reply_only {A : Type} (m : M A) : ReplyOnly m -> sends 0 m.
Proof. intros H. apply sends_same. intros w. destruct (H w) as (_ & _ & E). unfold sent_count. by rewrite E. Qed.

Lemma sends_count (k : counter) : sends 0 (count k).
Proof. by apply sends_same. Qed.

Lemma sends_Do (env : Env) (r : Request) : sends 1 (Do env r).
Proof. intros w. unfold sent_count. cbn. rewrite List.filter_app, length_app. cbn. lia. Qed.

Lemma sends_others_run (env : Env) (at_ : moment) : sends 0 (others_run env at_).
Proof. by apply sends_same. Qed.

Section StoreSends.
Context {codec : MetadataCodec}.

Lemma sends_store_Lookup (env : Env) (at_ : moment) (key : string) (ttl : Z) :
  sends 0 (store_Lookup env at_ key ttl).
Proof. apply sends_same. intros w. unfold store_Lookup. by destruct (Lookup _ _ _ _ _). Qed.

Lemma sends_PutStreamVerified (env : Env) (key : string) (m : Metadata) (src : Source)
    (verify : option (Z -> bool)) :
  sends 0 (store_PutStreamVerified env key m src verify).
Proof.
  apply (sends_bind 0 0); [apply sends_others_run|intros _]. apply sends_same. intros w.
  unfold put_stream_now. destruct (PutStreamVerified _ _ _ _ _ _ _ _) as [[? ?] ?].
  unfold sent_count. cbn. by rewrite List.filter_app, app_nil_r.
Qed.

Lemma sends_PutBytes (env : Env) (key : string) (m : Metadata) (body : string) :
  sends 0 (store_PutBytes env key m body).
Proof.
  apply (sends_bind 0 0); [apply sends_others_run|intros _]. apply sends_same. intros w.
  unfold put_bytes_now. destruct (PutBytes _ _ _ _ _ _).
  unfold sent_count. cbn. by rewrite List.filter_app, app_nil_r.
Qed.

End StoreSends.

Create HintDb sends discriminated.
#[export] Hint Resolve sends_count sends_Do sends_others_run sends_store_Lookup
  sends_PutStreamVerified sends_PutBytes : sends.

(** [sends] bounds the requests of a handler by going through it: no request at all, or
    one at its [Do]. *)
Ltac sends_none :=
  lazymatch goal with
  | |- sends _ (mbind _ _) => apply (sends_bind 0 0); [sends_none|intros ?; sends_none]
  | |- sends _ (if ?b then _ else _) => destruct b; sends_none
  | |- sends _ (match ?x with _ => _ end) => destruct x; sends_none
  | |- _ => first [solve [auto with sends] | solve [apply sends_reply_only; reply_only]]
  end.

(** ** The header of an upstream request *)

Lemma forwarded_dropped (source : Header) (entries : list (string * list string)) (fwd : bool) (k : string) :
  forwarded source fwd k = false -> k <> "Accept-Encoding" ->
  Set_ (ForwardRequestHeaders ∅ source entries fwd) "Accept-Encoding" "identity" !! k = None.
Proof.
  intros Hf Hk. unfold Set_. change (CanonicalHeaderKey "Accept-Encoding") with "Accept-Encoding".
  rewrite lookup_insert_ne by congruence.
  by rewrite ForwardRequestHeaders_kept, lookup_add_kept_dropped.
Qed.

Lemma NewRequest_Ok (method url : string) (r : Request) :
  NewRequest method url = Ok r -> ReqHeader r = ∅ /\ (method <> EmptyString -> Method r = method).
Proof.
  unfold NewRequest. destruct (String.eqb_spec method EmptyString) as [->|Hne];
    destruct (validMethod _); cbn [negb]; try done; destruct (Parse url); try done; by intros [= <-].
Qed.

(** ** Where a request goes *)

Definition request_to (u : URL) (r : Request) : Prop :=
  exists v, ReqURL r = Some v /\ Scheme v = Scheme u /\ Host v = removeEmptyPort (Host u).

Lemma NewRequest_to (method : string) (u : URL) (r : Request) :
  located u -> NewRequest method (URL_String u) = Ok r -> request_to u r.
Proof.
  intros Hu. unfold NewRequest. destruct (validMethod _); [|done]. cbn [negb].
  destruct (Parse (URL_String u)) as [v|] eqn:E; [|done]. intros [= <-].
  destruct (Parse_URL_String _ _ Hu E) as [E1 E2]. eexists. split_and!; [done|done|]. cbn. by rewrite E2.
Qed.

(** What appending a path to a located upstream yields is located there too. *)
Lemma located_join (upstream u : URL) (path : string) :
  located upstream -> Parse (TrimRight (URL_String upstream) "/" ++ "/" ++ path) = Some u ->
  located u /\ Scheme u = Scheme upstream /\ Host u = Host upstream.
Proof.
  intros Hu Hp. destruct (Parse_join _ _ _ Hu Hp) as [E1 E2]. split; [|done].
  destruct Hu as (Hs & Hh & _). eapply Parse_located; [exact Hp|]. rewrite E1, E2, Hh, andb_true_r.
  apply negb_true_iff, String.eqb_neq, Hs.
Qed.

Lemma request_to_same (u v : URL) (r : Request) :
  Scheme u = Scheme v -> Host u = Host v -> request_to u r -> request_to v r.
Proof. unfold request_to. intros -> ->. done. Qed.

(** ** Copies to a client that takes everything *)

Lemma copy_through_all (src : Source) :
  failed src = false -> exists n, copy_through accepts_all src = (n, None, content src).
Proof.
  intros Hf. pose proof (copy_cached_transparent accepts_all (fun _ _ => false) (-1) src (fun _ _ => eq_refl)) as H.
  destruct (copy_cached_total (fun _ _ => false) (-1) src (fun _ _ => eq_refl) Hf) as (n & k & E).
  rewrite E in H.
  exists n. rewrite H. apply copy_through_ok in H as [_ ->]. done.
Qed.

(** ** What the client of a hit receives *)

(** Nothing has been sent to the client yet. *)
Definition unsent (r : Reply) : Prop := sent r = None /\ replyBody r = EmptyString.

Definition receives (env : Env) (request : Request) (entry : Entry) (w' : World) : Prop :=
  exists h, sent (reply w') = Some (Status (EntryMetadata entry), h)
    /\ Get h "X-N0ding-Cache" = "HIT"
    /\ (Method request = "HEAD" -> replyBody (reply w') = EmptyString)
    /\ (Method request <> "HEAD" -> connection env = accepts_all ->
        ioAt env Serving CRead (BodyPath entry) = true -> replyBody (reply w') = Body entry).

(** The end of every [serveHit]: the status, and the body unless it is a [HEAD]. *)
Lemma send_entry_receives (env : Env) (request : Request) (entry : Entry)
    (after : option copy_error -> M ()) (w1 : World) :
  unsent (reply w1) -> Get (live (reply w1)) "X-N0ding-Cache" = "HIT" ->
  (forall err w, events (snd (after err w)) = events w /\ reply (snd (after err w)) = reply w) ->
  let w' := snd ((_ ← WriteHeader (Status (EntryMetadata entry));
                  if (Method request =? "HEAD")%string then mret tt
                  else err ← copy_body env (entry_source env entry); after err) w1) in
  events w' = events w1 /\ receives env request entry w'.
Proof.
  intros [E2 E3] E4 Ha. cbv zeta. set (m := EntryMetadata entry).
  rewrite bind_run. set (w2 := snd (WriteHeader _ w1)).
  assert (events w2 = events w1 /\ sent (reply w2) = Some (Status m, live (reply w1))
    /\ replyBody (reply w2) = EmptyString) as (F1 & F2 & F3).
  { unfold w2. cbn. unfold send_head. by rewrite E2. }
  clearbody w2. unfold receives. destruct (String.eqb_spec (Method request) "HEAD") as [Hm|Hm].
  { split; [done|]. exists (live (reply w1)). by split_and!. }
  rewrite bind_run. unfold copy_body. destruct (copy_through _ _) as [[n err] down] eqn:Ec.
  rewrite bind_run. cbn [fst snd mret M_ret]. set (w3 := snd (append_body down w2)).
  assert (events w3 = events w1 /\ sent (reply w3) = Some (Status m, live (reply w1))
    /\ replyBody (reply w3) = down) as (G1 & G2 & G3).
  { unfold w3. cbn. unfold send_head. by rewrite F2, F3. }
  clearbody w3. destruct (Ha err w3) as [-> ->]. split; [done|].
  exists (live (reply w1)). split_and!; [done|done|done|]. intros _ Hc Hr.
  rewrite G3. unfold entry_source in Ec. rewrite Hr, Hc in Ec.
  destruct (copy_through_all (bytes_source (Body entry)) eq_refl) as [n' E']. rewrite E' in Ec.
  injection Ec as _ _ <-. apply bytes_source_content.
Qed.

(** ** Effects *)

Section Effects.
Context {codec : MetadataCodec} {company : Elsewhere} (env : Env) (P : event -> Prop) (I : Store -> Prop).

(** What the system promises to a put: its assumptions hold. *)
Definition put_fits (e : event) : Prop :=
  match e with
  | Sent _ | ServedFile _ _ _ => True
  | Putting q => put_assumptions (putEnv env) (putStore q) (putKey q) (putMetadata q) (putEntries q)
                   (putSource q)
  end.

Definition effects {A : Type} (m : M A) : Prop := forall w,
  exists new, events (snd (m w)) = (events w ++ new)%list /\ Forall P new
    /\ (I (cacheStore w) -> Forall put_fits new -> I (cacheStore (snd (m w)))).

Lemma effects_reply_only {A : Type} (m : M A) : ReplyOnly m -> effects m.
Proof.
  intros H w. destruct (H w) as (Hs & _ & He). exists []. rewrite app_nil_r, Hs. by split_and!.
Qed.

Lemma effects_count (k : counter) : effects (count k).
Proof. intros w. exists []. rewrite app_nil_r. by split_and!. Qed.

(** The same when only some results of [m] can occur. *)
Lemma effects_bind_result {A B : Type} (Q : A -> Prop) (m : M A) (f : A -> M B) :
  effects m -> (forall w, Q (fst (m w))) -> (forall a, Q a -> effects (f a)) -> effects (m ≫= f).
Proof.
  intros Hm HQ Hf w. unfold mbind, M_bind. destruct (Hm w) as (n1 & E1 & P1 & I1). specialize (HQ w).
  destruct (m w) as [a w1]. cbn [fst snd] in *. destruct (Hf a HQ w1) as (n2 & E2 & P2 & I2).
  exists (n1 ++ n2)%list. rewrite app_assoc, <- E1. split_and!; [done|by apply Forall_app|].
  intros Hi [F1 F2]%Forall_app. auto.
Qed.

Lemma effects_bind {A B : Type} (m : M A) (f : A -> M B) :
  effects m -> (forall a, effects (f a)) -> effects (m ≫= f).
Proof. intros Hm Hf. by apply (effects_bind_result (fun _ => True)). Qed.

Lemma effects_if {A : Type} (b : bool) (m m' : M A) :
  (b = true -> effects m) -> (b = false -> effects m') -> effects (if b then m else m').
Proof. destruct b; auto. Qed.

Lemma effects_Do (r : Request) : P (Sent r) -> effects (Do env r).
Proof. intros H w. exists [Sent r]. split_and!; [done|by constructor|done]. Qed.

Lemma effects_store_Lookup (at_ : moment) (key : string) (ttl : Z) :
  (forall s, I s -> I (snd (Lookup (ioAt env at_) (clockAt env at_) s key ttl))) ->
  effects (store_Lookup env at_ key ttl).
Proof.
  intros H w. unfold store_Lookup. specialize (H (cacheStore w)).
  destruct (Lookup _ _ _ _ _) as [r s]. exists []. rewrite app_nil_r. split_and!; [done|done|auto].
Qed.

Lemma effects_others_run (at_ : moment) :
  (forall s, I s -> I (others env at_ s)) -> effects (others_run env at_).
Proof. intros H w. exists []. rewrite app_nil_r. split_and!; [done|done|]. intros. by apply H. Qed.

Lemma effects_put_stream_now (key : string) (m : Metadata) (src : Source) (verify : option (Z -> bool)) :
  (forall s, let q := mkPut s key m (order env Committing (Header_ m)) src verify in
     P (Putting q) /\ forall err down s',
       PutStreamVerified (putEnv env) s key m (order env Committing (Header_ m)) src (connection env) verify
         = (err, down, s') -> put_fits (Putting q) -> I s -> I s') ->
  effects (put_stream_now env key m src verify).
Proof.
  intros H w. unfold put_stream_now. destruct (H (cacheStore w)) as [HP HI]. clear H.
  destruct (PutStreamVerified _ _ _ _ _ _ _ _) as [[err down] s'] eqn:E.
  eexists. split_and!; [reflexivity|by constructor|].
  cbn. intros Hi Hf. inversion_clear Hf. by eapply HI.
Qed.

Lemma effects_put_bytes_now (key : string) (m : Metadata) (body : string) :
  (forall s, let q := mkPut s key m (order env Committing (Header_ m)) (bytes_source body) None in
     P (Putting q) /\ forall err down s',
       PutStreamVerified (putEnv env) s key m (order env Committing (Header_ m)) (bytes_source body)
         accepts_all None = (err, down, s') -> put_fits (Putting q) -> I s -> I s') ->
  effects (put_bytes_now env key m body).
Proof.
  intros H w. unfold put_bytes_now, PutBytes, PutStream. destruct (H (cacheStore w)) as [HP HI]. clear H.
  destruct (PutStreamVerified _ _ _ _ _ _ _ _) as [[err down] s'] eqn:E.
  eexists. split_and!; [reflexivity|by constructor|].
  cbn. intros Hi Hf. inversion_clear Hf. by eapply HI.
Qed.

End Effects.

(** ** Invariants of the store

    What a property of the store must keep for a handler to keep it: lookups, what other
    requests do, and every put that fits and whose verification entails its digest. *)

Definition has_digest (text digest : string) : Prop :=
  ToLower digest = "sha256:" ++ sha256_hex text.

(** A put whose verification, if it passes, entails its digest. *)
Definition put_digest (e : event) : Prop :=
  match e with
  | Sent _ | ServedFile _ _ _ => True
  | Putting q =>
      ContentDigest (putMetadata q) = EmptyString
      \/ ((exists n, verified (putVerify q) n = true) ->
          has_digest (content (putSource q)) (ContentDigest (putMetadata q)))
  end.

Class StoreInvariant {codec : MetadataCodec} {company : Elsewhere} (env : Env) (I : Store -> Prop) : Prop := {
  inv_others : forall at_ s, I s -> I (others env at_ s);
  inv_Lookup : forall at_ s key ttl, I s -> I (snd (Lookup (ioAt env at_) (clockAt env at_) s key ttl));
  inv_put : forall q w err down s',
    PutStreamVerified (putEnv env) (putStore q) (putKey q) (putMetadata q) (putEntries q) (putSource q) w
      (putVerify q) = (err, down, s') ->
    put_digest (Putting q) -> put_fits env (Putting q) -> I (putStore q) -> I s'
}.

Section Invariants.
Context {codec : MetadataCodec} {company : Elsewhere} (env : Env) (P : event -> Prop) (I : Store -> Prop).
Context {HI : StoreInvariant env I}.

Lemma effects_others (at_ : moment) : effects env P I (others_run env at_).
Proof. by apply effects_others_run, inv_others. Qed.

Lemma effects_Lookup (at_ : moment) (key : string) (ttl : Z) : effects env P I (store_Lookup env at_ key ttl).
Proof. apply effects_store_Lookup. intros s. apply inv_Lookup. Qed.

Lemma effects_PutStreamVerified (key : string) (m : Metadata) (src : Source) (verify : option (Z -> bool)) :
  (forall s, let q := mkPut s key m (order env Committing (Header_ m)) src verify in
     P (Putting q) /\ put_digest (Putting q)) ->
  effects env P I (store_PutStreamVerified env key m src verify).
Proof.
  intros H. unfold store_PutStreamVerified. apply effects_bind; [apply effects_others|intros _].
  apply effects_put_stream_now. intros s. destruct (H s) as [HP Hd]. split; [done|]. intros err down s' Ep Hf Hi.
  eapply (inv_put (mkPut s key m _ src verify)); [exact Ep|done..].
Qed.

Lemma effects_PutBytes (key : string) (m : Metadata) (body : string) :
  (forall s, let q := mkPut s key m (order env Committing (Header_ m)) (bytes_source body) None in
     P (Putting q) /\ put_digest (Putting q)) ->
  effects env P I (store_PutBytes env key m body).
Proof.
  intros H. unfold store_PutBytes. apply effects_bind; [apply effects_others|intros _].
  apply effects_put_bytes_now. intros s. destruct (H s) as [HP Hd]. split; [done|]. intros err down s' Ep Hf Hi.
  eapply (inv_put (mkPut s key m _ (bytes_source body) None)); [exact Ep|done..].
Qed.

End Invariants.

(** ** The digest invariant

    A store is [trusted] when it is reachable and everything ever committed to it that
    carries a digest has that digest. *)

Definition digest_ok (e : string * Metadata * string) : Prop :=
  let '(_, m, body) := e in ContentDigest m = EmptyString \/ has_digest body (ContentDigest m).

Section Trusted.
Context {codec : MetadataCodec} {company : Elsewhere} (y0 : System) (H0 : initial y0).

Definition trusted (s : Store) : Prop :=
  exists fs hs, reachable y0 (mkSystem s fs hs) /\ Forall digest_ok hs.

Lemma put_body_verified (env : PutEnv) (bp mp bt : string) (m : Metadata)
    (entries : list (string * list string)) (lim : Z) (src : Source) (w : Writer)
    (verify : option (Z -> bool)) (r : option Storage.Reservation) (s : Store) :
  let '(err, _, _, _, _) := put_body env bp mp bt m entries lim src w verify r s in
  err = None -> exists n, verified verify n = true.
Proof.
  unfold put_body. destruct (copy_cached _ _ _ _) as [[written [e|]] k]; [done|].
  destruct (io env CSync _); [|done]. destruct (io env CClose _); [|done]. cbn [negb].
  destruct (match verify with Some v => negb (v written) | None => false end) eqn:Ev; [done|].
  assert (verified verify written = true) by (by destruct verify; [apply negb_false_iff in Ev|]).
  destruct (overflow k); [by eauto|]. destruct (marshal (stored_metadata _ _ _ _ _)); [|done].
  destruct (put_metadata _ _ _ _ _ _ _ _ _) as [[[? ?] ?] ?]; by eauto.
Qed.

(** A put that was kept passed its verification. *)
Lemma put_verified (env : PutEnv) (s s' : Store) (key : string) (m : Metadata)
    (entries : list (string * list string)) (src : Source) (w : Writer)
    (verify : option (Z -> bool)) (down : string) :
  kept env s m src = true ->
  PutStreamVerified env s key m entries src w verify = (None, down, s') ->
  exists n, verified verify n = true.
Proof.
  unfold kept, PutStreamVerified. destruct (admitPut _ _ _) as [[e| |r n] s1]; [done|done|]. intros _.
  destruct (paths s1 key) as [bp mp]. destruct (io env CMkdirAll _); [|done]. cbn [negb].
  destruct (create_temp _ _ _ _); [|done].
  pose proof (put_body_verified env bp mp (body_temp (FilePath.Dir bp) (bodySuffix env)) m entries
    (if is_Some_b (controller s) then n else -1) src w verify r s0) as H.
  destruct (put_body _ _ _ _ _ _ _ _ _ _ _ _) as [[[[err d] kb] r'] s2]. intros [= -> _ _]. auto.
Qed.

Lemma put_trusted (env : Env) (q : Put) (w : Writer) (err : option store_error) (down : string) (s' : Store) :
  PutStreamVerified (putEnv env) (putStore q) (putKey q) (putMetadata q) (putEntries q) (putSource q) w
    (putVerify q) = (err, down, s') ->
  put_digest (Putting q) -> put_fits env (Putting q) -> trusted (putStore q) -> trusted s'.
Proof.
  intros Ep Hd Hf (fs & hs & Hr & Hh).
  destruct (put_lands (putEnv env) (putStore q) fs hs (putKey q) (putMetadata q) (putEntries q) (putSource q)
    w (putVerify q) err down s' (Inv_reachable _ _ H0 Hr) Hf Ep) as (hs' & stored & L & Hfail & Hdone).
  exists fs, hs'. split; [eapply steps_reachable; [exact Hr|apply L]|].
  pose proof (l_history _ _ _ _ _ _ _ L) as E. cbn [history] in E. rewrite E.
  destruct stored; [|done]. constructor; [|done].
  destruct err as [e|]; [by discriminate (Hfail ltac:(done))|]. destruct (Hdone eq_refl) as [_ Hk].
  destruct Hd as [Hd|Hd]; [by left|right]. apply Hd. by eapply put_verified.
Qed.

Lemma lookup_trusted (io : oracle) (now : Time) (s : Store) (key : string) (ttl : Z) :
  reads_ok io -> trusted s -> trusted (snd (Lookup io now s key ttl)).
Proof.
  intros Hio (fs & hs & Hr & Hh). exists fs, hs. split; [|done].
  eapply reach_step; [exact Hr|by constructor].
Qed.

Lemma trusted_hit (io : oracle) (now : Time) (s : Store) (key : string) (ttl : Z) (e : Entry) :
  reads_ok io -> trusted s -> fst (Lookup io now s key ttl) = Ok (Some e) ->
  ContentDigest (EntryMetadata e) = EmptyString \/ has_digest (Body e) (ContentDigest (EntryMetadata e)).
Proof.
  intros Hio (fs & hs & Hr & Hh) Hl. pose proof (Inv_reachable _ _ H0 Hr) as HI.
  apply Lookup_hit in Hl as (n & He & -> & _); [|done|apply HI]. rewrite lookup_entries in He.
  pose proof (i_history _ HI _ _ _ _ He) as Hin. rewrite Forall_forall in Hh. by apply (Hh _ Hin).
Qed.

(** What surrounds a request: every lookup reads what is there, and other requests
    leave a trusted store. *)
Definition surroundings (env : Env) : Prop :=
  (forall at_, reads_ok (ioAt env at_))
  /\ forall at_ s, trusted s -> trusted (others env at_ s).

Lemma trusted_invariant (env : Env) : surroundings env -> StoreInvariant env trusted.
Proof.
  intros Hs. split.
  - apply Hs.
  - intros at_ s key ttl. apply lookup_trusted, Hs.
  - intros q w err down s'. apply put_trusted.
Qed.

End Trusted.
