(* ===== verification/HandlerExamples.v ===== *)
(** * A request on the demonstration store

    What the examples of the three proxies share: an environment around one upstream,
    and a check that a put fits the demonstration store. *)

From S2P Require Import Prelude GoStrings Url Http HttpPolicy Time Metadata Fs Store StoreFacts StoreOps StorePut StoreStream StoreSystem StoreSafety StoreRuns StoreTheorems StoreExamples Handler HandlerFacts.
From Stdlib Require Import Ascii String.
Local Open Scope string_scope.
Local Open Scope Z_scope.

(** A calm system, alone with one upstream, a second after the demonstration time. *)
Definition around (answers : nat -> Request -> result error Response) : Env :=
  mkEnv (fun _ h => map_to_list h) answers None (fun _ => demo_time + nanos) (fun _ => calm)
    (fun _ s => s) demo_env accepts_all.

Definition zero_counters : counters := mkCounters 0 0 0 0 0 0.
Definition start : World := mkWorld demo_store zero_counters emptyReply [].

(** The next request to the same proxy. *)
Definition again (w : World) : World := mkWorld (cacheStore w) (stats w) emptyReply [].

Lemma around_surroundings (answers : nat -> Request -> result error Response) :
  surroundings demo_system (around answers).
Proof. split; [intros; exact reads_calm|done]. Qed.

Lemma start_trusted : trusted demo_system (cacheStore start).
Proof. exists ∅, []. split; constructor. Qed.

(** *** Metadata in ASCII *)

Definition in_int64 (z : Z) : bool := between minInt64 maxInt64 z.

Definition ascii_metadata (m : Metadata) : bool :=
  in_int64 (Status m) && in_int64 (ContentBytes m)
  && forallb (fun '(k, vs) => is_ascii k && forallb is_ascii vs) (map_to_list (Header_ m))
  && between 0 9999 (year_of (StoredAt m)) && is_ascii (ContentDigest m) && is_ascii (BodyFile m).

Lemma ascii_encodable (m : Metadata) : ascii_metadata m = true -> encodable m.
Proof.
  unfold ascii_metadata, in_int64, between. intros H. split_bool.
  split; [split; split; lia| |lia|by split; apply ascii_utf8].
  intros k vs Hk. apply elem_of_map_to_list, list_elem_of_In in Hk.
  match goal with Hf : forallb _ _ = true |- _ => rewrite forallb_forall in Hf; specialize (Hf _ Hk) end.
  apply andb_true_iff in H4 as [Ha Hf]. rewrite forallb_forall in Hf. split; [by apply ascii_utf8|].
  apply Forall_forall. intros v Hv%list_elem_of_In. by apply ascii_utf8, Hf.
Qed.

(** Whether a put fits the empty demonstration store. *)
Definition demo_fits (q : Put) : bool :=
  let m := stored_metadata (putMetadata q) (putEntries q) demo_time (len (content (putSource q)))
             (fst (paths demo_store (putKey q)) ++ ".1") in
  ascii_metadata m
  && match Marshal m with Some text => len text <=? maxMetadataBytes | None => true end
  && (len (content (putSource q)) <=? maxInt64).

Lemma demo_put_fits (answers : nat -> Request -> result error Response) (q : Put) :
  putStore q = demo_store -> demo_fits q = true -> put_fits (around answers) (Putting q).
Proof.
  intros Es H. unfold demo_fits in H. cbv zeta in H.
  apply andb_true_iff in H as [[He Hm]%andb_true_iff Hl]. cbn [put_fits putEnv around]. rewrite Es. split.
  - exact reads_calm.
  - by split.
  - split; [apply lookup_empty|apply not_elem_of_empty].
  - split; [apply lookup_empty|apply not_elem_of_empty].
  - intros H. discriminate H.
  - apply empty_fresh.
  - split; [by apply ascii_encodable|]. intros text Ht.
    change (Marshal (stored_metadata (putMetadata q) (putEntries q) demo_time (len (content (putSource q)))
      (fst (paths demo_store (putKey q)) ++ ".1")) = Some text) in Ht. rewrite Ht in Hm. lia.
  - change (elsewhere + usage_bytes (files demo_store)) with 0. lia.
Qed.
