(* ===== verification/Order.v ===== *)
(** * A store in good order

    A store below its root whose files are well formed, whose counters are exact and whose
    budget counts what it and others hold.  Requests keep this order whatever fails: an
    instance of [StoreInvariant], so that the theorems about the handlers apply to it. *)

From S2P Require Import Prelude GoStrings FilePath Http Time Metadata Fs Store StoreFacts StoreOps StorePut StoreSystem StoreSafety StoreRuns Handler HandlerFacts.
From S2P Require Storage.
From Stdlib Require Import Ascii String.
Local Open Scope string_scope.
Local Open Scope Z_scope.

Section Order.
Context {codec : MetadataCodec} {company : Elsewhere} (top : string).

Record orderly (s : Store) : Prop := {
  od_ok : store_ok s;
  od_accounted : accounted s;
  od_root : root s = top
}.

(** The store alone is a system without puts in flight, whose history is what it holds. *)
Definition held_entries (s : Store) : list (string * Metadata * string) :=
  map (fun '(p, (m, _, n)) => (p, m, data n)) (map_to_list (entries (files s))).

Lemma orderly_inv (s : Store) : orderly s -> Inv (mkSystem s ∅ (held_entries s)).
Proof.
  intros [Hok Ha _]. split; cbn; try done.
  intros p m b n He. rewrite <- lookup_entries in He. apply list_elem_of_fmap.
  exists (p, (m, b, n)). split; [done|by apply elem_of_map_to_list].
Qed.

Lemma inv_orderly (s : Store) (fs : gmap nat Flight) (hs : list (string * Metadata * string)) :
  Inv (mkSystem s fs hs) -> root s = top -> orderly s.
Proof. by intros [Hok Ha _ _ _] Hr. Qed.

Lemma orderly_recounts (s s' : Store) : recounts s s' -> orderly s -> orderly s'.
Proof.
  intros Hr [H1 H2 H3]. split; [by eapply recounts_ok|by eapply recounts_accounted|].
  destruct Hr as (c & -> & _). exact H3.
Qed.

(** Files that belong to no entry. *)
Lemma store_ok_foreign (s : Store) (f : fs) :
  wf_files f -> (forall q, files s !! q = f !! q \/ foreign q) -> store_ok s -> store_ok (set_files f s).
Proof.
  intros Hwf Hq [H1 H2 H3 H4]. assert (entries f = entries (files s)) as He by by apply entries_foreign.
  split; try done.
  - split; unfold usage_bytes, usage_objects; cbn [files bytes objects set_files]; rewrite He; apply H3.
  - by apply (no_torn_foreign (files s) f).
Qed.

Lemma orderly_files (s : Store) (f : fs) :
  wf_files f -> (forall q, files s !! q = f !! q \/ foreign q) -> orderly s -> orderly (set_files f s).
Proof.
  intros Hwf Hq [Hok Ha Hr]. split; [by apply store_ok_foreign| |done].
  apply (entries_accounted s); [|done|exact Ha]. apply entries_foreign; [apply Hok|done|done].
Qed.

(** What surrounds the request of an orderly store. *)
Record orderly_env (env : Env) : Prop := {
  oe_reads : forall at_, reads_ok (ioAt env at_);
  oe_others : forall at_ s, orderly s -> orderly (others env at_ s)
}.

Lemma orderly_invariant (env : Env) : orderly_env env -> StoreInvariant env orderly.
Proof.
  intros [Hio Ho]. split; [done|..].
  - intros at_ s key ttl Hs. pose proof (Inv_lookup (ioAt env at_) (clockAt env at_) s key ttl _ _ (Hio at_) (orderly_inv s Hs)) as HI.
    eapply inv_orderly; [exact HI|]. destruct (Lookup_ok (ioAt env at_) (clockAt env at_) s key ttl (Hio at_) (od_ok s Hs)) as (_ & E & _).
    rewrite E. apply Hs.
  - intros q w err down s' Ep _ Hf Hs.
    destruct (put_lands (putEnv env) (putStore q) _ _ (putKey q) (putMetadata q) (putEntries q) (putSource q)
      w (putVerify q) err down s' (orderly_inv _ Hs) Hf Ep) as (hs' & stored & L & _).
    eapply inv_orderly; [apply L|]. etrans; [exact (l_root _ _ _ _ _ _ _ L)|apply Hs].
Qed.

End Order.
