(* ===== verification/Oci.v ===== *)
(** * The OCI pull-through proxy: [internal/ociproxy]

    The request handler, branch by branch, over the monad of [Handler]; logging is left
    out.  [ServeHTTP] serves a cached entry only after the upstream confirmed its digest
    to the very client that asks, and caches only what matches a digest. *)

From S2P Require Import Prelude GoStrings Sha256 Url Http HttpPolicy Time Metadata Fs Store Handler.
From S2P Require Storage.
From Stdlib Require Import Ascii String.
Local Open Scope string_scope.
Local Open Scope Z_scope.

Definition maxManifestBytes : Z := Z.shiftl 16 20.
Definition immutableTTL : Z := 10 * 365 * 24 * 3600 * nanos.

(** What [Options] configures, less the store, the client and the logger. *)
Record Options := mkOptions {
  OptName : string;
  OptPath : string;
  OptUpstream : string;
  OptPublicBaseURL : string;
  OptTTL : Z
}.

Record Proxy := mkProxy {
  name : string;
  path : string;
  upstream : URL;
  registry : string;
  ttl : Z
}.

Inductive new_error := ParseUpstream | ParsePublicBase | BadPath.

Definition New (options : Options) : result new_error Proxy :=
  match Parse (OptUpstream options) with
  | None => Err ParseUpstream
  | Some upstream =>
      if (Scheme upstream =? EmptyString)%string || (Host upstream =? EmptyString)%string
      then Err ParseUpstream
      else match Parse (OptPublicBaseURL options) with
      | None => Err ParsePublicBase
      | Some publicURL =>
          if (Host publicURL =? EmptyString)%string then Err ParsePublicBase
          else if negb (OptPath options =? "/v2/")%string then Err BadPath
          else Ok (mkProxy (OptName options) (OptPath options) upstream (Host publicURL) (OptTTL options))
      end
  end.

(** ** Digests *)

Definition decodeSHA256 (value : string) : option (list Z) :=
  let '(algorithm, encoded, ok) := Cut (ToLower value) ":" in
  if negb ok || negb (algorithm =? "sha256")%string
     || negb (String.length encoded =? Sha256.Size * 2)%nat
  then None else hex_DecodeString encoded.

(** The loop of [equalBytes] over the indices of [left]. *)
Fixpoint difference (l r : list Z) (acc : Z) : Z :=
  match l, r with
  | x :: l, y :: r => difference l r (Z.lor acc (Z.lxor x y))
  | _, _ => acc
  end.

Definition equalBytes (l r : list Z) : bool :=
  if negb (List.length l =? List.length r)%nat then false else difference l r 0 =? 0.

Inductive digest_error := InvalidDigest | DigestMismatch.

Definition verifySum (actual : list Z) (expected : string) : result digest_error () :=
  match decodeSHA256 expected with
  | None => Err InvalidDigest
  | Some expectedBytes => if negb (equalBytes actual expectedBytes) then Err DigestMismatch else Ok tt
  end.

(** [verifySHA256] of a hasher that was fed [text]. *)
Definition verifySHA256 (text expected : string) : result digest_error () :=
  verifySum (Sum256 text) expected.

(** ** Requests *)

Inductive kind := Manifest | Blob | Neither.

#[export] Instance kind_eq_dec : EqDecision kind.
Proof. solve_decision. Defined.

Definition after_index (path marker : string) : option string :=
  index ← Index path marker;
  let start := (index + String.length marker)%nat in
  Some (substring start (String.length path - start) path).

Definition classify (path : string) : kind * string * bool :=
  match after_index path "/manifests/" with
  | Some reference =>
      if is_Some_b (decodeSHA256 reference) then (Manifest, reference, true)
      else (Manifest, EmptyString, nonempty reference)
  | None =>
      match after_index path "/blobs/" with
      | Some digest =>
          if is_Some_b (decodeSHA256 digest) then (Blob, digest, true) else (Neither, EmptyString, false)
      | None => (Neither, EmptyString, false)
      end
  end.

Definition newline : string := String "010" EmptyString.

Section Proxy.
Context {codec : MetadataCodec} (p : Proxy).

Definition cacheTTL (k : kind) (requestedDigest : string) : Z :=
  if bool_decide (k = Blob) || nonempty requestedDigest then immutableTTL else ttl p.

Definition cacheKey (target : URL) (accept : string) : string :=
  name p ++ newline ++ URL_String target ++ newline ++ "accept:" ++ accept.

Definition targetURL (requestURL : URL) : option URL :=
  target ← Parse (TrimRight (URL_String (upstream p)) "/" ++ EscapedPath requestURL);
  Some (set_RawQuery (RawQuery requestURL) target).

Definition SetupSnippet : string :=
  "docker pull " ++ registry p ++ "/library/alpine:3.20" ++ newline.

Definition Snapshot (c : counters) (s : Store) : Handler.Snapshot :=
  snapshot_of (name p) "oci" (path p) (upstream p) c s.

Section Request.
Context (env : Env) (request : Request) (url : URL).

Definition fail (status : Z) (message : string) (err : error) : M unit :=
  if canceledBy env err then count ClientCanceled
  else
    _ ← count Errors;
    http_Error env message status.

Definition recordStreamError (err : error) : M unit :=
  if canceledBy env err then count ClientCanceled else count Errors.

Definition upstreamRequest (method : string) (target : URL) : result error Request :=
  match NewRequest method (URL_String target) with
  | Err e => Err e
  | Ok r =>
      let h := ForwardRequestHeaders (ReqHeader r) (ReqHeader request)
                 (order env Forwarding (ReqHeader request)) true in
      Ok (set_req_header (Set_ h "Accept-Encoding" "identity") r)
  end.

Definition authorizeCacheHit (target : URL) (cachedDigest : string) : M bool :=
  match upstreamRequest "HEAD" target with
  | Err _ => mret false
  | Ok r =>
      answer ← Do env r;
      match answer with
      | Err _ => mret false
      | Ok response =>
          if (StatusCode response <? 200) || (300 <=? StatusCode response) then mret false
          else
            let upstreamDigest := Get (RespHeader response) "Docker-Content-Digest" in
            mret (nonempty upstreamDigest && nonempty cachedDigest
                  && EqualFold upstreamDigest cachedDigest)
      end
  end.

Definition lookup (at_ : moment) (key : string) (ttl : Z) : M (option Entry) :=
  r ← store_Lookup env at_ key ttl; mret (found_entry r).

Definition serveHit (entry : Entry) : M unit :=
  let m := EntryMetadata entry in
  _ ← copy_headers (order env Copying (Header_ m));
  _ ← set_header "X-N0ding-Cache" "HIT";
  _ ← set_header "Age" (age_of env m);
  _ ← set_header "Content-Length" (FormatInt (ContentBytes m));
  _ ← (if nonempty (ContentDigest m)
       then set_header "Docker-Content-Digest" (ContentDigest m) else mret tt);
  _ ← WriteHeader (Status m);
  if (Method request =? "HEAD")%string then mret tt
  else
    err ← copy_body env (entry_source env entry);
    if is_Some_b err then mret tt
    else if nonempty (ContentDigest m) && negb (isOk (verifySHA256 (Body entry) (ContentDigest m)))
    then count Errors else mret tt.

Definition passThrough (response : Response) (headers : Header) : M unit :=
  _ ← copy_headers (order env Copying headers);
  _ ← WriteHeader (StatusCode response);
  if (Method request =? "HEAD")%string then mret tt
  else _ ← copy_body env (RespBody response); mret tt.

Definition cacheManifest (response : Response) (headers cacheHeaders : Header) (key expectedDigest : string)
    : M unit :=
  let '(body, rest) := ReadLimited (maxManifestBytes + 1) (RespBody response) in
  match body with
  | None => fail 502 "could not read OCI manifest" (BodyError response)
  | Some body =>
      if maxManifestBytes <? Z.of_nat (String.length body) then
        _ ← copy_headers (order env Copying (Del headers "Content-Length"));
        _ ← WriteHeader (StatusCode response);
        _ ← copy_body env (multi_reader body rest); mret tt
      else if negb (isOk (verifySum (Sum256 body) expectedDigest)) then
        fail 502 "upstream OCI manifest digest mismatch" (GoError EmptyString None)
      else
        let length := FormatInt (Z.of_nat (String.length body)) in
        let headers := Set_ headers "Content-Length" length in
        let metadata := new_metadata (StatusCode response) (Set_ cacheHeaders "Content-Length" length)
                          expectedDigest in
        _ ← store_PutBytes env key metadata body;
        _ ← copy_headers (order env Copying headers);
        _ ← WriteHeader (StatusCode response);
        write_once env body
  end.

Definition cacheBlob (response : Response) (headers cacheHeaders : Header) (key expectedDigest : string)
    : M unit :=
  _ ← copy_headers (order env Copying headers);
  _ ← WriteHeader (StatusCode response);
  let metadata := new_metadata (StatusCode response) cacheHeaders expectedDigest in
  let source := RespBody response in
  err ← store_PutStreamVerified env key metadata source
          (Some (fun _ => isOk (verifySHA256 (content source) expectedDigest)));
  match err with
  | Some e => recordStreamError (put_failure response e)
  | None => mret tt
  end.

Definition serveMiss (target : URL) (key : string) (k : kind) (requestedDigest : string)
    (cacheableRequest : bool) : M unit :=
  match upstreamRequest (Method request) target with
  | Err e => fail 502 "could not create upstream request" e
  | Ok r =>
      answer ← Do env r;
      match answer with
      | Err e => fail 502 "upstream request failed" e
      | Ok response =>
          let headers := Set_ (ResponseHeaders (RespHeader response)
                                 (order env Responding (RespHeader response)))
                           "X-N0ding-Cache" "MISS" in
          let cacheable := cacheableRequest && (Method request =? "GET")%string
                           && (StatusCode response =? 200)
                           && ResponseAllowsStorage (ReqHeader request) (RespHeader response)
                                ["Accept"; "Accept-Encoding"] in
          if negb cacheable then passThrough response headers
          else
            let expectedDigest := if nonempty requestedDigest then requestedDigest
                                  else Get (RespHeader response) "Docker-Content-Digest" in
            if negb (is_Some_b (decodeSHA256 expectedDigest)) then passThrough response headers
            else
              let headers := Set_ headers "Docker-Content-Digest" expectedDigest in
              let cacheHeaders := CacheMetadataHeaders headers (order env Persisting headers) in
              match k with
              | Manifest => cacheManifest response headers cacheHeaders key expectedDigest
              | Blob => cacheBlob response headers cacheHeaders key expectedDigest
              | Neither => passThrough response headers
              end
      end
  end.

(** One attempt to serve from the cache; whether it did. *)
Definition try_hit (at_ : moment) (target : URL) (key : string) (ttl : Z) : M bool :=
  found ← lookup at_ key ttl;
  match found with
  | None => mret false
  | Some entry =>
      allowed ← authorizeCacheHit target (ContentDigest (EntryMetadata entry));
      if allowed : bool then
        _ ← count Hits;
        _ ← serveHit entry;
        mret true
      else mret false
  end.

(** Before and after waiting for the lock of the key. *)
Definition from_cache (target : URL) (key : string) (ttl : Z) : M bool :=
  served ← try_hit FirstLookup target key ttl;
  if served : bool then mret true
  else
    _ ← others_run env SecondLookup;
    try_hit SecondLookup target key ttl.

Definition ServeHTTP : M unit :=
  _ ← count Requests;
  if negb (Method request =? "GET")%string && negb (Method request =? "HEAD")%string then
    _ ← set_header "Allow" "GET, HEAD";
    http_Error env "OCI pull-through spike is read-only" 405
  else if negb (HasPrefix (Path url) (path p)) then NotFound env
  else match targetURL url with
  | None => fail 400 "invalid upstream URL" (parseError (URL_String url))
  | Some target =>
      let '(k, requestedDigest, cacheResource) := classify (Path url) in
      let rangeRequest := nonempty (Get (ReqHeader request) "Range") in
      _ ← (if rangeRequest then count RangeRequests else mret tt);
      let cacheableRequest := cacheResource && negb rangeRequest
                              && negb (RequestBypassesCache (ReqHeader request)) in
      let key := cacheKey target (Get (ReqHeader request) "Accept") in
      let ttl := cacheTTL k requestedDigest in
      if cacheableRequest then
        served ← from_cache target key ttl;
        if served : bool then mret tt
        else
          _ ← count Misses;
          serveMiss target key k requestedDigest cacheableRequest
      else serveMiss target key k requestedDigest cacheableRequest
  end.

End Request.
End Proxy.
