(* ===== verification/OciTheorems.v ===== *)
(** * The OCI proxy: theorems

    Digest verification is exact; a hit is served only after the upstream confirmed its
    digest to the client that asks; what is cached was verified; and the digest
    invariant of the store is preserved by every request. *)

From S2P Require Import Prelude GoStrings Sha256 Url Origin Http HttpPolicy Time Metadata Fs Store StoreFacts StoreSystem StoreStream Handler HandlerFacts Oci.
From Stdlib Require Import Ascii String.
Local Open Scope string_scope.
Local Open Scope Z_scope.

(** ** Digests *)

Lemma difference_zero (l r : list Z) (acc : Z) :
  List.length l = List.length r -> difference l r acc = 0 <-> acc = 0 /\ l = r.
Proof.
  revert r acc. induction l as [|x l IH]; intros [|y r] acc Hl; cbn in Hl; try done; [cbn; naive_solver|].
  cbn [difference]. rewrite IH by lia. rewrite Z.lor_eq_0_iff, Z.lxor_eq_0_iff. naive_solver.
Qed.

Lemma equalBytes_spec (l r : list Z) : equalBytes l r = true <-> l = r.
Proof.
  unfold equalBytes. destruct (Nat.eqb_spec (List.length l) (List.length r)) as [E|E]; cbn [negb].
  - rewrite Z.eqb_eq, difference_zero by done. naive_solver.
  - split; [done|by intros ->].
Qed.

Lemma decodeSHA256_spec (value : string) (bs : list Z) :
  decodeSHA256 value = Some bs ->
  ToLower value = "sha256:" ++ hex_EncodeToString bs /\ List.length bs = Sha256.Size.
Proof.
  unfold decodeSHA256. destruct (Cut (ToLower value) ":") as [[algorithm encoded] ok] eqn:Ec.
  destruct ok; [|done]. cbn [negb orb]. destruct (String.eqb_spec algorithm "sha256") as [->|]; [|done].
  cbn [negb orb]. destruct (Nat.eqb_spec (String.length encoded) (Sha256.Size * 2)) as [El|]; [|done].
  cbn [negb]. intros Hd. apply Cut_true in Ec. pose proof (ToLower_no_upper value) as Hu. rewrite Ec in Hu |- *.
  rewrite !str_forall_app, !andb_true_iff in Hu. destruct Hu as (_ & _ & Hu).
  rewrite (hex_encode_decode _ _ Hu Hd). split; [done|].
  apply hex_decode_length in Hd. unfold Sha256.Size in *. lia.
Qed.

Lemma verifySHA256_spec (text digest : string) :
  isOk (verifySHA256 text digest) = true <-> has_digest text digest.
Proof.
  unfold verifySHA256, verifySum, has_digest, sha256_hex. split.
  - destruct (decodeSHA256 digest) as [bs|] eqn:Ed; [|done].
    destruct (equalBytes (Sum256 text) bs) eqn:Eb; [|done]. intros _.
    apply equalBytes_spec in Eb as ->. by apply decodeSHA256_spec in Ed as [-> _].
  - intros E. assert (decodeSHA256 digest = Some (Sum256 text)) as ->.
    { unfold decodeSHA256. rewrite E.
      change ("sha256:" ++ ?x) with ("sha256" ++ String ":" x).
      rewrite (Cut_byte_app "sha256" _ ":") by reflexivity.
      cbn [negb orb]. rewrite length_hex, Sum256_length. apply hex_decode_encode, Sum256_range. }
    by rewrite (proj2 (equalBytes_spec _ _) eq_refl).
Qed.

(** ** What a request does *)

Section Requests.
Context {codec : MetadataCodec} {company : Elsewhere} (p : Proxy) (env : Env) (request : Request) (url : URL).

(** The conditions under which the code lets a response into the cache. *)
Record storable (q : Put) : Prop := {
  st_method : Method request = "GET";
  st_range : Get (ReqHeader request) "Range" = EmptyString;
  st_fresh : RequestBypassesCache (ReqHeader request) = false;
  st_key : exists target, targetURL p url = Some target
    /\ putKey q = cacheKey p target (Get (ReqHeader request) "Accept");
  st_status : Status (putMetadata q) = 200;
  st_resource : snd (classify (Path url)) = true;
  st_digest : nonempty (snd (fst (classify (Path url)))) = true ->
    ContentDigest (putMetadata q) = snd (fst (classify (Path url)));
  st_verified : (exists n, verified (putVerify q) n = true) ->
    has_digest (content (putSource q)) (ContentDigest (putMetadata q));
  st_allowed : exists response, StatusCode response = 200
    /\ ResponseAllowsStorage (ReqHeader request) (RespHeader response) ["Accept"; "Accept-Encoding"] = true
}.

Definition event_ok (e : event) : Prop :=
  match e with
  | Sent r => (exists target, targetURL p url = Some target
        /\ (upstreamRequest env request "HEAD" target = Ok r
            \/ upstreamRequest env request (Method request) target = Ok r))
      /\ request_to (upstream p) r
  | Putting q => storable q
  | ServedFile _ _ _ => False
  end.

(** ** Hits *)

(** The upstream's answer to the authorization request confirms the digest. *)
Definition confirms (response : Response) (digest : string) : Prop :=
  200 <= StatusCode response < 300 /\ digest <> EmptyString
  /\ Get (RespHeader response) "Docker-Content-Digest" <> EmptyString
  /\ EqualFold (Get (RespHeader response) "Docker-Content-Digest") digest = true.

Lemma authorizeCacheHit_spec (target : URL) (digest : string) (w : World) :
  let '(b, w') := authorizeCacheHit env request target digest w in
  stats w' = stats w /\ reply w' = reply w /\ cacheStore w' = cacheStore w
  /\ (b = true -> exists r response, upstreamRequest env request "HEAD" target = Ok r
       /\ w' = add_event (Sent r) w /\ upstreamDo env (sent_count w) r = Ok response
       /\ confirms response digest).
Proof.
  unfold authorizeCacheHit. destruct (upstreamRequest env request "HEAD" target) as [r|e]; [|done].
  unfold Do, mbind, M_bind, mret, M_ret. fold (sent_count w).
  destruct (upstreamDo env (sent_count w) r) as [response|e] eqn:Eu; [|done].
  destruct (_ || _) eqn:Es; [done|]. split_and!; [done..|]. intros Hb. exists r, response.
  split_bool. unfold nonempty in *. split_bool.
  repeat split; try done; try lia; by apply String.eqb_neq.
Qed.

Lemma set_store_same (w : World) : set_store (cacheStore w) w = w.
Proof. by destruct w. Qed.

Lemma lookup_run (at_ : moment) (key : string) (ttl : Z) (w : World) :
  lookup env at_ key ttl w
  = let '(r, s) := Lookup (ioAt env at_) (clockAt env at_) (cacheStore w) key ttl in
    (found_entry r, set_store s w).
Proof. unfold lookup, store_Lookup, mbind, M_bind. by destruct (Lookup _ _ _ _ _). Qed.

(** One attempt: what it takes to succeed, and that a failure leaves no trace but the
    request it sent. *)
Lemma try_hit_spec (at_ : moment) (target : URL) (key : string) (ttl : Z) (w : World) :
  let '(served, w') := try_hit env request at_ target key ttl w in
  let '(found, s') := Lookup (ioAt env at_) (clockAt env at_) (cacheStore w) key ttl in
  if served : bool then
    exists entry r response, found = Ok (Some entry)
      /\ upstreamRequest env request "HEAD" target = Ok r
      /\ upstreamDo env (sent_count w) r = Ok response
      /\ confirms response (ContentDigest (EntryMetadata entry))
      /\ w' = snd (serveHit env request entry (snd (count Hits (add_event (Sent r) (set_store s' w)))))
  else stats w' = stats w /\ reply w' = reply w /\ cacheStore w' = s'.
Proof.
  unfold try_hit. rewrite bind_run, lookup_run.
  destruct (Lookup _ _ _ _ _) as [found s']. cbn [fst snd].
  destruct (found_entry found) as [entry|] eqn:Ef; [|done]. rewrite bind_run.
  pose proof (authorizeCacheHit_spec target (ContentDigest (EntryMetadata entry)) (set_store s' w)) as Ha.
  destruct (authorizeCacheHit _ _ _ _ _) as [[|] w1]; destruct Ha as (Hs & Hr & Hc & Hb); [|done].
  destruct (Hb eq_refl) as (r & response & Er & -> & Eu & Hconf).
  cbn [fst snd]. rewrite !bind_run. cbn [mret M_ret].
  exists entry, r, response. split_and!; try done. by apply found_entry_Some.
Qed.

Lemma fail_hits (status : Z) (message : string) (err : error) :
  preserves (fun w => hits (stats w)) (fail env status message err).
Proof. unfold fail. preserves. Qed.

Lemma serveMiss_hits (target : URL) (key : string) (k : kind) (digest : string) (cacheable : bool) :
  preserves (fun w => hits (stats w)) (serveMiss env request target key k digest cacheable).
Proof. unfold serveMiss, cacheManifest, cacheBlob, passThrough, recordStreamError, fail. preserves. Qed.

Lemma serveHit_hits (entry : Entry) : preserves (fun w => hits (stats w)) (serveHit env request entry).
Proof. unfold serveHit. preserves. Qed.

Lemma oci_serveHit_receives (entry : Entry) (w : World) :
  unsent (reply w) ->
  let w' := snd (serveHit env request entry w) in events w' = events w /\ receives env request entry w'.
Proof.
  intros [Hs Hb]. unfold serveHit. do 5 rewrite bind_run. set (m := EntryMetadata entry).
  match goal with
  | |- context [snd ((if nonempty (ContentDigest m) then ?a else ?b) ?x)] =>
      set (w1 := snd ((if nonempty (ContentDigest m) then a else b) x))
  end.
  assert (events w1 = events w /\ unsent (reply w1)
    /\ Get (live (reply w1)) "X-N0ding-Cache" = "HIT") as (E1 & E2 & E3).
  { unfold w1. destruct (nonempty (ContentDigest m)); cbn; split_and!; try done; by rewrite !Get_Set. }
  clearbody w1. rewrite <- E1. apply send_entry_receives; [done|done|].
  intros err w2. by destruct_ifs.
Qed.

Section Invariant.
Context (I : Store -> Prop) {HI : StoreInvariant env I}.
Context (Hu : located (upstream p)) (Hslash : HasPrefix (EscapedPath url) "/" = true).

(** Both kinds of upstream request go to the upstream. *)
Lemma oci_sent_ok (method : string) (target : URL) (r : Request) :
  targetURL p url = Some target -> upstreamRequest env request method target = Ok r ->
  method = "HEAD" \/ method = Method request -> event_ok (Sent r).
Proof.
  intros Ht Er Hm. split.
  { exists target. split; [done|]. destruct Hm as [-> | ->]; auto. }
  revert Ht Er. unfold targetURL, upstreamRequest. apply HasPrefix_spec in Hslash as [path ->].
  destruct (Parse (_ ++ "/" ++ path)) as [v|] eqn:Ep; [|done]. intros [= <-].
  destruct (located_join _ _ _ Hu Ep) as (Hl & H1 & H2).
  destruct (NewRequest _ _) as [r0|e] eqn:En; [|done]. intros [= <-].
  apply (request_to_same (set_RawQuery (RawQuery url) v)); [done|done|]. exact (NewRequest_to _ (set_RawQuery (RawQuery url) v) r0 Hl En).
Qed.

Abbreviation effects := (effects env event_ok I).

Lemma oci_fail_effects (status : Z) (message : string) (err : error) : effects (fail env status message err).
Proof.
  unfold fail. destruct (canceledBy env err); [apply effects_count|].
  apply effects_bind; [apply effects_count|]. intros _. apply effects_reply_only. reply_only.
Qed.

Lemma recordStreamError_effects (err : error) : effects (recordStreamError env err).
Proof. unfold recordStreamError. destruct (canceledBy env err); apply effects_count. Qed.

Lemma serveHit_effects (entry : Entry) : effects (serveHit env request entry).
Proof.
  unfold serveHit. repeat (apply effects_bind; [apply effects_reply_only; reply_only|intros _]).
  destruct (Method request =? "HEAD")%string; [apply effects_reply_only; reply_only|].
  apply effects_bind; [apply effects_reply_only; reply_only|]. intros err.
  destruct (is_Some_b err); [apply effects_reply_only; reply_only|].
  destruct (_ && _); [apply effects_count|apply effects_reply_only; reply_only].
Qed.

Lemma passThrough_reply_only (response : Response) (headers : Header) :
  ReplyOnly (passThrough env request response headers).
Proof. unfold passThrough. reply_only. Qed.

Lemma authorizeCacheHit_effects (target : URL) (digest : string) :
  targetURL p url = Some target -> effects (authorizeCacheHit env request target digest).
Proof.
  intros Ht. unfold authorizeCacheHit.
  destruct (upstreamRequest env request "HEAD" target) as [r|e] eqn:Er; [|apply effects_reply_only; reply_only].
  apply effects_bind; [apply effects_Do; eapply oci_sent_ok; eauto|]. intros [response|e];
    [|apply effects_reply_only; reply_only].
  destruct (_ || _); apply effects_reply_only; reply_only.
Qed.

Lemma lookup_effects (at_ : moment) (key : string) (ttl : Z) : effects (lookup env at_ key ttl).
Proof.
  unfold lookup. apply effects_bind; [|intros r; apply effects_reply_only; reply_only].
  by apply effects_Lookup.
Qed.

Lemma oci_try_hit_effects (at_ : moment) (target : URL) (key : string) (ttl : Z) :
  targetURL p url = Some target -> effects (try_hit env request at_ target key ttl).
Proof.
  intros Ht. unfold try_hit. apply effects_bind; [apply lookup_effects|].
  intros [entry|]; [|apply effects_reply_only; reply_only].
  apply effects_bind; [by apply authorizeCacheHit_effects|]. intros [|]; [|apply effects_reply_only; reply_only].
  apply effects_bind; [apply effects_count|intros _]. apply effects_bind; [apply serveHit_effects|intros _].
  apply effects_reply_only; reply_only.
Qed.

Lemma from_cache_effects (target : URL) (key : string) (ttl : Z) :
  targetURL p url = Some target -> effects (from_cache env request target key ttl).
Proof.
  intros Ht. unfold from_cache.
  apply effects_bind; [by apply oci_try_hit_effects|]. intros [|]; [apply effects_reply_only; reply_only|].
  apply effects_bind; [by apply effects_others|intros _]. by apply oci_try_hit_effects.
Qed.

Lemma storable_digest (q : Put) : storable q -> storable q /\ put_digest (Putting q).
Proof. intros H. split; [done|]. right. apply H. Qed.

(** What the callers of the two caching branches have established. *)
Definition admissible (key expectedDigest : string) (status : Z) : Prop :=
  forall s m entries src verify,
    ContentDigest m = expectedDigest -> Status m = status ->
    ((exists n, verified verify n = true) -> has_digest (content src) expectedDigest) ->
    storable (mkPut s key m entries src verify).

Lemma cacheManifest_effects (response : Response) (headers cacheHeaders : Header)
    (key expectedDigest : string) :
  admissible key expectedDigest (StatusCode response) ->
  effects (cacheManifest env response headers cacheHeaders key expectedDigest).
Proof.
  intros Ha. unfold cacheManifest. destruct (ReadLimited _ _) as [[body|] rest]; [|apply oci_fail_effects].
  destruct (maxManifestBytes <? _); [apply effects_reply_only; reply_only|].
  destruct (isOk (verifySum (Sum256 body) expectedDigest)) eqn:Ev; cbn [negb]; [|apply oci_fail_effects].
  apply effects_bind; [|intros _; apply effects_reply_only; reply_only].
  apply effects_PutBytes; [done|]. intros s. apply storable_digest, Ha; [done|done|intros _].
  rewrite bytes_source_content. by apply verifySHA256_spec.
Qed.

Lemma cacheBlob_effects (response : Response) (headers cacheHeaders : Header)
    (key expectedDigest : string) :
  admissible key expectedDigest (StatusCode response) ->
  effects (cacheBlob env response headers cacheHeaders key expectedDigest).
Proof.
  intros Ha. unfold cacheBlob. repeat (apply effects_bind; [apply effects_reply_only; reply_only|intros _]).
  apply effects_bind.
  - apply effects_PutStreamVerified; [done|]. intros s. apply storable_digest, Ha; [done|done|]. intros [n Hn]. by apply verifySHA256_spec.
  - intros [e|]; [apply recordStreamError_effects|apply effects_reply_only; reply_only].
Qed.

Lemma oci_serveMiss_effects (target : URL) (key : string) (k : kind) (requestedDigest : string) (cacheable : bool) :
  targetURL p url = Some target ->
  key = cacheKey p target (Get (ReqHeader request) "Accept") ->
  (cacheable = true -> classify (Path url) = (k, requestedDigest, true)
    /\ Get (ReqHeader request) "Range" = EmptyString /\ RequestBypassesCache (ReqHeader request) = false) ->
  effects (serveMiss env request target key k requestedDigest cacheable).
Proof.
  intros Ht Hk Hc. unfold serveMiss.
  destruct (upstreamRequest env request (Method request) target) as [r|e] eqn:Er; [|apply oci_fail_effects].
  apply effects_bind; [apply effects_Do; eapply oci_sent_ok; eauto|]. intros [response|e]; [|apply oci_fail_effects].
  cbv zeta. destruct (cacheable && _ && _ && _) eqn:Eg; cbn [negb];
    [|apply effects_reply_only, passThrough_reply_only].
  split_bool. destruct (Hc ltac:(done)) as (Hcl & Hr & Hb).
  set (expected := if nonempty requestedDigest then _ else _).
  destruct (is_Some_b (decodeSHA256 expected)); cbn [negb]; [|apply effects_reply_only, passThrough_reply_only].
  assert (admissible key expected (StatusCode response)) as Ha.
  { intros s m entries src verify Hd Hst Hv. split; cbn [putKey putMetadata putVerify putSource];
      rewrite ?Hcl; try done.
    - by apply String.eqb_eq.
    - by exists target; subst key.
    - congruence.
    - cbn [fst snd]. intros Hn. rewrite Hd. unfold expected. by rewrite Hn.
    - by rewrite Hd.
    - by exists response. }
  destruct k; [by apply cacheManifest_effects|by apply cacheBlob_effects|].
  apply effects_reply_only, passThrough_reply_only.
Qed.

Lemma oci_ServeHTTP_effects : effects (ServeHTTP p env request url).
Proof.
  unfold ServeHTTP. apply effects_bind; [apply effects_count|intros _].
  destruct (_ && _); [apply effects_reply_only; reply_only|].
  destruct (HasPrefix (Path url) _); cbn [negb]; [|apply effects_reply_only; reply_only].
  destruct (targetURL p url) as [target|] eqn:Ht; [|apply oci_fail_effects].
  destruct (classify (Path url)) as [[k d] resource] eqn:Hc. cbv zeta.
  apply effects_bind; [destruct (nonempty _); [apply effects_count|apply effects_reply_only; reply_only]|intros _].
  destruct (resource && _ && _) eqn:Eg.
  - assert (resource = true /\ Get (ReqHeader request) "Range" = EmptyString
      /\ RequestBypassesCache (ReqHeader request) = false) as (-> & Hr & Hb).
    { split_bool. unfold nonempty in *. split_and!; [done| |done]. by split_bool; apply String.eqb_eq. }
    apply effects_bind; [by apply from_cache_effects|]. intros [|]; [apply effects_reply_only; reply_only|].
    apply effects_bind; [apply effects_count|intros _]. apply oci_serveMiss_effects; auto.
  - apply oci_serveMiss_effects; [done|done|discriminate].
Qed.

End Invariant.
End Requests.

(** ** Properties *)

Section Properties.
Context {codec : MetadataCodec} {company : Elsewhere} (p : Proxy) (env : Env) (request : Request) (url : URL).

(** An entry served at one of the two attempts, from the store as it was then. *)
Definition confirmed_hit (w w' : World) (target : URL) (s : Store) (at_ : moment) : Prop :=
  let '(k, requestedDigest, _) := classify (Path url) in
  exists entry r response n,
    fst (Lookup (ioAt env at_) (clockAt env at_) s
           (cacheKey p target (Get (ReqHeader request) "Accept")) (cacheTTL p k requestedDigest))
      = Ok (Some entry)
    /\ upstreamRequest env request "HEAD" target = Ok r
    /\ upstreamDo env n r = Ok response
    /\ confirms response (ContentDigest (EntryMetadata entry))
    /\ last (events w') = Some (Sent r)
    /\ receives env request entry w'
    /\ (forall y0, initial y0 -> surroundings y0 env -> trusted y0 (cacheStore w) ->
        has_digest (Body entry) (ContentDigest (EntryMetadata entry))).

Lemma try_hit_confirmed (w w0 w' : World) (target : URL) (at_ : moment) :
  let '(k, requestedDigest, _) := classify (Path url) in
  try_hit env request at_ target (cacheKey p target (Get (ReqHeader request) "Accept"))
    (cacheTTL p k requestedDigest) w0 = (true, w') ->
  unsent (reply w0) ->
  (forall y0, initial y0 -> surroundings y0 env -> trusted y0 (cacheStore w) -> trusted y0 (cacheStore w0)) ->
  confirmed_hit w w' target (cacheStore w0) at_.
Proof.
  unfold confirmed_hit. destruct (classify (Path url)) as [[k d] ok]. intros Et Hu Ht.
  pose proof (try_hit_spec env request at_ target (cacheKey p target (Get (ReqHeader request) "Accept"))
    (cacheTTL p k d) w0) as H.
  rewrite Et in H. destruct (Lookup _ _ _ _ _) as [found s'] eqn:El.
  destruct H as (entry & r & response & -> & Er & Eu & Hc & ->). cbn [fst snd].
  set (w1 := snd (count Hits _)).
  destruct (oci_serveHit_receives env request entry w1) as [He Hr]; [done|].
  exists entry, r, response, (sent_count w0). split_and!; try done.
  - rewrite He. unfold w1. cbn. by rewrite last_snoc.
  - intros y0 H0 Hs Hw. destruct (Ht y0 H0 Hs Hw) as (fs & hs & Hr' & Hh).
    destruct (trusted_hit y0 H0 (ioAt env at_) (clockAt env at_) (cacheStore w0)
      (cacheKey p target (Get (ReqHeader request) "Accept")) (cacheTTL p k d) entry) as [E|E]; try done.
    + apply Hs.
    + by exists fs, hs.
    + by rewrite El.
    + by destruct Hc as (_ & Hne & _).
Qed.

(** The two attempts: a success is confirmed, a failure counts nothing. *)
Lemma from_cache_spec (w w1 : World) (target : URL) :
  let '(k, requestedDigest, _) := classify (Path url) in
  unsent (reply w1) -> cacheStore w1 = cacheStore w ->
  let '(served, w') :=
    from_cache env request target (cacheKey p target (Get (ReqHeader request) "Accept"))
      (cacheTTL p k requestedDigest) w1 in
  if served : bool then exists at_ s, confirmed_hit w w' target s at_ else stats w' = stats w1.
Proof.
  pose proof (try_hit_confirmed w) as Hhit. unfold confirmed_hit in *.
  destruct (classify (Path url)) as [[k d] ok]. intros Hu Es. unfold from_cache.
  set (key := cacheKey p target _) in *. set (life := cacheTTL p k d) in *.
  rewrite bind_run. pose proof (Hhit w1) as Hhit1.
  pose proof (try_hit_spec env request FirstLookup target key life w1) as H1.
  destruct (try_hit env request FirstLookup target key life w1) as [[|] w2] eqn:E1.
  { exists FirstLookup, (cacheStore w1). apply (Hhit1 w2 target FirstLookup); [done|done|].
    intros y0 _ _. by rewrite Es. }
  destruct (Lookup _ _ _ _ _) as [found s'] eqn:El in H1. destruct H1 as (Hst & Hrp & Hcs). clear Hhit1 E1.
  cbn [fst snd]. rewrite bind_run. set (w3 := snd (others_run env SecondLookup w2)).
  assert (stats w3 = stats w1 /\ reply w3 = reply w1) as [Est Erp] by (unfold w3; cbn; by rewrite Hst, Hrp).
  assert (forall y0, initial y0 -> surroundings y0 env -> trusted y0 (cacheStore w) -> trusted y0 (cacheStore w3)) as Ht3.
  { intros y0 H0 Hs Hw. apply (proj2 Hs). rewrite Hcs.
    pose proof (lookup_trusted y0 (ioAt env FirstLookup) (clockAt env FirstLookup) (cacheStore w1) key life) as Hl.
    rewrite El in Hl. apply Hl; [apply Hs|by rewrite Es]. }
  clearbody w3. pose proof (Hhit w3) as Hhit3.
  pose proof (try_hit_spec env request SecondLookup target key life w3) as H3.
  destruct (try_hit env request SecondLookup target key life w3) as [[|] w4] eqn:E3.
  { exists SecondLookup, (cacheStore w3). apply (Hhit3 w4 target SecondLookup); [done|by rewrite Erp|done]. }
  destruct (Lookup _ _ _ _ _) as [found3 s3] in H3. destruct H3 as (Hst3 & _ & _). by rewrite Hst3.
Qed.

(** C11: Whenever the hit counter moves, the client received the cached entry, found
    under the key of its own request, and that only after the last upstream request, a
    [HEAD] with this client's own headers, was answered with success and a digest equal
    to the entry's; from a trusted store, the body the client gets has that digest. *)
Theorem oci_hit_confirmed_upstream (w : World) :
  let w' := snd (ServeHTTP p env request url w) in
  unsent (reply w) -> hits (stats w') <> hits (stats w) ->
  exists target at_ s, targetURL p url = Some target /\ confirmed_hit w w' target s at_.
Proof.
  intros w' Hu Hne.
  unfold w', ServeHTTP in *. rewrite bind_run in *. set (w0 := snd (count Requests w)) in *.
  assert (hits (stats w) = hits (stats w0) /\ reply w = reply w0 /\ cacheStore w = cacheStore w0)
    as (Eh & Er & Es) by (unfold w0; cbn; by destruct (stats w)).
  rewrite Eh in Hne. rewrite Er in Hu. clearbody w0.
  assert (forall m : M (), preserves (fun w => hits (stats w)) m -> hits (stats (snd (m w0))) <> hits (stats w0) -> False)
    as Hkeep by (intros m Hm Hx; by apply Hx, Hm).
  destruct (_ && _); [exfalso; eapply Hkeep; [|exact Hne]; preserves|].
  destruct (HasPrefix _ _); cbn [negb] in *; [|exfalso; eapply Hkeep; [|exact Hne]; preserves].
  destruct (targetURL p url) as [target|] eqn:Et; [|exfalso; eapply Hkeep; [|exact Hne]; apply fail_hits].
  exists target. pose proof (from_cache_spec w) as Hhit.
  unfold confirmed_hit in *. destruct (classify (Path url)) as [[k d] ok]. cbv zeta in *.
  rewrite bind_run in *. match goal with |- context [snd ((if ?b then count RangeRequests else ?m) w0)] =>
    set (w1 := snd ((if b then count RangeRequests else m) w0)) in * end.
  assert (hits (stats w0) = hits (stats w1) /\ reply w0 = reply w1 /\ cacheStore w0 = cacheStore w1)
    as (Eh1 & Er1 & Es1) by (unfold w1; destruct (nonempty _); cbn; by destruct (stats w0)).
  rewrite Eh1 in Hne. rewrite Er1 in Hu. rewrite Es1 in Es. clearbody w1. clear Hkeep.
  destruct (ok && _ && _); [|by destruct Hne; apply serveMiss_hits].
  rewrite bind_run in *. specialize (Hhit w1 target Hu (eq_sym Es)).
  destruct (from_cache _ _ _ _ _ w1) as [[|] w2]; cbn [fst snd] in *.
  { destruct Hhit as (at_ & s & H). by exists at_, s. }
  destruct Hne. rewrite bind_run, serveMiss_hits. cbn. rewrite Hhit. by destruct (stats w1).
Qed.


End Properties.
