(* ===== verification/OciExamples.v ===== *)
(** * The OCI proxy at work

    A pull of a manifest by tag, first a miss that is stored, then a hit confirmed by
    the upstream, on the demonstration store. *)

From S2P Require Import Prelude GoStrings Sha256 Url Origin Http HttpPolicy Time Metadata Fs Store StoreFacts StoreOps StorePut StoreStream StoreSystem StoreSafety StoreRuns StoreTheorems StoreExamples Handler HandlerFacts HandlerExamples Oci OciTheorems.
From S2P Require Storage.
From Stdlib Require Import Ascii String.
Local Open Scope string_scope.
Local Open Scope Z_scope.

Definition hub : Proxy :=
  match New (mkOptions "oci" "/v2/" "https://registry.test" "http://localhost:8080" (3600 * nanos)) with
  | Ok p => p
  | Err _ => mkProxy EmptyString EmptyString zeroURL EmptyString 0
  end.

Definition pull_url : URL := default zeroURL (Parse "/v2/a/manifests/latest").
Definition pull : Request :=
  mkRequest "GET" (Some pull_url) (<["Authorization" := ["Bearer t"]]> ∅).

Definition manifest_digest : string :=
  "sha256:44136fa355b3678a1146ad16f7e8649e94fb4fc21fe77e8310c060f61caaff8a".

(** A registry that has the manifest [{}]. *)
Definition registry_do (n : nat) (r : Request) : result error Response :=
  Ok (mkResponse 200 (<["Docker-Content-Digest" := [manifest_digest]]> (<["Content-Length" := ["2"]]> ∅))
        (bytes_source "{}") Canceled).

Definition pull_env : Env := around registry_do.

Definition after_miss : World := snd (ServeHTTP hub pull_env pull pull_url start).
Definition hit_start : World := again after_miss.
Definition after_hit : World := snd (ServeHTTP hub pull_env pull pull_url hit_start).

Example miss_then_hit :
  (replyBody (reply after_miss), stats after_miss, replyBody (reply after_hit), stats after_hit,
   option_map (fun r => Get (snd r) "X-N0ding-Cache") (sent (reply after_hit)))
  = ("{}", mkCounters 1 0 1 0 0 0, "{}", mkCounters 2 1 1 0 0 0, Some "HIT").
Proof. vm_compute. reflexivity. Qed.

(** A registry that denies the client gets no cached byte served. *)
Definition denied_env : Env :=
  around (fun _ _ => Ok (mkResponse 401 ∅ (bytes_source "denied") Canceled)).

Example denied_client_sees_upstream :
  final (snd (ServeHTTP hub denied_env pull pull_url hit_start))
  = (401, <["X-N0ding-Cache" := ["MISS"]]> ∅, "denied").
Proof. vm_compute. reflexivity. Qed.

(** ** Witnesses *)

Lemma hub_located : located (upstream hub).
Proof. by apply (Parse_located "https://registry.test"). Qed.

(** The put of the manifest. *)
Definition pull_metadata : Metadata :=
  new_metadata 200 (<["Docker-Content-Digest" := [manifest_digest]]> (<["Content-Length" := ["2"]]> ∅))
    manifest_digest.
Definition pull_key : string :=
  cacheKey hub (default zeroURL (Parse "https://registry.test/v2/a/manifests/latest")) EmptyString.
Definition pull_put : Put :=
  mkPut demo_store pull_key pull_metadata (map_to_list (Header_ pull_metadata)) (bytes_source "{}") None.

Lemma pull_fits : put_fits pull_env (Putting pull_put).
Proof. apply demo_put_fits; vm_compute; reflexivity. Qed.

Lemma pull_events : exists r, events after_miss = [Sent r; Putting pull_put].
Proof. eexists. vm_compute. reflexivity. Qed.

Lemma pull_new (new : list event) :
  events after_miss = (events start ++ new)%list -> Forall (put_fits pull_env) new.
Proof.
  destruct pull_events as [r ->]. cbn [events start app]. intros <-.
  constructor; [exact Logic.I|]. constructor; [exact pull_fits|constructor].
Qed.


Lemma oci_hit_confirmed_upstream_witness :
  hits (stats after_hit) = 1
  /\ exists target at_ s, targetURL hub pull_url = Some target
      /\ confirmed_hit hub pull_env pull pull_url hit_start after_hit target s at_.
Proof.
  assert (unsent (reply hit_start)) as Hu by (split; reflexivity).
  assert (hits (stats after_hit) = 1 /\ hits (stats hit_start) = 0) as [Hh Hz] by (vm_compute; split; reflexivity).
  split; [exact Hh|].
  pose proof (oci_hit_confirmed_upstream hub pull_env pull pull_url hit_start) as H. cbv zeta in H.
  fold after_hit in H. apply (H Hu). rewrite Hh, Hz. discriminate.
Defined.
