(* ===== verification/Mime.v ===== *)
(** * Media types ([mime.ParseMediaType])

    What the proxies use of it: the media type and whether parsing fails. *)

From S2P Require Import Prelude GoStrings Http.
From Stdlib Require Import Ascii String.
Local Open Scope string_scope.
Local Open Scope Z_scope.

Definition quote : ascii := "034".
Definition backslash : ascii := "092".

(** The longest prefix of token bytes, and the rest. *)
Fixpoint consumeToken (s : string) : string * string :=
  match s with
  | EmptyString => (EmptyString, EmptyString)
  | String c s' =>
      if validHeaderFieldByte c then
        let '(token, rest) := consumeToken s' in (String c token, rest)
      else (EmptyString, s)
  end.

Definition isTSpecial (c : ascii) : bool :=
  contains_byte c "()<>@,;:/[]?=" || Ascii.eqb c quote || Ascii.eqb c backslash.

(** The inside of a quoted string: its value and what follows the closing quote. *)
Fixpoint quoted_value (s : string) : option (string * string) :=
  match s with
  | EmptyString => None
  | String c s' =>
      if Ascii.eqb c quote then Some (EmptyString, s')
      else
        match s' with
        | String d s'' =>
            if Ascii.eqb c backslash && isTSpecial d then
              '(value, rest) ← quoted_value s''; Some (String d value, rest)
            else if (byte c =? 13) || (byte c =? 10) then None
            else '(value, rest) ← quoted_value s'; Some (String c value, rest)
        | EmptyString => None
        end
  end.

Definition consumeValue (s : string) : string * string :=
  match s with
  | EmptyString => (EmptyString, EmptyString)
  | String c s' =>
      if Ascii.eqb c quote then default (EmptyString, s) (quoted_value s') else consumeToken s
  end.

(** Parameter name, value and the rest; [None] when no parameter was found. *)
Definition consumeMediaParam (v : string) : option (string * string * string) :=
  rest ← expect ";" (TrimLeftSpace v);
  let '(param, rest) := consumeToken (TrimLeftSpace rest) in
  let param := ToLower param in
  if (param =? EmptyString)%string then None
  else
    rest ← expect "=" (TrimLeftSpace rest);
    let rest := TrimLeftSpace rest in
    let '(value, rest2) := consumeValue rest in
    if (value =? EmptyString)%string && (rest2 =? rest)%string then None
    else Some (param, value, rest2).

Definition checkMediaTypeDisposition (s : string) : bool :=
  let '(typ, rest) := consumeToken s in
  if (typ =? EmptyString)%string then false
  else if (rest =? EmptyString)%string then true
  else match expect "/" rest with
  | None => false
  | Some rest =>
      let '(subtype, rest) := consumeToken rest in
      nonempty subtype && (rest =? EmptyString)%string
  end.

(** The loop over the parameters; a name is repeated only with its own value. *)
Fixpoint media_params (fuel : nat) (v : string) (seen : list (string * string)) : bool :=
  match fuel with
  | O => true
  | S fuel =>
      let v := TrimLeftSpace v in
      if (v =? EmptyString)%string then true
      else match consumeMediaParam v with
      | None => (TrimSpace v =? ";")%string
      | Some (key, value, rest) =>
          match List.find (fun e => (fst e =? key)%string) seen with
          | Some (_, old) =>
              if (old =? value)%string then media_params fuel rest seen else false
          | None => media_params fuel rest ((key, value) :: seen)
          end
      end
  end.

(** The media type, [None] on any error. *)
Definition ParseMediaType (v : string) : option string :=
  let '(base, _, _) := Cut v ";" in
  let mediatype := TrimSpace (ToLower base) in
  if checkMediaTypeDisposition mediatype
     && media_params (S (String.length v)) (TrimPrefix v base) []
  then Some mediatype else None.

Definition dq (s : string) : string := String quote (s ++ String quote EmptyString).

Example media_types :
  (ParseMediaType "application/json", ParseMediaType "Text/HTML; charset=utf-8",
   ParseMediaType ("text/html; charset=" ++ dq "utf-8" ++ ";"), ParseMediaType "text/html; charset",
   ParseMediaType "a; b=1; b=2", ParseMediaType "a; b=1; b=1", ParseMediaType "a b", ParseMediaType EmptyString)
  = (Some "application/json", Some "text/html", Some "text/html", None, None, Some "a", None, None).
Proof. vm_compute. reflexivity. Qed.
