(* ===== verification/Fuel.v ===== *)
(** * The fuel of the text conversions is enough

    [os.Expand], [strconv.Unquote], [time.ParseDuration], [bytes.ReplaceAll] and the
    parameters of a media type recur over text by a number of bytes that depends on it.
    Each turn consumes at least one byte, so that the length of the text is fuel enough:
    more of it changes no answer. *)

From S2P Require Import Prelude GoStrings Strconv Json JsonTotal Mime.
From S2P Require Http.
From Stdlib Require Import Ascii String.
Local Open Scope string_scope.
Local Open Scope nat_scope.

(** A loop that recurs on shorter text only is the same for all fuel that covers it. *)
Lemma fuel_covers {A : Type} (F : nat -> string -> A) :
  (forall f g s, len s <= S f -> len s <= S g -> (forall t, len t < len s -> F f t = F g t) -> F (S f) s = F (S g) s) ->
  (forall f, F f EmptyString = F 0 EmptyString) ->
  forall f s, len s <= f -> F f s = F (len s) s.
Proof.
  intros Hstep H0 f s Hf. assert (forall g, len s <= f -> len s <= g -> F f s = F g s) as H; [|auto].
  clear Hf. revert s. induction f as [|f IH]; intros s g Hf Hg.
  - destruct s; [|cbn in Hf; lia]. by rewrite (H0 g).
  - destruct g as [|g]; [destruct s; [by rewrite H0|cbn in Hg; lia]|].
    apply Hstep; [done|done|]. intros t Ht. apply IH; lia.
Qed.

(** ** [os.Expand] *)

Lemma span_rest (P : ascii -> bool) (s a b : string) : span P s = (a, b) -> len b <= len s.
Proof. intros H%span_le. lia. Qed.

Lemma getShellName_le (s name rest : string) (bad : bool) : getShellName s = (name, rest, bad) -> len rest <= len s.
Proof.
  unfold getShellName. intros H.
  repeat match goal with
  | E : span _ _ = _ |- _ => apply span_rest in E
  | _ => case_match
  end; simplify_eq; cbn [String.length] in *; lia.
Qed.

Lemma expand_fuel (mapping : string -> string) (f : nat) (s : string) :
  len s <= f -> expand f s mapping = Expand s mapping.
Proof.
  apply (fuel_covers (fun f s => expand f s mapping)); [|by intros []]. clear f s.
  intros f g [|c s] _ _ IH; [done|]. cbn [expand String.length] in *. rewrite (IH s) by lia.
  destruct (_ && _); [|done]. destruct (getShellName s) as [[name rest] bad] eqn:E. apply getShellName_le in E.
  by rewrite (IH rest) by lia.
Qed.

(** ** [strconv.Unquote] *)

Lemma octal_digits_le (n : nat) (acc x : Z) (s rest : string) : octal_digits n acc s = Some (x, rest) -> len rest <= len s.
Proof.
  revert acc s. induction n as [|n IH]; intros acc s; cbn [octal_digits]; [by intros [= _ <-]|].
  destruct s as [|c s]; [done|]. destruct (between _ _ _); [|done]. intros H%IH. cbn. lia.
Qed.

Lemma octal_digits_lt (n : nat) (acc x : Z) (s rest : string) : octal_digits (S n) acc s = Some (x, rest) -> len rest < len s.
Proof.
  cbn [octal_digits]. destruct s as [|c s]; [done|]. destruct (between _ _ _); [|done]. intros H%octal_digits_le. cbn. lia.
Qed.

Lemma UnquoteChar_lt (s out rest : string) : UnquoteChar s = Some (out, rest) -> len rest < len s.
Proof.
  destruct s as [|c s]; [done|]. cbn [UnquoteChar]. destruct (Ascii.eqb c Strconv.quote); [done|].
  destruct (_ <=? _)%Z; [intros ([r t] & H%DecodeRune_lt & [= _ <-])%bind_Some; lia|].
  destruct (negb _); [intros [= _ <-]; cbn; lia|]. destruct s as [|d s]; [done|]. cbv zeta. intros H.
  repeat match type of H with context [match ?x with _ => _ end] => first
    [ is_var x; destruct x
    | match x with byte _ => destruct x end
    | destruct x eqn:? ] end; try done; cbn [String.length] in *;
  repeat match goal with
  | E : _ ≫= _ = Some _ |- _ => apply bind_Some in E as ([? ?] & ? & E)
  | E : (if _ then _ else _) = Some _ |- _ => destruct (_ : bool) in E
  | E : hex_digits _ _ _ = Some _ |- _ => apply hex_digits_le in E
  | E : octal_digits 3 _ _ = Some _ |- _ => apply octal_digits_lt in E; cbn [String.length] in E
  end; repeat case_match; simplify_eq; cbn; try lia.
Qed.

Lemma unquote_body_fuel (f : nat) (s : string) : len s <= f -> unquote_body f s = unquote_body (len s) s.
Proof.
  apply (fuel_covers unquote_body); [|by intros []]. clear f s. intros f g [|c s] _ _ IH; [done|].
  cbn [unquote_body]. destruct (Ascii.eqb c Strconv.quote); [done|]. apply bind_same. intros [out rest] H%UnquoteChar_lt.
  destruct (Ascii.eqb c newline); [done|]. by rewrite (IH rest H).
Qed.

(** ** [time.ParseDuration] *)

Lemma leadingInt_le (x y : Z) (s rest : string) : leadingInt x s = Some (y, rest) -> len rest <= len s.
Proof.
  revert x. induction s as [|c s IH]; intros x; cbn [leadingInt]; [by intros [= _ <-]|].
  destruct (isDigit c); [|by intros [= _ <-]]. destruct (_ <? _)%Z; [done|]. cbv zeta.
  destruct (_ <? _)%Z; [done|]. intros H%IH. cbn. lia.
Qed.

Lemma leadingFraction_le (s : string) : forall x y scale scale' overflow rest,
  leadingFraction x scale overflow s = (y, scale', rest) -> len rest <= len s.
Proof.
  induction s as [|c s IH]; intros x y scale scale' overflow rest; cbn [leadingFraction]; [by intros [= _ _ <-]|].
  destruct (isDigit c); [|by intros [= _ _ <-]]. cbv zeta. cbn [String.length]. intros H.
  repeat case_match; apply IH in H; lia.
Qed.

Lemma span_first (P : ascii -> bool) (s a b : string) : span P s = (a, b) -> a <> EmptyString -> len b < len s.
Proof. intros H%span_le Ha. destruct a; [done|cbn in H; lia]. Qed.

Lemma duration_term_lt (s rest : string) (v : Z) : duration_term s = Some (v, rest) -> len rest < len s.
Proof.
  unfold duration_term. destruct s as [|c s0] eqn:Es; [done|]. rewrite <- Es. destruct (negb _); [done|].
  intros ([w r] & Hw%leadingInt_le & H)%bind_Some.
  destruct (match r with String "." r => _ | _ => _ end) as [[[x scale] r1] post] eqn:Er.
  assert (len r1 <= len r) as Hr1.
  { revert Er. clear. intros Er. repeat case_match; simplify_eq; try lia.
    match goal with E : leadingFraction _ _ _ _ = _ |- _ => apply leadingFraction_le in E end. cbn. lia. }
  destruct (_ && _); [done|]. destruct (span _ r1) as [u r2] eqn:Eu.
  destruct (String.eqb_spec u EmptyString) as [|Hu]; [done|]. pose proof (span_first _ _ _ _ Eu Hu) as H2.
  apply bind_Some in H as (unit & _ & H).
  cbv zeta in H. clear Er Eu. repeat case_match; simplify_eq; lia.
Qed.

Lemma duration_terms_fuel (f : nat) (d : Z) (s : string) : len s <= f -> duration_terms f d s = duration_terms (len s) d s.
Proof.
  intros Hf. revert d. assert (forall g d, len s <= f -> len s <= g -> duration_terms f d s = duration_terms g d s) as H; [|auto].
  clear Hf. revert s. induction f as [|f IH]; intros s [|g] d Hf Hg; destruct s as [|c s]; try done; try (cbn in *; lia).
  cbn [duration_terms]. apply bind_same. intros [v rest] H%duration_term_lt. cbv zeta.
  destruct (_ <? _)%Z; [done|]. apply IH; lia.
Qed.

(** ** [bytes.ReplaceAll] *)

Lemma interleave_fuel (f : nat) (s new : string) : len s <= f -> interleave f s new = interleave (len s) s new.
Proof.
  apply (fuel_covers (fun f s => interleave f s new)); [|by intros []]. clear f s. intros f g s _ _ IH.
  cbn [interleave]. destruct (DecodeRune s) as [[r rest]|] eqn:E; [|done]. apply DecodeRune_lt in E. by rewrite (IH rest E).
Qed.

(** ** Media types *)

Lemma TrimLeftSpace_le (n : nat) (s : string) : len s <= n -> len (TrimLeftSpace s) <= len s.
Proof.
  revert s. induction n as [|n IH]; intros s Hn; [by destruct s; [|cbn in Hn; lia]|].
  destruct s as [|a [|b [|c s]]]; cbn [TrimLeftSpace String.length] in *; repeat case_match; cbn [String.length] in *; try lia;
    match goal with |- context [TrimLeftSpace ?t] => pose proof (IH t ltac:(cbn in *; lia)) end; cbn [String.length] in *; lia.
Qed.

Lemma consumeToken_le (s token rest : string) : consumeToken s = (token, rest) -> len token + len rest = len s.
Proof.
  revert token rest. induction s as [|c s IH]; intros token rest; cbn [consumeToken]; [by intros [= <- <-]|].
  destruct (Http.validHeaderFieldByte c); [|by intros [= <- <-]]. destruct (consumeToken s) as [t r]. intros [= <- <-].
  specialize (IH t r eq_refl). cbn. lia.
Qed.

Lemma quoted_value_le (n : nat) (s value rest : string) : len s <= n -> quoted_value s = Some (value, rest) -> len rest <= len s.
Proof.
  revert s value. induction n as [|n IH]; intros [|c s] value Hn; [done|cbn in Hn; lia|done|]. cbn [quoted_value String.length] in *.
  destruct (Ascii.eqb _ _); [intros [= _ <-]; lia|]. destruct s as [|d s]; [done|]. cbn [String.length] in *.
  destruct (_ && _); [intros ([v r] & H & [= _ <-])%bind_Some; apply IH in H; lia|]. destruct (_ || _); [done|].
  intros ([v r] & H & [= _ <-])%bind_Some. apply IH in H; cbn [String.length] in *; lia.
Qed.

Lemma consumeValue_le (s value rest : string) : consumeValue s = (value, rest) -> len rest <= len s.
Proof.
  destruct s as [|c s]; cbn [consumeValue]; [by intros [= _ <-]|]. destruct (Ascii.eqb _ _).
  - destruct (quoted_value s) as [[v r]|] eqn:E; intros [= _ <-]; [|done]. apply (quoted_value_le (len s)) in E; cbn; lia.
  - intros H%consumeToken_le. lia.
Qed.

Lemma consumeMediaParam_lt (v key value rest : string) : consumeMediaParam v = Some (key, value, rest) -> len rest < len v.
Proof.
  unfold consumeMediaParam. pose proof (TrimLeftSpace_le (len v) v) as H0. intros (r1 & H1%expect_lt & H)%bind_Some.
  pose proof (TrimLeftSpace_le (len r1) r1) as H2. destruct (consumeToken (TrimLeftSpace r1)) as [param r2] eqn:E2.
  apply consumeToken_le in E2. cbv zeta in H. destruct (_ =? _)%string; [done|]. pose proof (TrimLeftSpace_le (len r2) r2) as H3.
  apply bind_Some in H as (r3 & H4%expect_lt & H). pose proof (TrimLeftSpace_le (len r3) r3) as H5.
  destruct (consumeValue (TrimLeftSpace r3)) as [value' r4] eqn:E4. apply consumeValue_le in E4.
  destruct (_ && _); [done|]. injection H as _ _ <-. lia.
Qed.

Lemma media_params_fuel (f : nat) (v : string) (seen : list (string * string)) :
  len v < f -> media_params f v seen = media_params (S (len v)) v seen.
Proof.
  intros Hf. revert seen.
  assert (forall g seen, len v < f -> len v < g -> media_params f v seen = media_params g v seen) as H; [|intros; apply H; lia].
  clear Hf. revert v. induction f as [|f IH]; intros v [|g] seen Hf Hg; try lia. cbn [media_params].
  pose proof (TrimLeftSpace_le (len v) v) as H0. destruct (_ =? _)%string; [done|].
  destruct (consumeMediaParam _) as [[[key value] rest]|] eqn:E; [|done]. apply consumeMediaParam_lt in E.
  destruct (List.find _ seen) as [[k old]|]; [destruct (_ =? _)%string; [|done]|]; apply IH; lia.
Qed.
