(* ===== verification/Npm.v ===== *)
(** * The npm proxy: [internal/npmproxy]

    The request handler over the monad of [Handler]; logging is left out. *)

From S2P Require Import Prelude GoStrings Strconv Mime Url Http HttpPolicy Time Metadata Fs Store Handler.
From Stdlib Require Import Ascii String.
Local Open Scope string_scope.
Local Open Scope Z_scope.

Definition maxMetadataBytes : Z := Z.shiftl 64 20.

(** What [Options] configures, less the store, the client and the logger. *)
Record Options := mkOptions {
  OptName : string;
  OptPath : string;
  OptUpstream : string;
  OptPublicBaseURL : string;
  OptTTL : Z;
  OptForwardAuthorization : bool
}.

Record Proxy := mkProxy {
  name : string;
  path : string;
  upstream : URL;
  proxyBaseURL : string;
  ttl : Z;
  forwardAuthorization : bool
}.

Definition New (options : Options) : option Proxy :=
  upstream ← Parse (OptUpstream options);
  Some (mkProxy (OptName options) (OptPath options) upstream
          (TrimRight (OptPublicBaseURL options) "/" ++ TrimSuffix (OptPath options) "/")
          (OptTTL options) (OptForwardAuthorization options)).

Definition isJSON (contentType : string) : bool :=
  match ParseMediaType contentType with
  | None => Contains (ToLower contentType) "json"
  | Some mediaType => (mediaType =? "application/json")%string || HasSuffix mediaType "+json"
  end.

Section Proxy.
Context {codec : MetadataCodec} (p : Proxy).

Definition SetupSnippet : string := "npm config set registry " ++ proxyBaseURL p ++ "/" ++ newline.

Definition Snapshot (c : counters) (s : Store) : Handler.Snapshot :=
  snapshot_of (name p) "npm" (path p) (upstream p) c s.

Definition base : string := TrimRight (URL_String (upstream p)) "/".

Definition targetURL (requestURL : URL) : option URL :=
  let relativePath := TrimPrefix (EscapedPath requestURL) (path p) in
  target ← Parse (base ++ "/" ++ relativePath);
  Some (set_RawQuery (RawQuery requestURL) target).

Definition cacheKey (target : URL) (accept : string) : string :=
  name p ++ newline ++ URL_String target ++ newline ++ "accept:" ++ accept.

Section Request.
Context (env : Env) (request : Request) (url : URL).

Definition fail (status : Z) (message : string) (err : error) : M unit :=
  if canceledBy env err then count ClientCanceled
  else
    _ ← count Errors;
    http_Error env message status.

Definition recordStreamError (err : error) : M unit :=
  if canceledBy env err then count ClientCanceled else count Errors.

Definition serveHit (entry : Entry) : M unit :=
  let m := EntryMetadata entry in
  _ ← copy_headers (order env Copying (Header_ m));
  _ ← set_header "X-N0ding-Cache" "HIT";
  _ ← set_header "Age" (age_of env m);
  _ ← set_header "Content-Length" (FormatInt (ContentBytes m));
  _ ← WriteHeader (Status m);
  if (Method request =? "HEAD")%string then mret tt
  else _ ← copy_body env (entry_source env entry); mret tt.

Definition serveMetadata (response : Response) (headers cacheHeaders : Header) (key : string)
    (cacheable : bool) : M unit :=
  let '(body, rest) := ReadLimited (maxMetadataBytes + 1) (RespBody response) in
  match body with
  | None => fail 502 "could not read upstream metadata" (BodyError response)
  | Some body =>
      if Z.of_nat (String.length body) <=? maxMetadataBytes then
        let body := ReplaceAll body base (proxyBaseURL p) in
        let length := FormatInt (Z.of_nat (String.length body)) in
        let headers := Set_ headers "Content-Length" length in
        let cacheHeaders := Set_ cacheHeaders "Content-Length" length in
        _ ← (if cacheable then
               _ ← store_PutBytes env key (new_metadata (StatusCode response) cacheHeaders EmptyString) body;
               mret tt
             else mret tt);
        _ ← copy_headers (order env Copying headers);
        _ ← WriteHeader (StatusCode response);
        if negb (Method request =? "HEAD")%string then write_once env body else mret tt
      else
        _ ← copy_headers (order env Copying (Del headers "Content-Length"));
        _ ← WriteHeader (StatusCode response);
        if negb (Method request =? "HEAD")%string
        then _ ← copy_body env (multi_reader body rest); mret tt else mret tt
  end.

Definition upstreamRequest (target : URL) : result error Request :=
  match NewRequest (Method request) (URL_String target) with
  | Err e => Err e
  | Ok r =>
      let h := ForwardRequestHeaders (ReqHeader r) (ReqHeader request)
                 (order env Forwarding (ReqHeader request)) (forwardAuthorization p) in
      Ok (set_req_header (Set_ h "Accept-Encoding" "identity") r)
  end.

Definition serveMiss (target : URL) (key : string) (cacheable : bool) : M unit :=
  match upstreamRequest target with
  | Err e => fail 502 "could not create upstream request" e
  | Ok r =>
      answer ← Do env r;
      match answer with
      | Err e => fail (if is_Some_b (contextErr env) then 499 else 502) "upstream request failed" e
      | Ok response =>
          let headers := ResponseHeaders (RespHeader response) (order env Responding (RespHeader response)) in
          let headers := Set_ (Del headers "Content-Encoding") "X-N0ding-Cache" "MISS" in
          let cacheable := cacheable && (Method request =? "GET")%string
                           && (StatusCode response =? 200)
                           && ResponseAllowsStorage (ReqHeader request) (RespHeader response)
                                ["Accept"; "Accept-Encoding"] in
          let cacheHeaders := CacheMetadataHeaders headers (order env Persisting headers) in
          if isJSON (Get (RespHeader response) "Content-Type")
          then serveMetadata response headers cacheHeaders key cacheable
          else
            _ ← copy_headers (order env Copying headers);
            _ ← WriteHeader (StatusCode response);
            if (Method request =? "HEAD")%string then mret tt
            else if cacheable then
              err ← store_PutStreamVerified env key (new_metadata (StatusCode response) cacheHeaders EmptyString)
                      (RespBody response) None;
              match err with
              | Some e => recordStreamError (put_failure response e)
              | None => mret tt
              end
            else _ ← copy_body env (RespBody response); mret tt
      end
  end.

(** One attempt to serve from the cache; whether it did. *)
Definition try_hit (at_ : moment) (key : string) : M bool :=
  found ← store_Lookup env at_ key (ttl p);
  match found_entry found with
  | Some entry =>
      _ ← count Hits;
      _ ← serveHit entry;
      mret true
  | None => mret false
  end.

Definition cacheableRequest : bool :=
  (Get (ReqHeader request) "Range" =? EmptyString)%string
  && negb (RequestBypassesCache (ReqHeader request))
  && (negb (forwardAuthorization p) || (Get (ReqHeader request) "Authorization" =? EmptyString)%string).

Definition ServeHTTP : M unit :=
  _ ← count Requests;
  if negb (Method request =? "GET")%string && negb (Method request =? "HEAD")%string then
    _ ← set_header "Allow" "GET, HEAD";
    http_Error env "method not allowed" 405
  else if negb (HasPrefix (Path url) (path p)) then NotFound env
  else match targetURL url with
  | None => fail 400 "invalid upstream URL" (parseError (URL_String url))
  | Some target =>
      let cacheable := cacheableRequest in
      let key := cacheKey target (Get (ReqHeader request) "Accept") in
      served ← (if cacheable then try_hit FirstLookup key else mret false);
      if served : bool then mret tt
      else
        _ ← others_run env SecondLookup;
        served ← (if cacheable then try_hit SecondLookup key else mret false);
        if served : bool then mret tt
        else
          _ ← count Misses;
          serveMiss target key cacheable
  end.

End Request.
End Proxy.
