(* ===== verification/NpmTheorems.v ===== *)
(** * The npm proxy: theorems

    What a request may send upstream, what it may store, and what a hit serves. *)

From S2P Require Import Prelude GoStrings Strconv Url Origin Http HttpPolicy Time Metadata Fs Store StoreFacts StoreSystem StoreStream Handler HandlerFacts Npm.
From Stdlib Require Import Ascii String.
Local Open Scope string_scope.
Local Open Scope Z_scope.

Section Requests.
Context {codec : MetadataCodec} {company : Elsewhere} (p : Proxy) (env : Env) (request : Request) (url : URL).

(** The body a response is stored with: metadata is rewritten to point here. *)
Definition stored_body (response : Response) (body : string) : Prop :=
  if isJSON (Get (RespHeader response) "Content-Type") then
    exists raw, fst (ReadLimited (maxMetadataBytes + 1) (RespBody response)) = Some raw
      /\ body = ReplaceAll raw (base p) (proxyBaseURL p)
  else body = content (RespBody response).

(** The conditions under which the code lets a response into the cache. *)
Record storable (q : Put) : Prop := {
  st_method : Method request = "GET";
  st_range : Get (ReqHeader request) "Range" = EmptyString;
  st_fresh : RequestBypassesCache (ReqHeader request) = false;
  st_anonymous : forwardAuthorization p = false \/ Get (ReqHeader request) "Authorization" = EmptyString;
  st_key : exists target, targetURL p url = Some target
    /\ putKey q = cacheKey p target (Get (ReqHeader request) "Accept");
  st_response : exists response, StatusCode response = 200 /\ Status (putMetadata q) = 200
    /\ ResponseAllowsStorage (ReqHeader request) (RespHeader response) ["Accept"; "Accept-Encoding"] = true
    /\ stored_body response (content (putSource q));
  st_digest : ContentDigest (putMetadata q) = EmptyString
}.

Definition event_ok (e : event) : Prop :=
  match e with
  | Sent r => Method r = Method request
      /\ (exists target, targetURL p url = Some target
          /\ upstreamRequest p env request target = Ok r)
      /\ request_to (upstream p) r
      /\ forall k, forwarded (ReqHeader request) (forwardAuthorization p) k = false ->
           k <> "Accept-Encoding" -> ReqHeader r !! k = None
  | Putting q => storable q
  | ServedFile _ _ _ => False
  end.

Lemma targetURL_located (target : URL) :
  located (upstream p) -> targetURL p url = Some target ->
  located target /\ Scheme target = Scheme (upstream p) /\ Host target = Host (upstream p).
Proof.
  intros Hu. unfold targetURL. destruct (Parse _) as [u|] eqn:E; [|done]. intros [= <-].
  exact (located_join _ _ _ Hu E).
Qed.

Lemma npm_upstreamRequest_ok (target : URL) (r : Request) :
  located (upstream p) -> targetURL p url = Some target -> Method request <> EmptyString ->
  upstreamRequest p env request target = Ok r -> event_ok (Sent r).
Proof.
  intros Hu Ht Hm Er. destruct (targetURL_located _ Hu Ht) as (Hl & H1 & H2).
  cbn. split; [|split; [by exists target|split]]; revert Er; unfold upstreamRequest;
    destruct (NewRequest _ _) as [r0|e] eqn:En; try done; intros [= <-];
    destruct (NewRequest_Ok _ _ _ En) as [Eh Em].
  - by apply Em.
  - apply (request_to_same target); [done|done|]. by apply (NewRequest_to _ _ _ Hl En).
  - intros k Hf Hk. cbn [ReqHeader set_req_header]. rewrite Eh. by apply forwarded_dropped.
Qed.

Section Invariant.
Context (I : Store -> Prop) {HI : StoreInvariant env I} (Hu : located (upstream p)).

Abbreviation effects := (effects env event_ok I).

Lemma npm_fail_effects (status : Z) (message : string) (err : error) : effects (fail env status message err).
Proof.
  unfold fail. destruct (canceledBy env err); [apply effects_count|].
  apply effects_bind; [apply effects_count|]. intros _. apply effects_reply_only. reply_only.
Qed.

Lemma serveHit_reply_only (entry : Entry) : ReplyOnly (serveHit env request entry).
Proof. unfold serveHit. reply_only. Qed.

Lemma npm_try_hit_effects (at_ : moment) (key : string) : effects (try_hit p env request at_ key).
Proof.
  unfold try_hit. apply effects_bind; [by apply effects_Lookup|]. intros r.
  destruct (found_entry r) as [entry|]; [|apply effects_reply_only; reply_only].
  apply effects_bind; [apply effects_count|intros _].
  apply effects_bind; [apply effects_reply_only, serveHit_reply_only|intros _]. apply effects_reply_only; reply_only.
Qed.

(** What the callers of the two caching branches have established. *)
Definition admissible (key : string) (response : Response) : Prop :=
  forall s m entries src, ContentDigest m = EmptyString -> Status m = StatusCode response ->
    stored_body response (content src) -> storable (mkPut s key m entries src None).

Lemma admissible_put (key : string) (response : Response) (m : Metadata)
    (entries : list (string * list string)) (src : Source) (s : Store) :
  admissible key response -> ContentDigest m = EmptyString -> Status m = StatusCode response ->
  stored_body response (content src) ->
  event_ok (Putting (mkPut s key m entries src None)) /\ put_digest (Putting (mkPut s key m entries src None)).
Proof. intros Ha Hd Hst Hb. split; [by apply Ha|by left]. Qed.

Lemma serveMetadata_effects (response : Response) (headers cacheHeaders : Header) (key : string)
    (cacheable : bool) :
  isJSON (Get (RespHeader response) "Content-Type") = true ->
  (cacheable = true -> admissible key response) ->
  effects (serveMetadata p env request response headers cacheHeaders key cacheable).
Proof.
  intros Hj Ha. unfold serveMetadata.
  destruct (ReadLimited _ _) as [[body|] rest] eqn:Er; [|apply npm_fail_effects].
  destruct (_ <=? maxMetadataBytes); [|apply effects_reply_only; reply_only].
  apply effects_bind; [|intros _; apply effects_reply_only; reply_only].
  apply effects_if; intros Hc; [|apply effects_reply_only; reply_only].
  apply effects_bind; [|intros _; apply effects_reply_only; reply_only].
  apply effects_PutBytes; [done|]. intros s. apply (admissible_put key response); auto.
  unfold stored_body. rewrite Hj, bytes_source_content. exists body. by rewrite Er.
Qed.

Lemma npm_serveMiss_effects (target : URL) (key : string) (cacheable : bool) :
  Method request <> EmptyString -> targetURL p url = Some target ->
  key = cacheKey p target (Get (ReqHeader request) "Accept") ->
  (cacheable = true -> cacheableRequest p request = true) ->
  effects (serveMiss p env request target key cacheable).
Proof.
  intros Hm Ht Hk Hc. unfold serveMiss.
  destruct (upstreamRequest p env request target) as [r|e] eqn:Er; [|apply npm_fail_effects].
  apply effects_bind; [by apply effects_Do, (npm_upstreamRequest_ok target)|]. intros [response|e]; [|apply npm_fail_effects].
  cbv zeta. set (ok := cacheable && _ && _ && _).
  assert (ok = true -> admissible key response) as Ha.
  { unfold ok, cacheableRequest in *. intros E. split_str.
    specialize (Hc ltac:(done)). split_str.
    intros s m entries src Hd Hst Hb. split; cbn; try done.
    - match goal with H : _ \/ _ |- _ => destruct H; split_str; [by left|by right] end.
    - exists target. by subst key.
    - exists response. by rewrite Hst. }
  clearbody ok. destruct (isJSON _) eqn:Ej; [by apply serveMetadata_effects|].
  do 2 (apply effects_bind; [apply effects_reply_only; reply_only|intros _]).
  destruct (Method request =? "HEAD")%string; [apply effects_reply_only; reply_only|].
  destruct ok; [|apply effects_reply_only; reply_only].
  apply effects_bind; [|intros [e|]; [|apply effects_reply_only; reply_only];
    unfold recordStreamError; destruct (canceledBy _ _); apply effects_count].
  apply effects_PutStreamVerified; [done|]. intros s. apply (admissible_put key response); auto.
  unfold stored_body. by rewrite Ej.
Qed.

Lemma npm_ServeHTTP_effects : effects (ServeHTTP p env request url).
Proof.
  unfold ServeHTTP. apply effects_bind; [apply effects_count|intros _].
  apply effects_if; intros Em; [apply effects_reply_only; reply_only|].
  assert (Method request <> EmptyString) as Hm by (intros E; by rewrite E in Em).
  destruct (HasPrefix _ _); cbn [negb]; [|apply effects_reply_only; reply_only].
  destruct (targetURL p url) as [target|] eqn:Ht; [|apply npm_fail_effects]. cbv zeta.
  apply effects_bind; [destruct (cacheableRequest _ _); [apply npm_try_hit_effects|apply effects_reply_only; reply_only]|].
  intros [|]; [apply effects_reply_only; reply_only|].
  apply effects_bind; [by apply effects_others|intros _].
  apply effects_bind; [destruct (cacheableRequest _ _); [apply npm_try_hit_effects|apply effects_reply_only; reply_only]|].
  intros [|]; [apply effects_reply_only; reply_only|].
  apply effects_bind; [apply effects_count|intros _]. by apply npm_serveMiss_effects.
Qed.

End Invariant.

(** ** How often the upstream is asked *)

Lemma try_hit_sends (at_ : moment) (key : string) : sends 0 (try_hit p env request at_ key).
Proof. unfold try_hit, serveHit. sends_none. Qed.

Lemma serveMiss_sends (target : URL) (key : string) (cacheable : bool) :
  sends 1 (serveMiss p env request target key cacheable).
Proof.
  unfold serveMiss. destruct (upstreamRequest _ _ _ _) as [r|e];
    [|apply (sends_le 0); [lia|]; unfold fail; sends_none].
  apply (sends_bind 1 0); [apply sends_Do|]. intros [response|e]; [|unfold fail; sends_none].
  cbv zeta. unfold serveMetadata, recordStreamError, fail. sends_none.
Qed.

Lemma ServeHTTP_sends : sends 1 (ServeHTTP p env request url).
Proof.
  unfold ServeHTTP. apply (sends_bind 0 1); [apply sends_count|intros _].
  destruct (_ && _); [apply (sends_le 0); [lia|sends_none]|].
  destruct (HasPrefix _ _); cbn [negb]; [|apply (sends_le 0); [lia|sends_none]].
  destruct (targetURL p url) as [target|]; [|apply (sends_le 0); [lia|unfold fail; sends_none]].
  apply (sends_bind 0 1); [destruct (cacheableRequest _ _); [apply try_hit_sends|sends_none]|].
  intros [|]; [apply (sends_le 0); [lia|sends_none]|].
  apply (sends_bind 0 1); [apply sends_others_run|intros _].
  apply (sends_bind 0 1); [destruct (cacheableRequest _ _); [apply try_hit_sends|sends_none]|].
  intros [|]; [apply (sends_le 0); [lia|sends_none]|].
  apply (sends_bind 0 1); [apply sends_count|intros _]. apply serveMiss_sends.
Qed.

End Requests.

(** ** Hits *)

Section Hits.
Context {codec : MetadataCodec} {company : Elsewhere} (p : Proxy) (env : Env) (request : Request) (url : URL).

Lemma npm_serveHit_receives (entry : Entry) (w : World) :
  unsent (reply w) ->
  let w' := snd (serveHit env request entry w) in events w' = events w /\ receives env request entry w'.
Proof.
  intros [Hs Hb]. unfold serveHit. do 4 rewrite bind_run. set (w1 := snd (set_header "Content-Length" _ _)).
  assert (events w1 = events w /\ unsent (reply w1)
    /\ Get (live (reply w1)) "X-N0ding-Cache" = "HIT") as (E1 & E2 & E3).
  { unfold w1. cbn. split_and!; try done. by rewrite !Get_Set. }
  clearbody w1. rewrite <- E1. by apply send_entry_receives.
Qed.

(** A request that may use the cache and finds a fresh entry is served that entry
    alone: no upstream request, no put, one request and one hit counted. *)
Theorem npm_hit_serves_entry (w : World) (target : URL) (entry : Entry) (s : Store) :
  (Method request = "GET" \/ Method request = "HEAD") -> HasPrefix (Path url) (path p) = true ->
  targetURL p url = Some target -> cacheableRequest p request = true -> unsent (reply w) ->
  Lookup (ioAt env FirstLookup) (clockAt env FirstLookup) (cacheStore w)
    (cacheKey p target (Get (ReqHeader request) "Accept")) (ttl p) = (Ok (Some entry), s) ->
  let w' := snd (ServeHTTP p env request url w) in
  events w' = events w /\ cacheStore w' = s /\ stats w' = bump Hits (bump Requests (stats w))
  /\ receives env request entry w'.
Proof.
  intros Hm Hp Ht Hc Hu Hl. unfold ServeHTTP. cbv zeta. rewrite bind_run.
  assert (negb (Method request =? "GET")%string && negb (Method request =? "HEAD")%string = false) as ->
    by (destruct Hm as [-> | ->]; reflexivity).
  rewrite Hp, Ht, Hc. cbn [negb]. rewrite bind_run. unfold try_hit. rewrite !bind_run.
  set (w0 := snd (count Requests w)). unfold store_Lookup.
  change (cacheStore w0) with (cacheStore w). rewrite Hl. cbn [fst snd found_entry]. rewrite !bind_run.
  set (w1 := snd (count Hits (set_store s w0))).
  destruct (npm_serveHit_receives entry w1 Hu) as [He Hr].
  destruct (serveHit_reply_only env request entry w1) as (Hst & Hcs & _).
  cbn [mret M_ret fst snd]. by split_and!.
Qed.


End Hits.
