(* ===== verification/NpmExamples.v ===== *)
(** * The npm proxy at work

    Package metadata, first a miss whose links are rewritten and stored, then a hit,
    on the demonstration store. *)

From S2P Require Import Prelude GoStrings Sha256 Url Origin Http HttpPolicy Time Metadata Fs Store StoreFacts StoreSystem StoreStream StoreExamples Handler HandlerFacts HandlerExamples Npm NpmTheorems.
From Stdlib Require Import Ascii String.
Local Open Scope string_scope.
Local Open Scope Z_scope.

Definition registry : Proxy :=
  default (mkProxy EmptyString EmptyString zeroURL EmptyString 0 false)
    (New (mkOptions "npm" "/npm/" "https://up.test/r/" "http://me:1/" (3600 * nanos) false)).

Definition left_pad_url : URL := default zeroURL (Parse "/npm/p").
Definition install : Request :=
  mkRequest "GET" (Some left_pad_url) (<["Accept" := ["*/*"]]> (<["Cookie" := ["secret"]]> ∅)).

(** The upstream's document names one of its own tarballs. *)
Definition registry_answer (n : nat) (r : Request) : result error Response :=
  Ok (mkResponse 200 (<["Content-Type" := ["application/json"]]> (<["Content-Length" := ["19"]]> ∅))
        (bytes_source "https://up.test/r/t") Canceled).

Definition install_env : Env := around registry_answer.
Definition installed : World := snd (ServeHTTP registry install_env install left_pad_url start).
Definition reinstalled : World := snd (ServeHTTP registry install_env install left_pad_url (again installed)).

Example metadata_rewritten_then_hit :
  (replyBody (reply installed), stats installed, replyBody (reply reinstalled), stats reinstalled,
   option_map (fun r => Get (snd r) "X-N0ding-Cache") (sent (reply reinstalled)))
  = ("http://me:1/npm/t", mkCounters 1 0 1 0 0 0, "http://me:1/npm/t", mkCounters 2 1 1 0 0 0, Some "HIT").
Proof. vm_compute. reflexivity. Qed.

Lemma registry_located : located (upstream registry).
Proof. by apply (Parse_located "https://up.test/r/"). Qed.

Lemma installed_events : exists r q, events installed = [Sent r; Putting q]
  /\ putStore q = demo_store /\ demo_fits q = true /\ ReqHeader r !! "Cookie" = None.
Proof. eexists _, _. split; [vm_compute; reflexivity|]. vm_compute. by split_and!. Qed.


(** What the second request finds. *)
Definition reinstall_target : URL := default zeroURL (targetURL registry left_pad_url).
Definition reinstall_lookup : result store_error (option Entry) * Store :=
  Lookup (ioAt install_env FirstLookup) (clockAt install_env FirstLookup) (cacheStore (again installed))
    (cacheKey registry reinstall_target (Get (ReqHeader install) "Accept")) (ttl registry).

Lemma reinstall_found : exists entry s,
  reinstall_lookup = (Ok (Some entry), s) /\ Body entry = "http://me:1/npm/t".
Proof.
  assert (match reinstall_lookup with
          | (Ok (Some entry), _) => (Body entry =? "http://me:1/npm/t")%string
          | _ => false
          end = true) as H by (vm_compute; reflexivity).
  destruct reinstall_lookup as [[[entry|]|] s]; [|done..]. exists entry, s. split; [done|by apply String.eqb_eq].
Qed.

Lemma npm_hit_serves_entry_witness :
  exists entry, stats reinstalled = bump Hits (bump Requests (stats installed))
    /\ receives install_env install entry reinstalled /\ Body entry = "http://me:1/npm/t".
Proof.
  assert (targetURL registry left_pad_url = Some reinstall_target) as Ht by (vm_compute; reflexivity).
  destruct reinstall_found as (entry & s & Hl & Hb). exists entry. unfold reinstall_lookup in Hl.
  assert (HasPrefix (Path left_pad_url) (path registry) = true) as Hp by (vm_compute; reflexivity).
  assert (cacheableRequest registry install = true) as Hc by (vm_compute; reflexivity).
  assert (unsent (reply (again installed))) as Hu by (split; reflexivity).
  pose proof (npm_hit_serves_entry registry install_env install left_pad_url (again installed)
    reinstall_target entry s (or_introl eq_refl) Hp Ht Hc Hu Hl) as H.
  cbv zeta in H. fold reinstalled in H. destruct H as (_ & _ & Hs & Hr).
  split; [exact Hs|]. split; [exact Hr|exact Hb].
Defined.
