(* ===== verification/PyPiText.v ===== *)
(** * The PyPI proxy: names, links and metadata pages

    The pure part of [internal/pypiproxy]: project and file names, upload credentials,
    the rewriting of links and the recovery of their targets. *)

From S2P Require Import Prelude GoStrings FilePath Sha256 Mime Url HttpPolicy Json.
From Stdlib Require Import Ascii String.
Local Open Scope string_scope.
Local Open Scope Z_scope.

(** ** Names *)

Definition safeDistributionFilename (filename : string) : bool :=
  if (filename =? EmptyString)%string || ContainsAny filename (String "/" (String "\" EmptyString))
     || HasPrefix filename "."
  then false
  else HasSuffix filename ".whl" || HasSuffix filename ".tar.gz" || HasSuffix filename ".zip".

Definition name_separator (c : ascii) : bool :=
  Ascii.eqb c "-" || Ascii.eqb c "_" || Ascii.eqb c ".".

(** The loop over the characters; every byte of a character beyond ASCII is refused. *)
Fixpoint normalize_loop (name built : string) (separator : bool) : string :=
  match name with
  | EmptyString => built
  | String c name =>
      if name_separator c then normalize_loop name built (nonempty built)
      else if negb (isLower c) && negb (isDigit c) then EmptyString
      else
        let built := if separator then built ++ "-" else built in
        normalize_loop name (built ++ String c EmptyString) false
  end.

Definition normalizeProjectName (name : string) : string :=
  normalize_loop (TrimSpace (ToLower name)) EmptyString false.

Definition html_escape_char (c : ascii) : string :=
  match byte c with
  | 38 => "&amp;" | 34 => "&#34;" | 39 => "&#39;" | 60 => "&lt;" | 62 => "&gt;"
  | _ => String c EmptyString
  end.

Fixpoint htmlEscape (value : string) : string :=
  match value with
  | EmptyString => EmptyString
  | String c value => html_escape_char c ++ htmlEscape value
  end.

(** ** Media types *)

Definition isHTML (contentType : string) : bool :=
  match ParseMediaType contentType with
  | None => Contains (ToLower contentType) "html"
  | Some mediaType =>
      (mediaType =? "text/html")%string || (mediaType =? "application/vnd.pypi.simple.v1+html")%string
  end.

Definition isJSON (contentType : string) : bool :=
  match ParseMediaType contentType with
  | None => Contains (ToLower contentType) "json"
  | Some mediaType => (mediaType =? "application/json")%string || HasSuffix mediaType "+json"
  end.

(** ** Upload credentials *)

(** [base64.StdEncoding.DecodeString]. *)
Definition base64_value (c : ascii) : option Z :=
  if isUpper c then Some (byte c - 65)
  else if isLower c then Some (byte c - 71)
  else if isDigit c then Some (byte c + 4)
  else if Ascii.eqb c "+" then Some 62
  else if Ascii.eqb c "/" then Some 63
  else None.

Fixpoint drop_newlines (s : string) : string :=
  match s with
  | EmptyString => EmptyString
  | String c s => if (byte c =? 10) || (byte c =? 13) then drop_newlines s else String c (drop_newlines s)
  end.

Fixpoint base64_quanta (s : string) : option string :=
  match s with
  | EmptyString => Some EmptyString
  | String a (String b (String c (String d rest))) =>
      x ← base64_value a;
      y ← base64_value b;
      let first := chr (x * 4 + y / 16) in
      if Ascii.eqb c "=" then
        if Ascii.eqb d "=" && (rest =? EmptyString)%string then Some (String first EmptyString) else None
      else
        z ← base64_value c;
        let second := chr (y mod 16 * 16 + z / 4) in
        if Ascii.eqb d "=" then
          if (rest =? EmptyString)%string then Some (String first (String second EmptyString)) else None
        else
          t ← base64_value d;
          tail ← base64_quanta rest;
          Some (String first (String second (String (chr (z mod 4 * 64 + t)) tail)))
  | _ => None
  end.

Definition base64_DecodeString (s : string) : option string := base64_quanta (drop_newlines s).

(** The secret an [Authorization] header offers. *)
Definition provided_secret (header : string) : option string :=
  let '(scheme, credentials, ok) := Cut header " " in
  if negb (ok : bool) then None
  else if (ToLower scheme =? "bearer")%string then Some credentials
  else if (ToLower scheme =? "basic")%string then
    decoded ← base64_DecodeString credentials;
    let '(_, provided, ok) := Cut decoded ":" in
    if ok : bool then Some provided else None
  else None.

Definition authorizedUpload (publishToken header : string) : bool :=
  if (publishToken =? EmptyString)%string || (header =? EmptyString)%string then false
  else match provided_secret header with
  | None => false
  | Some provided =>
      (String.length provided =? String.length publishToken)%nat && (provided =? publishToken)%string
  end.

(** ** Query values *)

Definition QueryEscape (s : string) : string := Url.escape s encodeQueryComponent.

(** [url.Values] as a map from keys to values. *)
Definition add_value (vs : gmap string (list string)) (kv : string * string) : gmap string (list string) :=
  <[fst kv := (default [] (vs !! fst kv) ++ [snd kv])%list]> vs.

Definition values_of (pairs : list (string * string)) : gmap string (list string) :=
  foldl add_value ∅ pairs.

Definition key_before (a b : string * list string) : Prop := String.leb (fst a) (fst b) = true.

#[export] Instance key_before_dec : RelDecision key_before.
Proof. intros a b. unfold key_before. apply _. Defined.

(** [Values.Encode]: sorted by key. *)
Definition values_Encode (vs : gmap string (list string)) : string :=
  Join (List.concat (map (fun '(k, values) => map (fun v => QueryEscape k ++ "=" ++ QueryEscape v) values)
                       (merge_sort key_before (map_to_list vs)))) "&".

Definition sha256_text (raw : string) : option string :=
  let sha := ToLower (TrimSpace raw) in
  if negb (String.length sha =? Sha256.Size * 2)%nat then None
  else if is_Some_b (hex_DecodeString sha) then Some sha else None.

Definition sha256FromFragment (fragment : string) : string :=
  let '(values, failed) := ParseQuery fragment in
  if failed : bool then EmptyString
  else default EmptyString (sha256_text (values_get values "sha256")).

(** ** Origins *)

Definition ensureTrailingSlash (path : string) : string :=
  if (path =? EmptyString)%string then "/"
  else if negb (HasSuffix path "/") then path ++ "/" else path.

Definition effectivePort (value : URL) : string :=
  if nonempty (Port value) then Port value
  else
    let scheme := ToLower (Scheme value) in
    if (scheme =? "http")%string then "80"
    else if (scheme =? "https")%string then "443"
    else EmptyString.

Definition sameOrigin (l r : URL) : bool :=
  EqualFold (Scheme l) (Scheme r) && EqualFold (Hostname l) (Hostname r)
  && (effectivePort l =? effectivePort r)%string.

Definition originKey (value : URL) : string :=
  ToLower (Scheme value) ++ "://" ++ ToLower (Hostname value) ++ ":" ++ effectivePort value.

Definition rewrittenLocation (raw : string) (pageURL upstream : URL) (proxySimpleBaseURL : string) : string :=
  if (raw =? EmptyString)%string then EmptyString
  else match Parse raw with
  | None => EmptyString
  | Some location =>
      let resolved := ResolveReference pageURL location in
      if negb (sameOrigin resolved upstream) then raw
      else
        let upstreamPath := ensureTrailingSlash (EscapedPath upstream) in
        if negb (HasPrefix (ensureTrailingSlash (EscapedPath resolved)) upstreamPath) then raw
        else
          let relative := TrimPrefix (EscapedPath resolved) upstreamPath in
          proxySimpleBaseURL ++ "/" ++ relative
          ++ (if nonempty (RawQuery resolved) then "?" ++ RawQuery resolved else EmptyString)
          ++ (if nonempty (Fragment resolved) then "#" ++ Fragment resolved else EmptyString)
  end.

(** ** Links

    [allowed] is the set of origins files may come from. *)

Section Links.
Context (path filePath proxySimpleBaseURL proxyFileBaseURL : string) (upstream : URL) (allowed : gset string).

Definition fileOriginAllowed (target : URL) : bool := bool_decide (originKey target ∈ allowed).

Definition isSimpleURL (target : URL) : bool :=
  sameOrigin target upstream
  && HasPrefix (ensureTrailingSlash (EscapedPath target)) (ensureTrailingSlash (EscapedPath upstream)).

Definition proxySimpleURL (target : URL) (fragment : string) : string :=
  let upstreamPath := ensureTrailingSlash (EscapedPath upstream) in
  let relative := TrimPrefix (EscapedPath target) upstreamPath in
  proxySimpleBaseURL ++ "/" ++ relative
  ++ (if nonempty (RawQuery target) then "?" ++ RawQuery target else EmptyString)
  ++ (if nonempty fragment then "#" ++ fragment else EmptyString).

Definition file_values (target : URL) (sha : string) : gmap string (list string) :=
  let values := {[ "url" := [URL_String (set_Fragment EmptyString target)] ]} in
  if nonempty sha then <["sha256" := [sha]]> values else values.

Definition link_filename (target : URL) : string :=
  let filename := Base (Path target) in
  if mem filename ["."; "/"; EmptyString] then "artifact" else filename.

Definition proxyFileURL (target : URL) (fragment : string) : string :=
  let sha := sha256FromFragment fragment in
  proxyFileBaseURL ++ "/" ++ PathEscape (link_filename target) ++ "?" ++ values_Encode (file_values target sha)
  ++ (if nonempty fragment then "#" ++ fragment else EmptyString).

Definition rewriteHref (raw : string) (pageURL : URL) : string :=
  match Parse (TrimSpace raw) with
  | None => raw
  | Some link =>
      if mem (Scheme link) ["mailto"; "data"] then raw
      else
        let resolved := ResolveReference pageURL link in
        let fragment := Fragment resolved in
        let resolved := set_Fragment EmptyString resolved in
        if isSimpleURL resolved then proxySimpleURL resolved fragment
        else if fileOriginAllowed resolved then proxyFileURL resolved fragment
        else raw
  end.

Definition rewriteJSONHref (raw sha : string) (pageURL : URL) : string :=
  if (sha =? EmptyString)%string then rewriteHref raw pageURL
  else match Parse (TrimSpace raw) with
  | None => rewriteHref raw pageURL
  | Some link =>
      let resolved := ResolveReference pageURL link in
      if negb (fileOriginAllowed resolved) then rewriteHref raw pageURL
      else
        let existing := sha256FromFragment (Fragment resolved) in
        if nonempty existing && negb (existing =? sha)%string then raw
        else
          let '(pairs, failed) := ParseQuery (Fragment link) in
          let fragment := if failed : bool then ∅ else values_of pairs in
          let link := if (existing =? EmptyString)%string
                      then set_Fragment (values_Encode (<["sha256" := [sha]]> fragment)) link else link in
          rewriteHref (URL_String link) pageURL
  end.

(** *** JSON pages

    A decoded value is a [json] whose strings are re-escaped and whose objects are maps:
    the last member of a name, by name. *)

Definition string_of (v : json) : option string :=
  match v with JStr raw => unquote raw | _ => None end.

Definition member_before (a b : string * json) : Prop := String.leb (fst a) (fst b) = true.

#[export] Instance member_before_dec : RelDecision member_before.
Proof. intros a b. unfold member_before. apply _. Defined.

Definition map_members (ms : list (string * json)) : list (string * json) :=
  merge_sort member_before (map_to_list (foldl (fun (m : gmap string json) kv => <[fst kv := snd kv]> m) ∅ ms)).

Fixpoint any_of (v : json) : json :=
  match v with
  | JStr raw => JString (default EmptyString (unquote raw))
  | JArr es => JArr (map any_of es)
  | JObj ms => JObj (map_members (map (fun '(k, v) => (k, any_of v)) ms))
  | v => v
  end.

Definition member (ms : list (string * json)) (name : string) : option json :=
  snd <$> List.find (fun kv => (fst kv =? name)%string) ms.

Definition hashes_sha256 (ms : list (string * json)) : string :=
  match member ms "hashes" with
  | Some (JObj hashes) =>
      match v ← member hashes "sha256"; string_of v with
      | Some raw => sha256FromFragment ("sha256=" ++ raw)
      | None => EmptyString
      end
  | _ => EmptyString
  end.

Fixpoint rewriteJSONValue (v : json) (pageURL : URL) : json :=
  match v with
  | JObj ms =>
      let sha := hashes_sha256 ms in
      JObj (map (fun '(key, nested) =>
        (key,
         match (if EqualFold key "url" then string_of nested else None) with
         | Some raw => JString (rewriteJSONHref raw sha pageURL)
         | None => rewriteJSONValue nested pageURL
         end)) ms)
  | JArr es => JArr (map (fun nested => rewriteJSONValue nested pageURL) es)
  | v => v
  end.

(** [json.Decoder.Decode] reads one value and leaves what follows it. *)
Definition decode_first (body : string) : option json :=
  '(v, _) ← Json.value (2 * String.length body + 2) 0 body; Some (any_of v).

Definition rewriteJSON (body : string) (pageURL : URL) : option string :=
  v ← decode_first body; Some (encode (rewriteJSONValue v pageURL)).

(** *** The targets of file links *)

Inductive target_error :=
  | MissingURL | NotAbsolute | BadScheme | HasUserinfoOrFragment | OriginNotAllowed | BadDigest.

Definition metadata_sidecar (requestPath : string) (target : URL) : URL * bool :=
  let proxyMetadataRequest := HasSuffix (Base requestPath) ".metadata" in
  let targetMetadataRequest := HasSuffix (Base (Path target)) ".metadata" in
  let target :=
    if proxyMetadataRequest && negb targetMetadataRequest
    then set_paths (Path target ++ ".metadata")
           (if nonempty (RawPath target) then RawPath target ++ ".metadata" else RawPath target) target
    else target in
  (target, proxyMetadataRequest || targetMetadataRequest).

Definition fileTargetURL (requestURL : URL) : result target_error (URL * string) :=
  let query := fst (ParseQuery (RawQuery requestURL)) in
  let raw := values_get query "url" in
  if (raw =? EmptyString)%string then Err MissingURL
  else match Parse raw with
  | None => Err NotAbsolute
  | Some target =>
      if (Scheme target =? EmptyString)%string || (Host target =? EmptyString)%string then Err NotAbsolute
      else if negb (Scheme target =? "http")%string && negb (Scheme target =? "https")%string
      then Err BadScheme
      else if is_Some_b (User target) || nonempty (Fragment target) then Err HasUserinfoOrFragment
      else if negb (fileOriginAllowed target) then Err OriginNotAllowed
      else
        let '(target, metadataRequest) := metadata_sidecar (Url.Path requestURL) target in
        let expected := ToLower (TrimSpace (values_get query "sha256")) in
        let expected := if metadataRequest : bool then EmptyString else expected in
        if nonempty expected
           && negb ((String.length expected =? Sha256.Size * 2)%nat && is_Some_b (hex_DecodeString expected))
        then Err BadDigest
        else Ok (target, expected)
  end.

Definition simpleTargetURL (requestURL : URL) : option URL :=
  let relativePath := TrimPrefix (EscapedPath requestURL) path in
  target ← Parse (TrimRight (URL_String upstream) "/" ++ "/" ++ relativePath);
  Some (set_RawQuery (RawQuery requestURL) target).

Definition simpleProject (requestPath : string) : string :=
  let relative := Trim (TrimPrefix requestPath path) "/" in
  if (relative =? EmptyString)%string || Contains relative "/" then EmptyString
  else match PathUnescape relative with
  | None => EmptyString
  | Some decoded => normalizeProjectName decoded
  end.

End Links.
