(* ===== verification/PyPiTextFacts.v ===== *)
(** * The PyPI proxy: theorems about names, links and targets

    Normalised project names are exactly the canonical ones; a file link keeps its
    target and digest through the query; and a request for a file reaches only allowed
    origins. *)

From S2P Require Import Prelude GoStrings FilePath Sha256 Url HttpPolicy PyPiText.
From S2P Require Import Http Escaping Origin Handler HandlerFacts.
From Stdlib Require Import Ascii String.
Local Open Scope string_scope.
Local Open Scope Z_scope.

(** ** Project names *)

Definition name_char (c : ascii) : bool := isLower c || isDigit c.

(** Letters and digits in runs separated by single hyphens; [inside] tells whether a
    character of a run came right before. *)
Fixpoint canonical_from (inside : bool) (name : string) : bool :=
  match name with
  | EmptyString => inside
  | String c name =>
      if Ascii.eqb c "-" then inside && canonical_from false name
      else name_char c && canonical_from true name
  end.

Definition canonical (name : string) : bool := canonical_from false name.

Lemma name_char_visible (c : ascii) :
  name_char c = true -> visible c /\ isUpper c = false /\ name_separator c = false /\ Ascii.eqb c "-" = false.
Proof.
  unfold name_char, visible, isUpper, isLower, isDigit, between, name_separator. intros H.
  assert (48 <= byte c <= 57 \/ 97 <= byte c <= 122) as Hb by (split_bool; lia).
  assert (forall d, byte d < 48 \/ byte d = 95 -> Ascii.eqb c d = false) as Hd.
  { intros d Hd. apply Ascii.eqb_neq. intros ->. lia. }
  rewrite !Hd by (vm_compute; intuition congruence). split_and!; [lia..| |done|done].
  apply andb_false_iff. rewrite !Z.leb_gt. lia.
Qed.

Lemma name_char_not (c : ascii) : negb (isLower c) && negb (isDigit c) = negb (name_char c).
Proof. unfold name_char. by rewrite negb_orb. Qed.

Lemma canonical_from_app (inside : bool) (s t : string) :
  canonical_from inside s = true -> canonical_from true t = true -> canonical_from inside (s ++ t) = true.
Proof.
  revert inside. induction s as [|c s IH]; intros inside; [by destruct inside|]. cbn [canonical_from String.append].
  destruct (Ascii.eqb c "-"); intros [H1 H2]%andb_true_iff Ht; rewrite H1; by apply IH.
Qed.

Lemma normalize_loop_canonical (name built : string) (separator : bool) :
  (built = EmptyString /\ separator = false) \/ canonical built = true ->
  normalize_loop name built separator = EmptyString \/ canonical (normalize_loop name built separator) = true.
Proof.
  revert built separator. induction name as [|c name IH]; intros built separator Hb; cbn [normalize_loop].
  { destruct Hb as [[-> _]|?]; auto. }
  destruct (name_separator c).
  { apply IH. destruct Hb as [[-> ->]|?]; auto. }
  rewrite name_char_not. destruct (name_char c) eqn:Ec; cbn [negb]; [|by left].
  destruct (name_char_visible c Ec) as (_ & _ & _ & Hc). apply IH. right. unfold canonical in *.
  destruct separator; destruct Hb as [[Hb Hs]|Hb]; try done; subst;
    rewrite ?app_assoc_str.
  1: apply canonical_from_app; [done|]. all: try (apply canonical_from_app; [done|]).
  all: cbn; by rewrite ?Hc, Ec.
Qed.

Lemma normalize_loop_keeps (w built : string) :
  built <> EmptyString ->
  (canonical_from true w = true -> normalize_loop w built false = built ++ w)
  /\ (canonical w = true -> normalize_loop w built true = built ++ "-" ++ w).
Proof.
  assert (forall built x, built <> EmptyString -> built ++ x <> EmptyString) as Hne by (intros []; done).
  revert built. induction w as [|c w IH]; intros built Hb; split; try done.
  { intros _. by rewrite app_empty_r. }
  - cbn [canonical_from normalize_loop]. destruct (Ascii.eqb_spec c "-") as [->|Hc].
    + intros H. change (name_separator "-") with true. cbn [andb] in H. destruct built; [done|]. by apply IH.
    + intros [Ec H]%andb_true_iff. destruct (name_char_visible c Ec) as (_ & _ & Hs & _).
      rewrite Hs, name_char_not, Ec. cbn [negb]. rewrite (proj1 (IH _ (Hne _ _ Hb)) H).
      by rewrite app_assoc_str.
  - unfold canonical. cbn [canonical_from normalize_loop]. destruct (Ascii.eqb_spec c "-") as [->|Hc]; [done|].
    intros [Ec H]%andb_true_iff. destruct (name_char_visible c Ec) as (_ & _ & Hs & _).
    rewrite Hs, name_char_not, Ec. cbn [negb].
    rewrite (proj1 (IH _ (Hne _ _ (Hne _ _ Hb))) H). by rewrite !app_assoc_str.
Qed.

Lemma canonical_chars (inside : bool) (w : string) :
  canonical_from inside w = true -> str_forall (fun c => name_char c || Ascii.eqb c "-") w = true.
Proof.
  revert inside. induction w as [|c w IH]; intros inside; [done|]. cbn [canonical_from str_forall].
  destruct (Ascii.eqb c "-"); intros [H1 H2]%andb_true_iff; rewrite (IH _ H2); [by rewrite orb_true_r|].
  by rewrite H1.
Qed.

Lemma canonical_fixed (w : string) : canonical w = true -> normalizeProjectName w = w.
Proof.
  intros H. unfold normalizeProjectName. pose proof (canonical_chars _ _ H) as Hc.
  assert (forall c, name_char c || Ascii.eqb c "-" = true ->
    between 33 127 (byte c) = true /\ negb (isUpper c) && (byte c <? 128) = true) as Hv.
  { intros c [Hn|Hn]%orb_true_iff; [|apply Ascii.eqb_eq in Hn as ->; done].
    destruct (name_char_visible c Hn) as (Hv & Hu & _). rewrite Hu. unfold visible, between in *. lia. }
  rewrite ToLower_lowered, TrimSpace_visible by (eapply str_forall_impl; [|exact Hc]; intros c ?; by apply Hv).
  destruct w as [|c w]; [done|]. unfold canonical in H. cbn [canonical_from normalize_loop] in *.
  destruct (Ascii.eqb_spec c "-") as [->|]; [done|]. apply andb_true_iff in H as [Ec H].
  destruct (name_char_visible c Ec) as (_ & _ & Hs & _). rewrite Hs, name_char_not, Ec. cbn [negb].
  change ("" ++ String c "") with (String c ""). by destruct (normalize_loop_keeps w (String c "")) as [-> _].
Qed.

Lemma normalized_fixed (w : string) : w <> EmptyString -> (normalizeProjectName w = w <-> canonical w = true).
Proof.
  intros Hw. split; [|apply canonical_fixed]. intros E.
  destruct (normalize_loop_canonical (TrimSpace (ToLower w)) EmptyString false) as [E'|E']; [auto| |];
    unfold normalizeProjectName in E; congruence.
Qed.

(** A normalised name is empty or canonical, canonical names are left alone, and so
    normalising twice is normalising once. *)
Theorem normalized_names_canonical (name : string) :
  let normalized := normalizeProjectName name in
  normalizeProjectName normalized = normalized
  /\ (normalized = EmptyString \/ canonical normalized = true)
  /\ forall w, w <> EmptyString -> (normalizeProjectName w = w <-> canonical w = true).
Proof.
  assert (forall n, normalizeProjectName n = EmptyString \/ canonical (normalizeProjectName n) = true) as H
    by (intros n; apply normalize_loop_canonical; auto).
  intros normalized. split_and!; [|apply H|].
  - destruct (H name) as [E|E]; unfold normalized; [by rewrite E|by apply canonical_fixed].
  - apply normalized_fixed.
Qed.

(** *** Files of a project *)

Lemma canonical_plain (project : string) : canonical project = true -> plain project.
Proof.
  intros H. split_and!; try (intros ->; discriminate H).
  apply canonical_chars in H. by eapply str_forall_absent.
Qed.

Lemma safe_plain (filename : string) : safeDistributionFilename filename = true -> plain filename.
Proof.
  unfold safeDistributionFilename. destruct (String.eqb_spec filename EmptyString) as [->|Hn]; [done|].
  cbn [orb]. destruct (ContainsAny _ _) eqn:Ea; [done|]. destruct (HasPrefix filename ".") eqn:Ed; [done|].
  intros _. split_and!; [done|by intros ->..|].
  unfold ContainsAny in Ea. apply negb_false_iff in Ea. by eapply str_forall_absent.
Qed.

(** The path of a distribution lies right below the directory of its project. *)
Lemma distribution_path (dir project filename : string) :
  clean_dir dir -> canonical project = true -> safeDistributionFilename filename = true ->
  filepath_Join [filepath_Join [dir; project]; filename] = child (child dir project) filename.
Proof.
  intros Hd Hp Hf. pose proof (canonical_plain _ Hp). rewrite (Join_child dir project) by done.
  apply Join_child; [by apply clean_dir_child, canonical_plain|by apply safe_plain].
Qed.

(** ** Targets of file links *)

Lemma TrimSuffix_absent (s t : string) : HasSuffix s t = false -> TrimSuffix s t = s.
Proof.
  induction s as [|c s IH]; cbn [HasSuffix TrimSuffix]; intros [H1 H2]%orb_false_iff; rewrite H1; [done|].
  by rewrite IH.
Qed.

(** Dropping an empty port changes no origin, unless the host name holds a colon. *)
Lemma removeEmptyPort_host (h : string) :
  contains_byte ":" (fst (splitHostPort h)) = false -> splitHostPort (removeEmptyPort h) = splitHostPort h.
Proof.
  unfold removeEmptyPort, hasPort. destruct (last_cut h ":") as [[b a]|] eqn:E; [|done].
  destruct (Contains a "]"); [done|]. cbn [negb].
  destruct (HasSuffix h ":") eqn:Es; [|by rewrite TrimSuffix_absent].
  apply HasSuffix_spec in Es as [g ->]. rewrite TrimSuffix_app. intros Hc.
  unfold splitHostPort in *. rewrite (last_cut_app g EmptyString ":" eq_refl) in *.
  change (validOptionalPort (":" ++ "")) with true in *. cbv iota zeta in *.
  assert (contains_byte ":" g = false) as Hg.
  { destruct (HasPrefix g "[" && HasSuffix g "]") eqn:Eb; cbn [fst] in Hc; [|done].
    apply andb_true_iff in Eb as [[r ->]%HasPrefix_spec Hs]. rewrite TrimPrefix_app in Hc.
    destruct (HasSuffix r "]") eqn:Er.
    - apply HasSuffix_spec in Er as [x ->]. rewrite TrimSuffix_app in Hc.
      by rewrite !contains_byte_app, Hc.
    - rewrite TrimSuffix_absent in Hc by done. by rewrite contains_byte_app, Hc. }
  by rewrite (last_cut_None g ":" Hg).
Qed.

Lemma request_origin (u : URL) (r : Request) :
  request_to u r -> contains_byte ":" (Hostname u) = false ->
  exists v, ReqURL r = Some v /\ originKey v = originKey u.
Proof.
  intros (v & Ev & Es & Eh) Hc. exists v. split; [done|].
  assert (splitHostPort (Host v) = splitHostPort (Host u)) as E by (rewrite Eh; by apply removeEmptyPort_host).
  unfold originKey, effectivePort, Hostname, Port. by rewrite E, Es.
Qed.

(** A digest as text: empty, or 64 lower-case hexadecimal digits. *)
Definition digest_text (sha : string) : Prop :=
  sha = EmptyString
  \/ exists bs, sha = hex_EncodeToString bs /\ List.length bs = Sha256.Size /\ Forall (fun b => 0 <= b < 256) bs.

Lemma hex_decode_range (s : string) (bs : list Z) :
  hex_DecodeString s = Some bs -> Forall (fun b => 0 <= b < 256) bs.
Proof.
  assert (forall c x, hexValue c = Some x -> 0 <= x < 16) as Hv.
  { intros c x. unfold hexValue, between.
    repeat (match goal with |- context [?a <=? ?b] => destruct (Z.leb_spec a b) end; cbn [andb]);
      try done; intros [= <-]; lia. }
  revert bs. enough (forall n s, (String.length s <= n)%nat -> forall bs, hex_DecodeString s = Some bs ->
    Forall (fun b => 0 <= b < 256) bs) as H by (by apply (H (String.length s))).
  clear s. induction n as [|n IH]; intros [|a [|b s]] Hn bs; cbn in Hn; try lia; try done; [by intros [= <-]..|].
  cbn [hex_DecodeString]. destruct (hexValue a) as [x|] eqn:Ea, (hexValue b) as [y|] eqn:Eb,
    (hex_DecodeString s) as [t|] eqn:Es; try done. intros [= <-]. apply Hv in Ea, Eb.
  constructor; [lia|]. eapply IH; [|exact Es]. lia.
Qed.

Lemma digest_text_of (raw : string) :
  (String.length (ToLower raw) =? Sha256.Size * 2)%nat && is_Some_b (hex_DecodeString (ToLower raw)) = true ->
  digest_text (ToLower raw).
Proof.
  intros [Hl Hd]%andb_true_iff. right. destruct (hex_DecodeString (ToLower raw)) as [bs|] eqn:E; [|done].
  exists bs. split; [symmetry; by apply hex_encode_decode, E; apply ToLower_no_upper|].
  split; [|by eapply hex_decode_range].
  apply hex_decode_length in E. apply Nat.eqb_eq in Hl. unfold Sha256.Size in *. lia.
Qed.

Section Targets.
Context (allowed : gset string).

Lemma file_target_facts (requestURL target : URL) (sha : string) :
  fileTargetURL allowed requestURL = Ok (target, sha) ->
  (Scheme target = "http" \/ Scheme target = "https") /\ User target = None /\ Fragment target = EmptyString
  /\ originKey target ∈ allowed /\ digest_text sha /\ located target.
Proof.
  unfold fileTargetURL. set (query := fst _). destruct (_ =? EmptyString)%string; [done|].
  destruct (Parse _) as [u|] eqn:Ep; [|done].
  destruct ((Scheme u =? _)%string || _) eqn:Eh; [done|].
  destruct (negb (Scheme u =? "http")%string && _) eqn:Es; [done|].
  destruct (is_Some_b (User u) || _) eqn:Eu; [done|].
  destruct (fileOriginAllowed allowed u) eqn:Ea; [|done]. cbn [negb].
  assert (exists path raw, fst (metadata_sidecar (Url.Path requestURL) u) = set_paths path raw u) as (path & raw & Em).
  { unfold metadata_sidecar. destruct (_ && _) at 1; cbn [fst]; [eexists _, _; reflexivity|]. exists (Path u), (RawPath u). by destruct u. }
  destruct (metadata_sidecar _ _) as [u' sidecar]. cbn [fst] in Em. subst u'.
  set (expected := ToLower _). cbv zeta. intros Hr.
  assert (target = set_paths path raw u /\ digest_text sha) as [-> Hd].
  { destruct sidecar; [change (nonempty EmptyString) with false in Hr; injection Hr as <- <-; by split; [|left]|].
    destruct (nonempty expected) eqn:En; cbn [andb] in Hr.
    - destruct (_ && is_Some_b _) eqn:Ed; [|done]. injection Hr as <- <-. split; [done|by apply digest_text_of].
    - injection Hr as <- <-. split; [done|left]. by apply negb_false_iff, String.eqb_eq in En. }
  clear Hr. apply orb_false_iff in Eh as [E1 E2], Eu as [E3 E4].
  assert (located (set_paths path raw u)) as Hl.
  { destruct (Parse_located _ _ Ep) as (A & B & C); [|by split_and!]. unfold nonempty. by rewrite E1, E2. }
  assert (originKey (set_paths path raw u) ∈ allowed) as Ho by (by apply bool_decide_eq_true in Ea).
  split_and!; [| | |exact Ho|exact Hd|exact Hl].
  - apply andb_false_iff in Es as [Es|Es]; apply negb_false_iff, String.eqb_eq in Es; auto.
  - cbn. by destruct (User u).
  - cbn. by apply negb_false_iff, String.eqb_eq in E4.
Qed.

(** What a request for a file may reach: over HTTP, at an allowed origin, without
    credentials, with a digest that is one or none; and the request that is made of it
    goes to that origin. *)
Theorem file_target_allowed (requestURL target : URL) (sha : string) :
  fileTargetURL allowed requestURL = Ok (target, sha) ->
  (Scheme target = "http" \/ Scheme target = "https") /\ User target = None /\ Fragment target = EmptyString
  /\ originKey target ∈ allowed /\ digest_text sha
  /\ forall method r, NewRequest method (URL_String target) = Ok r ->
       request_to target r
       /\ (contains_byte ":" (Hostname target) = false ->
           exists v, ReqURL r = Some v /\ originKey v ∈ allowed).
Proof.
  intros H. destruct (file_target_facts _ _ _ H) as (Hs & Hu & Hf & Ho & Hd & Hl).
  split_and!; [done..|]. intros method r Hr. pose proof (NewRequest_to _ _ _ Hl Hr) as Ht. split; [done|].
  intros Hc. destruct (request_origin _ _ Ht Hc) as (v & Hv & E). exists v. by rewrite E.
Qed.

End Targets.

(** ** File links *)

Lemma Contains_absent (s : string) (c : ascii) :
  contains_byte c s = false -> Contains s (String c EmptyString) = false.
Proof.
  unfold Contains. induction s as [|a s IH]; [done|]. cbn [contains_byte Index]. intros [Ha Hs]%orb_false_iff.
  specialize (IH Hs). cbn [String.prefix]. apply Ascii.eqb_neq in Ha. destruct (ascii_dec c a) as [->|]; [done|].
  by destruct (Index s _).
Qed.

(** One pair of a query, and the pairs after it. *)
Definition pair_text (k v : string) : string := QueryEscape k ++ "=" ++ QueryEscape v.

Lemma QueryEscape_absent (s : string) (c : ascii) :
  c = "&"%char \/ c = "="%char \/ c = ";"%char -> contains_byte c (QueryEscape s) = false.
Proof. intros [-> |[-> | ->]]; by apply escape_absent. Qed.

Lemma pair_text_absent (k v : string) (c : ascii) :
  c = "&"%char \/ c = ";"%char -> contains_byte c (pair_text k v) = false.
Proof.
  intros Hc. unfold pair_text. rewrite !contains_byte_app, !QueryEscape_absent by (destruct Hc; auto).
  by destruct Hc as [-> | ->].
Qed.

Lemma parse_pair (k v : string) (rest : list string) :
  parse_pairs (pair_text k v :: rest)
  = let '(pairs, failed) := parse_pairs rest in ((k, v) :: pairs, failed).
Proof.
  cbn [parse_pairs]. destruct (parse_pairs rest) as [pairs failed].
  rewrite Contains_absent by (apply pair_text_absent; auto).
  assert ((pair_text k v =? EmptyString)%string = false) as ->.
  { apply String.eqb_neq. unfold pair_text. by destruct (QueryEscape k). }
  unfold pair_text. change ("=" ++ QueryEscape v) with (String "=" (QueryEscape v)).
  rewrite (Cut_byte_app (QueryEscape k)) by (apply QueryEscape_absent; auto).
  unfold QueryEscape. by rewrite !unescape_escape.
Qed.

Lemma values_Encode_one (k v : string) : values_Encode {[ k := [v] ]} = pair_text k v.
Proof. unfold values_Encode. rewrite map_to_list_singleton. reflexivity. Qed.

(** [sha256] is written before [url]. *)
Lemma values_Encode_two (sha url : string) :
  values_Encode (<["sha256" := [sha]]> {[ "url" := [url] ]})
  = pair_text "sha256" sha ++ "&" ++ pair_text "url" url.
Proof.
  unfold values_Encode. set (m := <["sha256" := [sha]]> _).
  assert (map_to_list m ≡ₚ [("sha256", [sha]); ("url", [url])]) as Hp.
  { unfold m. rewrite map_to_list_insert, map_to_list_singleton; [done|]. by rewrite lookup_singleton_ne. }
  symmetry in Hp. apply Permutation_length_2_inv in Hp as [-> | ->]; reflexivity.
Qed.

Lemma file_values_query (target : URL) (sha : string) :
  let query := fst (ParseQuery (values_Encode (file_values target sha))) in
  values_get query "url" = URL_String (set_Fragment EmptyString target) /\ values_get query "sha256" = sha.
Proof.
  unfold file_values, ParseQuery. set (text := URL_String _). destruct (nonempty sha) eqn:En.
  - rewrite values_Encode_two. change ("&" ++ pair_text "url" text) with (String "&" (pair_text "url" text)).
    rewrite Split_app by (apply pair_text_absent; auto).
    rewrite Split_no_sep by (apply pair_text_absent; auto). by rewrite !parse_pair.
  - rewrite values_Encode_one, Split_no_sep by (apply pair_text_absent; auto). rewrite parse_pair.
    apply negb_false_iff, String.eqb_eq in En as ->. done.
Qed.

(** Hexadecimal text is visible and in lower case. *)
Lemma hex_text_chars (bs : list Z) : Forall (fun b => 0 <= b < 256) bs ->
  str_forall (fun c => between 33 127 (byte c) && (negb (isUpper c) && (byte c <? 128)))
    (hex_EncodeToString bs) = true.
Proof.
  intros Hb. assert (forall z, 0 <= z < 16 -> between 33 127 (byte (hexDigit z)) && (negb (isUpper (hexDigit z))
    && (byte (hexDigit z) <? 128)) = true) as Hh.
  { intros z Hz. unfold hexDigit, between, isUpper, between.
    destruct (Z.ltb_spec z 10); rewrite byte_chr by lia;
      repeat (match goal with |- context [?a <=? ?b] => destruct (Z.leb_spec a b) end; try lia);
      destruct (Z.ltb_spec (87 + z) 128) || destruct (Z.ltb_spec (48 + z) 128); try lia; done. }
  induction Hb as [|b bs Hb _ IH]; [done|]. cbn [hex_EncodeToString str_forall].
  rewrite !Hh, IH; [done|apply Z.mod_pos_bound; lia|split; [apply Z.div_pos|apply Z.div_lt_upper_bound]; lia].
Qed.

Lemma hex_text_lower (bs : list Z) : Forall (fun b => 0 <= b < 256) bs ->
  TrimSpace (hex_EncodeToString bs) = hex_EncodeToString bs /\ ToLower (hex_EncodeToString bs) = hex_EncodeToString bs.
Proof.
  intros Hb. pose proof (hex_text_chars bs Hb) as H.
  split; [apply TrimSpace_visible|apply ToLower_lowered]; (eapply str_forall_impl; [|exact H]);
    intros c [H1 H2]%andb_true_iff; done.
Qed.

(** A checked digest in the form the metadata keeps it. *)
Lemma labelled_digest_lower (text : string) :
  ToLower ("sha256:" ++ sha256_hex text) = "sha256:" ++ sha256_hex text.
Proof.
  apply ToLower_lowered. rewrite str_forall_app. apply andb_true_iff. split; [reflexivity|].
  eapply str_forall_impl; [|apply hex_text_chars, Sum256_range]. by intros c [_ H]%andb_true_iff.
Qed.

Definition metadata_name (path : string) : bool := HasSuffix (Base path) ".metadata".


Section RoundTrip.
Context (allowed : gset string) (requestURL target v : URL) (sha : string).
Hypothesis Hplain : plain_url (set_Fragment EmptyString target).
Hypothesis Hscheme : Scheme target = "http" \/ Scheme target = "https".
Hypothesis Hallowed : originKey target ∈ allowed.
Hypothesis Hdigest : digest_text sha.
Hypothesis Hlink : RawQuery requestURL = values_Encode (file_values target sha).
Hypothesis Hparse : Parse (URL_String (set_Fragment EmptyString target)) = Some v.


End RoundTrip.
