(* ===== verification/LocalPackages.v ===== *)
(** * Private PyPI packages

    The part of [internal/pypiproxy] that keeps uploaded distributions below the
    repository's [private] directory: the record next to each file, the store of an
    upload, the index of a project and the size of it all. *)

From S2P Require Import Prelude GoStrings FilePath Sha256 Time Json Metadata Fs Store PyPiText.
From Stdlib Require Import Ascii String.
Local Open Scope string_scope.
Local Open Scope Z_scope.

(** ** The record of a distribution *)

Record localPackage := mkLocalPackage {
  Filename : string;
  Hash : string;
  Size : Z;
  RequiresPython : string;
  UploadedAt : Time
}.

Definition zeroPackage : localPackage := mkLocalPackage EmptyString EmptyString 0 EmptyString zeroTime.

Definition package_json (pkg : localPackage) : json :=
  JObj ([("filename", JString (Filename pkg));
         ("sha256", JString (Hash pkg));
         ("size", JNum (FormatInt (Size pkg)))]
        ++ omitempty "requires_python" (RequiresPython pkg)
        ++ [("uploaded_at", JStr (FormatRFC3339Nano (UploadedAt pkg)))]).

Definition marshalPackage (pkg : localPackage) : option string :=
  if between 0 9999 (year_of (UploadedAt pkg)) then Some (encode (package_json pkg)) else None.

Definition set_package_member (pkg : option localPackage) (member : string * json) : option localPackage :=
  pkg ← pkg;
  let '(key, v) := member in
  let '(mkLocalPackage filename hash size requires uploaded) := pkg in
  if EqualFold key "filename" then
    s ← string_value filename v; Some (mkLocalPackage s hash size requires uploaded)
  else if EqualFold key "sha256" then
    s ← string_value hash v; Some (mkLocalPackage filename s size requires uploaded)
  else if EqualFold key "size" then
    z ← int_value size v; Some (mkLocalPackage filename hash z requires uploaded)
  else if EqualFold key "requires_python" then
    s ← string_value requires v; Some (mkLocalPackage filename hash size s uploaded)
  else if EqualFold key "uploaded_at" then
    t ← time_value uploaded v; Some (mkLocalPackage filename hash size requires t)
  else Some pkg.

Definition unmarshalPackage (text : string) : option localPackage :=
  v ← decode text;
  match v with
  | JNull => Some zeroPackage
  | JObj ms => foldl set_package_member (Some zeroPackage) ms
  | _ => None
  end.

(** ** Storing an upload *)

Definition localProjectPath (localPath project : string) : string := filepath_Join [localPath; project].

Inductive local_error :=
  | UnsafeName
  | LocalDirectory
  | AlreadyExists
  | LocalStat
  | LocalCreate
  | LocalCopy (e : copy_error)
  | LocalSync
  | LocalClose
  | LocalChmod
  | LocalLink
  | LocalRemove
  | LocalEncode
  | LocalWrite.

Section Upload.
Context (env : PutEnv) (localPath : string).

(** [io.Copy] into the temporary file and the hasher: what the file holds. *)
Definition local_copy (src : Source) : Z * option copy_error * string :=
  io_Copy (fun held chunk =>
      if cacheFails env held chunk then (0%nat, true, held)
      else (String.length chunk, false, held ++ chunk))
    (chunks src) (failed src) 0 EmptyString.

Definition upload_temp (directory : string) : string :=
  filepath_Join [directory; ".upload-" ++ bodySuffix env].

Definition drop_file (path : string) (f : fs) : fs := ignore_error (os_Remove (io env) path f) f.

(** From the linked file on: the temporary name goes, the record is written. *)
Definition record_package (filename requiresPython target temp body : string) (size : Z) (f : fs)
    : result local_error localPackage * fs :=
  match os_Remove (io env) temp f with
  | Err _ => (Err LocalRemove, drop_file target f)
  | Ok f =>
      let pkg := mkLocalPackage filename (sha256_hex body) size requiresPython (clock env) in
      match marshalPackage pkg with
      | None => (Err LocalEncode, f)
      | Some text =>
          if negb (io env CWrite (target ++ ".json")) then (Err LocalWrite, drop_file target f)
          else (Ok pkg, <[target ++ ".json" := mkNode Regular text (clock env)]> f)
      end
  end.

(** From the temporary file on, without its deferred removal. *)
Definition fill_package (filename requiresPython target temp : string) (src : Source) (f : fs)
    : result local_error localPackage * fs :=
  let '(size, err, body) := local_copy src in
  let f := <[temp := mkNode Regular body (clock env)]> f in
  match err with
  | Some e => (Err (LocalCopy e), f)
  | None =>
      if negb (io env CSync temp) then (Err LocalSync, f)
      else if negb (io env CClose temp) then (Err LocalClose, f)
      else if negb (io env CChmod temp) then (Err LocalChmod, f)
      else match Link (io env) temp target f with
      | Err LinkExists => (Err AlreadyExists, f)
      | Err LinkFailed => (Err LocalLink, f)
      | Ok f => record_package filename requiresPython target temp body size f
      end
  end.

(** Under the lock of the file's name. *)
Definition storeLocalPackage (project filename requiresPython : string) (src : Source) (f : fs)
    : result local_error localPackage * fs :=
  if (project =? EmptyString)%string || negb (normalizeProjectName project =? project)%string
     || negb (safeDistributionFilename filename)
  then (Err UnsafeName, f)
  else
    let directory := localProjectPath localPath project in
    if negb (io env CMkdirAll directory) then (Err LocalDirectory, f)
    else
      let target := filepath_Join [directory; filename] in
      match Stat (io env) target f with
      | Ok _ => (Err AlreadyExists, f)
      | Err ErrIO => (Err LocalStat, f)
      | Err ErrNotExist =>
          let temp := upload_temp directory in
          if negb (io env CCreateTemp temp) then (Err LocalCreate, f)
          else
            let '(r, f) := fill_package filename requiresPython target temp src
                             (<[temp := mkNode Regular EmptyString (clock env)]> f) in
            (r, drop_file temp f)
      end.

End Upload.

(** ** The index of a project *)

Inductive index_error := IndexRead | IndexDecode.

Definition entry_before (a b : string * node) : Prop := String.leb (fst a) (fst b) = true.

#[export] Instance entry_before_dec : RelDecision entry_before.
Proof. intros a b. unfold entry_before. apply _. Defined.

(** The name of a path right below a directory. *)
Definition name_below (directory path : string) : option string :=
  name ← after_prefix (directory ++ "/") path;
  if (name =? EmptyString)%string || contains_byte "/" name then None else Some name.

(** [os.ReadDir]: the entries by name; a directory nobody wrote to has none. *)
Definition ReadDir (io : oracle) (directory : string) (f : fs) : result os_error (list (string * node)) :=
  if io CReadDir directory then
    Ok (merge_sort entry_before
          (omap (fun '(path, n) => (fun name => (name, n)) <$> name_below directory path) (map_to_list f)))
  else Err ErrIO.

Definition ReadFile (io : oracle) (path : string) (f : fs) : result os_error string :=
  match Open io path f with
  | Err e => Err e
  | Ok n => if io CRead path then Ok (data n) else Err ErrIO
  end.

(** One entry of the directory: nothing, a package or an error. *)
Definition local_entry (io : oracle) (directory : string) (f : fs) (entry : string * node)
    : result index_error (option localPackage) :=
  let '(name, n) := entry in
  if is_dir n || HasSuffix name ".json" || negb (safeDistributionFilename name) then Ok None
  else match ReadFile io (filepath_Join [directory; name ++ ".json"]) f with
  | Ok text =>
      match unmarshalPackage text with Some pkg => Ok (Some pkg) | None => Err IndexDecode end
  | Err ErrNotExist =>
      match ReadFile io (filepath_Join [directory; name]) f with
      | Ok body =>
          Ok (Some (mkLocalPackage name (sha256_hex body) (Z.of_nat (String.length body)) EmptyString zeroTime))
      | Err _ => Err IndexRead
      end
  | Err ErrIO => Err IndexRead
  end.

Fixpoint local_entries (io : oracle) (directory : string) (f : fs) (entries : list (string * node))
    : result index_error (list localPackage) :=
  match entries with
  | [] => Ok []
  | entry :: entries =>
      match local_entry io directory f entry with
      | Err e => Err e
      | Ok pkg =>
          match local_entries io directory f entries with
          | Err e => Err e
          | Ok pkgs => Ok (option_list pkg ++ pkgs)%list
          end
      end
  end.

Definition package_before (a b : localPackage) : Prop := String.leb (Filename a) (Filename b) = true.

#[export] Instance package_before_dec : RelDecision package_before.
Proof. intros a b. unfold package_before. apply _. Defined.

Definition localPackages (io : oracle) (localPath project : string) (f : fs)
    : result index_error (list localPackage) :=
  let directory := localProjectPath localPath project in
  match ReadDir io directory f with
  | Err ErrNotExist => Ok []
  | Err ErrIO => Err IndexRead
  | Ok entries =>
      match local_entries io directory f entries with
      | Err e => Err e
      | Ok pkgs => Ok (merge_sort package_before pkgs)
      end
  end.

(** ** [PrivateSize] *)

Inductive size_error := SizeWalk | SizeOverflow.

(** The callback of the walk. *)
Definition size_visit (io : oracle) (f : fs) (total : Z) (path : string) : result size_error Z :=
  if walked_dir f path || HasSuffix (Base path) ".json" then Ok total
  else match Stat io path f with
  | Err _ => Err SizeWalk
  | Ok info =>
      if is_regular info then
        if (0 <? size_of info) && (maxInt64 - size_of info <? total) then Err SizeOverflow
        else Ok (total + size_of info)
      else Ok total
  end.

Fixpoint size_walk (io : oracle) (f : fs) (total : Z) (paths : list string) : Z * option size_error :=
  match paths with
  | [] => (total, None)
  | path :: paths =>
      match size_visit io f total path with
      | Ok total => size_walk io f total paths
      | Err e => (total, Some e)
      end
  end.

Definition PrivateSize (io : oracle) (w : Walk) (f : fs) : Z * option size_error :=
  let '(total, err) := size_walk io f 0 (visited w) in
  (total, match err, walk_error w with
          | Some e, _ => Some e
          | None, Some _ => Some SizeWalk
          | None, None => None
          end).
