(* ===== verification/Decoding.v ===== *)
(** * Decoding of documents terminates

    The three kinds of JSON documents that are read: metadata of the cache, records of
    private packages and pages of an index. *)

From S2P Require Import Prelude GoStrings Url Json JsonTotal Metadata PyPiText LocalPackages.
From Stdlib Require Import Ascii String.
Local Open Scope string_scope.
Local Open Scope nat_scope.


