(* ===== verification/LocalPackagesFacts.v ===== *)
(** * Private PyPI packages: theorems

    The record of a distribution reads back; an upload either leaves the distribution
    and its record, and nothing else, or it leaves no trace, and never touches a
    distribution that is there. *)

From S2P Require Import Prelude GoStrings FilePath Sha256 Time Json Metadata Fs Store StorePut StoreStream PyPiText PyPiTextFacts LocalPackages.
From Stdlib Require Import Ascii String.
Local Open Scope string_scope.
Local Open Scope Z_scope.

(** ** The record of a distribution *)

(** Packages that JSON represents exactly. *)
Record listable (pkg : localPackage) : Prop := {
  li_size : int64 (Size pkg);
  li_time : 0 <= year_of (UploadedAt pkg) <= 9999;
  li_strings : utf8 (Filename pkg) /\ utf8 (Hash pkg) /\ utf8 (RequiresPython pkg)
}.

Lemma package_json_wf (pkg : localPackage) :
  listable pkg -> wf (package_json pkg) /\ (height (package_json pkg) <= 1)%nat.
Proof.
  intros [Hz _ (Hf & Hh & Hr)].
  assert (Forall (fun m => utf8 (fst m) /\ wf (snd m) /\ (height (snd m) <= 0)%nat)
    ([("filename", JString (Filename pkg)); ("sha256", JString (Hash pkg)); ("size", JNum (FormatInt (Size pkg)))]
     ++ omitempty "requires_python" (RequiresPython pkg)
     ++ [("uploaded_at", JStr (FormatRFC3339Nano (UploadedAt pkg)))])%list) as Hall.
  { repeat apply Forall_app_2; [|eapply Forall_impl; [by apply omitempty_wf; [by apply ascii_utf8|]|]|].
    - repeat apply Forall_cons_2; try apply Forall_nil_2; cbn [fst snd];
        (split; [by apply ascii_utf8|]); (split; [|cbn; lia]);
        first [exact (proj2 (escape_roundtrip _ Hf)) | exact (proj2 (escape_roundtrip _ Hh)) | by apply FormatInt_good].
    - intros [k v] (? & ? & ->). by split_and!.
    - apply Forall_singleton. split_and!; [by apply ascii_utf8|apply wf_date|cbn; lia]. }
  split.
  - apply wf_members. eapply Forall_impl; [exact Hall|]. intros ? (? & ? & _). done.
  - apply height_members. eapply Forall_impl; [exact Hall|]. by intros ? (_ & _ & ?).
Qed.

Section SetPackageMember.
Variables (filename hash : string) (size : Z) (requires : string) (uploaded : Time).
Let pkg := mkLocalPackage filename hash size requires uploaded.

Lemma set_filename (v : json) :
  set_package_member (Some pkg) ("filename", v)
  = s ← string_value filename v; Some (mkLocalPackage s hash size requires uploaded).
Proof. reflexivity. Qed.
Lemma set_hash (v : json) :
  set_package_member (Some pkg) ("sha256", v)
  = s ← string_value hash v; Some (mkLocalPackage filename s size requires uploaded).
Proof. reflexivity. Qed.
Lemma set_size (v : json) :
  set_package_member (Some pkg) ("size", v)
  = z ← int_value size v; Some (mkLocalPackage filename hash z requires uploaded).
Proof. reflexivity. Qed.
Lemma set_requires (v : json) :
  set_package_member (Some pkg) ("requires_python", v)
  = s ← string_value requires v; Some (mkLocalPackage filename hash size s uploaded).
Proof. reflexivity. Qed.
Lemma set_uploaded (v : json) :
  set_package_member (Some pkg) ("uploaded_at", v)
  = t ← time_value uploaded v; Some (mkLocalPackage filename hash size requires t).
Proof. reflexivity. Qed.
End SetPackageMember.

Lemma set_optional_requires (filename hash : string) (size : Z) (uploaded : Time) (s : string) :
  utf8 s ->
  foldl set_package_member (Some (mkLocalPackage filename hash size EmptyString uploaded))
    (omitempty "requires_python" s)
  = Some (mkLocalPackage filename hash size s uploaded).
Proof.
  intros Hs. unfold omitempty. destruct (String.eqb_spec s EmptyString) as [->|_]; [done|].
  cbn [foldl]. by rewrite set_requires, unquote_JString.
Qed.

(** A record written next to a distribution is read back as it was. *)
Lemma package_roundtrip (pkg : localPackage) :
  listable pkg -> exists text, marshalPackage pkg = Some text /\ unmarshalPackage text = Some pkg.
Proof.
  intros Hl. exists (encode (package_json pkg)). destruct (package_json_wf pkg Hl) as [Hw Hh].
  destruct Hl as [Hz Ht (Hf & Hhash & Hr)]. split.
  { unfold marshalPackage, between.
    by replace ((0 <=? year_of (UploadedAt pkg)) && (year_of (UploadedAt pkg) <=? 9999)) with true
      by (symmetry; apply andb_true_iff; lia). }
  unfold unmarshalPackage. rewrite decode_encode by (done || (unfold maxNestingDepth; lia)). clear Hw Hh.
  destruct pkg as [filename hash size requires uploaded]. cbn [Filename Hash Size RequiresPython UploadedAt] in *.
  unfold package_json, zeroPackage. cbn [mbind option_bind Filename Hash Size RequiresPython UploadedAt].
  rewrite !foldl_app. cbn [foldl].
  rewrite set_filename, unquote_JString by done. cbn [mbind option_bind].
  rewrite set_hash, unquote_JString by done. cbn [mbind option_bind].
  rewrite set_size, int_roundtrip by done. cbn [mbind option_bind].
  rewrite set_optional_requires by done. rewrite set_uploaded. cbn [time_value].
  by rewrite ParseRFC3339_Format.
Qed.

(** ** Uploads *)

Lemma local_copy_content (env : PutEnv) (src : Source) (size : Z) (body : string) :
  len (content src) <= maxInt64 -> local_copy env src = (size, None, body) ->
  failed src = false /\ body = content src /\ size = len (content src).
Proof.
  unfold local_copy, content. intros Hlen.
  assert (forall cs n held, n = len held -> len (held ++ String.concat EmptyString cs) <= maxInt64 ->
    io_Copy (fun held chunk => if cacheFails env held chunk then (0%nat, true, held)
                               else (String.length chunk, false, held ++ chunk)) cs (failed src) n held
      = (size, None, body) ->
    failed src = false /\ body = held ++ String.concat EmptyString cs
      /\ size = len (held ++ String.concat EmptyString cs)) as H.
  { induction cs as [|c cs IH]; intros n held -> Hl; cbn [io_Copy].
    - destruct (failed src); [done|]. intros [= <- <-]. by rewrite app_empty_r.
    - rewrite concat_cons in Hl |- *. destruct (String.eqb_spec c EmptyString) as [->|Hc]; [by apply IH|].
      destruct (cacheFails env held c); [done|]. rewrite Nat.eqb_refl. cbn [negb].
      rewrite <- app_assoc_str in Hl |- *. apply IH; [|done]. rewrite len_app. unfold len in *.
      rewrite !length_app_str in Hl. apply wrap64_id. int64_lia. }
  intros E. apply (H (chunks src) 0 EmptyString); [done|exact Hlen|exact E].
Qed.

(** The files of an upload of [filename] to [project]. *)
Record upload_paths (env : PutEnv) (localPath project filename target temp : string) : Prop := {
  up_target : target = child (child localPath project) filename;
  up_temp : temp = child (child localPath project) (".upload-" ++ bodySuffix env);
  up_joined : filepath_Join [localProjectPath localPath project; filename] = target;
  up_temp_joined : upload_temp env (localProjectPath localPath project) = temp;
  up_different : temp <> target /\ temp <> target ++ ".json" /\ target <> target ++ ".json"
}.

Lemma upload_paths_ok (env : PutEnv) (localPath project filename : string) :
  clean_dir localPath -> suffix_ok (bodySuffix env) -> canonical project = true ->
  safeDistributionFilename filename = true ->
  upload_paths env localPath project filename (child (child localPath project) filename)
    (child (child localPath project) (".upload-" ++ bodySuffix env)).
Proof.
  intros Hd Hs Hp Hf. pose proof (canonical_plain _ Hp) as Hpp. pose proof (clean_dir_child _ _ Hd Hpp) as Hdd.
  assert (plain (".upload-" ++ bodySuffix env)) as Hpt by (split_and!; done).
  assert (HasPrefix filename "." = false) as Hdot.
  { unfold safeDistributionFilename in Hf. by destruct (_ || _ || HasPrefix filename ".") eqn:E in Hf; [|split_bool]. }
  split; [done|done|by apply distribution_path| |].
  - unfold upload_temp, localProjectPath. rewrite (Join_child localPath project) by done. by apply Join_child.
  - split_and!; unfold child; intros E.
    + rewrite !app_assoc_str in E. apply app_inj_l, app_inj_l, app_inj_l, app_inj_l in E. by rewrite <- E in Hdot.
    + rewrite !app_assoc_str in E. apply app_inj_l, app_inj_l, app_inj_l, app_inj_l in E.
      destruct filename as [|c filename]; [done|]. injection E as <- _. by destruct filename.
    + apply (f_equal String.length) in E. rewrite !length_app_str in E. cbn in E. lia.
Qed.

Lemma drop_file_other (env : PutEnv) (path q : string) (f : fs) :
  q <> path -> drop_file env path f !! q = f !! q.
Proof.
  intros Hq. unfold drop_file, os_Remove, guard_call. destruct (io env CRemove path); [|done].
  destruct (f !! path); [|done]. by apply lookup_delete_ne.
Qed.

Lemma drop_file_calm (env : PutEnv) (path : string) (f : fs) :
  io env CRemove path = true -> drop_file env path f = delete path f.
Proof.
  intros Hc. unfold drop_file, os_Remove. rewrite Hc. destruct (f !! path) eqn:E; [done|].
  cbn. by rewrite delete_id.
Qed.

Section Uploads.
Context (env : PutEnv) (localPath project filename requiresPython : string) (src : Source) (f : fs).
Let target := child (child localPath project) filename.
Let temp := child (child localPath project) (".upload-" ++ bodySuffix env).
Hypothesis Hdir : clean_dir localPath.
Hypothesis Hsuffix : suffix_ok (bodySuffix env).

Abbreviation stored := (storeLocalPackage env localPath project filename requiresPython src f).

(** The steps after the checks change only the three files of the upload. *)
Lemma fill_package_others (q : string) (f0 : fs) :
  q <> target -> q <> target ++ ".json" -> q <> temp ->
  snd (fill_package env filename requiresPython target temp src f0) !! q = f0 !! q.
Proof.
  intros H1 H2 H3. unfold fill_package. destruct (local_copy env src) as [[size err] body].
  set (f1 := <[temp := _]> f0). assert (f1 !! q = f0 !! q) as E1 by (by apply lookup_insert_ne).
  destruct err; [done|]. destruct (io env CSync temp); [|done]. destruct (io env CClose temp); [|done].
  destruct (io env CChmod temp); [|done]. cbn [negb]. unfold Link.
  destruct (io env CLink target); [|done]. cbn [negb].
  destruct (f1 !! target); [done|]. destruct (f1 !! temp) as [n|]; [|done].
  unfold record_package. set (f2 := <[target := n]> f1).
  assert (f2 !! q = f0 !! q) as E2 by (unfold f2; by rewrite lookup_insert_ne).
  unfold os_Remove, guard_call. destruct (io env CRemove temp); cbn [fst snd];
    [|by rewrite drop_file_other]. destruct (f2 !! temp); cbn [snd]; [|by rewrite drop_file_other].
  destruct (marshalPackage _) as [text|]; [|cbn; by rewrite lookup_delete_ne].
  destruct (io env CWrite (target ++ ".json")); cbn [negb snd].
  - by rewrite lookup_insert_ne, lookup_delete_ne.
  - by rewrite drop_file_other, lookup_delete_ne.
Qed.

(** All the calls change only those three files, and none when the names are refused. *)
Lemma stored_others (q : string) :
  q <> target -> q <> target ++ ".json" -> q <> temp -> snd stored !! q = f !! q.
Proof.
  intros H1 H2 H3. unfold storeLocalPackage. destruct (_ || _ || _) eqn:En; [done|].
  apply orb_false_iff in En as [[Hne%String.eqb_neq Hp]%orb_false_iff Hf]. apply negb_false_iff in Hp, Hf.
  apply String.eqb_eq, normalized_fixed in Hp; [|done].
  destruct (upload_paths_ok env localPath project filename Hdir Hsuffix Hp Hf) as [_ _ Ht Htemp _].
  fold target temp in Ht, Htemp. rewrite Ht, Htemp.
  destruct (io env CMkdirAll _); [|done]. cbn [negb]. destruct (Stat _ _ _) as [|[|]]; [done| |done].
  destruct (io env CCreateTemp temp); [|done]. cbn [negb].
  destruct (fill_package _ _ _ _ _ _ _) as [r f'] eqn:E. cbn [snd]. rewrite drop_file_other by done.
  pose proof (fill_package_others q (<[temp := mkNode Regular EmptyString (clock env)]> f) H1 H2 H3) as H.
  rewrite E in H. cbn [snd] in H. rewrite H. by apply lookup_insert_ne.
Qed.

(** C19: An upload touches no file but the distribution, its record and its own temporary
    file, which are right below the directory of the project; it refuses names that are
    not canonical and safe; and it never changes a distribution that is there, nor its
    record, whichever calls of the system fail. *)
Theorem upload_confined_and_immutable :
  (forall q, q <> target -> q <> target ++ ".json" -> q <> temp -> snd stored !! q = f !! q)
  /\ (canonical project && safeDistributionFilename filename = false ->
      stored = (Err UnsafeName, f))
  /\ (forall n, f !! target = Some n ->
      (exists e, fst stored = Err e) /\ snd stored !! target = Some n
      /\ snd stored !! (target ++ ".json") = f !! (target ++ ".json")).
Proof.
  split; [exact stored_others|]. unfold storeLocalPackage.
  destruct (String.eqb_spec project EmptyString) as [->|Hne]; cbn [orb].
  { split; [done|]. intros n Hn. split_and!; [by eexists|done|done]. }
  assert (negb (normalizeProjectName project =? project)%string = negb (canonical project)) as ->.
  { f_equal. apply eq_true_iff_eq. rewrite String.eqb_eq. by apply normalized_fixed. }
  destruct (canonical project) eqn:Hp; cbn [negb orb andb].
  2:{ split; [done|]. intros n Hn. split_and!; [by eexists|done|done]. }
  destruct (safeDistributionFilename filename) eqn:Hf; cbn [negb].
  2:{ split; [done|]. intros n Hn. split_and!; [by eexists|done|done]. }
  split; [done|]. intros n Hn.
  destruct (upload_paths_ok env localPath project filename Hdir Hsuffix Hp Hf) as [_ _ Ht _ _].
  fold target in Ht. rewrite Ht. destruct (io env CMkdirAll _); cbn [negb]; [|split_and!; [by eexists|done|done]].
  unfold Stat, guard_call, existing. rewrite Hn.
  destruct (io env CStat target); (split_and!; [by eexists|done|done]).
Qed.

(** What an upload that succeeds leaves. *)
Definition new_package : localPackage :=
  mkLocalPackage filename (sha256_hex (content src)) (len (content src)) requiresPython (clock env).

Definition with_package (text : string) (f : fs) : fs :=
  <[target ++ ".json" := mkNode Regular text (clock env)]>
    (<[target := mkNode Regular (content src) (clock env)]> f).

Hypothesis Hremove : forall path, io env CRemove path = true.
Hypothesis Hclock : between 0 9999 (year_of (clock env)) = true.
Hypothesis Hlen : len (content src) <= maxInt64.
Hypothesis Hfresh : f !! temp = None.

Lemma fill_package_outcome (f0 : fs) :
  temp <> target /\ temp <> target ++ ".json" /\ target <> target ++ ".json" -> f0 !! target = None ->
  let '(r, f') := fill_package env filename requiresPython target temp src f0 in
  match r with
  | Ok pkg => pkg = new_package /\ failed src = false
      /\ exists text, marshalPackage pkg = Some text /\ delete temp f' = with_package text (delete temp f0)
  | Err _ => delete temp f' = delete temp f0
  end.
Proof.
  intros (D1 & D2 & D3) Ht. unfold fill_package. destruct (local_copy env src) as [[size err] body] eqn:Ec.
  set (f1 := <[temp := mkNode Regular body (clock env)]> f0).
  assert (delete temp f1 = delete temp f0) as E1 by apply delete_insert_eq.
  destruct err; [done|]. destruct (local_copy_content env src size body Hlen Ec) as (Hf & -> & ->).
  destruct (io env CSync temp); [|done]. destruct (io env CClose temp); [|done].
  destruct (io env CChmod temp); [|done]. cbn [negb]. unfold Link. destruct (io env CLink target); [|done].
  cbn [negb]. assert (f1 !! target = None) as -> by (unfold f1; by rewrite lookup_insert_ne).
  assert (f1 !! temp = Some (mkNode Regular (content src) (clock env))) as -> by apply lookup_insert_eq.
  set (f2 := <[target := _]> f1). unfold record_package, os_Remove, guard_call. rewrite Hremove.
  assert (f2 !! temp = Some (mkNode Regular (content src) (clock env))) as ->
    by (unfold f2; rewrite lookup_insert_ne by done; apply lookup_insert_eq).
  fold new_package. unfold marshalPackage at 1. cbn [UploadedAt new_package]. rewrite Hclock.
  assert (delete temp f2 = <[target := mkNode Regular (content src) (clock env)]> (delete temp f0)) as E2.
  { unfold f2. by rewrite delete_insert_ne, E1. }
  destruct (io env CWrite (target ++ ".json")); cbn [negb].
  - split_and!; [done|done|]. eexists. split; [unfold marshalPackage; cbn [UploadedAt new_package]; by rewrite Hclock|].
    unfold with_package. rewrite delete_insert_ne by done. by rewrite delete_delete_eq, E2.
  - rewrite drop_file_calm, E2, delete_insert_id, delete_delete_eq; [done|  |done].
    by rewrite lookup_delete_ne.
Qed.

(** When nothing keeps the system from removing files, an upload either succeeds, and
    then exactly the distribution with the content of the source and its record are new,
    or it fails and leaves every file as it was. *)
Lemma upload_all_or_nothing :
  let '(r, f') := stored in
  match r with
  | Ok pkg => pkg = new_package /\ failed src = false /\ f !! target = None
      /\ canonical project = true /\ safeDistributionFilename filename = true
      /\ exists text, marshalPackage pkg = Some text /\ f' = with_package text f
  | Err _ => f' = f
  end.
Proof.
  unfold storeLocalPackage. destruct (String.eqb_spec project EmptyString) as [_|Hne]; cbn [orb]; [done|].
  destruct (String.eqb_spec (normalizeProjectName project) project) as [E|]; cbn [negb orb]; [|done].
  apply normalized_fixed in E as Hp; [|done].
  destruct (safeDistributionFilename filename) eqn:Hf; cbn [negb]; [|done].
  destruct (upload_paths_ok env localPath project filename Hdir Hsuffix Hp Hf) as [_ _ Ht Htemp D].
  fold target temp in Ht, Htemp, D. rewrite Ht, Htemp.
  destruct (io env CMkdirAll _); cbn [negb]; [|done]. unfold Stat, guard_call, existing.
  destruct (io env CStat target); [|done]. destruct (f !! target) as [n|] eqn:En; [done|].
  destruct (io env CCreateTemp temp); cbn [negb]; [|done].
  pose proof (fill_package_outcome (<[temp := mkNode Regular EmptyString (clock env)]> f) D) as H.
  rewrite lookup_insert_ne in H by (destruct D; done). specialize (H En).
  destruct (fill_package _ _ _ _ _ _ _) as [r f']. rewrite drop_file_calm by done.
  assert (delete temp (<[temp := mkNode Regular EmptyString (clock env)]> f) = f) as Ed.
  { rewrite delete_insert_eq. by apply delete_id. }
  rewrite Ed in H. destruct r as [pkg|e]; [|done]. destruct H as (H1 & H2 & text & H3 & H4).
  split_and!; [done..|]. by exists text.
Qed.

End Uploads.
