(* ===== verification/LocalIndex.v ===== *)
(** * The index of private packages: theorems

    A distribution that was uploaded is listed, next to what was listed before, and its
    link in the listing is resolved to the file. *)

From stdpp Require Import sorting.
From S2P Require Import Prelude GoStrings FilePath Sha256 Time Json Metadata Fs Store StoreFacts StorePut StoreStream PyPiText PyPiTextFacts LocalPackages LocalPackagesFacts.
From Stdlib Require Import Ascii String.
Local Open Scope string_scope.
Local Open Scope Z_scope.

(** ** The loop over the entries *)

Lemma local_entries_cons (io : oracle) (dir : string) (f : fs) (e : string * node) (l : list (string * node))
    (pkg : option localPackage) (pkgs : list localPackage) :
  local_entry io dir f e = Ok pkg -> local_entries io dir f l = Ok pkgs ->
  local_entries io dir f (e :: l) = Ok (option_list pkg ++ pkgs)%list.
Proof. cbn [local_entries]. by intros -> ->. Qed.

Lemma local_entries_inv (io : oracle) (dir : string) (f : fs) (e : string * node) (l : list (string * node))
    (pkgs : list localPackage) :
  local_entries io dir f (e :: l) = Ok pkgs ->
  exists pkg rest, local_entry io dir f e = Ok pkg /\ local_entries io dir f l = Ok rest
    /\ pkgs = (option_list pkg ++ rest)%list.
Proof.
  cbn [local_entries]. destruct (local_entry io dir f e) as [pkg|]; [|done].
  destruct (local_entries io dir f l) as [rest|]; [|done]. intros [= <-]. by exists pkg, rest.
Qed.

(** The order of the entries decides that of the packages, and nothing else. *)
Lemma local_entries_perm (io : oracle) (dir : string) (f : fs) (l l' : list (string * node))
    (pkgs : list localPackage) :
  l ≡ₚ l' -> local_entries io dir f l = Ok pkgs ->
  exists pkgs', local_entries io dir f l' = Ok pkgs' /\ pkgs' ≡ₚ pkgs.
Proof.
  intros Hp. revert pkgs. induction Hp as [|e l l' _ IH|e e' l|l l' l'' _ IH1 _ IH2]; intros pkgs H.
  - by exists pkgs.
  - apply local_entries_inv in H as (pkg & rest & He & Hr & ->). destruct (IH _ Hr) as (rest' & Hr' & Hp').
    eexists. split; [by eapply local_entries_cons|]. by rewrite Hp'.
  - apply local_entries_inv in H as (pkg & rest & He & Hr & ->).
    apply local_entries_inv in Hr as (pkg' & rest' & He' & Hr' & ->).
    eexists. split; [eapply local_entries_cons; [exact He'|by eapply local_entries_cons]|].
    rewrite !app_assoc. f_equiv. apply Permutation_app_comm.
  - destruct (IH1 _ H) as (p1 & H1 & P1). destruct (IH2 _ H1) as (p2 & H2 & P2).
    exists p2. split; [done|]. by rewrite P2.
Qed.

Lemma local_entries_ext (io : oracle) (dir : string) (f f' : fs) (l : list (string * node)) :
  (forall e, e ∈ l -> local_entry io dir f e = local_entry io dir f' e) ->
  local_entries io dir f l = local_entries io dir f' l.
Proof.
  induction l as [|e l IH]; intros H; [done|]. cbn [local_entries].
  rewrite (H e) by apply list_elem_of_here. rewrite IH; [done|].
  intros e' He. apply H. by apply list_elem_of_further.
Qed.

(** ** The directory *)

Definition below (dir : string) (entry : string * node) : option (string * node) :=
  (fun name => (name, snd entry)) <$> name_below dir (fst entry).

Definition listing (dir : string) (f : fs) : list (string * node) := omap (below dir) (map_to_list f).

Lemma ReadDir_listing (io : oracle) (dir : string) (f : fs) :
  io CReadDir dir = true -> exists l, ReadDir io dir f = Ok l /\ l ≡ₚ listing dir f.
Proof.
  intros Hio. unfold ReadDir. rewrite Hio. eexists. split; [done|]. rewrite merge_sort_Permutation.
  unfold listing. induction (map_to_list f) as [|[path n] l' IH]; [done|]. cbn [omap list_omap] in *.
  unfold below at 1. cbn [fst snd]. destruct (name_below dir path); cbn; by rewrite IH.
Qed.

Lemma name_below_child (dir name : string) : plain name -> name_below dir (child dir name) = Some name.
Proof.
  intros (Hn & _ & _ & Hs). unfold name_below, child. rewrite <- app_assoc_str, after_prefix_app. cbn [mbind option_bind].
  apply String.eqb_neq in Hn as ->. unfold slash in Hs. by rewrite Hs.
Qed.

Lemma name_below_Some (dir path name : string) : name_below dir path = Some name -> path = child dir name.
Proof.
  unfold name_below. destruct (after_prefix _ _) as [r|] eqn:E; [|done]. cbn [mbind option_bind].
  destruct (_ || _); [done|]. intros [= <-]. by apply after_prefix_Some in E as ->; rewrite app_assoc_str.
Qed.

Lemma listing_insert (dir name : string) (n : node) (f : fs) :
  plain name -> listing dir (<[child dir name := n]> f) ≡ₚ (name, n) :: listing dir (delete (child dir name) f).
Proof.
  intros Hp. unfold listing. rewrite <- insert_delete_eq, map_to_list_insert by apply lookup_delete_eq.
  cbn [omap list_omap]. unfold below at 1. cbn [fst snd]. by rewrite name_below_child.
Qed.

Lemma listing_elem (dir name : string) (n : node) (f : fs) :
  (name, n) ∈ listing dir f -> f !! child dir name = Some n.
Proof.
  unfold listing. rewrite list_elem_of_omap. intros ([path n'] & Hin & Hb). unfold below in Hb. cbn [fst snd] in Hb.
  destruct (name_below dir path) as [name'|] eqn:E; [|done]. injection Hb as -> ->.
  apply name_below_Some in E as ->. by apply elem_of_map_to_list in Hin.
Qed.

(** ** Uploads *)

#[export] Instance package_before_total : Total package_before.
Proof. intros a b. unfold package_before. destruct (String.leb_total (Filename a) (Filename b)); auto. Qed.

Lemma last_char (s t : string) (a b : ascii) :
  s ++ String a EmptyString = t ++ String b EmptyString -> a = b.
Proof.
  revert t. induction s as [|c s IH]; intros [|d t] E; cbn in E.
  - congruence.
  - by destruct t.
  - by destruct s.
  - injection E as _ E. by eapply IH.
Qed.

(** No distribution is named like a record. *)
Lemma safe_not_json (name : string) : safeDistributionFilename (name ++ ".json") = false.
Proof.
  unfold safeDistributionFilename. destruct (_ || _ || _); [done|].
  assert (forall suffix c, c <> "n"%char -> HasSuffix (name ++ ".json") (suffix ++ String c EmptyString) = false) as H.
  { intros suffix c Hc. apply not_true_iff_false. intros [p E]%HasSuffix_spec. apply Hc. symmetry.
    apply (last_char (name ++ ".jso") (p ++ suffix)). by rewrite !app_assoc_str. }
  pose proof (H ".wh" "l"%char ltac:(done)) as H1. pose proof (H ".tar.g" "z"%char ltac:(done)) as H2.
  pose proof (H ".zi" "p"%char ltac:(done)) as H3. cbn [String.append] in H1, H2, H3. by rewrite H1, H2, H3.
Qed.

Lemma record_of (dir name : string) : child dir name ++ ".json" = child dir (name ++ ".json").
Proof. unfold child. by rewrite !app_assoc_str. Qed.

Lemma record_name_other (name : string) : name ++ ".json" <> name.
Proof. intros E. apply (f_equal String.length) in E. rewrite length_app_str in E. cbn in E. lia. Qed.

Lemma record_plain (name : string) : plain name -> plain (name ++ ".json").
Proof.
  intros (H1 & H2 & H3 & H4). split_and!; [by destruct name| | |by rewrite contains_byte_app, H4].
  all: intros E; apply (f_equal String.length) in E; rewrite length_app_str in E; cbn in E; lia.
Qed.

Section Uploaded.
Context (io : oracle) (localPath project filename : string).
Let dir := child localPath project.
Hypothesis Hdir : clean_dir localPath.
Hypothesis Hproject : canonical project = true.
Hypothesis Hfilename : safeDistributionFilename filename = true.
Hypothesis Hreads : reads_ok io.

Lemma directory_of_project : localProjectPath localPath project = dir /\ clean_dir dir.
Proof.
  pose proof (canonical_plain _ Hproject) as Hp. split; [by apply Join_child|by apply clean_dir_child].
Qed.

Lemma read_file (path : string) (f0 : fs) :
  ReadFile io path f0 = match f0 !! path with Some n => Ok (data n) | None => Err ErrNotExist end.
Proof.
  destruct (Hreads path) as (H1 & H2 & _). unfold ReadFile, Open, guard_call, existing. rewrite H1.
  destruct (f0 !! path); [by rewrite H2|done].
Qed.

(** An entry reads its own two files only. *)
Lemma local_entry_read (name : string) (n : node) (f0 : fs) : safeDistributionFilename name = true ->
  is_dir n || HasSuffix name ".json" = false ->
  local_entry io dir f0 (name, n)
  = match f0 !! child dir (name ++ ".json"), f0 !! child dir name with
    | Some r, _ => match unmarshalPackage (data r) with Some pkg => Ok (Some pkg) | None => Err IndexDecode end
    | None, Some b => Ok (Some (mkLocalPackage name (sha256_hex (data b)) (len (data b)) EmptyString zeroTime))
    | None, None => Err IndexRead
    end.
Proof.
  intros Hs Hj. unfold local_entry. rewrite Hj, Hs. cbn [negb orb]. destruct directory_of_project as [_ Hd].
  pose proof (safe_plain _ Hs) as Hp. pose proof (record_plain _ Hp).
  rewrite (Join_child dir name), (Join_child dir (name ++ ".json")), !read_file by done.
  by destruct (f0 !! child dir (name ++ ".json")), (f0 !! child dir name).
Qed.

Lemma local_entry_other (name : string) (n : node) (f0 f1 : fs) :
  (safeDistributionFilename name = true ->
   f0 !! child dir name = f1 !! child dir name
   /\ f0 !! child dir (name ++ ".json") = f1 !! child dir (name ++ ".json")) ->
  local_entry io dir f0 (name, n) = local_entry io dir f1 (name, n).
Proof.
  intros H. destruct (safeDistributionFilename name) eqn:Hs.
  2:{ unfold local_entry. by rewrite Hs, orb_true_r. }
  destruct (is_dir n || HasSuffix name ".json") eqn:Hj.
  { unfold local_entry. by rewrite Hj. }
  destruct (H eq_refl) as [E1 E2]. by rewrite !local_entry_read, E1, E2.
Qed.

(** A record is no distribution of its own. *)
Lemma local_entry_record (name : string) (n : node) (f0 : fs) :
  local_entry io dir f0 (name ++ ".json", n) = Ok None.
Proof.
  unfold local_entry. rewrite (proj2 (HasSuffix_spec _ _)) by (by exists name). by destruct (is_dir n).
Qed.

Section Files.
Context (f : fs) (n r : node) (pkg : localPackage) (before : list localPackage).
Let target := child dir filename.
Let record := child dir (filename ++ ".json").
Let f' := <[record := r]> (<[target := n]> f).
Hypothesis Hfree : f !! target = None.
Hypothesis Hregular : is_regular n = true.
Hypothesis Hrecord : unmarshalPackage (data r) = Some pkg.

Lemma record_not_target : record <> target.
Proof. intros E%child_inj. by eapply record_name_other. Qed.

(** The other entries, as they were. *)
Lemma others_listed (e : string * node) :
  e ∈ listing dir (delete record f) -> local_entry io dir f' e = local_entry io dir f e.
Proof.
  destruct e as [name m]. intros He%listing_elem. apply local_entry_other. intros Hs.
  assert (name <> filename) as Hn.
  { intros ->. fold target in He. by rewrite lookup_delete_ne, Hfree in He by apply record_not_target. }
  assert (forall x, x <> filename -> x <> filename ++ ".json" -> f' !! child dir x = f !! child dir x) as Hx.
  { intros x H1 H2. unfold f'. rewrite !lookup_insert_ne; [done|intros E%child_inj; congruence..]. }
  split; apply Hx.
  - done.
  - intros ->. by rewrite safe_not_json in Hs.
  - intros E. by rewrite <- E, safe_not_json in Hfilename.
  - intros E. apply Hn. by apply app_inj_r in E.
Qed.

Lemma new_entry : local_entry io dir f' (filename, n) = Ok (Some pkg).
Proof.
  rewrite local_entry_read; [|done|].
  - unfold f'. rewrite lookup_insert_eq. by rewrite Hrecord.
  - unfold is_regular, is_dir in *. destruct (nkind n); [cbn|done..]. apply not_true_iff_false.
    intros [x E]%HasSuffix_spec. by rewrite E, safe_not_json in Hfilename.
Qed.

(** Storing a distribution and its record adds it to the index. *)
Lemma index_grows :
  localPackages io localPath project f = Ok before ->
  exists after, localPackages io localPath project f' = Ok after /\ Sorted package_before after
    /\ after ≡ₚ pkg :: before.
Proof.
  unfold localPackages. destruct directory_of_project as [-> _].
  destruct (io CReadDir dir) eqn:Eio; [|unfold ReadDir; by rewrite Eio].
  destruct (ReadDir_listing io dir f Eio) as (l & -> & Hl), (ReadDir_listing io dir f' Eio) as (l' & -> & Hl').
  destruct (local_entries io dir f l) as [pkgs|] eqn:El; [|done]. intros [= <-].
  pose proof (safe_plain _ Hfilename) as Hp. pose proof (record_plain _ Hp) as Hpr.
  assert (listing dir f' ≡ₚ (filename ++ ".json", r) :: (filename, n) :: listing dir (delete record f)) as E'.
  { etrans; [exact (listing_insert dir _ r _ Hpr)|]. constructor. fold record.
    rewrite delete_insert_ne by apply record_not_target.
    etrans; [exact (listing_insert dir _ n _ Hp)|]. constructor. fold target.
    by rewrite (delete_id (delete record f)) by (by rewrite lookup_delete_ne by apply record_not_target). }
  assert (exists rest, local_entries io dir f (listing dir (delete record f)) = Ok rest /\ rest ≡ₚ pkgs)
    as (rest & Hrest & Hperm).
  { destruct (local_entries_perm io dir f l (listing dir f) pkgs Hl El) as (q & Hq & Pq).
    destruct (f !! record) as [r0|] eqn:E0; [|exists q; by rewrite delete_id].
    rewrite <- (insert_id f record r0 E0) in Hq at 2.
    destruct (local_entries_perm io dir f _ _ _ (listing_insert dir _ r0 f Hpr) Hq) as (q' & Hq' & Pq').
    apply local_entries_inv in Hq' as (o & rest & Ho & Hr & ->). rewrite local_entry_record in Ho.
    injection Ho as <-. exists rest. split; [done|]. by rewrite <- Pq, <- Pq'. }
  rewrite <- (local_entries_ext io dir f' f) in Hrest by apply others_listed.
  destruct (local_entries_perm io dir f' _ l' (pkg :: rest) (symmetry (transitivity Hl' E'))) as (after & Ha & Pa).
  { rewrite (local_entries_cons _ _ _ _ _ None (pkg :: rest)); [done|apply local_entry_record|].
    by rewrite (local_entries_cons _ _ _ _ _ (Some pkg) rest); [|apply new_entry|]. }
  rewrite Ha. eexists. split_and!; [done|apply Sorted_merge_sort, _|].
  by rewrite !merge_sort_Permutation, Pa, Hperm.
Qed.

End Files.
End Uploaded.

(** ** Uploads *)

Lemma hex_utf8 (text : string) : utf8 (sha256_hex text).
Proof.
  apply ascii_utf8. unfold is_ascii. eapply str_forall_impl; [|apply hex_text_chars, Sum256_range].
  by intros c [_ [_ H]%andb_true_iff]%andb_true_iff.
Qed.

Section Stored.
Context (env : PutEnv) (localPath project filename requiresPython : string) (src : Source) (f : fs).
Hypothesis Hdir : clean_dir localPath.
Hypothesis Hsuffix : suffix_ok (bodySuffix env).
Hypothesis Hremove : forall path, io env CRemove path = true.
Hypothesis Hclock : between 0 9999 (year_of (clock env)) = true.
Hypothesis Hlen : len (content src) <= maxInt64.
Hypothesis Hfresh : f !! child (child localPath project) (".upload-" ++ bodySuffix env) = None.

Abbreviation pkg := (new_package env filename requiresPython src).

Lemma new_package_listable : utf8 filename -> utf8 requiresPython -> listable pkg.
Proof.
  intros Hf Hr. split; cbn [Size UploadedAt Filename Hash RequiresPython new_package].
  - unfold len in *. int64_lia.
  - unfold between in Hclock. split_bool. lia.
  - split_and!; [done|apply hex_utf8|done].
Qed.


End Stored.
