(* ===== verification/PyPi.v ===== *)
(** * The PyPI proxy: [internal/pypiproxy]

    The request handler over the monad of [Handler]; logging is left out.  The HTML
    parser of [golang.org/x/net/html] is a parameter: what it returns is a tree of nodes
    of which the code reads the element names and the attributes. *)

From S2P Require Import Prelude GoStrings FilePath Sha256 Url Http HttpPolicy Time Json Metadata Fs Store PyPiText LocalPackages Handler.
From S2P Require Storage.
From Stdlib Require Import Ascii String.
Local Open Scope string_scope.
Local Open Scope Z_scope.

Definition maxSimpleBytes : Z := Z.shiftl 64 20.

(** ** HTML *)

Record Attribute := mkAttribute { attr_namespace : string; Key : string; Val : string }.

(** [payload] is what the code does not look at. *)
Inductive Node (payload : Type) : Type :=
  mkNode (p : payload) (element : bool) (data : string) (attr : list Attribute) (children : list (Node payload)).
Arguments mkNode {payload} p element data attr children.

Class HtmlLib := {
  payload : Type;
  html_Parse : string -> option (Node payload);
  html_Render : Node payload -> option string
}.

(** ** The proxy *)

(** What [Options] configures, less the store, the client and the logger. *)
Record Options := mkOptions {
  OptName : string;
  OptPath : string;
  OptUpstream : string;
  OptPublicBaseURL : string;
  OptTTL : Z;
  OptForwardAuthorization : bool;
  OptPublishToken : string;
  OptAllowedFileOrigins : list string;
  OptLocalPath : string
}.

Record Proxy := mkProxy {
  name : string;
  path : string;
  filePath : string;
  uploadPath : string;
  packagePath : string;
  upstream : URL;
  proxySimpleBaseURL : string;
  proxyFileBaseURL : string;
  proxyPackageBaseURL : string;
  ttl : Z;
  forwardAuthorization : bool;
  publishToken : string;
  allowedFileOrigins : gset string;
  localPath : string
}.

Inductive new_error := ParseUpstream | BadPath | MissingLocalPath | CreateLocal | BadOrigin (origin : string).

Definition absolute (u : URL) : bool := nonempty (Scheme u) && nonempty (Host u).

Fixpoint allow_origins (origins : list string) (allowed : gset string) : result new_error (gset string) :=
  match origins with
  | [] => Ok allowed
  | origin :: origins =>
      match Parse origin with
      | Some parsed =>
          if absolute parsed then allow_origins origins ({[ originKey parsed ]} ∪ allowed)
          else Err (BadOrigin origin)
      | None => Err (BadOrigin origin)
      end
  end.

Definition New (io : oracle) (options : Options) : result new_error Proxy :=
  match Parse (OptUpstream options) with
  | None => Err ParseUpstream
  | Some upstream =>
      if negb (absolute upstream) then Err ParseUpstream
      else if negb (HasSuffix (OptPath options) "/simple/") then Err BadPath
      else
        let prefix := TrimSuffix (OptPath options) "simple/" in
        let filePath := prefix ++ "files/" in
        let uploadPath := prefix ++ "legacy/" in
        let packagePath := prefix ++ "packages/" in
        if nonempty (OptPublishToken options) && (OptLocalPath options =? EmptyString)%string
        then Err MissingLocalPath
        else if nonempty (OptLocalPath options) && negb (io CMkdirAll (OptLocalPath options))
        then Err CreateLocal
        else match allow_origins (OptAllowedFileOrigins options) {[ originKey upstream ]} with
        | Err e => Err e
        | Ok allowed =>
            let public := TrimRight (OptPublicBaseURL options) "/" in
            Ok (mkProxy (OptName options) (OptPath options) filePath uploadPath packagePath upstream
                  (public ++ TrimSuffix (OptPath options) "/") (public ++ TrimSuffix filePath "/")
                  (public ++ TrimSuffix packagePath "/") (OptTTL options) (OptForwardAuthorization options)
                  (OptPublishToken options) allowed (OptLocalPath options))
        end
  end.

(** The multipart form of an upload, as [net/http] parses it. *)
Record Form := mkForm { FormValue : string -> string; FormFile : option (string * Source) }.

Section Proxy.
Context {codec : MetadataCodec} {html : HtmlLib} (p : Proxy).

Definition FilePath : string := filePath p.
Definition UploadPath : string := uploadPath p.
Definition PackagePath : string := packagePath p.

Definition Snapshot (c : counters) (s : Store) : Handler.Snapshot :=
  snapshot_of (name p) "pypi" (path p) (upstream p) c s.

Definition SetupSnippet : string :=
  "python -m pip install --index-url " ++ proxySimpleBaseURL p ++ "/ PACKAGE" ++ newline
  ++ "uv pip install --index-url " ++ proxySimpleBaseURL p ++ "/ PACKAGE" ++ newline.

Definition cacheKey (kind : string) (target : URL) (accept sha256 : string) : string :=
  name p ++ newline ++ kind ++ newline ++ URL_String target ++ newline ++ "accept:" ++ accept
  ++ newline ++ "sha256:" ++ sha256.

Definition href (raw : string) (pageURL : URL) : string :=
  rewriteHref (proxySimpleBaseURL p) (proxyFileBaseURL p) (upstream p) (allowedFileOrigins p) raw pageURL.

Definition rewrite_attr (pageURL : URL) (a : Attribute) : Attribute :=
  if EqualFold (Key a) "href" then mkAttribute (attr_namespace a) (Key a) (href (Val a) pageURL) else a.

Fixpoint rewriteHTMLNode (node : Node payload) (pageURL : URL) : Node payload :=
  let '(mkNode rest element data attr children) := node in
  mkNode rest element data
    (if element && (data =? "a")%string then map (rewrite_attr pageURL) attr else attr)
    (map (fun child => rewriteHTMLNode child pageURL) children).

Definition rewriteSimple (body contentType : string) (pageURL : URL) : option string :=
  if isJSON contentType then
    rewriteJSON (proxySimpleBaseURL p) (proxyFileBaseURL p) (upstream p) (allowedFileOrigins p) body pageURL
  else if isHTML contentType then
    document ← html_Parse body; html_Render (rewriteHTMLNode document pageURL)
  else Some body.

Definition localPackageURL (project : string) (pkg : localPackage) : string :=
  proxyPackageBaseURL p ++ "/" ++ PathEscape project ++ "/" ++ PathEscape (Filename pkg)
  ++ "#sha256=" ++ Hash pkg.

Section Request.
Context (env : Env) (request : Request) (url : URL).

Definition fail (status : Z) (message : string) (err : error) : M unit :=
  if canceledBy env err then count ClientCanceled
  else
    _ ← count Errors;
    http_Error env message status.

Definition recordStreamError (err : error) : M unit :=
  if canceledBy env err then count ClientCanceled else count Errors.

Definition is_head : bool := (Method request =? "HEAD")%string.

Definition serveHit (entry : Entry) : M unit :=
  let m := EntryMetadata entry in
  _ ← copy_headers (order env Copying (Header_ m));
  _ ← set_header "X-N0ding-Cache" "HIT";
  _ ← set_header "Age" (age_of env m);
  _ ← set_header "Content-Length" (FormatInt (ContentBytes m));
  _ ← WriteHeader (Status m);
  if is_head then mret tt
  else _ ← copy_body env (entry_source env entry); mret tt.

Definition lookup (at_ : moment) (key : string) : M (option Entry) :=
  r ← store_Lookup env at_ key (ttl p); mret (found_entry r).

Definition try_hit (at_ : moment) (key : string) : M bool :=
  found ← lookup at_ key;
  match found with
  | Some entry =>
      _ ← count Hits;
      _ ← serveHit entry;
      mret true
  | None => mret false
  end.

Definition serveCached (key : string) (cacheable : bool) (serveMiss : M unit) : M unit :=
  served ← (if cacheable then try_hit FirstLookup key else mret false);
  if served : bool then mret tt
  else
    _ ← others_run env SecondLookup;
    served ← (if cacheable then try_hit SecondLookup key else mret false);
    if served : bool then mret tt
    else
      _ ← count Misses;
      serveMiss.

Definition upstreamRequest (target : URL) : result error Request :=
  match NewRequest (Method request) (URL_String target) with
  | Err e => Err e
  | Ok r =>
      let h := ForwardRequestHeaders (ReqHeader r) (ReqHeader request)
                 (order env Forwarding (ReqHeader request)) (forwardAuthorization p) in
      Ok (set_req_header (Set_ h "Accept-Encoding" "identity") r)
  end.

Definition doUpstream (target : URL) : M (result error Response) :=
  match upstreamRequest target with
  | Err e => mret (Err e)
  | Ok r => Do env r
  end.

Definition proxyFailure (err : error) : M unit :=
  fail (if is_Some_b (contextErr env) then 499 else 502) "upstream request failed" err.

(** [verifier] is what the factory makes of the hasher of the streamed body. *)
Definition streamResponse (response : Response) (headers cacheHeaders : Header) (key : string)
    (cacheable : bool) (contentDigest : string) (verifier : option (Z -> bool)) : M unit :=
  _ ← copy_headers (order env Copying headers);
  _ ← WriteHeader (StatusCode response);
  if is_head then mret tt
  else if cacheable then
    err ← store_PutStreamVerified env key (new_metadata (StatusCode response) cacheHeaders contentDigest)
            (RespBody response) verifier;
    match err with
    | Some e => recordStreamError (put_failure response e)
    | None => mret tt
    end
  else _ ← copy_body env (RespBody response); mret tt.

Definition miss_headers (response : Response) : Header :=
  let headers := ResponseHeaders (RespHeader response) (order env Responding (RespHeader response)) in
  Set_ (Del headers "Content-Encoding") "X-N0ding-Cache" "MISS".

Definition storage_allowed (cacheable : bool) (response : Response) (vary : list string) : bool :=
  cacheable && (Method request =? "GET")%string && (StatusCode response =? 200)
  && ResponseAllowsStorage (ReqHeader request) (RespHeader response) vary.

Definition serveSimpleMiss (target : URL) (key : string) (cacheable : bool) : M unit :=
  answer ← doUpstream target;
  match answer with
  | Err e => proxyFailure e
  | Ok response =>
      let headers := miss_headers response in
      let location := rewrittenLocation (Get headers "Location") target (upstream p) (proxySimpleBaseURL p) in
      let headers := if nonempty location then Set_ headers "Location" location else headers in
      let cacheable := storage_allowed cacheable response ["Accept"; "Accept-Encoding"] in
      let cacheHeaders := CacheMetadataHeaders headers (order env Persisting headers) in
      let contentType := Get (RespHeader response) "Content-Type" in
      if negb (isHTML contentType) && negb (isJSON contentType) then
        streamResponse response headers cacheHeaders key cacheable EmptyString None
      else
        let '(body, rest) := ReadLimited (maxSimpleBytes + 1) (RespBody response) in
        match body with
        | None => fail 502 "could not read upstream PyPI metadata" (BodyError response)
        | Some body =>
            if maxSimpleBytes <? Z.of_nat (String.length body) then
              _ ← copy_headers (order env Copying (Del headers "Content-Length"));
              _ ← WriteHeader (StatusCode response);
              if negb is_head then _ ← copy_body env (multi_reader body rest); mret tt else mret tt
            else match rewriteSimple body contentType target with
            | None => fail 502 "could not rewrite PyPI metadata" (GoError EmptyString None)
            | Some rewritten =>
                let length := FormatInt (Z.of_nat (String.length rewritten)) in
                let headers := Set_ headers "Content-Length" length in
                let cacheHeaders := Set_ cacheHeaders "Content-Length" length in
                _ ← (if cacheable then
                       _ ← store_PutBytes env key (new_metadata (StatusCode response) cacheHeaders EmptyString)
                             rewritten;
                       mret tt
                     else mret tt);
                _ ← copy_headers (order env Copying headers);
                _ ← WriteHeader (StatusCode response);
                if negb is_head then write_once env rewritten else mret tt
            end
        end
  end.

Definition serveFileMiss (target : URL) (key expectedSHA256 : string) (cacheable : bool) : M unit :=
  answer ← doUpstream target;
  match answer with
  | Err e => proxyFailure e
  | Ok response =>
      let headers := miss_headers response in
      let cacheable := storage_allowed cacheable response ["Accept-Encoding"] in
      let cacheHeaders := CacheMetadataHeaders headers (order env Persisting headers) in
      let verifier :=
        if nonempty expectedSHA256
        then Some (fun _ : Z => (sha256_hex (content (RespBody response)) =? expectedSHA256)%string)
        else None in
      let contentDigest := if nonempty expectedSHA256 then "sha256:" ++ expectedSHA256 else EmptyString in
      streamResponse response headers cacheHeaders key cacheable contentDigest verifier
  end.

Definition cacheableRequest : bool :=
  (Get (ReqHeader request) "Range" =? EmptyString)%string
  && negb (RequestBypassesCache (ReqHeader request))
  && (negb (forwardAuthorization p) || (Get (ReqHeader request) "Authorization" =? EmptyString)%string).

Definition accept : string := Get (ReqHeader request) "Accept".

Definition serveFile : M unit :=
  match fileTargetURL (allowedFileOrigins p) url with
  | Err _ => fail 400 "invalid PyPI file URL" (GoError EmptyString None)
  | Ok (target, expectedSHA256) =>
      let key := cacheKey "file" target accept expectedSHA256 in
      serveCached key cacheableRequest (serveFileMiss target key expectedSHA256 cacheableRequest)
  end.

(** *** Private packages *)

Definition project_json (project : string) (packages : list localPackage) : json :=
  JObj [("files", JArr (map (fun pkg =>
           JObj ([("filename", JString (Filename pkg));
                  ("hashes", JObj [("sha256", JString (Hash pkg))])]
                 ++ omitempty "requires-python" (RequiresPython pkg)
                 ++ [("url", JString (localPackageURL project pkg))])) packages));
        ("meta", JObj [("api-version", JString "1.0")]);
        ("name", JString project)].

Definition dq : string := String quote EmptyString.

Definition project_link (project : string) (pkg : localPackage) : string :=
  "<a href=" ++ dq ++ htmlEscape (localPackageURL project pkg) ++ dq
  ++ (if nonempty (RequiresPython pkg)
      then " data-requires-python=" ++ dq ++ htmlEscape (RequiresPython pkg) ++ dq else EmptyString)
  ++ ">" ++ htmlEscape (Filename pkg) ++ "</a>" ++ newline.

Definition project_html (project : string) (packages : list localPackage) : string :=
  "<!doctype html><html><body>" ++ newline
  ++ String.concat EmptyString (map (project_link project) packages)
  ++ "</body></html>" ++ newline.

Definition serveLocalProject (project : string) (packages : list localPackage) : M unit :=
  _ ← set_header "Cache-Control" "no-store";
  _ ← set_header "X-N0ding-Cache" "LOCAL";
  if Contains accept "application/vnd.pypi.simple.v1+json" then
    _ ← set_header "Content-Type" "application/vnd.pypi.simple.v1+json";
    if is_head then mret tt
    else write_once env (encode (project_json project packages) ++ newline)
  else
    _ ← set_header "Content-Type" "application/vnd.pypi.simple.v1+html; charset=utf-8";
    if is_head then mret tt
    else write_once env (project_html project packages).

Definition local_packages (project : string) : M (result index_error (list localPackage)) := fun w =>
  (localPackages (ioAt env FirstLookup) (localPath p) project (files (cacheStore w)), w).

Definition serveUpstreamSimple : M unit :=
  match simpleTargetURL (path p) (upstream p) url with
  | None => fail 400 "invalid upstream URL" (parseError (URL_String url))
  | Some target =>
      let key := cacheKey "simple" target accept EmptyString in
      serveCached key cacheableRequest (serveSimpleMiss target key cacheableRequest)
  end.

Definition serveSimple : M unit :=
  let project := simpleProject (path p) (Url.Path url) in
  if nonempty project && nonempty (localPath p) then
    packages ← local_packages project;
    match packages with
    | Err _ => fail 500 "read private PyPI package index" (GoError EmptyString None)
    | Ok [] => serveUpstreamSimple
    | Ok packages => serveLocalProject project packages
    end
  else serveUpstreamSimple.

(** The project and the file a package URL names. *)
Definition local_file (requestPath : string) : option (string * string) :=
  let relative := TrimPrefix requestPath (packagePath p) in
  let '(escapedProject, escapedFilename, ok) := Cut relative "/" in
  if negb ok || Contains escapedFilename "/" then None
  else match PathUnescape escapedProject, PathUnescape escapedFilename with
  | Some project, Some filename =>
      if negb (normalizeProjectName project =? project)%string || negb (safeDistributionFilename filename)
      then None else Some (project, filename)
  | _, _ => None
  end.

Definition open_local (filename path : string) : M unit := fun w =>
  match Open (ioAt env FirstLookup) path (files (cacheStore w)) with
  | Err _ => NotFound env w
  | Ok info =>
      if negb (ioAt env FirstLookup CStat path) || negb (is_regular info) then NotFound env w
      else
        (_ ← count Hits;
         _ ← set_header "Content-Type" "application/octet-stream";
         _ ← set_header "X-N0ding-Cache" "LOCAL";
         modify (add_event (ServedFile filename (mtime info) (data info)))) w
  end.

Definition serveLocalFile : M unit :=
  if negb (Method request =? "GET")%string && negb is_head then
    _ ← set_header "Allow" "GET, HEAD";
    http_Error env "method not allowed" 405
  else match local_file (Url.Path url) with
  | None => NotFound env
  | Some (project, filename) =>
      open_local filename (filepath_Join [localProjectPath (localPath p) project; filename])
  end.

(** *** Uploads

    [form] is what parsing the body as a multipart form yields, if it succeeds. *)

Definition on_store {A : Type} (f : Store -> A * Store) : M A := fun w =>
  let '(a, s) := f (cacheStore w) in (a, set_store s w).

Definition on_files {A : Type} (f : fs -> A * fs) : M A :=
  on_store (fun s => let '(a, files) := f (files s) in (a, set_files files s)).

Inductive space := NoCapacity | NoRoom | Room (r : option Storage.Reservation).

(** The reservation for the announced length; without a controller none is needed. *)
Definition reserve_upload (contentLength : Z) (s : Store) : space * Store :=
  match controller s with
  | None => (Room None, s)
  | Some c =>
      match freeBytes (putEnv env) with
      | None => (NoCapacity, s)
      | Some free =>
          match Storage.Reserve c contentLength free with
          | (None, c) => (NoRoom, set_controller (Some c) s)
          | (Some r, c) => (Room (Some r), set_controller (Some c) s)
          end
      end
  end.

Definition commit_upload (r : option Storage.Reservation) (size : Z) (s : Store)
    : (bool * option Storage.Reservation) * Store :=
  let '(ok, r, s) := commit_reservation r size 0 s in ((ok, r), s).

Definition remove_upload (target : string) : M unit :=
  on_files (fun f =>
    let f := drop_file (putEnv env) target f in
    (tt, drop_file (putEnv env) (target ++ ".json") f)).

Definition storePackage (project filename requiresPython : string) (src : Source)
    : M (result local_error localPackage) :=
  _ ← others_run env Storing;
  on_files (storeLocalPackage (putEnv env) (localPath p) project filename requiresPython src).

(** From the parsed form on; what remains of the reservation is the result. *)
Definition receive_upload (form : option Form) (r : option Storage.Reservation)
    : M (option Storage.Reservation) :=
  match form with
  | None => _ ← fail 400 "invalid PyPI upload" (GoError EmptyString None); mret r
  | Some form =>
      let project := normalizeProjectName (FormValue form "name") in
      if (project =? EmptyString)%string then
        _ ← fail 400 "PyPI upload is missing package name" (GoError "missing name" None); mret r
      else match FormFile form with
      | None => _ ← fail 400 "PyPI upload is missing distribution content" (GoError EmptyString None); mret r
      | Some (filename, src) =>
          stored ← storePackage project filename (FormValue form "requires_python") src;
          match stored with
          | Err e =>
              let status := match e with AlreadyExists => 409 | _ => 400 end in
              _ ← fail status "could not store PyPI package" (GoError EmptyString None); mret r
          | Ok pkg =>
              '(committed, r) ← on_store (commit_upload r (Size pkg));
              if negb committed then
                _ ← remove_upload (filepath_Join [localProjectPath (localPath p) project; Filename pkg]);
                _ ← fail 507 "could not commit PyPI storage reservation"
                      (GoError "storage reservation commit failed" None);
                mret r
              else
                _ ← set_header "Content-Type" "text/plain; charset=utf-8";
                _ ← WriteHeader 201;
                _ ← write_once env ("stored " ++ Filename pkg ++ " sha256:" ++ Hash pkg ++ newline);
                mret r
          end
      end
  end.

Definition serveUpload (contentLength : Z) (form : option Form) : M unit :=
  if negb (Method request =? "POST")%string then
    _ ← set_header "Allow" "POST";
    http_Error env "method not allowed" 405
  else if negb (authorizedUpload (publishToken p) (Get (ReqHeader request) "Authorization")) then
    _ ← set_header "WWW-Authenticate" ("Basic realm=" ++ dq ++ "n0ding-pypi" ++ dq);
    http_Error env "upload authorization required" 401
  else
    room ← on_store (reserve_upload contentLength);
    match room with
    | NoCapacity => fail 507 "could not verify PyPI storage capacity" (GoError EmptyString None)
    | NoRoom => http_Error env "insufficient storage for PyPI upload" 507
    | Room r =>
        r ← receive_upload form r;
        on_store (fun s => (tt, Release r s))
    end.

Definition ServeHTTP (contentLength : Z) (form : option Form) : M unit :=
  _ ← count Requests;
  if (Url.Path url =? uploadPath p)%string then serveUpload contentLength form
  else if HasPrefix (Url.Path url) (packagePath p) then serveLocalFile
  else if negb (Method request =? "GET")%string && negb is_head then
    _ ← set_header "Allow" "GET, HEAD";
    http_Error env "method not allowed" 405
  else
    _ ← (if nonempty (Get (ReqHeader request) "Range") then count RangeRequests else mret tt);
    if HasPrefix (Url.Path url) (path p) then serveSimple
    else if HasPrefix (Url.Path url) (filePath p) then serveFile
    else NotFound env.

End Request.
End Proxy.
