(* ===== verification/PyPiTheorems.v ===== *)
(** * The PyPI proxy: theorems

    What a request that is no upload may send upstream and what it may store. *)

From S2P Require Import Prelude GoStrings FilePath Sha256 Url Origin Http HttpPolicy Time Metadata Fs Store StoreFacts StoreSystem StoreStream PyPiText PyPiTextFacts LocalPackages LocalPackagesFacts Handler HandlerFacts PyPi.
From S2P Require Storage.
From Stdlib Require Import Ascii String.
Local Open Scope string_scope.
Local Open Scope Z_scope.

Section Requests.
Context {codec : MetadataCodec} {html : HtmlLib} {company : Elsewhere} (p : Proxy) (env : Env) (request : Request) (url : URL).

Abbreviation wants := (Get (ReqHeader request) "Accept").

(** ** What may be stored *)

(** A page: as it came, or with its links rewritten. *)
Definition page_body (target : URL) (response : Response) (body : string) : Prop :=
  let contentType := Get (RespHeader response) "Content-Type" in
  if isHTML contentType || isJSON contentType then
    exists raw, fst (ReadLimited (maxSimpleBytes + 1) (RespBody response)) = Some raw
      /\ rewriteSimple p raw contentType target = Some body
  else body = content (RespBody response).

Definition simple_put (response : Response) (q : Put) : Prop :=
  exists target, simpleTargetURL (path p) (upstream p) url = Some target
    /\ ResponseAllowsStorage (ReqHeader request) (RespHeader response) ["Accept"; "Accept-Encoding"] = true
    /\ putKey q = cacheKey p "simple" target wants EmptyString
    /\ ContentDigest (putMetadata q) = EmptyString
    /\ page_body target response (content (putSource q)).

Definition file_put (response : Response) (q : Put) : Prop :=
  exists target sha, fileTargetURL (allowedFileOrigins p) url = Ok (target, sha)
    /\ ResponseAllowsStorage (ReqHeader request) (RespHeader response) ["Accept-Encoding"] = true
    /\ putKey q = cacheKey p "file" target wants sha
    /\ ContentDigest (putMetadata q) = (if nonempty sha then "sha256:" ++ sha else EmptyString)
    /\ content (putSource q) = content (RespBody response).

(** The conditions under which the code lets a response into the cache. *)
Record storable (q : Put) : Prop := {
  st_method : Method request = "GET";
  st_range : Get (ReqHeader request) "Range" = EmptyString;
  st_fresh : RequestBypassesCache (ReqHeader request) = false;
  st_anonymous : forwardAuthorization p = false \/ Get (ReqHeader request) "Authorization" = EmptyString;
  st_response : exists response, StatusCode response = 200 /\ Status (putMetadata q) = 200
    /\ (simple_put response q \/ file_put response q)
}.

(** Where a request may go: to the index, or to a file at an allowed origin. *)
Definition target_of (target : URL) : Prop :=
  (simpleTargetURL (path p) (upstream p) url = Some target
   /\ Scheme target = Scheme (upstream p) /\ Host target = Host (upstream p))
  \/ (exists sha, fileTargetURL (allowedFileOrigins p) url = Ok (target, sha)
      /\ originKey target ∈ allowedFileOrigins p).

Definition event_ok (e : event) : Prop :=
  match e with
  | Sent r => Method r = Method request
      /\ (exists target, target_of target /\ upstreamRequest p env request target = Ok r /\ request_to target r)
      /\ forall k, forwarded (ReqHeader request) (forwardAuthorization p) k = false ->
           k <> "Accept-Encoding" -> ReqHeader r !! k = None
  | Putting q => storable q
  | ServedFile filename _ _ => HasPrefix (Url.Path url) (packagePath p) = true
      /\ exists project, local_file p (Url.Path url) = Some (project, filename)
  end.

(** ** Targets *)

(** What a target must be for a request to it to be one of [event_ok]. *)
Definition reachable_target (target : URL) : Prop := target_of target /\ located target.

Lemma simple_target_reachable (target : URL) :
  located (upstream p) -> simpleTargetURL (path p) (upstream p) url = Some target -> reachable_target target.
Proof.
  intros Hu Ht. pose proof Ht as Hs. unfold simpleTargetURL in Hs.
  destruct (Parse _) as [v|] eqn:Ep; [|done]. injection Hs as <-.
  destruct (located_join _ _ _ Hu Ep) as (Hl & H1 & H2). split; [|exact Hl]. left. by split_and!.
Qed.

Lemma file_target_reachable (target : URL) (sha : string) :
  fileTargetURL (allowedFileOrigins p) url = Ok (target, sha) -> reachable_target target.
Proof.
  intros Ht. destruct (file_target_facts _ _ _ _ Ht) as (_ & _ & _ & Ho & _ & Hl).
  split; [|done]. right. by exists sha.
Qed.

Lemma pypi_upstreamRequest_ok (target : URL) (r : Request) :
  reachable_target target -> Method request <> EmptyString ->
  upstreamRequest p env request target = Ok r -> event_ok (Sent r).
Proof.
  intros [Ht Hl] Hm Er. pose proof Er as E. unfold upstreamRequest in E.
  destruct (NewRequest _ _) as [r0|e] eqn:En; [|done]. injection E as E.
  destruct (NewRequest_Ok _ _ _ En) as [Eh Em]. split_and!.
  - subst r. by apply Em.
  - exists target. split_and!; [done|done|]. destruct (NewRequest_to _ _ _ Hl En) as (v & Hv & Hs).
    exists v. by subst r.
  - intros k Hf Hk. subst r. cbn [ReqHeader set_req_header]. rewrite Eh. by apply forwarded_dropped.
Qed.

(** ** What a handler does to the cache *)

Section Invariant.
Context (I : Store -> Prop) {HI : StoreInvariant env I} (Hu : located (upstream p)).

Abbreviation effects := (effects env event_ok I).
Abbreviation quiet := (effects_reply_only env event_ok I).

Lemma pypi_fail_effects (status : Z) (message : string) (err : error) : effects (fail env status message err).
Proof.
  unfold fail. destruct (canceledBy env err); [apply effects_count|].
  apply effects_bind; [apply effects_count|]. intros _. apply quiet. reply_only.
Qed.

Lemma pypi_recordStreamError_effects (err : error) : effects (recordStreamError env err).
Proof. unfold recordStreamError. destruct (canceledBy env err); apply effects_count. Qed.

Lemma pypi_serveHit_reply_only (entry : Entry) : ReplyOnly (serveHit env request entry).
Proof. unfold serveHit. reply_only. Qed.

Lemma pypi_try_hit_effects (at_ : moment) (key : string) : effects (try_hit p env request at_ key).
Proof.
  unfold try_hit, lookup. apply effects_bind; [apply effects_bind; [by apply effects_Lookup|]|].
  - intros r. apply quiet; reply_only.
  - intros [entry|]; [|apply quiet; reply_only]. apply effects_bind; [apply effects_count|intros _].
    apply effects_bind; [apply quiet, pypi_serveHit_reply_only|intros _]. apply quiet; reply_only.
Qed.

Lemma serveCached_effects (key : string) (cacheable : bool) (serveMiss : M unit) :
  effects serveMiss -> effects (serveCached p env request key cacheable serveMiss).
Proof.
  intros Hm. unfold serveCached.
  apply effects_bind; [destruct cacheable; [apply pypi_try_hit_effects|apply quiet; reply_only]|].
  intros [|]; [apply quiet; reply_only|]. apply effects_bind; [by apply effects_others|intros _].
  apply effects_bind; [destruct cacheable; [apply pypi_try_hit_effects|apply quiet; reply_only]|].
  intros [|]; [apply quiet; reply_only|]. by apply effects_bind; [apply effects_count|intros _].
Qed.

Lemma doUpstream_effects (target : URL) :
  reachable_target target -> Method request <> EmptyString -> effects (doUpstream p env request target).
Proof.
  intros Ht Hm. unfold doUpstream. destruct (upstreamRequest p env request target) as [r|e] eqn:Er;
    [by apply effects_Do, (pypi_upstreamRequest_ok target)|apply quiet; reply_only].
Qed.

(** A put of the response is one the policy allows, and honest about its digest. *)
Definition admissible (key digest : string) (response : Response) (verify : option (Z -> bool))
    (body : string -> Prop) : Prop :=
  forall s m entries src, ContentDigest m = digest -> Status m = StatusCode response -> body (content src) ->
    let q := mkPut s key m entries src verify in event_ok (Putting q) /\ put_digest (Putting q).

Lemma streamResponse_effects (response : Response) (headers cacheHeaders : Header) (key : string)
    (cacheable : bool) (digest : string) (verify : option (Z -> bool)) :
  (cacheable = true -> admissible key digest response verify (fun body => body = content (RespBody response))) ->
  effects (streamResponse env request response headers cacheHeaders key cacheable digest verify).
Proof.
  intros Ha. unfold streamResponse. do 2 (apply effects_bind; [apply quiet; reply_only|intros _]).
  destruct (is_head request); [apply quiet; reply_only|]. apply effects_if; intros Hc; [|apply quiet; reply_only].
  apply effects_bind; [|intros [e|]; [apply pypi_recordStreamError_effects|apply quiet; reply_only]].
  apply effects_PutStreamVerified; [done|]. intros s. by apply Ha.
Qed.

(** What [storage_allowed] and [cacheableRequest] check. *)
Lemma storable_of (cacheable : bool) (response : Response) (vary : list string) (q : Put) :
  storage_allowed request cacheable response vary = true ->
  (cacheable = true -> cacheableRequest p request = true) ->
  Status (putMetadata q) = StatusCode response ->
  (ResponseAllowsStorage (ReqHeader request) (RespHeader response) vary = true ->
   simple_put response q \/ file_put response q) -> storable q.
Proof.
  unfold storage_allowed, cacheableRequest. intros E Hc Hst Hq. split_str. specialize (Hc ltac:(done)). split_str.
  split; try done.
  - match goal with H : _ \/ _ |- _ => destruct H; split_str; [by left|by right] end.
  - exists response. split_and!; [done|congruence|auto].
Qed.

Lemma page_admissible (target : URL) (key : string) (cacheable : bool) (response : Response) :
  simpleTargetURL (path p) (upstream p) url = Some target -> key = cacheKey p "simple" target wants EmptyString ->
  (cacheable = true -> cacheableRequest p request = true) ->
  storage_allowed request cacheable response ["Accept"; "Accept-Encoding"] = true ->
  admissible key EmptyString response None (page_body target response).
Proof.
  intros Ht -> Hc Ha s m entries src Hd Hst Hb. split; [|by left].
  apply (storable_of cacheable response ["Accept"; "Accept-Encoding"]); [done..|].
  intros Hv. left. by exists target.
Qed.

Lemma serveSimpleMiss_effects (target : URL) (key : string) (cacheable : bool) :
  simpleTargetURL (path p) (upstream p) url = Some target -> key = cacheKey p "simple" target wants EmptyString ->
  (cacheable = true -> cacheableRequest p request = true) -> Method request <> EmptyString ->
  effects (serveSimpleMiss p env request target key cacheable).
Proof.
  intros Ht Hk Hc Hm. unfold serveSimpleMiss, proxyFailure.
  apply effects_bind; [apply doUpstream_effects; [by apply simple_target_reachable|done]|].
  intros [response|e]; [|apply pypi_fail_effects]. cbv zeta.
  pose proof (page_admissible target key cacheable response Ht Hk Hc) as Ha.
  set (ok := storage_allowed _ _ _ _) in *. clearbody ok. unfold page_body in Ha.
  destruct (isHTML _) eqn:Eh, (isJSON _) eqn:Ej; cbn [negb andb orb] in *; [..|by apply streamResponse_effects].
  all: destruct (ReadLimited _ _) as [[body|] rest] eqn:Er; [|apply pypi_fail_effects].
  all: destruct (maxSimpleBytes <? _); [apply quiet; reply_only|].
  all: destruct (rewriteSimple _ _ _ _) as [rewritten|] eqn:Ew; [|apply pypi_fail_effects].
  all: apply effects_bind; [|intros _; apply quiet; reply_only].
  all: apply effects_if; intros Hok; [|apply quiet; reply_only].
  all: apply effects_bind; [|intros _; apply quiet; reply_only].
  all: apply effects_PutBytes; [done|]; intros s; apply (Ha Hok); [done|done|].
  all: rewrite bytes_source_content; by exists body.
Qed.

(** A digest that was checked is the digest of what is stored. *)
Lemma expected_digest (text sha : string) : sha256_hex text = sha -> has_digest text ("sha256:" ++ sha).
Proof.
  intros <-. apply labelled_digest_lower.
Qed.

Lemma serveFileMiss_effects (target : URL) (key sha : string) (cacheable : bool) :
  fileTargetURL (allowedFileOrigins p) url = Ok (target, sha) -> key = cacheKey p "file" target wants sha ->
  (cacheable = true -> cacheableRequest p request = true) -> Method request <> EmptyString ->
  effects (serveFileMiss p env request target key sha cacheable).
Proof.
  intros Ht -> Hc Hm. unfold serveFileMiss, proxyFailure.
  apply effects_bind; [apply doUpstream_effects; [by apply (file_target_reachable _ sha)|done]|].
  intros [response|e]; [|apply pypi_fail_effects]. cbv zeta. apply streamResponse_effects.
  intros Ha s m entries src Hd Hst Hb. split.
  - apply (storable_of cacheable response ["Accept-Encoding"]); [done..|].
    intros Hv. right. by exists target, sha.
  - cbn [put_digest putMetadata putVerify putSource]. rewrite Hd, Hb. destruct (nonempty sha); [right|by left].
    intros [n Hn]. apply expected_digest. by apply String.eqb_eq.
Qed.

Lemma serveUpstreamSimple_effects : Method request <> EmptyString -> effects (serveUpstreamSimple p env request url).
Proof.
  intros Hm. unfold serveUpstreamSimple.
  destruct (simpleTargetURL _ _ _) as [target|] eqn:Ht; [|apply pypi_fail_effects].
  by apply serveCached_effects, serveSimpleMiss_effects.
Qed.

Lemma serveSimple_effects : Method request <> EmptyString -> effects (serveSimple p env request url).
Proof.
  intros Hm. unfold serveSimple. destruct (_ && _); [|by apply serveUpstreamSimple_effects].
  apply effects_bind; [intros w; exists []; rewrite app_nil_r; by split_and!|].
  intros [[|pkg pkgs]|e]; [by apply serveUpstreamSimple_effects| |apply pypi_fail_effects].
  apply quiet. unfold serveLocalProject. reply_only.
Qed.

Lemma serveFile_effects : Method request <> EmptyString -> effects (serveFile p env request url).
Proof.
  intros Hm. unfold serveFile.
  destruct (fileTargetURL _ _) as [[target sha]|e] eqn:Ht; [|apply pypi_fail_effects].
  by apply serveCached_effects, serveFileMiss_effects.
Qed.

Lemma open_local_effects (filename path : string) :
  event_ok (ServedFile filename 0 EmptyString) -> effects (open_local env filename path).
Proof.
  intros He w. unfold open_local. destruct (Open _ _ _) as [info|e]; [|by apply quiet, NotFound_reply_only].
  destruct (_ || _); [by apply quiet, NotFound_reply_only|]. revert w.
  apply effects_bind; [apply effects_count|intros _].
  do 2 (apply effects_bind; [apply quiet; reply_only|intros _]).
  intros w. eexists. split_and!; [reflexivity|by constructor|done].
Qed.

Lemma serveLocalFile_effects :
  HasPrefix (Url.Path url) (packagePath p) = true -> effects (serveLocalFile p env request url).
Proof.
  intros Hp. unfold serveLocalFile. destruct (_ && _); [apply quiet; reply_only|].
  destruct (local_file p (Url.Path url)) as [[project filename]|] eqn:El; [|apply quiet; reply_only].
  apply open_local_effects. split; [done|by exists project].
Qed.

Lemma pypi_ServeHTTP_effects (contentLength : Z) (form : option Form) :
  Url.Path url <> uploadPath p -> effects (ServeHTTP p env request url contentLength form).
Proof.
  intros Hup. unfold ServeHTTP. apply effects_bind; [apply effects_count|intros _].
  apply String.eqb_neq in Hup as ->.
  destruct (HasPrefix (Url.Path url) (packagePath p)) eqn:Hp; [by apply serveLocalFile_effects|].
  apply effects_if; intros Em; [apply quiet; reply_only|].
  assert (Method request <> EmptyString) as Hm by (intros E; unfold is_head in Em; by rewrite E in Em).
  apply effects_bind; [destruct (nonempty _); [apply effects_count|apply quiet; reply_only]|intros _].
  destruct (HasPrefix _ (path p)); [by apply serveSimple_effects|].
  destruct (HasPrefix _ (filePath p)); [by apply serveFile_effects|apply quiet; reply_only].
Qed.

End Invariant.

(** ** How often the upstream is asked *)

Lemma pypi_try_hit_sends (at_ : moment) (key : string) : sends 0 (try_hit p env request at_ key).
Proof. unfold try_hit, lookup, serveHit. sends_none. Qed.

Lemma doUpstream_sends (target : URL) : sends 1 (doUpstream p env request target).
Proof.
  unfold doUpstream. destruct (upstreamRequest _ _ _ _); [apply sends_Do|apply (sends_le 0); [lia|sends_none]].
Qed.

Lemma streamResponse_sends (response : Response) (headers cacheHeaders : Header) (key : string)
    (cacheable : bool) (digest : string) (verify : option (Z -> bool)) :
  sends 0 (streamResponse env request response headers cacheHeaders key cacheable digest verify).
Proof. unfold streamResponse, recordStreamError. sends_none. Qed.

Lemma serveSimpleMiss_sends (target : URL) (key : string) (cacheable : bool) :
  sends 1 (serveSimpleMiss p env request target key cacheable).
Proof.
  unfold serveSimpleMiss, proxyFailure, fail. apply (sends_bind 1 0); [apply doUpstream_sends|].
  intros [response|e]; [|sends_none]. cbv zeta. destruct (_ && _); [apply streamResponse_sends|sends_none].
Qed.

Lemma serveFileMiss_sends (target : URL) (key sha : string) (cacheable : bool) :
  sends 1 (serveFileMiss p env request target key sha cacheable).
Proof.
  unfold serveFileMiss, proxyFailure, fail. apply (sends_bind 1 0); [apply doUpstream_sends|].
  intros [response|e]; [apply streamResponse_sends|sends_none].
Qed.

Lemma serveCached_sends (key : string) (cacheable : bool) (serveMiss : M unit) :
  sends 1 serveMiss -> sends 1 (serveCached p env request key cacheable serveMiss).
Proof.
  intros Hm. unfold serveCached.
  apply (sends_bind 0 1); [destruct cacheable; [apply pypi_try_hit_sends|sends_none]|].
  intros [|]; [apply (sends_le 0); [lia|sends_none]|].
  apply (sends_bind 0 1); [apply sends_others_run|intros _].
  apply (sends_bind 0 1); [destruct cacheable; [apply pypi_try_hit_sends|sends_none]|].
  intros [|]; [apply (sends_le 0); [lia|sends_none]|].
  by apply (sends_bind 0 1); [apply sends_count|intros _].
Qed.

Lemma serveUpstreamSimple_sends : sends 1 (serveUpstreamSimple p env request url).
Proof.
  unfold serveUpstreamSimple. destruct (simpleTargetURL _ _ _); [apply serveCached_sends, serveSimpleMiss_sends|].
  apply (sends_le 0); [lia|]. unfold fail. sends_none.
Qed.

Lemma serveSimple_sends : sends 1 (serveSimple p env request url).
Proof.
  unfold serveSimple. destruct (_ && _); [|apply serveUpstreamSimple_sends].
  apply (sends_bind 0 1); [by apply sends_same|].
  intros [[|pkg pkgs]|e]; [apply serveUpstreamSimple_sends|..]; apply (sends_le 0); try lia;
    unfold fail, serveLocalProject; sends_none.
Qed.

Lemma serveFile_sends : sends 1 (serveFile p env request url).
Proof.
  unfold serveFile. destruct (fileTargetURL _ _) as [[? ?]|]; [apply serveCached_sends, serveFileMiss_sends|].
  apply (sends_le 0); [lia|]. unfold fail. sends_none.
Qed.

Lemma serveLocalFile_sends : sends 0 (serveLocalFile p env request url).
Proof.
  unfold serveLocalFile. destruct (_ && _); [sends_none|]. destruct (local_file _ _) as [[? ?]|]; [|sends_none].
  intros w. unfold open_local. destruct (Open _ _ _) as [info|e]; [|by apply sends_reply_only, NotFound_reply_only].
  destruct (_ || _); [by apply sends_reply_only, NotFound_reply_only|].
  rewrite !bind_run. unfold sent_count. cbn. rewrite List.filter_app, app_nil_r. lia.
Qed.

Lemma pypi_ServeHTTP_sends (contentLength : Z) (form : option Form) :
  Url.Path url <> uploadPath p -> sends 1 (ServeHTTP p env request url contentLength form).
Proof.
  intros Hup. unfold ServeHTTP. apply (sends_bind 0 1); [apply sends_count|intros _].
  apply String.eqb_neq in Hup as ->.
  destruct (HasPrefix _ (packagePath p)); [apply (sends_le 0); [lia|apply serveLocalFile_sends]|].
  destruct (_ && _); [apply (sends_le 0); [lia|sends_none]|].
  apply (sends_bind 0 1); [sends_none|intros _].
  destruct (HasPrefix _ (path p)); [apply serveSimple_sends|].
  destruct (HasPrefix _ (filePath p)); [apply serveFile_sends|apply (sends_le 0); [lia|sends_none]].
Qed.


End Requests.
