(* ===== verification/PyPiPrivate.v ===== *)
(** * The PyPI proxy: theorems about private packages

    A project with private packages is never looked up upstream; an uploaded
    distribution is served. *)

From S2P Require Import Prelude GoStrings FilePath Sha256 Url Escaping Origin Http HttpPolicy Time Json Metadata Fs Store StoreFacts StorePut StoreStream PyPiText PyPiTextFacts LocalPackages LocalPackagesFacts LocalIndex Handler HandlerFacts PyPi.
From S2P Require Storage.
From Stdlib Require Import Ascii String.
Local Open Scope string_scope.
Local Open Scope Z_scope.

Lemma write_all (text : string) : snd (record_write accepts_all EmptyString text) = text.
Proof. unfold record_write, accepts_all. rewrite Nat.min_id. apply substring_whole. Qed.

Section Private.
Context {codec : MetadataCodec} {html : HtmlLib} (p : Proxy) (env : Env) (request : Request) (url : URL).
Context (contentLength : Z) (form : option Form).

Abbreviation served w := (snd (ServeHTTP p env request url contentLength form w)).

(** ** The private index comes first *)

(** A request for a page of the index. *)
Record page_request : Prop := {
  pr_upload : Url.Path url <> uploadPath p;
  pr_package : HasPrefix (Url.Path url) (packagePath p) = false;
  pr_path : HasPrefix (Url.Path url) (path p) = true;
  pr_method : Method request = "GET" \/ Method request = "HEAD"
}.

Lemma page_request_served (w : World) :
  page_request ->
  exists w1, served w = snd (serveSimple p env request url w1)
    /\ cacheStore w1 = cacheStore w /\ events w1 = events w /\ reply w1 = reply w.
Proof.
  intros [H1 H2 H3 H4]. unfold ServeHTTP. rewrite bind_run. apply String.eqb_neq in H1 as ->. rewrite H2, H3.
  assert (negb (Method request =? "GET")%string && negb (is_head request) = false) as ->
    by (unfold is_head; by destruct H4 as [-> | ->]).
  rewrite bind_run. eexists. split; [reflexivity|]. by destruct (nonempty _).
Qed.

Lemma serveLocalProject_reply_only (project : string) (packages : list localPackage) :
  ReplyOnly (serveLocalProject p env request project packages).
Proof. unfold serveLocalProject. reply_only. Qed.

(** What the client of a listing gets: never to be cached, the packages as JSON or HTML. *)
Definition listed (project : string) (packages : list localPackage) (w' : World) : Prop :=
  let '(status, h, body) := final w' in
  status = 200 /\ Get h "Cache-Control" = "no-store" /\ Get h "X-N0ding-Cache" = "LOCAL"
  /\ (Method request = "HEAD" -> body = EmptyString)
  /\ (Method request = "GET" -> connection env = accepts_all ->
      body = if Contains (accept request) "application/vnd.pypi.simple.v1+json"
             then Json.encode (project_json p project packages) ++ newline
             else project_html p project packages).

Lemma serveLocalProject_listed (project : string) (packages : list localPackage) (w : World) :
  unsent (reply w) -> listed project packages (snd (serveLocalProject p env request project packages w)).
Proof.
  intros [Hs Hb]. unfold serveLocalProject, is_head, listed, final. rewrite !bind_run.
  generalize (Json.encode (project_json p project packages) ++ newline) as text_json.
  generalize (project_html p project packages) as text_html. intros text_html text_json.
  destruct (Contains _ _); rewrite bind_run; destruct (String.eqb_spec (Method request) "HEAD") as [Hm|Hm];
    unfold write_once; cbn; unfold send_head; cbn; rewrite Hs, ?Hb; cbn; split_and!;
    rewrite ?Get_Set; try done; try congruence.
  all: intros _ ->; apply write_all.
Qed.

(** C15: A project with private packages is answered from them alone, and so is one whose
    private index cannot be read: the request is never sent upstream, where somebody
    else may have published a package of that name, and nothing is cached. *)
Theorem private_index_shadows_upstream (w : World) (project : string) :
  page_request -> simpleProject (path p) (Url.Path url) = project -> project <> EmptyString ->
  localPath p <> EmptyString -> unsent (reply w) ->
  let index := localPackages (ioAt env FirstLookup) (localPath p) project (files (cacheStore w)) in
  index <> Ok [] ->
  events (served w) = events w /\ cacheStore (served w) = cacheStore w
  /\ match index with
     | Ok packages => listed project packages (served w)
     | Err _ => contextErr env = None -> exists h, sent (reply (served w)) = Some (500, h)
     end.
Proof.
  intros Hr Hp Hne Hl Hu index Hi. destruct (page_request_served w Hr) as (w1 & -> & Es & Ee & Er).
  rewrite <- Es, <- Ee. rewrite <- Er in Hu. unfold serveSimple. rewrite Hp.
  assert (nonempty project && nonempty (localPath p) = true) as -> by (unfold nonempty; by apply String.eqb_neq in Hne as ->, Hl as ->).
  rewrite bind_run. unfold local_packages. rewrite Es. fold index. cbn [fst snd].
  destruct index as [[|pkg pkgs]|e]; [done| |].
  - destruct (serveLocalProject_reply_only project (pkg :: pkgs) w1) as (E1 & _ & E2).
    split_and!; [done|congruence|]. by apply serveLocalProject_listed.
  - unfold fail. destruct (canceledBy _ _) eqn:Ec.
    { split_and!; [done|done|]. intros Hc. unfold canceledBy in Ec. by rewrite Hc in Ec. }
    rewrite bind_run. set (w2 := snd (count Errors w1)).
    destruct (http_Error_reply_only env "read private PyPI package index" 500 w2) as (E1 & _ & E2).
    split_and!; [by rewrite E2|by rewrite E1|]. intros _. eexists. unfold http_Error, write_once.
    rewrite !bind_run. destruct Hu as [Hu _]. cbn. unfold send_head. cbn. by rewrite Hu.
Qed.

(** ** Fetching a distribution *)

Lemma unescape_plain (s : string) : contains_byte "%" s = false -> PathUnescape s = Some s.
Proof.
  unfold PathUnescape. induction s as [|c s IH]; [done|]. cbn [contains_byte]. intros [Hc Hs]%orb_false_iff.
  cbn [unescape]. rewrite Hc, IH by done. done.
Qed.

(** The path of a listed link, decoded as the server decodes it, names the file. *)
Lemma local_file_of (project filename : string) :
  canonical project = true -> safeDistributionFilename filename = true -> contains_byte "%" filename = false ->
  local_file p (packagePath p ++ project ++ "/" ++ filename) = Some (project, filename).
Proof.
  intros Hp Hf Hc. unfold local_file. rewrite TrimPrefix_app.
  destruct (canonical_plain _ Hp) as (_ & _ & _ & Hps). destruct (safe_plain _ Hf) as (_ & _ & _ & Hfs).
  change (project ++ "/" ++ filename) with (project ++ String "/" filename).
  rewrite Cut_byte_app by exact Hps. cbn [negb orb].
  assert (Contains filename "/" = false) as -> by (by apply Contains_absent).
  rewrite unescape_plain by (apply canonical_chars in Hp; by eapply str_forall_absent). rewrite unescape_plain by done.
  rewrite canonical_fixed, String.eqb_refl, Hf by done. done.
Qed.

(** C16: A distribution that was uploaded is served to whoever follows its link, as it was
    sent, and counts as a hit, unless its name holds a percent sign. *)
Theorem uploaded_is_served (upload : PutEnv) (project filename requiresPython : string) (src : Source)
    (f : fs) (pkg : localPackage) (w : World) :
  clean_dir (localPath p) -> suffix_ok (bodySuffix upload) -> (forall path, io upload CRemove path = true) ->
  between 0 9999 (year_of (clock upload)) = true -> len (content src) <= maxInt64 ->
  f !! child (child (localPath p) project) (".upload-" ++ bodySuffix upload) = None ->
  storeLocalPackage upload (localPath p) project filename requiresPython src f
    = (Ok pkg, files (cacheStore w)) ->
  Url.Path url = packagePath p ++ project ++ "/" ++ filename -> Url.Path url <> uploadPath p ->
  contains_byte "%" filename = false -> Method request = "GET" \/ Method request = "HEAD" ->
  reads_ok (ioAt env FirstLookup) ->
  events (served w) = (events w ++ [ServedFile filename (clock upload) (content src)])%list
  /\ stats (served w) = bump Hits (bump Requests (stats w)) /\ Hash pkg = sha256_hex (content src).
Proof.
  intros Hdir Hsuffix Hremove Hclock Hlen Hfresh Hup Hpath Hnot Hpercent Hm Hio.
  pose proof (upload_all_or_nothing upload (localPath p) project filename requiresPython src f
    Hdir Hsuffix Hremove Hclock Hlen Hfresh) as H.
  rewrite Hup in H. destruct H as (-> & _ & _ & Hp & Hf & text & _ & Ef).
  unfold ServeHTTP. rewrite bind_run. apply String.eqb_neq in Hnot as ->.
  rewrite Hpath, (proj2 (HasPrefix_spec _ _)) by (by eexists). unfold serveLocalFile.
  assert (negb (Method request =? "GET")%string && negb (is_head request) = false) as ->
    by (unfold is_head; by destruct Hm as [-> | ->]).
  rewrite Hpath, local_file_of by done. unfold localProjectPath. rewrite distribution_path by done.
  set (target := child (child (localPath p) project) filename). set (w1 := snd (count Requests w)).
  assert (files (cacheStore w1) !! target = Some (Fs.mkNode Regular (content src) (clock upload))) as Et.
  { change (cacheStore w1) with (cacheStore w). rewrite Ef. unfold with_package. fold target.
    rewrite lookup_insert_ne; [by rewrite lookup_insert_eq|].
    unfold target. rewrite record_of. intros E%child_inj. by eapply record_name_other. }
  destruct (Hio target) as (H1 & _ & H3). unfold open_local, Open, guard_call, existing.
  rewrite H1, Et, H3. cbn [negb orb is_regular nkind]. rewrite !bind_run. by split_and!.
Qed.

End Private.
