(* ===== verification/PyPiOrder.v ===== *)
(** * Uploads keep a store in good order

    An upload, whatever of it fails, writes no file that belongs to a cache entry and
    leaves a budget that counts at least what it counted before. *)

From S2P Require Import Prelude GoStrings FilePath Url Http HttpPolicy Time Metadata Fs Store StoreFacts StoreOps StorePut StoreSystem PyPiText PyPiTextFacts LocalPackages LocalPackagesFacts LocalIndex Handler HandlerFacts Order PyPi PyPiTheorems.
From S2P Require Storage.
From Stdlib Require Import Ascii String.
Local Open Scope string_scope.
Local Open Scope Z_scope.

(** ** Names that are not those of cache files *)

(** Whether a name starts like the files of a cache entry, with 64 hexadecimal digits. *)
Definition looks_hashed (name : string) : bool :=
  (64 <=? String.length name)%nat && str_forall hex_byte_b (substring 0 64 name).

Lemma substring_head (s t : string) : substring 0 (String.length s) (s ++ t) = s.
Proof. induction s as [|c s IH]; cbn; [by destruct t|by rewrite IH]. Qed.

Lemma looks_hashed_spec (h t : string) : hash_ok h -> looks_hashed (h ++ t) = true.
Proof.
  intros (Hl & bs & Hb%hex_all). unfold looks_hashed. rewrite length_app_str, Hl.
  rewrite <- Hl, substring_head, Hb. rewrite Hl. apply andb_true_iff. split; [apply Nat.leb_le; lia|done].
Qed.

Lemma proper_child (dir name : string) : clean_dir dir -> plain name -> proper (child dir name).
Proof. intros Hd Hn. by exists dir, name. Qed.

Lemma unhashed_foreign (dir name : string) :
  clean_dir dir -> plain name -> looks_hashed name = false -> foreign (child dir name).
Proof.
  intros Hd Hn Hh d h Hd' Hok Hb. destruct (belongs_name _ d h Hd' Hok Hb) as (r & E & Hp).
  apply child_inj2 in E as [-> ->]; [|done..|apply Hn|apply Hp]. by rewrite looks_hashed_spec in Hh.
Qed.

Lemma substring_app (n : nat) (s t : string) :
  substring 0 n (s ++ t)
  = if (n <=? String.length s)%nat then substring 0 n s else s ++ substring 0 (n - String.length s) t.
Proof.
  revert n. induction s as [|c s IH]; intros [|n]; cbn [append substring String.length Nat.leb Nat.sub]; try done.
  - by destruct t.
  - rewrite IH. by destruct (n <=? String.length s)%nat.
Qed.

Lemma safe_not_hex (filename : string) :
  safeDistributionFilename filename = true -> str_forall hex_byte_b filename = false.
Proof.
  unfold safeDistributionFilename. destruct (_ || _ || _); [done|].
  intros [[[q ->]%HasSuffix_spec|[q ->]%HasSuffix_spec]%orb_true_iff|[q ->]%HasSuffix_spec]%orb_true_iff;
    rewrite str_forall_app; by apply andb_false_r.
Qed.

Lemma record_unhashed (filename : string) :
  safeDistributionFilename filename = true -> looks_hashed filename = false ->
  looks_hashed (filename ++ ".json") = false.
Proof.
  intros Hs%safe_not_hex Hh. unfold looks_hashed in *. rewrite substring_app.
  destruct (64 <=? String.length filename)%nat; cbn [andb] in *.
  - rewrite Hh. apply andb_false_r.
  - rewrite str_forall_app, Hs. apply andb_false_r.
Qed.

(** ** The files of an upload *)

Section Files.
Context {codec : MetadataCodec} (env : PutEnv) (localPath : string).
Context (Hdir : clean_dir localPath) (Hsuffix : suffix_ok (bodySuffix env)).

Lemma distribution_foreign (project filename : string) :
  canonical project = true -> safeDistributionFilename filename = true -> looks_hashed filename = false ->
  let target := child (child localPath project) filename in
  (proper target /\ foreign target) /\ (proper (target ++ ".json") /\ foreign (target ++ ".json")).
Proof.
  intros Hp Hf Hn target. pose proof (clean_dir_child _ _ Hdir (canonical_plain _ Hp)) as Hd.
  pose proof (safe_plain _ Hf) as Hpl. unfold target. rewrite record_of.
  assert (plain (filename ++ ".json")) as Hpr by by apply record_plain.
  split; (split; [by apply proper_child|apply unhashed_foreign]); try done. by apply record_unhashed.
Qed.

Lemma upload_keeps_entries (project filename requiresPython : string) (src : Source) (f : fs) :
  looks_hashed filename = false -> wf_files f ->
  let f' := snd (storeLocalPackage env localPath project filename requiresPython src f) in
  wf_files f' /\ forall q, f !! q = f' !! q \/ foreign q.
Proof.
  intros Hn Hwf f'. destruct (canonical project && safeDistributionFilename filename) eqn:Hok.
  2:{ assert (f' = f) as ->; [|by split; [|left]]. unfold f', storeLocalPackage.
      destruct (String.eqb_spec project EmptyString) as [|Hne]; [done|]. cbn [orb].
      assert (negb (normalizeProjectName project =? project)%string = negb (canonical project)) as ->.
      { f_equal. apply eq_true_iff_eq. rewrite String.eqb_eq. by apply normalized_fixed. }
      rewrite <- negb_andb, Hok. done. }
  apply andb_true_iff in Hok as [Hp Hf]. destruct (distribution_foreign project filename Hp Hf Hn) as [[T1 T2] [R1 R2]].
  set (target := child (child localPath project) filename) in *.
  set (temp := child (child localPath project) (".upload-" ++ bodySuffix env)).
  assert (plain (".upload-" ++ bodySuffix env)) as Hpt by (split_and!; done).
  pose proof (clean_dir_child _ _ Hdir (canonical_plain _ Hp)) as Hd.
  assert (proper temp /\ foreign temp) as [M1 M2].
  { split; [by apply proper_child|]. apply unhashed_foreign; [done|done|]. unfold looks_hashed.
    cbn [append substring str_forall]. apply andb_false_r. }
  assert (forall q, q <> target -> q <> target ++ ".json" -> q <> temp -> f' !! q = f !! q) as Ho.
  { intros q. by apply stored_others. }
  split.
  - intros q Hq. destruct (decide (q = target)) as [->|]; [done|]. destruct (decide (q = target ++ ".json")) as [->|]; [done|].
    destruct (decide (q = temp)) as [->|]; [done|]. apply Hwf. by rewrite <- Ho.
  - intros q. destruct (decide (q = target)) as [->|]; [by right|]. destruct (decide (q = target ++ ".json")) as [->|]; [by right|].
    destruct (decide (q = temp)) as [->|]; [by right|]. left. by rewrite Ho.
Qed.

Lemma drop_keeps_entries (path : string) (f : fs) :
  foreign path -> wf_files f -> wf_files (drop_file env path f) /\ forall q, f !! q = drop_file env path f !! q \/ foreign q.
Proof.
  intros Hp Hwf. split.
  - intros q [n Hq]. apply Hwf. unfold drop_file, os_Remove, guard_call in Hq.
    destruct (io env CRemove path); [|by eexists]. destruct (f !! path); [|by eexists].
    cbn in Hq. apply lookup_delete_Some in Hq as [_ Hq]. by eexists.
  - intros q. destruct (decide (q = path)) as [->|]; [by right|left]. by rewrite drop_file_other.
Qed.

End Files.

(** ** The whole request *)

Section Upload.
Context {codec : MetadataCodec} {html : HtmlLib} {company : Elsewhere} (top : string).
Context (p : Proxy) (env : Env) (request : Request) (url : URL) (contentLength : Z) (form : option Form).

(** What an upload needs: a usable suffix, a length that is an [int64], and a distribution
    that is not named like the files of the cache. *)
Record upload_apart : Prop := {
  ua_suffix : suffix_ok (bodySuffix (putEnv env));
  ua_length : contentLength <= maxInt64;
  ua_name : forall values filename src, form = Some values -> FormFile values = Some (filename, src) ->
    looks_hashed filename = false
}.

Context (Henv : orderly_env top env) (Hdir : clean_dir (localPath p)) (Hua : upload_apart).

Abbreviation keeps := (effects env (fun _ => True) (orderly top)).
Abbreviation reply_keeps := (effects_reply_only env (fun _ => True) (orderly top)).

Lemma keeps_on_store {A : Type} (f : Store -> A * Store) :
  (forall s, orderly top s -> orderly top (snd (f s))) -> keeps (on_store f).
Proof.
  intros H w. unfold on_store. specialize (H (cacheStore w)). destruct (f (cacheStore w)) as [a s].
  exists []. rewrite app_nil_r. split_and!; [done|done|]. intros Hs _. by apply H.
Qed.

Lemma keeps_others (at_ : moment) : keeps (others_run env at_).
Proof. apply effects_others_run, (oe_others _ _ Henv). Qed.

Lemma keeps_on_files {A : Type} (f : fs -> A * fs) :
  (forall files, wf_files files -> wf_files (snd (f files)) /\ forall q, files !! q = snd (f files) !! q \/ foreign q) ->
  keeps (on_files f).
Proof.
  intros H. apply keeps_on_store. intros s Hs. destruct (H (files s) (ok_wf _ (od_ok _ _ Hs))) as [Hwf Hq].
  destruct (f (files s)) as [a f']. by apply orderly_files.
Qed.

Lemma keeps_fail (status : Z) (message : string) (err : error) : keeps (fail env status message err).
Proof.
  unfold fail. destruct (canceledBy env err); [apply effects_count|].
  apply effects_bind; [apply effects_count|intros _]. apply reply_keeps; reply_only.
Qed.

Lemma reserve_keeps (s : Store) : orderly top s -> orderly top (snd (reserve_upload env contentLength s)).
Proof.
  apply orderly_recounts. unfold reserve_upload. destruct (controller s) as [c|] eqn:Ec; [|apply recounts_refl].
  destruct (freeBytes (putEnv env)) as [free|]; [|apply recounts_refl].
  destruct (Storage.Reserve c contentLength free) as [[r|] c'] eqn:Er; (eexists; split; [done|]); rewrite Ec;
    revert Er; unfold Storage.Reserve; case_match; intros; by simplify_eq.
Qed.

(** What is committed for an upload only adds to the budget. *)
Lemma commit_keeps (r : option Storage.Reservation) (size : Z) (s : Store) :
  (forall r0, r = Some r0 -> Storage.bytes r0 <= maxInt64) ->
  orderly top s -> orderly top (snd (commit_upload r size s)).
Proof.
  intros Hr [Hok Ha Ht]. unfold commit_upload, commit_reservation.
  destruct r as [r|]; [|done]. destruct (controller s) as [c|] eqn:Ec; [|done]. specialize (Hr r eq_refl).
  destruct (Storage.Commit c (Some r) size 0) as [[ok r'] c'] eqn:E. cbn [snd].
  split; [by apply store_ok_controller| |done]. intros ? [= <-]. destruct (Ha c Ec) as [H1 H2].
  pose proof elsewhere_nonneg. pose proof (map_sum_nonneg entry_size (entries (files s))) as H0.
  assert (0 <= usage_bytes (files s)) by (apply H0; intros ? [[? ?] ?] _; unfold entry_size, size_of; lia).
  change (files (set_controller (Some c') s)) with (files s).
  revert E. unfold Storage.Commit. destruct (Storage.once r); [by intros [= _ _ <-]|]. unfold Storage.commitOnce.
  destruct (_ && _ && _ && _) eqn:Eb; intros [= _ _ <-]; [|done]. split_bool.
  cbn. rewrite Z.sub_0_r, wrap64_id by int64_lia. rewrite Storage.saturatingAdd_spec by int64_lia. int64_lia.
Qed.

Lemma reserved_length (s : Store) (r0 : Storage.Reservation) :
  fst (reserve_upload env contentLength s) = Room (Some r0) -> Storage.bytes r0 <= maxInt64.
Proof.
  pose proof (ua_length Hua). unfold reserve_upload. destruct (controller s) as [c|]; [|done].
  destruct (freeBytes (putEnv env)) as [free|]; [|done]. unfold Storage.Reserve. destruct (_ || _); [done|].
  by intros [= <-].
Qed.

(** What is known of a package that was stored. *)
Definition as_named (project filename : string) (stored : result local_error localPackage) : Prop :=
  match stored with
  | Ok pkg => canonical project = true /\ safeDistributionFilename filename = true /\ Filename pkg = filename
  | Err _ => True
  end.

Lemma fill_package_named (filename requiresPython target temp : string) (src : Source) (f : fs) :
  match fst (fill_package (putEnv env) filename requiresPython target temp src f) with
  | Ok pkg => Filename pkg = filename
  | Err _ => True
  end.
Proof.
  unfold fill_package. destruct (local_copy _ _) as [[size err] body]. destruct err; [done|].
  repeat (destruct (negb _); [done|]). destruct (Link _ _ _ _) as [f'|[|]]; [|done..].
  unfold record_package. destruct (os_Remove _ _ _) as [f''|]; [|done].
  destruct (marshalPackage _); [|done]. by destruct (negb _).
Qed.

Lemma storePackage_named (project filename requiresPython : string) (src : Source) (w : World) :
  as_named project filename (fst (storePackage p env project filename requiresPython src w)).
Proof.
  unfold storePackage. rewrite bind_run. unfold on_files, on_store. cbn [snd]. set (f := files _). clearbody f.
  assert (as_named project filename (fst (storeLocalPackage (putEnv env) (localPath p) project filename requiresPython src f)))
    as H; [|by destruct (storeLocalPackage _ _ _ _ _ _ _)].
  unfold storeLocalPackage. destruct (_ || _ || _) eqn:En; [done|].
  apply orb_false_iff in En as [[Hne%String.eqb_neq Hp]%orb_false_iff Hf]. apply negb_false_iff in Hp, Hf.
  apply String.eqb_eq, normalized_fixed in Hp; [|done]. destruct (negb _); [done|].
  destruct (Stat _ _ _) as [|[|]]; [done| |done]. destruct (negb _); [done|].
  pose proof (fill_package_named filename requiresPython (filepath_Join [localProjectPath (localPath p) project; filename])
    (upload_temp (putEnv env) (localProjectPath (localPath p) project)) src
    (<[upload_temp (putEnv env) (localProjectPath (localPath p) project) := Fs.mkNode Regular EmptyString (clock (putEnv env))]> f)) as H.
  destruct (fill_package _ _ _ _ _ _ _) as [[pkg|e] f']; [|done]. by split_and!.
Qed.

Lemma storePackage_keeps (project filename requiresPython : string) (src : Source) :
  looks_hashed filename = false -> keeps (storePackage p env project filename requiresPython src).
Proof.
  intros Hn. unfold storePackage. apply effects_bind; [apply keeps_others|intros _].
  apply keeps_on_files. intros f Hwf. apply upload_keeps_entries; [done|apply Hua|done|done].
Qed.

Lemma remove_keeps (project filename : string) :
  canonical project = true -> safeDistributionFilename filename = true -> looks_hashed filename = false ->
  keeps (remove_upload env (filepath_Join [localProjectPath (localPath p) project; filename])).
Proof.
  intros Hp Hf Hn. unfold localProjectPath. rewrite distribution_path by done.
  destruct (distribution_foreign (localPath p) Hdir project filename Hp Hf Hn) as [[_ T] [_ R]].
  apply keeps_on_files. intros f Hwf. cbn [snd].
  destruct (drop_keeps_entries (putEnv env) _ f T Hwf) as [W1 Q1].
  destruct (drop_keeps_entries (putEnv env) _ _ R W1) as [W2 Q2]. split; [done|].
  intros q. destruct (Q1 q) as [->|]; [|by right]. apply Q2.
Qed.

Lemma receive_keeps (r : option Storage.Reservation) :
  (forall r0, r = Some r0 -> Storage.bytes r0 <= maxInt64) -> keeps (receive_upload p env form r).
Proof.
  intros Hr. unfold receive_upload. pose proof (ua_name Hua) as Hnames.
  assert (forall status message err, keeps (_ ← fail env status message err; mret r)) as Hfail.
  { intros. apply effects_bind; [apply keeps_fail|intros _; apply reply_keeps; reply_only]. }
  destruct form as [values|]; [|apply Hfail]. destruct (_ =? _)%string; [apply Hfail|].
  destruct (FormFile values) as [[filename src]|] eqn:Ef; [|apply Hfail].
  pose proof (Hnames values filename src eq_refl Ef) as Hn.
  set (project := normalizeProjectName (FormValue values "name")).
  apply (effects_bind_result _ _ _ (as_named project filename)).
  - by apply storePackage_keeps.
  - intros w. apply storePackage_named.
  - intros [pkg|e]; [|intros _; apply Hfail]. intros (Hp & Hf & ->).
    apply effects_bind; [by apply keeps_on_store; intros s; apply commit_keeps|]. intros [committed r'].
    destruct committed; cbn [negb].
    + apply reply_keeps; reply_only.
    + apply effects_bind; [by apply remove_keeps|intros _].
      apply effects_bind; [apply keeps_fail|intros _]. apply reply_keeps; reply_only.
Qed.

Lemma serveUpload_keeps : keeps (serveUpload p env request contentLength form).
Proof.
  unfold serveUpload. destruct (negb _); [apply reply_keeps; reply_only|].
  destruct (negb _); [apply reply_keeps; reply_only|].
  apply (effects_bind_result _ _ _ (fun room => forall r0, room = Room (Some r0) -> Storage.bytes r0 <= maxInt64)).
  - apply keeps_on_store. intros s. apply reserve_keeps.
  - intros w r0. unfold on_store. pose proof (reserved_length (cacheStore w) r0) as H.
    destruct (reserve_upload _ _ _). exact H.
  - intros [| |r] Hr; [apply keeps_fail|apply reply_keeps; reply_only|].
    apply effects_bind; [apply receive_keeps; intros r0 ->; by apply Hr|]. intros r'.
    apply keeps_on_store. intros s. cbn [snd]. apply orderly_recounts, Release_recounts.
Qed.

End Upload.
