(* ===== verification/PyPiUploads.v ===== *)
(** * The PyPI proxy: theorems about uploads

    Who may upload, and that an upload, whatever becomes of it, leaves the files and the
    budget in a state that accounts for exactly what it stored. *)

From S2P Require Import Prelude GoStrings FilePath Sha256 Url Http HttpPolicy Time Metadata Fs Store StoreFacts StorePut StoreStream PyPiText PyPiTextFacts LocalPackages LocalPackagesFacts LocalIndex Handler HandlerFacts PyPi.
From S2P Require Storage.
From Stdlib Require Import Ascii String.
Local Open Scope string_scope.
Local Open Scope Z_scope.

(** ** The budget *)

(** A controller that carries, besides what it had, a reservation that may be closed by
    now, and some committed bytes. *)
Record carries (c : Storage.Controller) (r : Storage.Reservation) (size : Z) (c1 : Storage.Controller) : Prop := {
  ca_reserved : Storage.reservedBytes c1
    = Storage.reservedBytes c + (if Storage.once r then 0 else Storage.bytes r);
  ca_committed : Storage.committedBytes c1 = Storage.saturatingAdd (Storage.committedBytes c) size
}.

(** Counters that can take a reservation without overflow. *)
Definition has_room (bytes : Z) (c : Storage.Controller) : Prop :=
  0 <= Storage.reservedBytes c <= maxInt64 /\ Storage.reservedBytes c + bytes <= maxInt64
  /\ 0 <= Storage.committedBytes c <= maxInt64.

Ltac fields :=
  cbn [Storage.reservedBytes Storage.committedBytes Storage.set_reserved Storage.set_committed
       Storage.once Storage.bytes snd].

Lemma saturatingAdd_zero (z : Z) : 0 <= z <= maxInt64 -> Storage.saturatingAdd z 0 = z.
Proof. intros H. rewrite Storage.saturatingAdd_spec; int64_lia. Qed.

Lemma Reserve_carries (c c1 : Storage.Controller) (r : Storage.Reservation) (bytes free : Z) :
  has_room bytes c -> Storage.Reserve c bytes free = (Some r, c1) -> 0 < bytes /\ r = Storage.mkReservation bytes false /\ carries c r 0 c1.
Proof.
  intros (H1 & H2 & H3). unfold Storage.Reserve. destruct (bytes <=? 0) eqn:Eb; [done|]. cbn [orb].
  destruct (_ || _); [done|]. intros [= <- <-]. split_bool. split; [lia|]. split; [done|].
  split; fields;
    [rewrite Storage.saturatingAdd_spec; int64_lia|by rewrite saturatingAdd_zero].
Qed.

Lemma Reserve_refused (c c1 : Storage.Controller) (bytes free : Z) :
  Storage.Reserve c bytes free = (None, c1) ->
  Storage.reservedBytes c1 = Storage.reservedBytes c /\ Storage.committedBytes c1 = Storage.committedBytes c.
Proof. unfold Storage.Reserve. by destruct (_ || _); intros [= <-]. Qed.

Lemma Commit_carries (c c1 : Storage.Controller) (bytes size : Z) :
  has_room bytes c -> 0 < bytes -> 0 <= size <= maxInt64 -> carries c (Storage.mkReservation bytes false) 0 c1 ->
  let '(ok, r, c2) := Storage.Commit c1 (Some (Storage.mkReservation bytes false)) size 0 in
  exists r', r = Some r' /\ Storage.once r' = true /\ carries c r' (if ok : bool then size else 0) c2.
Proof.
  intros (H1 & H2 & H3) Hb Hs [C1 C2]. cbn [Storage.once Storage.bytes] in C1. rewrite saturatingAdd_zero in C2 by done.
  cbn [Storage.Commit Storage.once]. unfold Storage.commitOnce. cbn [Storage.bytes].
  assert (wrap64 (Storage.reservedBytes c1 - bytes) = Storage.reservedBytes c) as Er
    by (rewrite C1, wrap64_id; int64_lia).
  destruct (_ && _ && _ && _); eexists; split_and!; try done; split; fields; rewrite ?Er, ?C2; try lia.
  - rewrite Z.sub_0_r, wrap64_id by int64_lia. done.
  - by rewrite saturatingAdd_zero.
Qed.

Lemma Release_carries (c c1 : Storage.Controller) (r : Storage.Reservation) (size : Z) :
  0 <= Storage.reservedBytes c <= maxInt64 -> carries c r size c1 ->
  let c2 := snd (Storage.Release c1 (Some r)) in
  Storage.reservedBytes c2 = Storage.reservedBytes c
  /\ Storage.committedBytes c2 = Storage.saturatingAdd (Storage.committedBytes c) size.
Proof.
  intros Hr [C1 C2]. cbn [Storage.Release]. destruct (Storage.once r); cbn [snd]; [by rewrite C1, Z.add_0_r|].
  fields. split; [|done].
  rewrite C1. replace (Storage.reservedBytes c + Storage.bytes r - Storage.bytes r) with (Storage.reservedBytes c) by lia.
  apply wrap64_id. int64_lia.
Qed.

(** The store holds the reservation [r] over [s], and [size] bytes more are committed. *)
Definition held (s : Store) (r : option Storage.Reservation) (size : Z) (s1 : Store) : Prop :=
  match controller s, r, controller s1 with
  | None, None, None => True
  | Some c, Some r, Some c1 => carries c r size c1
  | _, _, _ => False
  end.

(** Only the files and the budget differ. *)
Definition framed (s s1 : Store) : Prop := s1 = set_files (files s1) (set_controller (controller s1) s).

(** The budget is as before, with [size] bytes more. *)
Definition accounts (s s1 : Store) (size : Z) : Prop :=
  match controller s, controller s1 with
  | None, None => True
  | Some c, Some c1 => Storage.reservedBytes c1 = Storage.reservedBytes c
      /\ Storage.committedBytes c1 = Storage.saturatingAdd (Storage.committedBytes c) size
  | _, _ => False
  end.

Definition roomy (bytes : Z) (s : Store) : Prop := forall c, controller s = Some c -> has_room bytes c.

Lemma framed_files (s s1 : Store) (f : fs) : framed s s1 -> framed s (set_files f s1).
Proof. unfold framed. intros E. rewrite E at 1. reflexivity. Qed.

Lemma framed_controller (s s1 : Store) (c : option Storage.Controller) : framed s s1 -> framed s (set_controller c s1).
Proof. unfold framed. intros E. rewrite E at 1. reflexivity. Qed.

Lemma framed_self (s : Store) : framed s s.
Proof. by destruct s. Qed.

Lemma Release_accounts (s s1 : Store) (r : option Storage.Reservation) (size bytes : Z) :
  roomy bytes s -> held s r size s1 -> framed s s1 ->
  accounts s (Release r s1) size /\ framed s (Release r s1) /\ files (Release r s1) = files s1.
Proof.
  intros Hr Hh Hf. unfold held, accounts, Release in *.
  destruct (controller s) as [c|] eqn:Ec, r as [r|], (controller s1) as [c1|] eqn:E1; try done.
  - destruct (Hr c Ec) as (H1 & H2 & _). split_and!; [|by apply framed_controller|done].
    apply (Release_carries c c1 r size); [int64_lia|done].
  - by rewrite E1.
Qed.

Lemma commit_upload_held (s s1 : Store) (r : option Storage.Reservation) (size bytes : Z) :
  roomy bytes s -> 0 <= size <= maxInt64 -> held s r 0 s1 -> framed s s1 ->
  (forall r0, r = Some r0 -> r0 = Storage.mkReservation bytes false /\ 0 < bytes) ->
  let '((ok, r'), s2) := commit_upload r size s1 in
  held s r' (if ok : bool then size else 0) s2 /\ framed s s2 /\ files s2 = files s1.
Proof.
  intros Hr Hs Hh Hf Ho. unfold commit_upload, commit_reservation, held in *.
  destruct (controller s) as [c|] eqn:Ec, r as [r|], (controller s1) as [c1|] eqn:E1; try done.
  destruct (Ho r eq_refl) as [-> Hb].
  pose proof (Commit_carries c c1 bytes size (Hr c Ec) Hb Hs Hh) as H.
  destruct (Storage.Commit _ _ _ _) as [[ok r'] c2]. destruct H as (r'' & -> & _ & H).
  cbn [controller set_controller]. split_and!; [done|by apply framed_controller|done].
Qed.

Section Upload.
Context {codec : MetadataCodec} {html : HtmlLib} (p : Proxy) (env : Env) (request : Request) (url : URL).
Context (contentLength : Z) (form : option Form).

Abbreviation served w := (snd (ServeHTTP p env request url contentLength form w)).

(** ** Who may upload *)

(** C17: Without the [POST] method and the repository's token, and if it has none, an
    upload changes no file and no budget; it is answered with 405 or 401. *)
Theorem upload_requires_token (w : World) :
  Url.Path url = uploadPath p -> unsent (reply w) ->
  (Method request = "POST" ->
   publishToken p = EmptyString
   \/ provided_secret (Get (ReqHeader request) "Authorization") <> Some (publishToken p)) ->
  cacheStore (served w) = cacheStore w /\ events (served w) = events w
  /\ exists h, sent (reply (served w))
       = Some (if (Method request =? "POST")%string then 401 else 405, h).
Proof.
  intros Hp [Hu Hb] Ha. unfold ServeHTTP. rewrite bind_run. apply String.eqb_eq in Hp as ->. unfold serveUpload.
  destruct (String.eqb_spec (Method request) "POST") as [Hm|Hm]; cbn [negb].
  2:{ split_and!; [done|done|]. eexists. unfold http_Error, write_once. rewrite !bind_run. cbn.
      unfold send_head. cbn. by rewrite Hu. }
  assert (authorizedUpload (publishToken p) (Get (ReqHeader request) "Authorization") = false) as ->.
  { unfold authorizedUpload. destruct (_ || _) eqn:E; [done|]. apply orb_false_iff in E as [E1 E2].
    destruct (provided_secret _) as [provided|] eqn:Es; [|done]. apply andb_false_iff. right.
    apply String.eqb_neq. intros ->. by destruct (Ha Hm) as [E|]; [rewrite E in E1|]. }
  cbn [negb]. split_and!; [done|done|]. eexists. unfold http_Error, write_once. rewrite !bind_run. cbn.
  unfold send_head. cbn. by rewrite Hu.
Qed.

(** ** What becomes of an upload *)

Definition unaccepted (r : Reply) : Prop := forall h, sent r <> Some (201, h).

(** Nothing is left of an upload that was undone, but that a record without a
    distribution, in its place, may be gone. *)
Definition undone (f f' : fs) : Prop :=
  f' = f \/ exists target, f !! target = None /\ f' = delete (target ++ ".json") f.

(** The form that was sent, with the file it carries. *)
Definition uploading (project filename requiresPython : string) (src : Source) : Prop :=
  exists values, form = Some values /\ project = normalizeProjectName (FormValue values "name")
    /\ requiresPython = FormValue values "requires_python" /\ FormFile values = Some (filename, src).

(** What is kept and accepted, or refused and undone. *)
Definition outcome (f f' : fs) (size : Z) (r : Reply) : Prop :=
  (exists project filename requiresPython src text h,
     uploading project filename requiresPython src
     /\ marshalPackage (new_package (putEnv env) filename requiresPython src) = Some text
     /\ f !! child (child (localPath p) project) filename = None
     /\ f' = with_package (putEnv env) (localPath p) project filename src text f
     /\ size = len (content src) /\ sent r = Some (201, h))
  \/ (undone f f' /\ size = 0 /\ unaccepted r).

Lemma fail_refused (status : Z) (message : string) (err : error) (w : World) :
  status <> 201 -> sent (reply w) = None ->
  let w' := snd (fail env status message err w) in
  cacheStore w' = cacheStore w /\ unaccepted (reply w').
Proof.
  intros Hs Hu. unfold fail. destruct (canceledBy env err).
  { split; [done|]. intros h. cbn. by rewrite Hu. }
  rewrite bind_run. unfold http_Error, write_once. rewrite !bind_run. split; [done|].
  intros h. cbn. unfold send_head. cbn. rewrite Hu. cbn. congruence.
Qed.

(** What an upload needs of its surroundings. *)
Record calm_upload : Prop := {
  cu_dir : clean_dir (localPath p);
  cu_suffix : suffix_ok (bodySuffix (putEnv env));
  cu_remove : forall path, io (putEnv env) CRemove path = true;
  cu_clock : between 0 9999 (year_of (clock (putEnv env))) = true;
  cu_alone : forall s, others env Storing s = s
}.

Definition fitting (f : fs) : Prop := forall project filename requiresPython src,
  uploading project filename requiresPython src ->
  len (content src) <= maxInt64
  /\ f !! child (child (localPath p) project) (".upload-" ++ bodySuffix (putEnv env)) = None.

Lemma remove_upload_undone (project filename text : string) (src : Source) (w : World) (f : fs) :
  calm_upload -> canonical project = true -> safeDistributionFilename filename = true ->
  f !! child (child (localPath p) project) filename = None ->
  files (cacheStore w) = with_package (putEnv env) (localPath p) project filename src text f ->
  let w' := snd (remove_upload env (filepath_Join [localProjectPath (localPath p) project; filename]) w) in
  undone f (files (cacheStore w')) /\ reply w' = reply w
  /\ cacheStore w' = set_files (files (cacheStore w')) (cacheStore w).
Proof.
  intros [Hd Hs Hr _ _] Hp Hf Hfree Ef. unfold localProjectPath. rewrite distribution_path by done.
  set (target := child (child (localPath p) project) filename) in *.
  unfold remove_upload, on_files, on_store. cbn. split_and!; [|done|done]. right. exists target. split; [done|].
  rewrite Ef, !drop_file_calm by done. unfold with_package. fold target.
  assert (target ++ ".json" <> target) as Hne
    by (unfold target; rewrite record_of; intros E%child_inj; by eapply record_name_other).
  rewrite (delete_insert_ne _ target) by done.
  by rewrite !delete_insert_eq, (delete_id f).
Qed.

Section Receive.
Context (s0 : Store) (Hcalm : calm_upload) (Hfit : fitting (files s0)) (Hroom : roomy contentLength s0).

(** The files as they were, the budget with the reservation [r]. *)
Definition waiting (r : option Storage.Reservation) (w : World) : Prop :=
  held s0 r 0 (cacheStore w) /\ framed s0 (cacheStore w) /\ files (cacheStore w) = files s0
  /\ sent (reply w) = None
  /\ forall r0, r = Some r0 -> r0 = Storage.mkReservation contentLength false /\ 0 < contentLength.

Definition finished (r : option Storage.Reservation) (w : World) : Prop :=
  exists size, held s0 r size (cacheStore w) /\ framed s0 (cacheStore w)
    /\ outcome (files s0) (files (cacheStore w)) size (reply w).

Lemma fail_finished (r : option Storage.Reservation) (status : Z) (message : string) (err : error) (w : World) :
  status <> 201 -> waiting r w -> finished r (snd (fail env status message err w)).
Proof.
  intros Hs (H1 & H2 & H3 & H4 & _). destruct (fail_refused status message err w Hs H4) as [E Hu].
  exists 0. rewrite E. split_and!; [done|done|]. right. split_and!; [by left|done|done].
Qed.

Lemma stored_finished (project filename requiresPython text : string) (src : Source) (r : option Storage.Reservation)
    (w : World) (f' : fs) :
  let pkg := new_package (putEnv env) filename requiresPython src in
  waiting r w -> uploading project filename requiresPython src -> marshalPackage pkg = Some text ->
  files s0 !! child (child (localPath p) project) filename = None ->
  canonical project = true -> safeDistributionFilename filename = true ->
  f' = with_package (putEnv env) (localPath p) project filename src text (files s0) ->
  let w1 := set_store (set_files f' (cacheStore w)) w in
  let '((committed, r'), s2) := commit_upload r (Size pkg) (cacheStore w1) in
  let w2 := set_store s2 w1 in
  finished r' (snd ((if negb committed then
                 _ ← remove_upload env (filepath_Join [localProjectPath (localPath p) project; Filename pkg]);
                 _ ← fail env 507 "could not commit PyPI storage reservation"
                       (GoError "storage reservation commit failed" None);
                 mret r'
               else
                 _ ← set_header "Content-Type" "text/plain; charset=utf-8";
                 _ ← WriteHeader 201;
                 _ ← write_once env ("stored " ++ Filename pkg ++ " sha256:" ++ Hash pkg ++ newline);
                 mret r') w2)).
Proof.
  intros pkg (H1 & H2 & H3 & H4 & H5) Hup Hm Hfree Hp Hf Ef w1.
  destruct (Hfit _ _ _ _ Hup) as [Hlen _].
  pose proof (commit_upload_held s0 (cacheStore w1) r (Size pkg) contentLength Hroom) as H.
  destruct (commit_upload r (Size pkg) (cacheStore w1)) as [[committed r'] s2].
  destruct H as (Hh & Hfr & Hfi); [unfold pkg, new_package, len in *; cbn; lia|done|by apply framed_files|done|].
  intros w2. destruct committed; cbn [negb].
  - exists (Size pkg). rewrite !bind_run. split; [exact Hh|]. split; [exact Hfr|]. left.
    exists project, filename, requiresPython, src, text. eexists. split_and!; [done..| |done|].
    + change (files s2 = with_package (putEnv env) (localPath p) project filename src text (files s0)).
      rewrite Hfi. exact Ef.
    + cbn. unfold send_head. cbn. by rewrite H4.
  - rewrite !bind_run. change (files s2 = f') in Hfi. rewrite Ef in Hfi.
    destruct (remove_upload_undone project filename text src w2 (files s0) Hcalm Hp Hf Hfree Hfi) as (Hun & Hrep & Hset).
    change (Filename pkg) with filename. set (w3 := snd (remove_upload _ _ w2)) in *.
    destruct (fail_refused 507 "could not commit PyPI storage reservation"
      (GoError "storage reservation commit failed" None) w3) as [E Hu]; [done|by rewrite Hrep|].
    exists 0. cbn [snd mret M_ret]. rewrite E. split_and!.
    + rewrite Hset. exact Hh.
    + rewrite Hset. by apply framed_files.
    + by right.
Qed.

Lemma receive_upload_finished (r : option Storage.Reservation) (w : World) :
  waiting r w ->
  finished (fst (receive_upload p env form r w)) (snd (receive_upload p env form r w)).
Proof.
  intros Hw. unfold receive_upload. destruct form as [values|] eqn:Ef.
  2:{ rewrite bind_run. by apply fail_finished. }
  destruct (String.eqb_spec (normalizeProjectName (FormValue values "name")) EmptyString) as [_|Hne].
  { rewrite bind_run. by apply fail_finished. }
  destruct (FormFile values) as [[filename src]|] eqn:Eff; [|rewrite bind_run; by apply fail_finished].
  set (project := normalizeProjectName (FormValue values "name")) in *.
  set (requires := FormValue values "requires_python") in *.
  assert (uploading project filename requires src) as Hup by (by exists values).
  destruct (Hfit _ _ _ _ Hup) as [Hlen Hfresh]. destruct Hcalm as [C1 C2 C3 C4 C5].
  rewrite bind_run. unfold storePackage. rewrite bind_run. unfold others_run, on_files, on_store. cbn [modify fst snd].
  cbn [cacheStore set_store]. rewrite C5. destruct Hw as (H1 & H2 & H3 & H4 & H5). rewrite H3.
  pose proof (upload_all_or_nothing (putEnv env) (localPath p) project filename requires src (files s0)
    C1 C2 C3 C4 Hlen Hfresh) as H.
  destruct (storeLocalPackage _ _ _ _ _ _ _) as [[pkg|e] f'] eqn:Est; cbn [fst snd cacheStore set_store].
  - destruct H as (-> & _ & Hfree & Hp & Hf & text & Hm & Efs).
    pose proof (stored_finished project filename requires text src r w f' (conj H1 (conj H2 (conj H3 (conj H4 H5))))
      Hup Hm Hfree Hp Hf Efs) as Hs. cbv zeta in Hs. cbn [cacheStore set_store] in Hs.
    rewrite bind_run. unfold on_store.
    destruct (commit_upload r _ _) as [[committed r'] s2] eqn:Ec. cbn [fst snd].
    match goal with |- finished ?v _ => assert (v = r') as -> end; [|exact Hs].
    destruct committed; cbn [negb]; by rewrite !bind_run.
  - subst f'. rewrite bind_run. cbn [fst mret M_ret].
    assert (set_files (files s0) (cacheStore w) = cacheStore w) as -> by (rewrite <- H3; by destruct (cacheStore w)).
    apply fail_finished; [by destruct e|]. done.
Qed.

End Receive.

Lemma accounts_same (s s1 : Store) : roomy contentLength s -> framed s s1 ->
  match controller s, controller s1 with
  | None, None => True
  | Some c, Some c1 => Storage.reservedBytes c1 = Storage.reservedBytes c
      /\ Storage.committedBytes c1 = Storage.committedBytes c
  | _, _ => False
  end -> accounts s s1 0.
Proof.
  intros Hr _ H. unfold accounts. destruct (controller s) as [c|] eqn:Ec, (controller s1) as [c1|]; try done.
  destruct (Hr c Ec) as (_ & _ & Hc). destruct H as [-> ->]. by rewrite saturatingAdd_zero.
Qed.

Lemma reserve_upload_spec (s : Store) : roomy contentLength s ->
  let '(room, s1) := reserve_upload env contentLength s in
  framed s s1 /\ files s1 = files s
  /\ match room with
     | Room r => held s r 0 s1
         /\ forall r0, r = Some r0 -> r0 = Storage.mkReservation contentLength false /\ 0 < contentLength
     | _ => accounts s s1 0
     end.
Proof.
  intros Hr. unfold reserve_upload. destruct (controller s) as [c|] eqn:Ec.
  2:{ split_and!; [apply framed_self|done|unfold held; by rewrite Ec|done]. }
  destruct (freeBytes (putEnv env)) as [free|].
  2:{ split_and!; [apply framed_self|done|]. apply accounts_same; [done|apply framed_self|by rewrite Ec]. }
  destruct (Storage.Reserve c contentLength free) as [[r|] c1] eqn:Er;
    (split; [by apply framed_controller, framed_self|]; split; [done|]).
  - destruct (Reserve_carries c c1 r contentLength free (Hr c Ec) Er) as (Hb & -> & Hc).
    split; [unfold held; by rewrite Ec|]. by intros r0 [= <-].
  - apply Reserve_refused in Er. apply accounts_same; [done|by apply framed_controller, framed_self|].
    by rewrite Ec.
Qed.


End Upload.
