(* ===== verification/PyPiExamples.v ===== *)
(** * The PyPI proxy at work

    A distribution is uploaded to the private index of the demonstration store, listed
    and fetched; a page of the upstream is fetched and stored; a file link is followed. *)

From S2P Require Import Prelude GoStrings FilePath Sha256 Url Origin Http HttpPolicy Time Json Metadata Fs Store StoreFacts StorePut StoreSystem StoreStream StoreExamples PyPiText PyPiTextFacts LocalPackages LocalPackagesFacts LocalIndex Handler HandlerFacts HandlerExamples PyPi PyPiTheorems PyPiPrivate PyPiUploads.
From S2P Require Storage.
From Stdlib Require Import Ascii String.
Local Open Scope string_scope.
Local Open Scope Z_scope.

(** Pages are plain text here: one node that holds it. *)
#[export] Instance plain_html : HtmlLib := {
  payload := string;
  html_Parse text := Some (mkNode text false EmptyString [] []);
  html_Render node := let '(mkNode text _ _ _ _) := node in Some text
}.

Definition index : Proxy :=
  match New calm (mkOptions "pypi" "/pypi/simple/" "https://up.test/simple/" "http://me:1/" (3600 * nanos)
                    false "token" ["https://files.test"] "/c/p") with
  | Ok p => p
  | Err _ => mkProxy EmptyString EmptyString EmptyString EmptyString EmptyString zeroURL EmptyString
               EmptyString EmptyString 0 false EmptyString ∅ EmptyString
  end.

Definition at_path (path : string) : URL := default zeroURL (Parse path).
Definition get (path : string) : Request := mkRequest "GET" (Some (at_path path)) ∅.

Definition page_answer (n : nat) (r : Request) : result error Response :=
  Ok (mkResponse 200 (<["Content-Type" := ["text/html"]]> (<["Content-Length" := ["4"]]> ∅))
        (bytes_source "page") Canceled).
Definition index_env : Env := around page_answer.

(** ** An upload *)

Definition upload_url : URL := at_path "/pypi/legacy/".
Definition upload_request : Request :=
  mkRequest "POST" (Some upload_url) (<["Authorization" := ["Bearer token"]]> ∅).
Definition upload_values (key : string) : string := if (key =? "name")%string then "Demo_Pkg" else EmptyString.
Definition upload_form : option Form := Some (mkForm upload_values (Some ("demo-1.zip", bytes_source "hello"))).

Definition uploaded : World := snd (ServeHTTP index index_env upload_request upload_url 50 upload_form start).

Definition fetch_url : URL := at_path "/pypi/packages/demo-pkg/demo-1.zip".
Definition fetched : World := snd (ServeHTTP index index_env (get "/pypi/packages/demo-pkg/demo-1.zip") fetch_url 0 None (again uploaded)).

Definition served_texts (w : World) : list string :=
  omap (fun e => match e with ServedFile _ _ text => Some text | _ => None end) (events w).

Example upload_then_fetch :
  (option_map fst (sent (reply uploaded)), option_map Storage.committedBytes (controller (cacheStore uploaded)),
   option_map Storage.reservedBytes (controller (cacheStore uploaded)), served_texts fetched)
  = (Some 201, Some 5, Some 0, ["hello"]).
Proof. vm_compute. reflexivity. Qed.

Lemma index_paths : uploadPath index = "/pypi/legacy/" /\ packagePath index = "/pypi/packages/"
  /\ path index = "/pypi/simple/" /\ localPath index = "/c/p" /\ publishToken index = "token".
Proof. vm_compute. by split_and!. Qed.

Lemma local_clean : clean_dir "/c/p".
Proof. by split_and!. Qed.

Lemma index_calm : calm_upload index index_env.
Proof.
  assert (localPath index = "/c/p") as E by (vm_compute; reflexivity).
  split; [rewrite E; apply local_clean|reflexivity|done|reflexivity|done].
Qed.

Lemma upload_fits : fitting index index_env upload_form ∅.
Proof.
  intros project filename requiresPython src (values & [= <-] & _ & _ & [= <- <-]).
  split; [vm_compute; discriminate|apply lookup_empty].
Qed.

Lemma upload_room : roomy 50 demo_store.
Proof. intros c [= <-]. vm_compute. by split_and!. Qed.

Lemma start_unsent : unsent (reply start).
Proof. by split. Qed.


(** The same upload without the token. *)
Definition anonymous : Request := mkRequest "POST" (Some upload_url) ∅.
Definition refused : World := snd (ServeHTTP index index_env anonymous upload_url 50 upload_form start).

Lemma upload_requires_token_witness :
  cacheStore refused = demo_store /\ exists h, sent (reply refused) = Some (401, h).
Proof.
  assert (Path upload_url = uploadPath index) as Hp by (vm_compute; reflexivity).
  destruct (upload_requires_token index index_env anonymous upload_url 50 upload_form start Hp start_unsent)
    as (H1 & _ & H2).
  - intros _. right. vm_compute. discriminate.
  - split; [exact H1|exact H2].
Defined.

(** ** The distribution that was uploaded *)

Definition demo_package : localPackage := new_package demo_env "demo-1.zip" EmptyString demo_source.

Definition stored_files : fs :=
  snd (storeLocalPackage demo_env "/c/p" "demo-pkg" "demo-1.zip" EmptyString demo_source ∅).

Lemma stored_ok :
  storeLocalPackage demo_env "/c/p" "demo-pkg" "demo-1.zip" EmptyString demo_source ∅
  = (Ok demo_package, stored_files).
Proof.
  assert (match storeLocalPackage demo_env "/c/p" "demo-pkg" "demo-1.zip" EmptyString demo_source ∅ with
          | (Ok pkg, _) => true | _ => false end = true) as H by (vm_compute; reflexivity).
  pose proof (upload_all_or_nothing demo_env "/c/p" "demo-pkg" "demo-1.zip" EmptyString demo_source ∅
    local_clean eq_refl (fun _ => eq_refl) eq_refl ltac:(vm_compute; discriminate) (lookup_empty _)) as E.
  unfold stored_files. destruct (storeLocalPackage _ _ _ _ _ _ _) as [[pkg|e] f]; [|done].
  destruct E as [-> _]. done.
Qed.

Lemma upload_confined_and_immutable_witness :
  storeLocalPackage demo_env "/c/p" "demo-pkg" "../demo-1.zip" EmptyString demo_source ∅ = (Err UnsafeName, ∅).
Proof.
  pose proof (upload_confined_and_immutable demo_env "/c/p" "demo-pkg" "../demo-1.zip" EmptyString demo_source ∅
    local_clean eq_refl) as (_ & H & _).
  apply H. vm_compute. reflexivity.
Defined.


(** A world whose store holds it. *)
Definition with_files (f : fs) : World := mkWorld (set_files f demo_store) zero_counters emptyReply [].
Definition refetched : World :=
  snd (ServeHTTP index index_env (get "/pypi/packages/demo-pkg/demo-1.zip") fetch_url 0 None (with_files stored_files)).

Lemma uploaded_is_served_witness :
  events refetched = [ServedFile "demo-1.zip" demo_time "hello"].
Proof.
  destruct index_paths as (P1 & P2 & _ & P4 & _).
  assert (Path fetch_url = "/pypi/packages/demo-pkg/demo-1.zip") as Hp by (vm_compute; reflexivity).
  destruct (uploaded_is_served index index_env (get "/pypi/packages/demo-pkg/demo-1.zip") fetch_url 0 None
    demo_env "demo-pkg" "demo-1.zip" EmptyString demo_source ∅ demo_package (with_files stored_files)) as (H & _).
  - rewrite P4. exact local_clean.
  - reflexivity.
  - intros path. reflexivity.
  - reflexivity.
  - vm_compute. discriminate.
  - apply lookup_empty.
  - rewrite P4. exact stored_ok.
  - rewrite P2. exact Hp.
  - rewrite P1, Hp. discriminate.
  - reflexivity.
  - by left.
  - exact reads_calm.
  - exact H.
Defined.

(** The page of its project names it, and nothing is asked upstream. *)
Definition project_url : URL := at_path "/pypi/simple/demo-pkg/".
Definition project_page : World :=
  snd (ServeHTTP index index_env (get "/pypi/simple/demo-pkg/") project_url 0 None (with_files stored_files)).

Lemma project_listed :
  localPackages calm "/c/p" "demo-pkg" stored_files = Ok [demo_package].
Proof.
  assert (match localPackages calm "/c/p" "demo-pkg" stored_files with
          | Ok [pkg] => (Filename pkg =? "demo-1.zip")%string && (Size pkg =? 5)
              && (RequiresPython pkg =? EmptyString)%string && (Hash pkg =? sha256_hex "hello")%string
              && (UploadedAt pkg =? demo_time)
          | _ => false
          end = true) as H by (vm_compute; reflexivity).
  destruct (localPackages _ _ _ _) as [[|[a b c d e] [|? ?]]|]; try done.
  cbn [Filename Size RequiresPython Hash UploadedAt] in H. split_str.
  subst. repeat match goal with H : (_ =? _) = true |- _ => apply Z.eqb_eq in H; subst end. reflexivity.
Qed.

Lemma private_index_shadows_upstream_witness :
  events project_page = [] /\ listed index index_env (get "/pypi/simple/demo-pkg/") "demo-pkg" [demo_package] project_page.
Proof.
  destruct index_paths as (P1 & P2 & P3 & P4 & _).
  assert (Path project_url = "/pypi/simple/demo-pkg/") as Hp by (vm_compute; reflexivity).
  pose proof (private_index_shadows_upstream index index_env (get "/pypi/simple/demo-pkg/") project_url 0 None
    (with_files stored_files) "demo-pkg") as H.
  rewrite P3, P4, Hp in H. change (files (cacheStore (with_files stored_files))) with stored_files in H.
  change (ioAt index_env FirstLookup) with calm in H. rewrite project_listed in H.
  destruct H as (He & _ & Hl).
  - split; rewrite ?P1, ?P2, ?P3, ?Hp; [discriminate|reflexivity|reflexivity|by left].
  - reflexivity.
  - discriminate.
  - discriminate.
  - by split.
  - discriminate.
  - split; [exact He|exact Hl].
Defined.

(** A name with a percent sign may be stored, but its link is read as that of another. *)
Example percent_names_another :
  (safeDistributionFilename "p%41-1.zip", local_file index "/pypi/packages/demo-pkg/p%41-1.zip")
  = (true, Some ("demo-pkg", "pA-1.zip")).
Proof. vm_compute. reflexivity. Qed.

(** ** A page of the upstream *)

Definition flask_url : URL := at_path "/pypi/simple/flask/".
Definition flask : World := snd (ServeHTTP index index_env (get "/pypi/simple/flask/") flask_url 0 None start).
Definition flask_again : World :=
  snd (ServeHTTP index index_env (get "/pypi/simple/flask/") flask_url 0 None (again flask)).

Example page_stored_then_hit :
  (replyBody (reply flask), stats flask, replyBody (reply flask_again), stats flask_again)
  = ("page", mkCounters 1 0 1 0 0 0, "page", mkCounters 2 1 1 0 0 0).
Proof. vm_compute. reflexivity. Qed.

Lemma index_located : located (upstream index).
Proof. by apply (Parse_located "https://up.test/simple/"). Qed.

Lemma flask_events : exists r q, events flask = [Sent r; Putting q]
  /\ putStore q = demo_store /\ demo_fits q = true.
Proof. eexists _, _. split; [vm_compute; reflexivity|]. vm_compute. by split_and!. Qed.


(** ** A file link *)

Definition wheel : URL := default zeroURL (Parse "https://files.test/a/b.whl").
Definition wheel_sha : string := sha256_hex "hello".
Definition wheel_request : URL := set_RawQuery (values_Encode (file_values wheel wheel_sha)) (at_path "/pypi/files/b.whl").

Lemma wheel_allowed : originKey wheel ∈ allowedFileOrigins index.
Proof. apply (bool_decide_unpack _). vm_compute. done. Qed.

Lemma wheel_digest : digest_text wheel_sha.
Proof. right. exists (Sum256 "hello"). split; [done|split; [apply Sum256_length|apply Sum256_range]]. Qed.

Lemma wheel_plain : plain_url (set_Fragment EmptyString wheel).
Proof.
  split; [by apply (Parse_located "https://files.test/a/b.whl")|..]; try by vm_compute.
  right. by exists "a/b.whl".
Qed.


Lemma file_target_allowed_witness :
  originKey wheel ∈ allowedFileOrigins index
  /\ fileTargetURL (allowedFileOrigins index) wheel_request = Ok (wheel, wheel_sha).
Proof.
  assert (fileTargetURL (allowedFileOrigins index) wheel_request = Ok (wheel, wheel_sha)) as H by (vm_compute; reflexivity).
  split; [|exact H].
  exact (proj1 (proj2 (proj2 (proj2 (file_target_allowed (allowedFileOrigins index) wheel_request wheel wheel_sha H))))).
Defined.
