(* ===== verification/Mux.v ===== *)
(** * The request multiplexer

    [http.ServeMux] for patterns that are paths without host, method or wildcards: the
    registered pattern with the most segments wins, a trailing slash matches a whole
    subtree, and a path that is not clean, or misses the slash, is redirected. *)

From S2P Require Import Prelude GoStrings FilePath Url.
From Stdlib Require Import Ascii String.
Local Open Scope string_scope.
Local Open Scope Z_scope.

(** The segments of a path after its leading slash; one that cannot be unescaped is
    taken as it is. *)
Definition segment (s : string) : string := default s (PathUnescape s).
Definition segments (path : string) : list string := map segment (Split (TrimPrefix path "/") slash).

Definition subtree (pattern : string) : bool := HasSuffix pattern "/".

Fixpoint is_prefix (p l : list string) : bool :=
  match p, l with
  | [], _ => true
  | a :: p, b :: l => (a =? b)%string && is_prefix p l
  | _, [] => false
  end.

(** The segments a path must start with, and those it must have. *)
Definition stem (pattern : string) : list string :=
  if subtree pattern then removelast (segments pattern) else segments pattern.

Definition matches (pattern path : string) : bool :=
  is_prefix (stem pattern) (segments path)
  && (if subtree pattern then (List.length (stem pattern) <? List.length (segments path))%nat
      else (List.length (stem pattern) =? List.length (segments path))%nat).

(** A pattern without a trailing slash is the more specific one. *)
Definition specificity (pattern : string) : nat :=
  (2 * List.length (stem pattern) + (if subtree pattern then 0 else 1))%nat.

Section Mux.
Context {A : Type}.

(** Registering a pattern twice panics. *)
Definition register (pattern : string) (a : A) (routes : list (string * A)) : option (list (string * A)) :=
  if existsb (fun r => (fst r =? pattern)%string) routes then None else Some ((pattern, a) :: routes).

Definition better (path : string) (best : option (string * A)) (r : string * A) : option (string * A) :=
  if matches (fst r) path then
    match best with
    | Some b => if (specificity (fst b) <? specificity (fst r))%nat then Some r else best
    | None => Some r
    end
  else best.

Definition match_path (routes : list (string * A)) (path : string) : option (string * A) :=
  foldl (better path) None routes.

(** Whether the match leaves nothing of the path to the subtree. *)
Definition exact (path : string) (found : option (string * A)) : bool :=
  match found with
  | None => false
  | Some (pattern, _) =>
      negb (subtree pattern)
      || (HasSuffix path "/" && (S (List.length (stem pattern)) =? List.length (segments path))%nat)
  end.

Definition cleanPath (path : string) : string :=
  if (path =? EmptyString)%string then "/"
  else
    let path := if HasPrefix path "/" then path else "/" ++ path in
    let cleaned := Clean path in
    if HasSuffix path "/" && negb (cleaned =? "/")%string then cleaned ++ "/" else cleaned.

Inductive decision := Handle (a : A) | Redirect (path : string) | NoHandler.

(** [ServeMux.Handler] for a request that is not a [CONNECT]. *)
Definition decide_route (routes : list (string * A)) (u : URL) : decision :=
  let escaped := EscapedPath u in
  let path := cleanPath escaped in
  let found := match_path routes path in
  if negb (exact path found) && negb (HasSuffix path "/") && exact (path ++ "/") (match_path routes (path ++ "/"))
  then Redirect (cleanPath (Path u) ++ "/")
  else if negb (path =? escaped)%string then Redirect path
  else match found with Some (_, a) => Handle a | None => NoHandler end.

(** ** What is chosen *)

Lemma better_matches (path : string) (best : option (string * A)) (r b : string * A) :
  better path best r = Some b -> (b = r /\ matches (fst r) path = true) \/ best = Some b.
Proof.
  unfold better. destruct (matches (fst r) path); [|by right]. destruct best as [b'|]; [|intros [= <-]; by left].
  destruct (_ <? _)%nat; [intros [= <-]; by left|by right].
Qed.

(** The chosen route matches, and none that matches is more specific. *)
Lemma match_path_spec (routes : list (string * A)) (path : string) (b : string * A) :
  match_path routes path = Some b ->
  b ∈ routes /\ matches (fst b) path = true
  /\ forall r, r ∈ routes -> matches (fst r) path = true -> (specificity (fst r) <= specificity (fst b))%nat.
Proof.
  unfold match_path. enough (forall best,
    (forall b0, best = Some b0 -> matches (fst b0) path = true) -> foldl (better path) best routes = Some b ->
    (b ∈ routes \/ best = Some b) /\ matches (fst b) path = true
    /\ (forall b0, best = Some b0 -> (specificity (fst b0) <= specificity (fst b))%nat)
    /\ forall r, r ∈ routes -> matches (fst r) path = true -> (specificity (fst r) <= specificity (fst b))%nat) as H.
  { intros E. destruct (H None ltac:(done) E) as ([Hb|Hb] & H1 & _ & H2); [by split_and!|done]. }
  induction routes as [|r routes IH]; cbn [foldl]; intros best Hbest E.
  - split_and!; [by right|by apply Hbest|intros b0 ->; injection E as ->; lia|]. intros r Hr. by apply elem_of_nil in Hr.
  - assert (forall b0, better path best r = Some b0 -> matches (fst b0) path = true) as Hb'.
    { intros b0 [[-> Hm]|Hb0]%better_matches; [done|by apply Hbest]. }
    destruct (IH _ Hb' E) as (H1 & H2 & H3 & H4). split_and!.
    + destruct H1 as [H1|[[-> _]|H1]%better_matches]; [left; by constructor|left; by constructor|by right].
    + done.
    + intros b0 ->. unfold better in H3. destruct (matches (fst r) path); [|by apply H3].
      destruct (Nat.ltb_spec (specificity (fst b0)) (specificity (fst r))); [|by apply H3].
      specialize (H3 r eq_refl). lia.
    + intros r' [->|Hr]%elem_of_cons Hm; [|by apply H4]. unfold better in H3. rewrite Hm in H3.
      destruct best as [b0|]; [|by apply H3].
      destruct (Nat.ltb_spec (specificity (fst b0)) (specificity (fst r))); [by apply H3|].
      specialize (H3 b0 eq_refl). lia.
Qed.

Lemma match_path_None (routes : list (string * A)) (path : string) (r : string * A) :
  match_path routes path = None -> r ∈ routes -> matches (fst r) path = false.
Proof.
  unfold match_path. enough (forall best, foldl (better path) best routes = None -> r ∈ routes ->
    matches (fst r) path = false) as H by apply H.
  induction routes as [|r' routes IH]; intros best E Hr.
  - by apply elem_of_nil in Hr.
  - cbn [foldl] in E. apply elem_of_cons in Hr as [->|Hr]; [|exact (IH _ E Hr)].
    destruct (matches (fst r') path) eqn:Hm; [|done].
    assert (forall l best, is_Some best -> is_Some (foldl (better path) best l)) as Hs.
    { induction l as [|x l IHl]; intros best' Hb; [exact Hb|]. apply IHl. unfold better.
      destruct (matches (fst x) path); [|exact Hb]. destruct best'; [destruct (_ <? _)%nat|]; eauto. }
    assert (is_Some (better path best r')) as Hb.
    { unfold better. rewrite Hm. destruct best; [destruct (_ <? _)%nat|]; eauto. }
    apply (Hs routes) in Hb as [x Hx]. congruence.
Qed.

End Mux.
Arguments decision : clear implicits.
