(* ===== verification/Server.v ===== *)
(** * The server: [internal/httpserver]

    What [New] builds from a configuration, the maintenance it runs over all stores, and
    its own handlers.  All stores share one budget: whenever it changes, every store sees
    the new one.  Each repository's files are a map of their own, since they lie below
    directories of their own.  Logging is left out; so is the rendering of the JSON
    documents and of the dashboard, whose values are what a handler answers with. *)

From S2P Require Import Prelude GoStrings FilePath Strconv Url Http Time Metadata Fs Handler Mux.
From S2P Require Storage Maintenance Config Store LocalPackages Npm Oci PyPi.
From Stdlib Require Import Ascii String.
Local Open Scope string_scope.
Local Open Scope Z_scope.

(** ** Data *)

Inductive Proxy := NpmProxy (p : Npm.Proxy) | OciProxy (p : Oci.Proxy) | PyPiProxy (p : PyPi.Proxy).

(** A repository handler with its counters. *)
Record Repo := mkRepo { proxy : Proxy; repoStats : counters }.

Record managedStore := mkManaged { storeName : string; store : Store.Store }.

(** The stores and the budget they share. *)
Record Pool := mkPool { stores : list managedStore; budget : option Storage.Controller }.

Inductive route :=
  | ToRepository (i : nat) | Health | Status | OperatorStatus | OperatorGC | RepositoryAPI | Metrics | Dashboard.

Record Server := mkServer {
  version : string;
  publicURL : string;
  started : Time;
  repositories : list Repo;
  byName : gmap string nat;
  pool : Pool;
  maxAge : Z;
  gcInterval : Z;
  storagePath : string;
  gc : Maintenance.Coordinator;
  operatorToken : string;
  mux : list (string * route)
}.

Definition set_pool (p : Pool) (s : Server) : Server :=
  mkServer (version s) (publicURL s) (started s) (repositories s) (byName s) p (maxAge s) (gcInterval s)
    (storagePath s) (gc s) (operatorToken s) (mux s).
Definition set_gc (c : Maintenance.Coordinator) (s : Server) : Server :=
  mkServer (version s) (publicURL s) (started s) (repositories s) (byName s) (pool s) (maxAge s) (gcInterval s)
    (storagePath s) c (operatorToken s) (mux s).
Definition set_repositories (rs : list Repo) (s : Server) : Server :=
  mkServer (version s) (publicURL s) (started s) rs (byName s) (pool s) (maxAge s) (gcInterval s)
    (storagePath s) (gc s) (operatorToken s) (mux s).
Definition set_mux (m : list (string * route)) (s : Server) : Server :=
  mkServer (version s) (publicURL s) (started s) (repositories s) (byName s) (pool s) (maxAge s) (gcInterval s)
    (storagePath s) (gc s) (operatorToken s) m.
Definition set_operatorToken (t : string) (s : Server) : Server :=
  mkServer (version s) (publicURL s) (started s) (repositories s) (byName s) (pool s) (maxAge s) (gcInterval s)
    (storagePath s) (gc s) t (mux s).

(** *** The shared budget *)

Definition share (c : option Storage.Controller) (m : managedStore) : managedStore :=
  mkManaged (storeName m) (Store.set_controller c (store m)).

Definition set_budget (c : option Storage.Controller) (p : Pool) : Pool :=
  mkPool (map (share c) (stores p)) c.

Definition put_store (i : nat) (s : Store.Store) (p : Pool) : Pool :=
  mkPool (alter (fun m => mkManaged (storeName m) s) i (stores p)) (budget p).

Definition budget_remove (bytes : Z) (p : Pool) : Pool :=
  match budget p with
  | Some c => set_budget (Some (Storage.Remove c bytes)) p
  | None => p
  end.

Definition pressure (p : Pool) : bool :=
  match budget p with Some c => Storage.Pressure (Storage.SnapshotOf c) | None => false end.

(** ** Collecting *)

(** What surrounds a collection: [meanwhile n] is what requests do to the stores and the
    budget before its n-th step. *)
Record Surroundings := mkSurroundings {
  sysIO : oracle;
  sysNow : Time;
  walkOf : Store.Store -> Store.Walk;
  canceled : nat -> option string;                 (* [ctx.Err] at the n-th step *)
  meanwhile : nat -> Pool -> Pool;
  describe : Store.store_error -> string           (* the texts of errors *)
}.

Definition repository_error (name what : string) : string := "repository " ++ Quote name ++ ": " ++ what.

Section Collect.
Context {codec : MetadataCodec} (env : Surroundings).

Definition add_result (r : Maintenance.Result) (g : Store.GCResult) : Maintenance.Result :=
  Maintenance.mkResult (wrap64 (Maintenance.RemovedObjects r + Store.Objects g))
    (wrap64 (Maintenance.RemovedBytes r + Store.GCBytes g))
    (wrap64 (Maintenance.SkippedObjects r + Store.Skipped g)) (Maintenance.Errors r).

(** The loop over the [n] stores from the [i]-th on. *)
Fixpoint collect_stores (maxAge : Z) (n i : nat) (r : Maintenance.Result) (p : Pool)
    : Maintenance.Result * option string * Pool :=
  match n with
  | O => (r, None, p)
  | S n =>
      let p := meanwhile env i p in
      match canceled env i with
      | Some e => (r, Some e, p)
      | None =>
          match stores p !! i with
          | None => (r, None, p)
          | Some m =>
              let '(g, err, s) := Store.GC (sysIO env) (sysNow env) (walkOf env (store m)) (store m) maxAge in
              let p := put_store i s p in
              match err with
              | Some e => (r, Some (repository_error (storeName m) (describe env e)), p)
              | None => collect_stores maxAge n (S i) (add_result r g) (budget_remove (Store.GCBytes g) p)
              end
          end
      end
  end.

(** A candidate of the [storeIndex]-th store. *)
Record pressureCandidate := mkPressure { storeIndex : nat; candidate : Store.Candidate }.

Definition older (a b : pressureCandidate) : Prop :=
  Store.LastUsed (candidate a) <= Store.LastUsed (candidate b).

#[global] Instance older_dec : RelDecision older.
Proof. intros a b. unfold older. apply _. Defined.

(** Every store's candidates, unless one cannot be walked. *)
Fixpoint pressure_candidates (i : nat) (ms : list managedStore) : result string (list pressureCandidate) :=
  match ms with
  | [] => Ok []
  | m :: ms =>
      match Store.Candidates (sysIO env) (walkOf env (store m)) (store m) with
      | (_, Some e) =>
          Err (repository_error (storeName m) ("list pressure candidates: " ++ describe env (Store.WalkFailed e)))
      | (cs, None) =>
          match pressure_candidates (S i) ms with
          | Ok rest => Ok (map (mkPressure i) cs ++ rest)%list
          | Err e => Err e
          end
      end
  end.

Definition count_removed (bytes : Z) (r : Maintenance.Result) : Maintenance.Result :=
  Maintenance.mkResult (wrap64 (Maintenance.RemovedObjects r + 1)) (wrap64 (Maintenance.RemovedBytes r + bytes))
    (Maintenance.SkippedObjects r) (Maintenance.Errors r).
Definition count_skipped (r : Maintenance.Result) : Maintenance.Result :=
  Maintenance.mkResult (Maintenance.RemovedObjects r) (Maintenance.RemovedBytes r)
    (wrap64 (Maintenance.SkippedObjects r + 1)) (Maintenance.Errors r).

(** One candidate: removed and counted, in the result and in the budget, or skipped. *)
Definition pressure_visit (item : pressureCandidate) (r : Maintenance.Result) (p : Pool)
    : Maintenance.Result * Pool :=
  match stores p !! storeIndex item with
  | None => (r, p)
  | Some m =>
      let bytes := Store.CandidateBytes (candidate item) in
      let '(removed, err, s) := Store.RemoveCandidate (sysIO env) (store m) (candidate item) in
      let p := put_store (storeIndex item) s p in
      let '(r, p) := if removed : bool then (count_removed bytes r, budget_remove bytes p) else (r, p) in
      (if is_Some_b err then count_skipped r else r, p)
  end.

Fixpoint pressure_loop (toRemove : Z) (n : nat) (items : list pressureCandidate) (r : Maintenance.Result)
    (p : Pool) : Maintenance.Result * option string * Pool :=
  match items with
  | [] => (r, None, p)
  | item :: items =>
      let p := meanwhile env n p in
      match canceled env n with
      | Some e => (r, Some e, p)
      | None =>
          if toRemove <=? Maintenance.RemovedBytes r then (r, None, p)
          else
            let '(r, p) := pressure_visit item r p in
            pressure_loop toRemove (S n) items r p
      end
  end.

(** Candidates that were used at the same time come in any order; this is one. *)
Definition collectPressure (c : Storage.Controller) (p : Pool) : Maintenance.Result * option string * Pool :=
  let state := Storage.SnapshotOf c in
  let toRemove := wrap64 (Storage.CommittedBytes state - Storage.LowBytes state) in
  if toRemove <=? 0 then (Maintenance.zeroResult, None, p)
  else match pressure_candidates 0 (stores p) with
  | Err e => (Maintenance.zeroResult, Some e, p)
  | Ok items => pressure_loop toRemove 0 (merge_sort older items) Maintenance.zeroResult p
  end.

Definition collect (maxAge : Z) (p : Pool) : Maintenance.Result * option string * Pool :=
  match budget p with
  | Some c =>
      if Storage.Pressure (Storage.SnapshotOf c) then collectPressure c p
      else collect_stores maxAge (List.length (stores p)) 0 Maintenance.zeroResult p
  | None => collect_stores maxAge (List.length (stores p)) 0 Maintenance.zeroResult p
  end.

(** [s.gc.Run]. *)
Definition run_gc (trigger : Maintenance.Trigger) (begin finish : Time) (s : Server)
    : option Maintenance.Run * bool * Server :=
  match Maintenance.current (gc s) with
  | Some _ => (Maintenance.coalesce (gc s), false, s)
  | None =>
      let '(r, err, p) := collect (maxAge s) (pool s) in
      let '(run, accepted, c) := Maintenance.RunOnce (gc s) trigger begin (r, err) finish in
      (run, accepted, set_gc c (set_pool p s))
  end.

(** One turn of the loop of [RunMaintenance]; the schedule is off without an interval. *)
Inductive tick := PressureTick | ScheduleTick.

Definition maintenance_tick (t : tick) (begin finish : Time) (s : Server) : Server :=
  match t with
  | PressureTick =>
      if pressure (pool s) then snd (run_gc Maintenance.TriggerPressure begin finish s) else s
  | ScheduleTick => snd (run_gc Maintenance.TriggerSchedule begin finish s)
  end.

Definition RunMaintenance (ticks : list (tick * Time * Time)) (s : Server) : Server :=
  if gcInterval s <=? 0 then s
  else foldl (fun s '(t, begin, finish) => maintenance_tick t begin finish s) s ticks.

End Collect.
