(* ===== verification/ServerNew.v ===== *)
(** * Starting the server

    [New] of [internal/httpserver]: the operator's token, a store and a proxy for each
    configured repository, their routes, the budget over what the disk already holds, and
    the collection at startup. *)

From S2P Require Import Prelude GoStrings FilePath Url Http Time Metadata Fs Handler Mux Server.
From S2P Require Storage Maintenance Config Store LocalPackages Npm Oci PyPi.
From Stdlib Require Import Ascii String.
Local Open Scope string_scope.
Local Open Scope Z_scope.
Local Open Scope go_scope.

Inductive token_error := TokenRead | TokenLength.

(** [RouteTaken] is the panic of the multiplexer for a pattern it has. *)
Inductive repository_failure :=
  | CreateStore
  | CleanTemps (e : Store.store_error)
  | NpmFailed
  | OciFailed (e : Oci.new_error)
  | PublishToken (e : token_error)
  | PyPiFailed (e : PyPi.new_error)
  | UnsupportedType (type : string)
  | RouteTaken (pattern : string)
  | PrivateUsage (e : LocalPackages.size_error).

Inductive new_error :=
  | OperatorToken (e : token_error)
  | RepositoryFailed (name : string) (e : repository_failure)
  | StartupGC (e : string)
  | ServerRoute (pattern : string).

(** What the disk and the system hold when the server starts. *)
Record Boot := mkBoot {
  around : Surroundings;
  readToken : string -> option string;
  disk : string -> fs;                       (* the files below a repository's directory *)
  rootWalk : string -> Store.Walk;
  startTime : Time;
  gcBegin : Time;
  gcFinish : Time
}.

Section New.
Context {codec : MetadataCodec} (boot : Boot) (cfg : Config.Config).

Definition io : oracle := sysIO (around boot).

Definition read_token (file : string) : result token_error string :=
  match readToken boot file with
  | None => Err TokenRead
  | Some text =>
      let token := TrimSpace text in
      if (String.length token <? 32)%nat || (4096 <? Z.of_nat (String.length token))
      then Err TokenLength else Ok token
  end.

Definition optional_token (file : string) : result token_error string :=
  if nonempty file then read_token file else Ok EmptyString.

Definition fail_as {E E' A : Type} (f : E -> E') (r : result E A) : result E' A :=
  match r with Ok a => Ok a | Err e => Err (f e) end.

Definition storage_root (name : string) : string :=
  filepath_Join [Config.StoragePath (Config.storage cfg); name].

Definition new_store (r : Config.Repository) : result repository_failure Store.Store :=
  let root := storage_root (Config.Name r) in
  match Store.New io (rootWalk boot root) root (disk boot root) with
  | None => Err CreateStore
  | Some s =>
      let age := Config.StaleTempAge (Config.storage cfg) in
      if 0 <? age then
        match Store.CleanupStaleTemps io (sysNow (around boot)) (rootWalk boot root) s age with
        | (_, Some e, _) => Err (CleanTemps e)
        | (_, None, s) => Ok s
        end
      else Ok s
  end.

Definition private_path (r : Config.Repository) : string :=
  filepath_Join [Config.StoragePath (Config.storage cfg); Config.Name r; "private"].

Definition new_proxy (r : Config.Repository) : result repository_failure Proxy :=
  let base := Config.PublicBaseURL (Config.server cfg) in
  if (Config.Type_ r =? "npm")%string then
    match Npm.New (Npm.mkOptions (Config.Name r) (Config.Path r) (Config.Upstream r) base (Config.TTL r)
                     (Config.ForwardAuthorization r)) with
    | Some p => Ok (NpmProxy p)
    | None => Err NpmFailed
    end
  else if (Config.Type_ r =? "oci")%string then
    let? p := fail_as OciFailed (Oci.New (Oci.mkOptions (Config.Name r) (Config.Path r) (Config.Upstream r) base
                                            (Config.TTL r))) in
    Ok (OciProxy p)
  else if (Config.Type_ r =? "pypi")%string then
    let? token := fail_as PublishToken (optional_token (Config.PublishTokenFile r)) in
    let? p := fail_as PyPiFailed (PyPi.New io
      (PyPi.mkOptions (Config.Name r) (Config.Path r) (Config.Upstream r) base (Config.TTL r)
         (Config.ForwardAuthorization r) token (Config.AllowedFileOrigins r) (private_path r))) in
    Ok (PyPiProxy p)
  else Err (UnsupportedType (Config.Type_ r)).

(** The routes of a repository: its path, and three more for a private index. *)
Definition proxy_routes (r : Config.Repository) (p : Proxy) : list string :=
  Config.Path r :: match p with
                   | PyPiProxy p => [PyPi.FilePath p; PyPi.UploadPath p; PyPi.PackagePath p]
                   | _ => []
                   end.

Fixpoint register_all (patterns : list string) (to : route) (m : list (string * route))
    : result string (list (string * route)) :=
  match patterns with
  | [] => Ok m
  | pattern :: patterns =>
      match register pattern to m with
      | None => Err pattern
      | Some m => register_all patterns to m
      end
  end.

Definition zero_stats : counters := mkCounters 0 0 0 0 0 0.

Definition with_repository (r : Config.Repository) (st : Store.Store) (p : Proxy) (m : list (string * route))
    (s : Server) : Server :=
  let i := List.length (repositories s) in
  mkServer (version s) (publicURL s) (started s) (repositories s ++ [mkRepo p zero_stats])%list
    (<[Config.Name r := i]> (byName s))
    (mkPool (stores (pool s) ++ [mkManaged (Config.Name r) st])%list (budget (pool s)))
    (maxAge s) (gcInterval s) (storagePath s) (gc s) (operatorToken s) m.

Definition add_repository (s : Server) (r : Config.Repository) : result new_error Server :=
  fail_as (RepositoryFailed (Config.Name r))
    (let? st := new_store r in
     let? p := new_proxy r in
     let? m := fail_as RouteTaken
       (register_all (proxy_routes r p) (ToRepository (List.length (repositories s))) (mux s)) in
     Ok (with_repository r st p m s)).

Fixpoint add_repositories (s : Server) (rs : list Config.Repository) : result new_error Server :=
  match rs with
  | [] => Ok s
  | r :: rs => let? s := add_repository s r in add_repositories s rs
  end.

(** *** The bytes on disk *)

Definition add_bytes (total bytes : Z) : Z :=
  if wrap64 (maxInt64 - total) <? bytes then maxInt64 else wrap64 (total + bytes).

Definition store_usage (s : Server) : Z :=
  foldl (fun total m => add_bytes total (fst (Store.Size (store m)))) 0 (stores (pool s)).

(** The private packages of the [i]-th repository, which lie below its store's root. *)
Definition private_usage (s : Server) (i : nat) (p : PyPi.Proxy) : result new_error Z :=
  let files := match stores (pool s) !! i with Some m => Store.files (store m) | None => ∅ end in
  match LocalPackages.PrivateSize io (rootWalk boot (PyPi.localPath p)) files with
  | (bytes, None) => Ok bytes
  | (_, Some e) => Err (RepositoryFailed (PyPi.name p) (PrivateUsage e))
  end.

Fixpoint add_private (s : Server) (i : nat) (rs : list Repo) (total : Z) : result new_error Z :=
  match rs with
  | [] => Ok total
  | mkRepo (PyPiProxy p) _ :: rs =>
      let? bytes := private_usage s i p in add_private s (S i) rs (add_bytes total bytes)
  | _ :: rs => add_private s (S i) rs total
  end.

Definition bounded : bool :=
  (0 <? Config.MaxBytes (Config.storage cfg)) || (0 <? Config.MinFreeBytes (Config.storage cfg)).

Definition new_budget (committed : Z) (p : Pool) : Pool :=
  let st := Config.storage cfg in
  if bounded then
    set_budget (Some (Storage.NewController (Config.MaxBytes st) (Config.HighWatermark st) (Config.LowWatermark st)
                        (Config.MinFreeBytes st) committed)) p
  else p.

Definition startup_gc (s : Server) : result new_error Server :=
  if 0 <? maxAge s then
    let '(run, _, s) := run_gc (around boot) Maintenance.TriggerStartup (gcBegin boot) (gcFinish boot) s in
    match run with
    | Some run => if nonempty (Maintenance.Error run) then Err (StartupGC (Maintenance.Error run)) else Ok s
    | None => Ok s
    end
  else Ok s.

(** The server's own routes, in the order of registration. *)
Definition own_routes : list (string * route) :=
  [("/healthz", Health); ("/api/v1/status", Status); ("/api/v1/operator", OperatorStatus);
   ("/api/v1/operator/gc", OperatorGC); ("/api/v1/repositories/", RepositoryAPI); ("/metrics", Metrics);
   ("/", Dashboard)].

Fixpoint register_own (rs : list (string * route)) (m : list (string * route))
    : result new_error (list (string * route)) :=
  match rs with
  | [] => Ok m
  | (pattern, to) :: rs =>
      match register pattern to m with
      | None => Err (ServerRoute pattern)
      | Some m => register_own rs m
      end
  end.

Definition empty_server (version : string) : Server :=
  mkServer version (TrimRight (Config.PublicBaseURL (Config.server cfg)) "/") (startTime boot) [] ∅
    (mkPool [] None) (Config.MaxAge (Config.storage cfg)) (Config.GCInterval (Config.storage cfg))
    (Config.StoragePath (Config.storage cfg)) Maintenance.New EmptyString [].

Definition New (version : string) : result new_error Server :=
  let? token := fail_as OperatorToken (optional_token (Config.TokenFile (Config.operator cfg))) in
  let? s := add_repositories (set_operatorToken token (empty_server version)) (Config.Repositories cfg) in
  let? committed := add_private s 0 (repositories s) (store_usage s) in
  let? s := startup_gc (set_pool (new_budget committed (pool s)) s) in
  let? m := register_own own_routes (mux s) in
  Ok (set_mux m s).

End New.
