(* ===== verification/ServerHttp.v ===== *)
(** * The server's own handlers

    The operator endpoints, the status documents, the metrics and the dashboard of
    [internal/httpserver], and the dispatch of a request to them or to a repository. *)

From S2P Require Import Prelude Float GoStrings Strconv Url Http Time Metadata Fs Handler Mux Server.
From S2P Require Storage Maintenance Store Npm Oci PyPi.
From Stdlib Require Import Ascii String.
Local Open Scope string_scope.
Local Open Scope Z_scope.

(** ** Answers *)

Record statusResponse := mkStatus {
  StatusVersion : string;
  StatusText : string;
  StatusUptime : Z;                        (* rounded to seconds *)
  StatusRepositories : list Handler.Snapshot
}.

Record operatorStorage := mkOperatorStorage {
  StorageSnapshot : option Storage.Snapshot;   (* the zero snapshot without a budget *)
  FilesystemFreeBytes : Z;
  Bounded : bool
}.

Record operatorResponse := mkOperator {
  GeneratedAt : Time;
  OperatorVersion : string;
  OperatorState : string;
  UptimeSeconds : Z;
  OperatorStorage : operatorStorage;
  OperatorGCState : Maintenance.Snapshot;
  OperatorRepositories : list Handler.Snapshot
}.

(** The documents whose rendering is left out. *)
Inductive payload :=
  | Text (s : string)
  | StatusDocument (d : statusResponse)
  | OperatorDocument (d : operatorResponse)
  | RunDocument (run : option Maintenance.Run)
  | DashboardPage (version publicURL : string).

Record answer := mkAnswer { code : Z; answerHeader : Header; body : payload }.

Definition error_answer (message : string) (status : Z) (h : Header) : answer :=
  mkAnswer status
    (Set_ (Set_ (Del h "Content-Length") "Content-Type" "text/plain; charset=utf-8")
       "X-Content-Type-Options" "nosniff")
    (Text (message ++ newline)).

Definition not_found (h : Header) : answer := error_answer "404 page not found" 404 h.
Definition writeJSON (status : Z) (document : payload) (h : Header) : answer :=
  mkAnswer status (Set_ h "Content-Type" "application/json") document.

Definition securityHeaders (h : Header) : Header :=
  Set_ (Set_ (Set_ h "Content-Security-Policy"
                "default-src 'self'; style-src 'unsafe-inline'; script-src 'unsafe-inline'")
          "Referrer-Policy" "no-referrer") "X-Content-Type-Options" "nosniff".

(** The clocks and the file system as a handler finds them. *)
Record Now := mkNow {
  now : Time;
  finish : Time;
  freeBytes : option Z;
  collecting : Surroundings
}.

Section Handlers.
Context {codec : MetadataCodec} (env : Now) (s : Server).

Definition health (path : string) (h : Header) : answer :=
  if negb (path =? "/healthz")%string then not_found h
  else mkAnswer 200 (Set_ h "Content-Type" "application/json")
         (Text ("{" ++ String quote ("status" ++ String quote (":" ++ String quote ("ok" ++ String quote "}"))))).

Definition store_at (i : nat) : Store.Store :=
  match stores (pool s) !! i with
  | Some m => store m
  | None => Store.mkStore EmptyString 0 0 None ∅ ∅
  end.

Definition repo_snapshot (i : nat) (r : Repo) : Handler.Snapshot :=
  match proxy r with
  | NpmProxy p => Npm.Snapshot p (repoStats r) (store_at i)
  | OciProxy p => Oci.Snapshot p (repoStats r) (store_at i)
  | PyPiProxy p => PyPi.Snapshot p (repoStats r) (store_at i)
  end.

Definition snapshots : list Handler.Snapshot := imap repo_snapshot (repositories s).

Definition uptime : Z := Sub (now env) (started s).

(** [Duration.Round(time.Second)]: half a second rounds away from zero. *)
Definition round_second (d : Z) : Z :=
  let r := Z.rem d nanos in
  if d <? 0 then (if - r + - r <? nanos then d - r else Z.max minInt64 (d - r - nanos))
  else (if r + r <? nanos then d - r else Z.min maxInt64 (d + nanos - r)).

Definition status (path : string) (h : Header) : answer :=
  if negb (path =? "/api/v1/status")%string then not_found h
  else writeJSON 200 (StatusDocument (mkStatus (version s) "ok" (round_second uptime) snapshots)) h.

Definition operatorStatus (method path : string) (h : Header) : answer :=
  if negb (path =? "/api/v1/operator")%string then not_found h
  else if negb (method =? "GET")%string && negb (method =? "HEAD")%string
  then error_answer "method not allowed" 405 (Set_ h "Allow" "GET, HEAD")
  else
    let state := if is_Some_b (budget (pool s)) && is_Some_b (freeBytes env) then "ok" else "degraded" in
    writeJSON 200
      (OperatorDocument
         (mkOperator (now env) (version s) state (f64_trunc (Seconds uptime))
            (mkOperatorStorage (Storage.SnapshotOf <$> budget (pool s)) (default 0 (freeBytes env))
               (is_Some_b (budget (pool s))))
            (Maintenance.SnapshotOf (gc s)) snapshots)) h.

Definition unauthorized (h : Header) : answer :=
  error_answer "unauthorized" 401
    (Set_ h "WWW-Authenticate" ("Bearer realm=" ++ String quote ("n0ding-operator" ++ String quote EmptyString))).

Definition operatorGC (method path authorization : string) (h : Header) : answer * Server :=
  if negb (path =? "/api/v1/operator/gc")%string || (operatorToken s =? EmptyString)%string then (not_found h, s)
  else if negb (method =? "POST")%string then (error_answer "method not allowed" 405 (Set_ h "Allow" "POST"), s)
  else if negb (HasPrefix authorization "Bearer ") then (unauthorized h, s)
  else
    let provided := TrimPrefix authorization "Bearer " in
    if negb (String.length provided =? String.length (operatorToken s))%nat
       || negb (provided =? operatorToken s)%string
    then (unauthorized h, s)
    else
      let '(run, accepted, s) := run_gc (collecting env) Maintenance.TriggerOperator (now env) (finish env) s in
      let failed := match run with Some run => nonempty (Maintenance.Error run) | None => false end in
      let status := if negb accepted then 409 else if failed then 500 else 200 in
      (* the status is sent before the content type is set *)
      (if status =? 200 then writeJSON 200 (RunDocument run) h else mkAnswer status h (RunDocument run), s).

Definition setup_snippet (r : Repo) : string :=
  match proxy r with
  | NpmProxy p => Npm.SetupSnippet p
  | OciProxy p => Oci.SetupSnippet p
  | PyPiProxy p => PyPi.SetupSnippet p
  end.

Definition repositoryAPI (path : string) (h : Header) : answer :=
  let '(name, action, ok) := Cut (TrimPrefix path "/api/v1/repositories/") "/" in
  if negb ok || negb (action =? "setup")%string then not_found h
  else match i ← byName s !! name; repositories s !! i with
  | None => not_found h
  | Some r => mkAnswer 200 (Set_ h "Content-Type" "text/plain; charset=utf-8") (Text (setup_snippet r))
  end.

(** *** Metrics *)

Definition line (text : string) : string := text ++ newline.

Definition boolMetric (value : bool) : Z := if value then 1 else 0.

Definition announce (name help type : string) : string :=
  line ("# HELP " ++ name ++ " " ++ help) ++ line ("# TYPE " ++ name ++ " " ++ type).

Definition gauge (name help type : string) (value : Z) : string :=
  announce name help type ++ line (name ++ " " ++ FormatInt value).

Definition repository_lines (snap : Handler.Snapshot) : string :=
  let label := "repository=" ++ Quote (SnapName snap) ++ ",type=" ++ Quote (SnapType snap) in
  let metric name value := line (name ++ "{" ++ label ++ "} " ++ FormatInt value) in
  metric "n0ding_repository_requests_total" (SnapRequests snap)
  ++ metric "n0ding_repository_cache_hits_total" (SnapHits snap)
  ++ metric "n0ding_repository_cache_misses_total" (SnapMisses snap)
  ++ metric "n0ding_repository_errors_total" (SnapErrors snap)
  ++ metric "n0ding_repository_client_canceled_total" (SnapClientCanceled snap)
  ++ metric "n0ding_repository_range_requests_total" (SnapRangeRequests snap)
  ++ metric "n0ding_repository_storage_bytes" (SnapStorageBytes snap)
  ++ metric "n0ding_repository_cache_objects" (SnapCacheObjects snap).

Definition repository_help : string :=
  announce "n0ding_repository_requests_total" "Repository requests received." "counter"
  ++ announce "n0ding_repository_cache_hits_total" "Repository requests served from cache." "counter"
  ++ announce "n0ding_repository_cache_misses_total" "Repository cache misses." "counter"
  ++ announce "n0ding_repository_errors_total" "Repository request errors." "counter"
  ++ announce "n0ding_repository_client_canceled_total" "Repository requests canceled by clients." "counter"
  ++ announce "n0ding_repository_range_requests_total" "Repository byte-range requests." "counter"
  ++ announce "n0ding_repository_storage_bytes" "Complete cached body bytes by repository." "gauge"
  ++ announce "n0ding_repository_cache_objects" "Complete cached objects by repository." "gauge".

Definition storage_lines (st : Storage.Snapshot) : string :=
  gauge "n0ding_storage_committed_bytes" "Bytes committed to complete cache objects." "gauge"
    (Storage.CommittedBytes st)
  ++ gauge "n0ding_storage_reserved_bytes" "Bytes reserved by in-flight cache writes." "gauge"
       (Storage.ReservedBytes st)
  ++ gauge "n0ding_storage_max_bytes" "Configured global cache budget." "gauge" (Storage.MaxBytes st)
  ++ gauge "n0ding_storage_pressure" "Whether usage is at or above the high watermark." "gauge"
       (boolMetric (Storage.Pressure st))
  ++ gauge "n0ding_storage_bypass_objects_total" "Objects proxied without cache admission." "counter"
       (Storage.BypassObjects st)
  ++ gauge "n0ding_storage_bypass_bytes_total" "Known bytes proxied without cache admission." "counter"
       (Storage.BypassBytes st).

Definition gc_lines (g : Maintenance.Snapshot) : string :=
  gauge "n0ding_gc_running" "Whether a garbage collection run is active." "gauge"
    (boolMetric (match Maintenance.SnapState g with Maintenance.Running => true | Maintenance.Idle => false end))
  ++ match Maintenance.Last g with
     | None => EmptyString
     | Some run =>
         gauge "n0ding_gc_last_removed_bytes" "Bytes removed by the last garbage collection run." "gauge"
           (Maintenance.RemovedBytes (Maintenance.RunResult run))
         ++ gauge "n0ding_gc_last_errors" "Errors recorded by the last garbage collection run." "gauge"
              (Maintenance.Errors (Maintenance.RunResult run))
         ++ match Maintenance.FinishedAt run with
            | Some t => gauge "n0ding_gc_last_finished_timestamp_seconds"
                          "Unix timestamp when the last garbage collection run finished." "gauge" (t / nanos)
            | None => EmptyString
            end
     end.

Definition metrics (path : string) (h : Header) : answer :=
  if negb (path =? "/metrics")%string then not_found h
  else mkAnswer 200 (Set_ h "Content-Type" "text/plain; version=0.0.4")
         (Text (repository_help ++ String.concat EmptyString (map repository_lines snapshots)
                ++ match budget (pool s) with
                   | Some c => storage_lines (Storage.SnapshotOf c)
                   | None => EmptyString
                   end
                ++ gc_lines (Maintenance.SnapshotOf (gc s)))).

Definition dashboard (path : string) (h : Header) : answer :=
  if negb (path =? "/")%string then not_found h
  else mkAnswer 200 (Set_ h "Content-Type" "text/html; charset=utf-8") (DashboardPage (version s) (publicURL s)).

(** *** Dispatch *)

(** What a request comes to: an answer of the server's own, a repository with the
    header its handler starts with, or the multiplexer's redirect. *)
Inductive dispatched :=
  | Answered (a : answer)
  | Delegated (i : nat) (h : Header)
  | Redirected (path : string) (h : Header).

Definition own_handler (to : route) (request : Request) (path : string) (h : Header) : dispatched * Server :=
  let m := Method request in
  match to with
  | ToRepository i => (Delegated i h, s)
  | Health => (Answered (health path h), s)
  | Status => (Answered (status path h), s)
  | OperatorStatus => (Answered (operatorStatus m path h), s)
  | OperatorGC =>
      let '(a, s) := operatorGC m path (Get (ReqHeader request) "Authorization") h in (Answered a, s)
  | RepositoryAPI => (Answered (repositoryAPI path h), s)
  | Metrics => (Answered (metrics path h), s)
  | Dashboard => (Answered (dashboard path h), s)
  end.

Definition ServeHTTP (request : Request) (url : URL) : dispatched * Server :=
  let h := securityHeaders ∅ in
  match decide_route (mux s) url with
  | Handle to => own_handler to request (Path url) h
  | Redirect path => (Redirected path h, s)
  | NoHandler => (Answered (not_found h), s)
  end.

End Handlers.

(** ** A repository's handler on the server's state: its own store and counters, and the
    budget that all stores share. *)

Section Repositories.
Context {codec : MetadataCodec} {html : PyPi.HtmlLib} (env : Handler.Env).

(** A request to a repository, with the form an upload carries. *)
Record Call := mkCall { request : Request; url : URL; contentLength : Z; form : option PyPi.Form }.

Definition handle (p : Proxy) (c : Call) : M unit :=
  match p with
  | NpmProxy p => Npm.ServeHTTP p env (request c) (url c)
  | OciProxy p => Oci.ServeHTTP p env (request c) (url c)
  | PyPiProxy p => PyPi.ServeHTTP p env (request c) (url c) (contentLength c) (form c)
  end.

(** The world the handler of [r] starts in. *)
Definition world_of (m : managedStore) (r : Repo) (h : Header) : World :=
  mkWorld (store m) (repoStats r) (mkReply h None EmptyString) [].

Definition handled (m : managedStore) (r : Repo) (c : Call) (h : Header) : World :=
  snd (handle (proxy r) c (world_of m r h)).

Definition put_world (i : nat) (w : World) (s : Server) : Server :=
  set_repositories (alter (fun r => mkRepo (proxy r) (stats w)) i (repositories s))
    (set_pool (set_budget (Store.controller (cacheStore w)) (put_store i (cacheStore w) (pool s))) s).

Definition serve_repository (s : Server) (i : nat) (c : Call) (h : Header) : option (Reply * Server) :=
  r ← repositories s !! i;
  m ← stores (pool s) !! i;
  let w := handled m r c h in Some (reply w, put_world i w s).

(** The whole of a request: what it comes to, the reply if a repository gave one. *)
Definition respond (now : Now) (s : Server) (c : Call) : dispatched * option Reply * Server :=
  match ServeHTTP now s (request c) (url c) with
  | (Delegated i h, s) =>
      match serve_repository s i c h with
      | Some (r, s) => (Delegated i h, Some r, s)
      | None => (Delegated i h, None, s)
      end
  | (d, s) => (d, None, s)
  end.

End Repositories.
