(* ===== verification/ServerFacts.v ===== *)
(** * Maintenance over all stores: lemmas

    The stores and the budget they share are in good order when every store is, when
    they hold the same budget, and when it counts at least what they hold.  Evictions and
    collections keep that order and account for what they take. *)

From stdpp Require Import sorting.
From S2P Require Import Prelude GoStrings FilePath Time Metadata Fs StoreFacts StoreOps StoreSystem StoreTheorems Server.
From S2P Require Storage Maintenance Store.
From Stdlib Require Import Ascii String.
Local Open Scope string_scope.
Local Open Scope Z_scope.

Section Facts.
Context {codec : MetadataCodec}.

Abbreviation bytes_of m := (usage_bytes (Store.files (store m))).

Definition sum_bytes (ms : list managedStore) : Z := foldr (fun m total => bytes_of m + total) 0 ms.
Definition pool_usage (p : Pool) : Z := sum_bytes (stores p).

Record pool_ok (p : Pool) : Prop := {
  po_stores : Forall (fun m => store_ok (store m)) (stores p);
  po_shared : Forall (fun m => Store.controller (store m) = budget p) (stores p);
  po_budget : forall c, budget p = Some c -> pool_usage p <= Storage.committedBytes c <= maxInt64
}.

(** An entry of the pool, by the index of its store and the path of its metadata. *)
Definition entry_of (p : Pool) (key : nat * string) : option (Metadata * string * node) :=
  m ← stores p !! fst key; entries (Store.files (store m)) !! snd key.

(** The names and the roots of the stores, which nothing changes. *)
Definition shape (p : Pool) : list (string * string) :=
  map (fun m => (storeName m, Store.root (store m))) (stores p).

Lemma shape_put (p : Pool) (i : nat) (m : managedStore) (s : Store.Store) :
  stores p !! i = Some m -> Store.root s = Store.root (store m) -> shape (put_store i s p) = shape p.
Proof.
  unfold shape, put_store. cbn [stores]. intros Hi Hr. revert i Hi.
  induction (stores p) as [|m' ms IH]; intros [|i] Hi; [done..| |]; cbn.
  - injection Hi as ->. by rewrite Hr.
  - f_equal. by apply IH.
Qed.

Lemma shape_budget (b : Z) (p : Pool) : shape (budget_remove b p) = shape p.
Proof.
  unfold budget_remove, shape. destruct (budget p); [|done]. cbn [stores set_budget]. by rewrite map_map.
Qed.

(** ** Sums *)

Lemma usage_nonneg (s : Store.Store) : 0 <= usage_bytes (Store.files s).
Proof. apply map_sum_nonneg. intros k [[m b] n] _. unfold entry_size, size_of. cbn. lia. Qed.

Lemma sum_bytes_nonneg (ms : list managedStore) : 0 <= sum_bytes ms.
Proof.
  induction ms as [|m ms IH]; [done|]. cbn [sum_bytes foldr]. fold (sum_bytes ms).
  pose proof (usage_nonneg (store m)). lia.
Qed.

Lemma sum_bytes_alter (ms : list managedStore) (i : nat) (m : managedStore) (s : Store.Store) :
  ms !! i = Some m ->
  sum_bytes (alter (fun m => mkManaged (storeName m) s) i ms)
  = sum_bytes ms - bytes_of m + usage_bytes (Store.files s).
Proof.
  revert i. induction ms as [|m' ms IH]; intros [|i] Hi; [done..| |].
  - injection Hi as ->. cbn. lia.
  - cbn [alter list_alter]. cbn [sum_bytes foldr]. fold (sum_bytes ms).
    specialize (IH i Hi). cbn [alter] in IH. unfold sum_bytes at 1 in IH. rewrite IH. lia.
Qed.

Lemma sum_bytes_share (ms : list managedStore) (c : option Storage.Controller) :
  sum_bytes (map (share c) ms) = sum_bytes ms.
Proof. induction ms as [|m ms IH]; [done|]. cbn. unfold sum_bytes in IH. by rewrite IH. Qed.

Lemma sum_bytes_elem (ms : list managedStore) (i : nat) (m : managedStore) :
  ms !! i = Some m -> bytes_of m <= sum_bytes ms.
Proof.
  revert i. induction ms as [|m' ms IH]; intros [|i] Hi; [done..| |]; cbn [sum_bytes foldr]; fold (sum_bytes ms).
  - injection Hi as ->. pose proof (sum_bytes_nonneg ms). lia.
  - pose proof (IH i Hi). pose proof (usage_nonneg (store m')). lia.
Qed.

(** ** The budget *)

Lemma Remove_exact (c : Storage.Controller) (b : Z) :
  0 <= b <= Storage.committedBytes c -> Storage.committedBytes c <= maxInt64 ->
  Storage.committedBytes (Storage.Remove c b) = Storage.committedBytes c - b.
Proof.
  intros Hb Hc. unfold Storage.Remove. destruct (Z.leb_spec b 0); [lia|].
  cbn [Storage.set_committed Storage.committedBytes]. rewrite wrap64_id by int64_lia.
  destruct (Z.ltb_spec (Storage.committedBytes c - b) 0); [lia|done].
Qed.

(** What an operation of one store leaves, and the budget without the bytes it took. *)
Lemma pool_after (p : Pool) (i : nat) (m : managedStore) (s : Store.Store) (b : Z) :
  pool_ok p -> stores p !! i = Some m -> store_ok s -> 0 <= b ->
  usage_bytes (Store.files s) = bytes_of m - b -> Store.controller s = budget p ->
  Store.root s = Store.root (store m) ->
  let p' := budget_remove b (put_store i s p) in
  pool_ok p' /\ pool_usage p' = pool_usage p - b
  /\ List.length (stores p') = List.length (stores p)
  /\ (forall c, budget p = Some c -> exists c', budget p' = Some c'
        /\ Storage.committedBytes c' = Storage.committedBytes c - b)
  /\ (budget p = None -> budget p' = None) /\ shape p' = shape p.
Proof.
  intros [Hs Hc Hb] Hi Hok Hb0 Hu Hctl Hroot. cbv zeta. rewrite shape_budget, (shape_put _ _ m) by done. set (q := put_store i s p).
  assert (pool_usage q = pool_usage p - b) as Eq.
  { unfold pool_usage, q, put_store. cbn [stores]. rewrite (sum_bytes_alter _ _ m) by done. lia. }
  assert (Forall (fun m => store_ok (store m)) (stores q)) as Hsq
    by (apply Forall_alter; [done|]; intros ? _ _; exact Hok).
  assert (Forall (fun m => Store.controller (store m) = budget p) (stores q)) as Hcq
    by (apply Forall_alter; [done|]; intros ? _ _; exact Hctl).
  pose proof (sum_bytes_nonneg (stores q)) as Hn. fold (pool_usage q) in Hn.
  unfold budget_remove. change (budget q) with (budget p). destruct (budget p) as [c|] eqn:Ec.
  - destruct (Hb c eq_refl) as [H1 H2].
    assert (Storage.committedBytes (Storage.Remove c b) = Storage.committedBytes c - b) as Er
      by (apply Remove_exact; lia).
    assert (pool_usage (set_budget (Some (Storage.Remove c b)) q) = pool_usage q) as Eu by apply sum_bytes_share.
    split_and!.
    + split; cbn [stores budget set_budget].
      * rewrite Forall_map. eapply Forall_impl; [exact Hsq|]. intros m' H. by apply store_ok_controller.
      * rewrite Forall_map. by apply Forall_true.
      * intros ? [= <-]. rewrite Eu, Er. lia.
    + by rewrite Eu.
    + unfold q, put_store. cbn [stores set_budget]. by rewrite length_map, length_alter.
    + intros ? [= <-]. by eexists.
    + done.
    + done.
  - split_and!; try done.
    + split; [done|..]; change (budget q) with (budget p); rewrite Ec; [exact Hcq|done].
    + unfold q, put_store. cbn [stores]. by rewrite length_alter.
Qed.

(** Sharing a budget changes no entry. *)
Lemma entry_of_budget (b : Z) (p : Pool) (key : nat * string) : entry_of (budget_remove b p) key = entry_of p key.
Proof.
  unfold entry_of, budget_remove. destruct (budget p); [|done]. cbn [stores set_budget].
  rewrite list_lookup_fmap. by destruct (stores p !! fst key).
Qed.

Lemma entry_of_put (p : Pool) (i : nat) (m : managedStore) (s : Store.Store) (key : nat * string) :
  stores p !! i = Some m ->
  entry_of (put_store i s p) key
  = if decide (fst key = i) then entries (Store.files s) !! snd key else entry_of p key.
Proof.
  intros Hi. unfold entry_of, put_store. cbn [stores]. destruct (decide (fst key = i)) as [->|Hne].
  - by rewrite list_lookup_alter_eq, Hi.
  - by rewrite list_lookup_alter_ne.
Qed.

(** ** An eviction *)

(** What stays the same about the environment: nothing interferes, nothing is refused. *)
Record undisturbed (env : Surroundings) : Prop := {
  un_io : forall c path, sysIO env c path = true;
  un_alone : forall n p, meanwhile env n p = p;
  un_context : forall n, canceled env n = None;
  un_walks : forall s, store_ok s -> full_walk (walkOf env s) s;
  un_proper : forall s, store_ok s -> Forall proper (Store.visited (walkOf env s))
}.

Lemma undisturbed_reads (env : Surroundings) : undisturbed env -> reads_ok (sysIO env).
Proof. intros H p. by rewrite !(un_io env H). Qed.

Definition key_of (item : pressureCandidate) : nat * string :=
  (storeIndex item, Store.metadataPath (candidate item)).
Definition bytes_of_item (item : pressureCandidate) : Z := Store.CandidateBytes (candidate item).

(** The candidate describes an entry of the pool. *)
Definition current (p : Pool) (item : pressureCandidate) : Prop :=
  exists m n, entry_of p (key_of item) = Some (m, Store.bodyPath (candidate item), n)
    /\ bytes_of_item item = size_of n.

Lemma entry_of_Some (p : Pool) (key : nat * string) (e : Metadata * string * node) :
  entry_of p key = Some e ->
  exists m, stores p !! fst key = Some m /\ entries (Store.files (store m)) !! snd key = Some e.
Proof. unfold entry_of. destruct (stores p !! fst key) as [m|]; [|done]. eauto. Qed.

Lemma entry_path_proper (s : Store.Store) (path : string) (e : Metadata * string * node) :
  store_ok s -> entries (Store.files s) !! path = Some e -> proper path.
Proof.
  intros Hok He. apply (ok_wf s Hok). destruct e as [[m b] n]. rewrite lookup_entries in He.
  apply entry_at_Some in He as (_ & _ & Hm & _). apply readMetadata_Ok in Hm as (x & Hx & _). eauto.
Qed.

(** What an operation that takes the entries [gone] leaves. *)
Record takes (p p' : Pool) (gone : list (nat * string)) (bytes : Z) : Prop := {
  tk_ok : pool_ok p';
  tk_usage : pool_usage p' = pool_usage p - bytes;
  tk_length : List.length (stores p') = List.length (stores p);
  tk_budget : forall c, budget p = Some c -> exists c', budget p' = Some c'
    /\ Storage.committedBytes c' = Storage.committedBytes c - bytes;
  tk_unbounded : budget p = None -> budget p' = None;
  tk_shape : shape p' = shape p;
  tk_entries : forall key, entry_of p' key = if decide (key ∈ gone) then None else entry_of p key
}.

Lemma takes_nothing (p : Pool) : pool_ok p -> takes p p [] 0.
Proof.
  intros H. split; [done|lia|done| |done|done|].
  - intros c Hc. exists c. by rewrite Z.sub_0_r.
  - intros key. destruct (decide (key ∈ [])) as [Hk|]; [by apply elem_of_nil in Hk|done].
Qed.

Lemma takes_trans (p1 p2 p3 : Pool) (g1 g2 : list (nat * string)) (b1 b2 : Z) :
  takes p1 p2 g1 b1 -> takes p2 p3 g2 b2 -> takes p1 p3 (g1 ++ g2)%list (b1 + b2).
Proof.
  intros [A1 A2 A3 A4 A5 A7 A6] [B1 B2 B3 B4 B5 B7 B6]. split; [done|lia|congruence|..].
  - intros c Hc. destruct (A4 c Hc) as (c' & Hc' & E). destruct (B4 c' Hc') as (c'' & Hc'' & E').
    exists c''. split; [done|lia].
  - auto.
  - congruence.
  - intros key. rewrite B6, A6. destruct (decide (key ∈ g1)), (decide (key ∈ g2)), (decide (key ∈ (g1 ++ g2)%list)) as [H|H];
      try done; rewrite elem_of_app in H; tauto.
Qed.

Lemma RemoveCandidate_calm (env : Surroundings) (s : Store.Store) (c : Store.Candidate) (m : Metadata) (n : node) :
  undisturbed env -> store_ok s ->
  entries (Store.files s) !! Store.metadataPath c = Some (m, Store.bodyPath c, n) ->
  Store.CandidateBytes c = size_of n ->
  exists s', Store.RemoveCandidate (sysIO env) s c = (true, None, s')
    /\ entries (Store.files s') = delete (Store.metadataPath c) (entries (Store.files s)).
Proof.
  intros Hun Hok He Hsz. pose proof (entry_path_proper _ _ _ Hok He) as Hp.
  pose proof (RemoveCandidate_effect (sysIO env) s c (undisturbed_reads _ Hun) Hok Hp) as H.
  destruct (RemoveCandidate_cases (sysIO env) s c (undisturbed_reads _ Hun) (ok_torn _ Hok))
    as [[e E]|(m' & n' & l & He' & _ & _ & E)].
  - rewrite E in H. destruct H as (_ & _ & H). by specialize (H m n He (eq_sym Hsz) (un_io env Hun _ _)).
  - rewrite E in H |- *. cbv zeta in *. destruct (without_body_ok s _ _ _ _ Hok Hp He') as (_ & _ & _ & Hne).
    rewrite lookup_entries in He. assert (is_Some (Store.files (without_body s (Store.bodyPath c) n') !! Store.metadataPath c)) as [x Hx].
    { apply entry_at_Some in He as (_ & _ & Hm & _). apply readMetadata_Ok in Hm as (x & Hx & _).
      exists x. cbn. by rewrite lookup_delete_ne. }
    unfold os_Remove, guard_call in *. rewrite (un_io env Hun), Hx in H |- *. eexists. split; [done|].
    destruct H as (_ & H & _). destruct (H eq_refl) as (? & ? & _ & _ & Hd & _). exact Hd.
Qed.

Lemma pressure_visit_takes (env : Surroundings) (p : Pool) (item : pressureCandidate) (r : Maintenance.Result) :
  undisturbed env -> pool_ok p -> current p item ->
  exists p', pressure_visit env item r p = (count_removed (bytes_of_item item) r, p')
    /\ takes p p' [key_of item] (bytes_of_item item).
Proof.
  intros Hun Hp (md & n & He & Hsz). destruct (entry_of_Some _ _ _ He) as (m & Hi & Hm). cbn [fst snd key_of] in Hi, Hm.
  pose proof (Forall_lookup_1 _ _ _ _ (po_stores p Hp) Hi) as Hok. cbn beta in Hok.
  pose proof (Forall_lookup_1 _ _ _ _ (po_shared p Hp) Hi) as Hsh. cbn beta in Hsh.
  pose proof (entry_path_proper _ _ _ Hok Hm) as Hpr. pose proof (undisturbed_reads _ Hun) as Hio.
  destruct (RemoveCandidate_ok (sysIO env) (store m) (candidate item) Hio Hok Hpr) as [Hok' Htr].
  destruct (RemoveCandidate_calm env (store m) (candidate item) md n Hun Hok Hm) as (s' & Er & Ee); [done|].
  unfold pressure_visit. rewrite Hi, Er. rewrite Er in Hok', Htr. cbn [snd] in Hok', Htr. cbn [is_Some_b].
  eexists. split; [done|]. fold (bytes_of_item item).
  destruct (usage_delete _ _ _ _ _ _ Hm Ee) as [Hu _].
  destruct (pool_after p (storeIndex item) m s' (bytes_of_item item) Hp Hi Hok') as (A1 & A2 & A3 & A4 & A5 & A6).
  - rewrite Hsz. unfold size_of. lia.
  - rewrite Hsz. lia.
  - rewrite (trim_controller _ _ Htr). exact Hsh.
  - apply Htr.
  - split; try done. intros key. rewrite entry_of_budget, (entry_of_put p _ m) by done.
    unfold key_of. destruct key as [i path]. cbn [fst snd]. destruct (decide (i = storeIndex item)) as [->|Hne].
    + rewrite Ee. destruct (decide _) as [Hk%list_elem_of_singleton|Hk].
      * injection Hk as ->. apply lookup_delete_eq.
      * rewrite lookup_delete_ne; [|intros <-; apply Hk; by apply list_elem_of_singleton].
        unfold entry_of. cbn [fst snd]. by rewrite Hi.
    + rewrite decide_False; [done|]. by intros [= -> _]%list_elem_of_singleton.
Qed.

Definition sum_items (items : list pressureCandidate) : Z :=
  foldr (fun item total => bytes_of_item item + total) 0 items.

Lemma current_after (p p' : Pool) (gone : list (nat * string)) (b : Z) (item : pressureCandidate) :
  takes p p' gone b -> key_of item ∉ gone -> current p item -> current p' item.
Proof.
  intros Ht Hn (m & n & He & Hs). exists m, n. rewrite (tk_entries _ _ _ _ Ht), decide_False by done. done.
Qed.

(** The candidates are taken in their order, until enough is removed and no longer. *)
Lemma pressure_loop_takes (env : Surroundings) (toRemove : Z) (k : nat) (items : list pressureCandidate)
    (r : Maintenance.Result) (p : Pool) :
  undisturbed env -> pool_ok p -> Forall (current p) items -> NoDup (map key_of items) ->
  0 <= Maintenance.RemovedBytes r -> Maintenance.RemovedBytes r + pool_usage p <= maxInt64 ->
  exists taken rest r' p', items = (taken ++ rest)%list
    /\ pressure_loop env toRemove k items r p = (r', None, p')
    /\ takes p p' (map key_of taken) (sum_items taken)
    /\ Maintenance.RemovedBytes r' = Maintenance.RemovedBytes r + sum_items taken
    /\ (rest = [] \/ toRemove <= Maintenance.RemovedBytes r')
    /\ forall before last, taken = (before ++ [last])%list ->
         Maintenance.RemovedBytes r + sum_items before < toRemove.
Proof.
  intros Hun. revert k r p. induction items as [|item items IH]; intros k r p Hp Hc Hnd Hr Hmax.
  { exists [], [], r, p. split_and!; try done; [by apply takes_nothing|cbn; lia|by left|].
    intros before last E. by destruct before. }
  cbn [pressure_loop]. rewrite (un_alone env Hun), (un_context env Hun).
  destruct (Z.leb_spec toRemove (Maintenance.RemovedBytes r)) as [Hle|Hlt].
  { exists [], (item :: items), r, p. split_and!; try done; [by apply takes_nothing|cbn; lia|by right|].
    intros before last E. by destruct before. }
  apply Forall_cons in Hc as [Hcur Hc]. cbn [map] in Hnd. apply NoDup_cons in Hnd as [Hnin Hnd].
  destruct (pressure_visit_takes env p item r Hun Hp Hcur) as (p1 & -> & Ht).
  pose proof (tk_usage _ _ _ _ Ht) as Hu. pose proof (sum_bytes_nonneg (stores p1)) as Hn. fold (pool_usage p1) in Hn.
  assert (0 <= bytes_of_item item) as Hb by (destruct Hcur as (? & n & _ & ->); unfold size_of; lia).
  assert (Maintenance.RemovedBytes (count_removed (bytes_of_item item) r)
    = Maintenance.RemovedBytes r + bytes_of_item item) as Er by (cbn; apply wrap64_id; int64_lia).
  destruct (IH (S k) (count_removed (bytes_of_item item) r) p1) as (taken & rest & r' & p' & -> & El & Ht' & Es & He & Hl);
    [by apply Ht| |done|rewrite Er; lia|rewrite Er; lia|].
  { rewrite Forall_forall in Hc |- *. intros x Hx. eapply current_after; [exact Ht| |by apply Hc].
    intros Hk%list_elem_of_singleton. apply Hnin. rewrite <- Hk. by apply list_elem_of_fmap_2. }
  exists (item :: taken), rest, r', p'. split_and!; [done|exact El| | |done|].
  - exact (takes_trans _ _ _ _ _ _ _ Ht Ht').
  - rewrite Es, Er. cbn. unfold sum_items. lia.
  - intros before last E. destruct before as [|x before]; [cbn; lia|]. injection E as <- E.
    specialize (Hl _ _ E). rewrite Er in Hl. cbn. unfold sum_items in *. lia.
Qed.

(** ** The candidates of all stores *)

Definition describes_entry (p : Pool) (item : pressureCandidate) : Prop :=
  exists m n, entry_of p (key_of item) = Some (m, Store.bodyPath (candidate item), n)
    /\ bytes_of_item item = size_of n
    /\ Store.LastUsed (candidate item) = (if IsZero (mtime n) then StoredAt m else mtime n).

Lemma pressure_candidates_spec (env : Surroundings) (ms : list managedStore) (i : nat) :
  undisturbed env -> Forall (fun m => store_ok (store m)) ms ->
  exists items, pressure_candidates env i ms = Ok items
    /\ NoDup (map key_of items)
    /\ (forall item, item ∈ items -> (i <= storeIndex item)%nat)
    /\ forall item, item ∈ items <->
         exists m j, ms !! j = Some m /\ storeIndex item = (i + j)%nat
           /\ exists md n, entries (Store.files (store m)) !! Store.metadataPath (candidate item)
                = Some (md, Store.bodyPath (candidate item), n)
              /\ bytes_of_item item = size_of n
              /\ Store.LastUsed (candidate item) = (if IsZero (mtime n) then StoredAt md else mtime n).
Proof.
  intros Hun. revert i. induction ms as [|m ms IH]; intros i Hok.
  { exists []. split_and!; [done|constructor|by intros item H%elem_of_nil|]. intros item.
    split; [by intros H%elem_of_nil|by intros (? & ? & ? & _)]. }
  apply Forall_cons in Hok as [Hm Hok]. cbn [pressure_candidates].
  pose proof (Candidates_effect (sysIO env) (walkOf env (store m)) (store m) (undisturbed_reads _ Hun)
    (un_walks env Hun _ Hm)) as H.
  destruct (Store.Candidates _ _ _) as [cs err]. destruct H as (-> & _ & Hnd & Hcs).
  destruct (IH (S i) Hok) as (items & -> & Hnd' & Hge & Hit). eexists. split; [done|].
  assert (forall item, item ∈ map (mkPressure i) cs <-> storeIndex item = i /\ candidate item ∈ cs) as Hmap.
  { intros [j c]. cbn. rewrite list_elem_of_fmap. split; [intros (c' & [= -> ->] & ?); done|].
    intros [-> ?]. by exists c. }
  split_and!.
  - rewrite map_app, NoDup_app. split_and!; [| |done].
    + rewrite map_map. cbn. rewrite <- (map_map Store.metadataPath (pair i)).
      by apply NoDup_fmap_2; [intros a b [=]|].
    + intros key (item & -> & [Hi _]%Hmap)%list_elem_of_fmap (item' & E & Hin%Hge)%list_elem_of_fmap.
      injection E as E _. lia.
  - intros item [[-> _]%Hmap|Hin%Hge]%elem_of_app; lia.
  - intros item. rewrite elem_of_app, Hmap, Hit, Hcs. split.
    + intros [[-> (md & n & H)]|(m' & j & Hj & -> & H)].
      * exists m, 0%nat. split_and!; [done|lia|by exists md, n].
      * exists m', (S j). split_and!; [done|lia|done].
    + intros (m' & [|j] & Hj & E & md & n & H).
      * injection Hj as <-. left. split; [lia|by exists md, n].
      * right. exists m', j. split_and!; [done|lia|by exists md, n].
Qed.

End Facts.
