(* ===== verification/ServerKeeps.v ===== *)
(** * What maintenance keeps, whatever fails

    Collections and evictions among requests that go on: any property of the pool that
    requests keep, and that taking entries out of one store keeps, holds at their end.
    Two such properties: the good order of the pool, and every file that belongs to no
    cache entry, private packages among them. *)

From S2P Require Import Prelude GoStrings FilePath Time Metadata Fs StoreFacts StoreOps StoreSystem StoreTheorems PyPiText PyPiTextFacts PyPiOrder Server ServerFacts.
From S2P Require Storage Maintenance Store.
From Stdlib Require Import Ascii String.
Local Open Scope string_scope.
Local Open Scope Z_scope.

Section Keeps.
Context {codec : MetadataCodec}.

(** What an operation that takes entries out of a store and counts [b] bytes for them
    leaves of it. *)
Record shrinks (s s' : Store.Store) (b : Z) : Prop := {
  sh_ok : store_ok s';
  sh_trims : trims s s';
  sh_bytes : usage_bytes (Store.files s) <= maxInt64 ->
    0 <= b <= usage_bytes (Store.files s) - usage_bytes (Store.files s')
}.

Lemma shrinks_nothing (s : Store.Store) : store_ok s -> shrinks s s 0.
Proof. intros Hok. split; [done|done|lia]. Qed.

(** [s] lost entries of which nothing was counted. *)
Lemma shrinks_uncounted (s s' : Store.Store) : store_ok s' -> trims s s' -> shrinks s s' 0.
Proof.
  intros Hok Ht. split; [done|done|]. intros _. split; [done|].
  assert (usage_bytes (Store.files s') <= usage_bytes (Store.files s)); [|lia].
  apply map_sum_subseteq; [|apply Ht]. intros k [[m b] n] _. unfold entry_size, size_of. cbn. lia.
Qed.

Lemma GC_shrinks (io : oracle) (now : Time) (w : Store.Walk) (s : Store.Store) (maxAge : Z) :
  reads_ok io -> store_ok s -> Forall proper (Store.visited w) ->
  let '(g, err, s') := Store.GC io now w s maxAge in shrinks s s' (Store.GCBytes g) /\ shrinks s s' 0.
Proof.
  intros Hio Hok Hw. destruct (Z.leb_spec maxAge 0) as [Hle|Hgt].
  { unfold Store.GC. rewrite (proj2 (Z.leb_le _ _) Hle). by split; apply shrinks_nothing. }
  pose proof (GC_effect io now w s maxAge Hio Hok Hw Hgt) as H.
  destruct (GC_ok io now w s maxAge Hio Hok Hw) as [Hok' Ht].
  destruct (Store.GC _ _ _ _ _) as [[g err] s']. cbn [snd] in *. destruct H as (_ & _ & _ & _ & Hb & _).
  pose proof (shrinks_uncounted s s' Hok' Ht) as H0. split; [|done]. split; [done|done|]. intros Hmax.
  pose proof (sh_bytes _ _ _ H0 Hmax). pose proof (usage_nonneg s').
  rewrite wrap64_id in Hb by int64_lia. lia.
Qed.

Lemma RemoveCandidate_shrinks (io : oracle) (s : Store.Store) (c : Store.Candidate) :
  reads_ok io -> store_ok s -> proper (Store.metadataPath c) ->
  let '(removed, err, s') := Store.RemoveCandidate io s c in
  shrinks s s' (if removed : bool then Store.CandidateBytes c else 0).
Proof.
  intros Hio Hok Hp. pose proof (RemoveCandidate_effect io s c Hio Hok Hp) as H.
  destruct (RemoveCandidate_ok io s c Hio Hok Hp) as [Hok' Ht].
  destruct (Store.RemoveCandidate io s c) as [[removed err] s']. cbn [snd] in *. destruct H as (_ & H & _).
  destruct removed; [|by apply shrinks_uncounted]. destruct (H eq_refl) as (m & n & He & Hs & Hd & _).
  split; [done|done|]. intros _. destruct (usage_delete _ _ _ _ _ _ He Hd) as [Hu _].
  revert Hu Hs. unfold size_of. lia.
Qed.

(** ** The collections *)

Context (env : Surroundings) (K : Pool -> Prop).

(** Reads succeed, walks visit proper paths, and what goes on meanwhile keeps [K]. *)
Record attended : Prop := {
  at_reads : reads_ok (sysIO env);
  at_walks : forall s, store_ok s -> Forall proper (Store.visited (walkOf env s));
  at_meanwhile : forall n p, K p -> K (meanwhile env n p)
}.

Context (Henv : attended) (HK : forall p, K p -> pool_ok p).
Context (Htake : forall p i m s b, K p -> stores p !! i = Some m -> shrinks (store m) s b ->
                   K (budget_remove b (put_store i s p))).

Lemma put_store_free (p : Pool) (i : nat) (m : managedStore) (s : Store.Store) :
  K p -> stores p !! i = Some m -> shrinks (store m) s 0 -> K (put_store i s p).
Proof.
  intros Hp Hi Hs. pose proof (Htake p i m s 0 Hp Hi Hs) as H. revert H. unfold budget_remove.
  destruct (budget (put_store i s p)) as [c|] eqn:Ec; [|done]. unfold Storage.Remove. cbn [Z.leb Z.compare].
  enough (set_budget (Some c) (put_store i s p) = put_store i s p) as -> by done.
  pose proof (po_shared p (HK p Hp)) as Hsh. unfold set_budget, put_store in *. cbn [stores budget] in *. rewrite Ec in *. f_equal.
  rewrite <- (list_fmap_id (alter _ i (stores p))) at 2. apply list_fmap_ext. intros j m' Hj. unfold share.
  assert (Store.controller (store m') = Some c) as E.
  { destruct (decide (j = i)) as [->|Hne].
    - rewrite list_lookup_alter_eq, Hi in Hj. injection Hj as <-. cbn.
      rewrite (trim_controller _ _ (sh_trims _ _ _ Hs)). by apply (Forall_lookup_1 _ _ _ _ Hsh Hi).
    - rewrite list_lookup_alter_ne in Hj by done. by apply (Forall_lookup_1 _ _ _ _ Hsh Hj). }
  destruct m' as [name []]. cbn in *. by rewrite E.
Qed.

Lemma collect_stores_keeps (maxAge : Z) (n i : nat) (r : Maintenance.Result) (p : Pool) :
  K p -> K (snd (collect_stores env maxAge n i r p)).
Proof.
  revert i r p. induction n as [|n IH]; intros i r p Hp; [done|]. cbn [collect_stores].
  apply (at_meanwhile Henv i) in Hp. destruct (canceled env i); [done|].
  set (q := meanwhile env i p) in *. destruct (stores q !! i) as [m|] eqn:Hi; [|done].
  pose proof (Forall_lookup_1 _ _ _ _ (po_stores q (HK q Hp)) Hi) as Hok. cbn beta in Hok.
  pose proof (GC_shrinks (sysIO env) (sysNow env) (walkOf env (store m)) (store m) maxAge (at_reads Henv) Hok
    (at_walks Henv _ Hok)) as H.
  destruct (Store.GC _ _ _ _ _) as [[g err] s]. destruct H as [Hg H0].
  destruct err as [e|]; [by eapply put_store_free|]. apply IH. by eapply Htake.
Qed.

Lemma candidate_proper (io : oracle) (w : Store.Walk) (s : Store.Store) (c : Store.Candidate) :
  Forall proper (Store.visited w) -> c ∈ fst (Store.Candidates io w s) -> proper (Store.metadataPath c).
Proof.
  unfold Store.Candidates. cbn [fst]. rewrite merge_sort_Permutation, list_elem_of_omap.
  intros Hw (path & Hp & Hc). rewrite Forall_forall in Hw. specialize (Hw path Hp).
  unfold Store.candidate_at in Hc. destruct (Store.entry_at io (Store.files s) path) as [[[m b] n]|]; [|done].
  by injection Hc as <-.
Qed.

Lemma pressure_candidates_proper (i : nat) (ms : list managedStore) (items : list pressureCandidate) :
  Forall (fun m => store_ok (store m)) ms -> pressure_candidates env i ms = Ok items ->
  Forall (fun item => proper (Store.metadataPath (candidate item))) items.
Proof.
  revert i items. induction ms as [|m ms IH]; intros i items Hok; cbn [pressure_candidates]; [by intros [= <-]|].
  apply Forall_cons in Hok as [Hm Hok].
  pose proof (candidate_proper (sysIO env) (walkOf env (store m)) (store m)) as Hc.
  destruct (Store.Candidates _ _ _) as [cs [e|]]; [done|]. cbn [fst] in Hc.
  destruct (pressure_candidates env (S i) ms) as [rest|e] eqn:E; [|done]. intros [= <-].
  apply Forall_app. split; [|by eapply IH]. apply Forall_forall. intros item (c & -> & Hin)%list_elem_of_fmap.
  apply Hc; [by apply (at_walks Henv)|done].
Qed.

Lemma pressure_visit_keeps (item : pressureCandidate) (r : Maintenance.Result) (p : Pool) :
  proper (Store.metadataPath (candidate item)) -> K p -> K (snd (pressure_visit env item r p)).
Proof.
  intros Hc Hp. unfold pressure_visit. destruct (stores p !! storeIndex item) as [m|] eqn:Hi; [|done].
  pose proof (Forall_lookup_1 _ _ _ _ (po_stores p (HK p Hp)) Hi) as Hok. cbn beta in Hok.
  pose proof (RemoveCandidate_shrinks (sysIO env) (store m) (candidate item) (at_reads Henv) Hok Hc) as H.
  destruct (Store.RemoveCandidate _ _ _) as [[[] err] s]; cbn [snd]; [by eapply Htake|by eapply put_store_free].
Qed.

Lemma pressure_loop_keeps (toRemove : Z) (n : nat) (items : list pressureCandidate) (r : Maintenance.Result) (p : Pool) :
  Forall (fun item => proper (Store.metadataPath (candidate item))) items -> K p ->
  K (snd (pressure_loop env toRemove n items r p)).
Proof.
  revert n r p. induction items as [|item items IH]; intros n r p Hc Hp; [done|]. cbn [pressure_loop].
  apply Forall_cons in Hc as [Hi Hc]. apply (at_meanwhile Henv n) in Hp. destruct (canceled env n); [done|].
  destruct (_ <=? _); [done|]. apply (pressure_visit_keeps item r) in Hp; [|done].
  destruct (pressure_visit _ _ _ _) as [r' p']. by apply IH.
Qed.

Lemma collect_keeps (maxAge : Z) (p : Pool) : K p -> K (snd (collect env maxAge p)).
Proof.
  intros Hp. unfold collect. destruct (budget p) as [c|]; [|by apply collect_stores_keeps].
  destruct (Storage.Pressure _); [|by apply collect_stores_keeps]. unfold collectPressure.
  destruct (_ <=? 0); [done|]. destruct (pressure_candidates env 0 (stores p)) as [items|e] eqn:E; [|done].
  apply pressure_loop_keeps; [|done]. rewrite merge_sort_Permutation.
  eapply pressure_candidates_proper; [apply (HK p Hp)|exact E].
Qed.

Lemma run_gc_keeps (trigger : Maintenance.Trigger) (begin finish : Time) (s : Server) :
  K (pool s) -> K (pool (snd (run_gc env trigger begin finish s))).
Proof.
  intros Hp. unfold run_gc. destruct (Maintenance.current (gc s)); [done|].
  pose proof (collect_keeps (maxAge s) (pool s) Hp) as H. destruct (collect _ _ _) as [[r err] p].
  by destruct (Maintenance.RunOnce _ _ _ _ _) as [[run accepted] c].
Qed.

Lemma RunMaintenance_keeps (ticks : list (tick * Time * Time)) (s : Server) :
  K (pool s) -> K (pool (RunMaintenance env ticks s)).
Proof.
  intros Hp. unfold RunMaintenance. destruct (_ <=? 0); [done|]. revert s Hp.
  induction ticks as [|[[t begin] finish] ticks IH]; intros s Hp; [done|]. cbn [foldl]. apply IH.
  destruct t; cbn [maintenance_tick]; [destruct (pressure (pool s)); [|done]|]; by apply run_gc_keeps.
Qed.

End Keeps.

(** ** The good order, and files of nobody *)

Section Instances.
Context {codec : MetadataCodec}.

Lemma take_ok (p : Pool) (i : nat) (m : managedStore) (s : Store.Store) (b : Z) :
  pool_ok p -> stores p !! i = Some m -> shrinks (store m) s b -> pool_ok (budget_remove b (put_store i s p)).
Proof.
  intros [Hs Hc Hb] Hi [Hok Ht Hbytes]. set (q := put_store i s p).
  assert (pool_usage q = pool_usage p - usage_bytes (Store.files (store m)) + usage_bytes (Store.files s)) as Eq.
  { unfold pool_usage, q, put_store. cbn [stores]. by apply sum_bytes_alter. }
  assert (Forall (fun m => store_ok (store m)) (stores q)) as Hsq
    by (apply Forall_alter; [done|]; intros ? _ _; exact Hok).
  assert (Forall (fun m => Store.controller (store m) = budget p) (stores q)) as Hcq.
  { apply Forall_alter; [done|]. intros m' Hm' _. cbn. rewrite (trim_controller _ _ Ht).
    by apply (Forall_lookup_1 _ _ _ _ Hc Hi). }
  pose proof (sum_bytes_nonneg (stores q)) as H0. fold (pool_usage q) in H0.
  pose proof (sum_bytes_elem (stores p) i m Hi) as Hm. fold (pool_usage p) in Hm.
  unfold budget_remove. change (budget q) with (budget p). destruct (budget p) as [c|] eqn:Ec.
  - destruct (Hb c eq_refl) as [H1 H2]. specialize (Hbytes ltac:(lia)). pose proof (usage_nonneg s).
    split; cbn [stores budget set_budget].
    + rewrite Forall_map. eapply Forall_impl; [exact Hsq|]. intros m' H'. by apply store_ok_controller.
    + rewrite Forall_map. by apply Forall_true.
    + intros ? [= <-].
      assert (pool_usage (set_budget (Some (Storage.Remove c b)) q) = pool_usage q) as -> by apply sum_bytes_share.
      rewrite Remove_exact by lia. lia.
  - split; [done|..]; change (budget q) with (budget p); rewrite Ec; [exact Hcq|done].
Qed.

(** The pool in good order, of the same repositories. *)
Definition in_order (sh : list (string * string)) (p : Pool) : Prop := pool_ok p /\ shape p = sh.

Lemma in_order_take (sh : list (string * string)) (p : Pool) (i : nat) (m : managedStore) (s : Store.Store) (b : Z) :
  in_order sh p -> stores p !! i = Some m -> shrinks (store m) s b -> in_order sh (budget_remove b (put_store i s p)).
Proof.
  intros [Hp Hsh] Hi Hs. split; [by eapply take_ok|]. rewrite shape_budget, (shape_put _ _ m); [done|done|].
  apply Hs.
Qed.

(** A file below the directory of the [i]-th repository. *)
Definition file_at (p : Pool) (i : nat) (path : string) : option node :=
  m ← stores p !! i; Store.files (store m) !! path.

Definition undisturbed_file (j : nat) (path : string) (n : option node) (p : Pool) : Prop :=
  pool_ok p /\ file_at p j path = n.

Lemma file_at_budget (b : Z) (p : Pool) (j : nat) (path : string) : file_at (budget_remove b p) j path = file_at p j path.
Proof.
  unfold file_at, budget_remove. destruct (budget p); [|done]. cbn [stores set_budget].
  rewrite list_lookup_fmap. by destruct (stores p !! j).
Qed.

Lemma undisturbed_file_take (j : nat) (path : string) (n : option node) (p : Pool) (i : nat) (m : managedStore)
    (s : Store.Store) (b : Z) :
  foreign path -> undisturbed_file j path n p -> stores p !! i = Some m -> shrinks (store m) s b ->
  undisturbed_file j path n (budget_remove b (put_store i s p)).
Proof.
  intros Hf [Hp Hn] Hi Hs. split; [by eapply take_ok|]. rewrite file_at_budget, <- Hn.
  unfold file_at, put_store. cbn [stores]. destruct (decide (j = i)) as [->|Hne].
  - rewrite list_lookup_alter_eq, Hi. cbn. by apply (trim_foreign _ _ (sh_trims _ _ _ Hs)).
  - by rewrite list_lookup_alter_ne.
Qed.

(** A distribution of a private index, or its record. *)
Definition private_file (localPath project filename path : string) : Prop :=
  clean_dir localPath /\ canonical project = true /\ safeDistributionFilename filename = true
  /\ looks_hashed filename = false
  /\ (path = child (child localPath project) filename \/ path = child (child localPath project) filename ++ ".json").

Lemma private_file_foreign (localPath project filename path : string) :
  private_file localPath project filename path -> foreign path.
Proof.
  intros (Hd & Hp & Hf & Hn & [->| ->]); by destruct (distribution_foreign localPath Hd project filename Hp Hf Hn) as [[_ ?] [_ ?]].
Qed.

(** C21: Maintenance, of whatever kind and whatever fails, leaves the distributions of private
    indexes and their records as they were, unless their name starts like the name of a
    cache file, and unless a request meanwhile changes them. *)
Theorem maintenance_spares_private (env : Surroundings) (ticks : list (tick * Time * Time)) (s : Server)
    (i : nat) (localPath project filename path : string) :
  private_file localPath project filename path ->
  attended env (undisturbed_file i path (file_at (pool s) i path)) -> pool_ok (pool s) ->
  file_at (pool (RunMaintenance env ticks s)) i path = file_at (pool s) i path.
Proof.
  intros Hf%private_file_foreign Henv Hp.
  apply (RunMaintenance_keeps env (undisturbed_file i path (file_at (pool s) i path)) Henv); [by intros p [? _]| |done].
  intros p j m s' b. by apply undisturbed_file_take.
Qed.

End Instances.
