(* ===== verification/ServerInvariant.v ===== *)
(** * The server stays in good order

    Requests, to repositories and to the server itself, and maintenance as steps of the
    server, and what every sequence of them keeps. *)

From S2P Require Import Prelude GoStrings FilePath Url Origin Http HttpPolicy Time Metadata Fs StoreFacts StoreOps StoreSystem Handler HandlerFacts Order Mux Server ServerHttp ServerFacts ServerKeeps PyPiOrder.
From S2P Require Storage Maintenance Store Npm NpmTheorems Oci OciTheorems PyPi PyPiTheorems.
From Stdlib Require Import Ascii String Relation_Operators.
Local Open Scope string_scope.
Local Open Scope Z_scope.

Section Invariant.
Context {codec : MetadataCodec} {html : PyPi.HtmlLib}.

(** ** A well-formed server *)

Definition proxy_ok (p : Proxy) : Prop :=
  match p with
  | NpmProxy p => located (Npm.upstream p)
  | OciProxy p => located (Oci.upstream p)
  | PyPiProxy p => located (PyPi.upstream p) /\ clean_dir (PyPi.localPath p)
  end.

Record server_ok (s : Server) : Prop := {
  so_pool : pool_ok (pool s);
  so_proxies : Forall (fun r => proxy_ok (proxy r)) (repositories s);
  so_paired : List.length (stores (pool s)) = List.length (repositories s);
  so_routes : forall pattern i, (pattern, ToRepository i) ∈ mux s -> (i < List.length (repositories s))%nat
}.

(** What no step changes. *)
Definition fixed (s : Server) : list (string * string) * list Proxy * list (string * route) * string :=
  (shape (pool s), map proxy (repositories s), mux s, operatorToken s).

(** ** Requests to repositories *)

(** What the stores of a pool but the [i]-th hold under its budget. *)
Definition beside (p : Pool) (i : nat) : Elsewhere :=
  {| elsewhere := sum_bytes (delete i (stores p)); elsewhere_nonneg := sum_bytes_nonneg _ |}.

Lemma sum_bytes_delete (ms : list managedStore) (i : nat) (m : managedStore) :
  ms !! i = Some m -> sum_bytes ms = usage_bytes (Store.files (store m)) + sum_bytes (delete i ms).
Proof.
  revert i. induction ms as [|m' ms IH]; intros [|i] Hi; [done..| |]; cbn.
  - by injection Hi as ->.
  - specialize (IH i Hi). unfold sum_bytes in *. rewrite IH. unfold delete. lia.
Qed.

(** What the system promises to one request to the [i]-th repository: reads succeed,
    others leave its store in order, and the put it may make fits; of an upload, that its
    file is apart from those of the cache. *)
Record admissible (env : Env) (s : Server) (i : nat) (m : managedStore) (r : Repo) (c : Call) (h : Header) : Prop := {
  ad_env : @orderly_env codec (beside (pool s) i) (Store.root (store m)) env;
  ad_path : HasPrefix (EscapedPath (url c)) "/" = true;
  ad_upload : upload_apart env (contentLength c) (form c);
  ad_puts : Forall (@put_fits codec (beside (pool s) i) env) (events (handled env m r c h))
}.

Lemma handle_orderly {company : Elsewhere} (top : string) (env : Env) (p : Proxy) (c : Call) (w : World) :
  proxy_ok p -> orderly_env top env -> HasPrefix (EscapedPath (url c)) "/" = true ->
  upload_apart env (contentLength c) (form c) ->
  exists new, events (snd (handle env p c w)) = (events w ++ new)%list
    /\ (orderly top (cacheStore w) -> Forall (put_fits env) new -> orderly top (cacheStore (snd (handle env p c w)))).
Proof.
  intros Hp He Hs Hu. pose proof (orderly_invariant top env He) as HI.
  destruct p as [p|p|p]; cbn [handle proxy_ok] in *.
  - destruct (NpmTheorems.npm_ServeHTTP_effects p env (request c) (url c) _ Hp w) as (new & E & _ & H). eauto.
  - destruct (OciTheorems.oci_ServeHTTP_effects p env (request c) (url c) _ Hp Hs w) as (new & E & _ & H). eauto.
  - destruct Hp as [Hp Hd]. destruct (decide (Path (url c) = PyPi.uploadPath p)) as [Eu|Hne].
    + assert (effects env (fun _ => True) (orderly top)
        (PyPi.ServeHTTP p env (request c) (url c) (contentLength c) (form c))) as H.
      { unfold PyPi.ServeHTTP. apply effects_bind; [apply effects_count|intros _].
        rewrite (proj2 (String.eqb_eq _ _) Eu). by apply serveUpload_keeps. }
      destruct (H w) as (new & E & _ & H'). eauto.
    + destruct (PyPiTheorems.pypi_ServeHTTP_effects p env (request c) (url c) _ Hp (contentLength c) (form c) Hne w)
        as (new & E & _ & H). eauto.
Qed.

Lemma put_world_ok (s : Server) (i : nat) (m : managedStore) (w : World) :
  server_ok s -> stores (pool s) !! i = Some m ->
  @orderly codec (beside (pool s) i) (Store.root (store m)) (cacheStore w) ->
  server_ok (put_world i w s) /\ fixed (put_world i w s) = fixed s.
Proof.
  intros [[Hs Hc Hb] Hpr Hl Hr] Hi [Hok Ha Hroot]. set (st := cacheStore w) in *.
  set (q := put_store i st (pool s)).
  assert (pool_usage q = sum_bytes (delete i (stores (pool s))) + usage_bytes (Store.files st)) as Eq.
  { unfold pool_usage, q, put_store. cbn [stores]. rewrite (sum_bytes_alter _ _ m), (sum_bytes_delete _ i m) by done. lia. }
  assert (Forall (fun m => store_ok (store m)) (stores q)) as Hsq
    by (apply Forall_alter; [done|]; intros ? _ _; exact Hok).
  assert (map proxy (alter (fun r => mkRepo (proxy r) (stats w)) i (repositories s)) = map proxy (repositories s)) as Epr.
  { clear. generalize i. induction (repositories s) as [|r rs IH]; intros [|j]; [done..|cbn; f_equal; apply IH]. }
  split; [split|].
  - change (pool (put_world i w s)) with (set_budget (Store.controller st) q). split; cbn [stores budget set_budget].
    + rewrite Forall_map. eapply Forall_impl; [exact Hsq|]. intros m' H. by apply store_ok_controller.
    + rewrite Forall_map. by apply Forall_true.
    + intros c Ec. assert (pool_usage (set_budget (Store.controller st) q) = pool_usage q) as ->
        by apply sum_bytes_share.
      rewrite Eq. exact (Ha c Ec).
  - cbn. rewrite <- (Forall_map proxy proxy_ok) in *. by rewrite Epr.
  - cbn. by rewrite length_map, !length_alter.
  - cbn. intros pattern j Hj. rewrite length_alter. by eapply Hr.
  - unfold fixed. cbn. rewrite Epr. repeat f_equal.
    transitivity (shape q); [by unfold shape; cbn; rewrite map_map|]. by apply (shape_put _ _ m).
Qed.

(** A repository's answer leaves the server well formed. *)
Lemma serve_keeps (env : Env) (s s' : Server) (i : nat) (m : managedStore) (r : Repo) (c : Call) (h : Header) (reply : Reply) :
  server_ok s -> stores (pool s) !! i = Some m -> repositories s !! i = Some r ->
  admissible env s i m r c h -> serve_repository env s i c h = Some (reply, s') ->
  server_ok s' /\ fixed s' = fixed s.
Proof.
  intros Hs Hm Hr [He Hp Hu Hputs]. unfold serve_repository. rewrite Hr, Hm. cbn [mbind option_bind]. intros [= _ <-].
  pose proof (Forall_lookup_1 _ _ _ _ (so_proxies s Hs) Hr) as Hpr. cbn beta in Hpr.
  destruct (@handle_orderly (beside (pool s) i) _ env (proxy r) c (world_of m r h) Hpr He Hp Hu) as (new & E & H).
  eapply put_world_ok; [done|exact Hm|]. apply H.
  - destruct (so_pool s Hs) as [Ps Pc Pb]. split.
    + by apply (Forall_lookup_1 _ _ _ _ Ps Hm).
    + intros b Eb. change (Store.controller (store m) = Some b) in Eb. rewrite (Forall_lookup_1 _ _ _ _ Pc Hm) in Eb. specialize (Pb b Eb). unfold pool_usage in Pb.
      rewrite (sum_bytes_delete _ i m Hm) in Pb. cbn. lia.
    + done.
  - unfold handled in Hputs. rewrite E in Hputs. exact Hputs.
Qed.

(** ** The server itself *)

(** A change of the pool that keeps its order. *)
Lemma pool_change_ok (s s' : Server) :
  server_ok s -> in_order (shape (pool s)) (pool s') -> repositories s' = repositories s -> mux s' = mux s ->
  operatorToken s' = operatorToken s -> server_ok s' /\ fixed s' = fixed s.
Proof.
  intros [Hp Hpr Hl Hr] [Hp' Hsh] E1 E2 E3. split; [split|].
  - done.
  - by rewrite E1.
  - rewrite E1, <- Hl. apply (f_equal List.length) in Hsh. unfold shape in Hsh. by rewrite !length_map in Hsh.
  - rewrite E1, E2. exact Hr.
  - unfold fixed. by rewrite E1, E2, E3, Hsh.
Qed.

Lemma run_gc_ok (env : Surroundings) (trigger : Maintenance.Trigger) (begin finish : Time) (s : Server) :
  attended env (in_order (shape (pool s))) -> server_ok s ->
  let s' := snd (run_gc env trigger begin finish s) in server_ok s' /\ fixed s' = fixed s.
Proof.
  intros He Hs s'. apply pool_change_ok; [done|..].
  - apply run_gc_keeps; [done|by intros p [? _]|by intros; eapply in_order_take|]. split; [apply Hs|done].
  - unfold s', run_gc. destruct (Maintenance.current (gc s)); [done|]. destruct (collect _ _ _) as [[? ?] ?].
    by destruct (Maintenance.RunOnce _ _ _ _ _) as [[? ?] ?].
  - unfold s', run_gc. destruct (Maintenance.current (gc s)); [done|]. destruct (collect _ _ _) as [[? ?] ?].
    by destruct (Maintenance.RunOnce _ _ _ _ _) as [[? ?] ?].
  - unfold s', run_gc. destruct (Maintenance.current (gc s)); [done|]. destruct (collect _ _ _) as [[? ?] ?].
    by destruct (Maintenance.RunOnce _ _ _ _ _) as [[? ?] ?].
Qed.

(** What the server answers itself changes it only by a collection. *)
Lemma own_answer (now : Now) (s : Server) (request : Request) (url : URL) :
  let '(d, s') := ServeHTTP now s request url in
  match d with
  | Delegated i _ => s' = s /\ exists pattern, (pattern, ToRepository i) ∈ mux s
  | _ => s' = s \/ s' = snd (run_gc (collecting now) Maintenance.TriggerOperator (ServerHttp.now now) (finish now) s)
  end.
Proof.
  unfold ServeHTTP. unfold decide_route. cbv zeta. set (path := cleanPath _).
  destruct (negb (exact _ _) && _ && _); [by left|]. destruct (negb _); [by left|].
  destruct (match_path (mux s) path) as [[pattern to]|] eqn:Em; [|by left].
  apply match_path_spec in Em as (Hin & _). destruct to; cbn [own_handler]; try (by left).
  - split; [done|]. by exists pattern.
  - destruct (operatorGC _ _ _ _ _ _) as [a s'] eqn:E. revert E. unfold operatorGC.
    destruct (_ || _); [intros [= _ <-]; by left|]. do 2 (destruct (negb _); [intros [= _ <-]; by left|]).
    destruct (_ || _); [intros [= _ <-]; by left|].
    destruct (run_gc _ _ _ _ _) as [[run accepted] after]. intros [= _ <-]. by right.
Qed.

(** ** The steps of the server *)

(** Whole requests and ticks; what goes on during a collection may be anything that keeps
    the pool in order. *)
Inductive server_step : Server -> Server -> Prop :=
  | step_request env now s c d reply s' :
      attended (collecting now) (in_order (shape (pool s))) ->
      (forall i h m r, fst (ServeHTTP now s (request c) (url c)) = Delegated i h ->
         stores (pool s) !! i = Some m -> repositories s !! i = Some r -> admissible env s i m r c h) ->
      respond env now s c = (d, reply, s') -> server_step s s'
  | step_tick env t begin finish s :
      attended env (in_order (shape (pool s))) -> server_step s (maintenance_tick env t begin finish s).

(** Every route to a repository leads to one with a store. *)
Lemma delegate_to_repository (s : Server) (pattern : string) (i : nat) :
  server_ok s -> (pattern, ToRepository i) ∈ mux s ->
  exists m r, stores (pool s) !! i = Some m /\ repositories s !! i = Some r.
Proof.
  intros [_ _ Hl Hr] Hin. pose proof (Hr _ _ Hin) as Hi.
  destruct (lookup_lt_is_Some_2 (repositories s) i Hi) as [r Er].
  destruct (lookup_lt_is_Some_2 (stores (pool s)) i ltac:(lia)) as [m Em]. eauto.
Qed.

Lemma delegated_answered (env : Env) (now : Now) (s : Server) (c : Call) (i : nat) (h : Header) :
  server_ok s -> fst (ServeHTTP now s (request c) (url c)) = Delegated i h ->
  is_Some (serve_repository env s i c h).
Proof.
  intros Hs E. pose proof (own_answer now s (request c) (url c)) as H. destruct (ServeHTTP _ _ _ _) as [d s1].
  cbn [fst] in E. subst d. destruct H as [_ [pattern Hin]].
  destruct (delegate_to_repository s pattern i Hs Hin) as (m & r & Hm & Hr).
  unfold serve_repository. rewrite Hr, Hm. by eexists.
Qed.

Lemma server_step_ok (s s' : Server) :
  server_ok s -> server_step s s' -> server_ok s' /\ fixed s' = fixed s.
Proof.
  intros Hs Hstep. destruct Hstep as [env now s c d reply s' Ha Had E|env t begin finish s Ha].
  - pose proof (own_answer now s (request c) (url c)) as Hown. unfold respond in E.
    destruct (ServeHTTP now s (request c) (url c)) as [d' s1]. cbn [fst] in Had. destruct d' as [a|i h|path h].
    + injection E as _ _ <-. destruct Hown as [->| ->]; [done|]. by apply run_gc_ok.
    + destruct Hown as [-> [pattern Hin]]. destruct (delegate_to_repository s pattern i Hs Hin) as (m & r & Hm & Hr).
      destruct (serve_repository env s i c h) as [[rep s2]|] eqn:Es; injection E as _ _ <-; [|done].
      eapply serve_keeps; try done. by apply (Had i h m r).
    + injection E as _ _ <-. destruct Hown as [->| ->]; [done|]. by apply run_gc_ok.
  - destruct t; cbn [maintenance_tick]; [destruct (pressure (pool s)); [|done]|]; by apply run_gc_ok.
Qed.

Lemma server_steps_ok (s s' : Server) :
  server_ok s -> rtc server_step s s' -> server_ok s' /\ fixed s' = fixed s.
Proof.
  intros Hs H. induction H as [s|s s1 s2 Hstep _ IH]; [done|].
  destruct (server_step_ok _ _ Hs Hstep) as [Hs1 E1]. destruct (IH Hs1) as [Hs2 E2]. split; [done|congruence].
Qed.

End Invariant.
