(* ===== verification/ServerTheorems.v ===== *)
(** * The server: theorems

    Evictions under pressure, collections by age, who may start one, and what every answer
    of the server carries. *)

From stdpp Require Import sorting.
From S2P Require Import Prelude GoStrings FilePath Url Http Time Metadata Fs StoreFacts StoreOps StoreSystem StoreTheorems Handler HandlerFacts Mux Server ServerHttp ServerFacts.
From S2P Require Storage Maintenance Store.
From Stdlib Require Import Ascii String.
Local Open Scope string_scope.
Local Open Scope Z_scope.

Section Maintenance.
Context {codec : MetadataCodec}.

(** When an entry was last used. *)
Definition last_used (e : Metadata * string * node) : Time :=
  let '(m, _, n) := e in if IsZero (mtime n) then StoredAt m else mtime n.

Lemma older_sorted (items before after : list pressureCandidate) :
  merge_sort older items = (before ++ after)%list ->
  forall a b, a ∈ before -> b ∈ after -> older a b.
Proof.
  intros E a b Ha Hb. assert (StronglySorted older (merge_sort older items)) as Hs.
  { apply Sorted_StronglySorted; [intros x y z; unfold older; lia|].
    apply Sorted_merge_sort. intros x y. unfold older. lia. }
  rewrite E in Hs. apply StronglySorted_app in Hs as (Hs & _ & _). by apply Hs.
Qed.

Lemma list_snoc_cases {A : Type} (l : list A) : l = [] \/ exists before last, l = (before ++ [last])%list.
Proof. induction l as [|x l _] using rev_ind; eauto. Qed.

Lemma sum_items_snoc (items : list pressureCandidate) (item : pressureCandidate) :
  sum_items (items ++ [item]) = sum_items items + bytes_of_item item.
Proof. induction items as [|x items IH]; cbn; unfold sum_items in *; [lia|]. rewrite IH. lia. Qed.

(** The candidates are the entries of the pool, each with the time of its last use. *)
Lemma items_describe (p : Pool) (items : list pressureCandidate) :
  (forall item, item ∈ items <->
     exists m j, stores p !! j = Some m /\ storeIndex item = (0 + j)%nat
       /\ exists md n, entries (Store.files (store m)) !! Store.metadataPath (candidate item)
            = Some (md, Store.bodyPath (candidate item), n)
          /\ bytes_of_item item = size_of n
          /\ Store.LastUsed (candidate item) = (if IsZero (mtime n) then StoredAt md else mtime n)) ->
  (forall item, item ∈ items -> describes_entry p item)
  /\ forall key e, entry_of p key = Some e ->
       exists item, item ∈ items /\ key_of item = key /\ Store.LastUsed (candidate item) = last_used e.
Proof.
  intros H. split.
  - intros item (m & j & Hj & Ei & md & n & He & Hs & Hl)%H. exists md, n. split_and!; [|done|done].
    unfold entry_of, key_of. cbn [fst snd]. by rewrite Ei, Nat.add_0_l, Hj.
  - intros [j path] [[md b] n] He. destruct (entry_of_Some _ _ _ He) as (m & Hj & Hm). cbn [fst snd] in *.
    exists (mkPressure j (Store.mkCandidate path b (size_of n) (if IsZero (mtime n) then StoredAt md else mtime n))).
    split; [|done]. apply H. exists m, j. split_and!; [done..|]. by exists md, n.
Qed.

(** C22: Under pressure the least recently used entries go, over all stores and oldest
    first, until the committed bytes are at the low watermark, and no further, or until
    nothing is left; what stays is untouched, no store is left out of order, and the
    budget counts exactly what was removed. *)
Theorem pressure_evicts_oldest (env : Surroundings) (p : Pool) (c : Storage.Controller) :
  undisturbed env -> pool_ok p -> budget p = Some c ->
  0 <= Storage.LowBytes (Storage.SnapshotOf c) <= maxInt64 ->
  exists r p' c', collectPressure env c p = (r, None, p') /\ pool_ok p' /\ budget p' = Some c'
    /\ Storage.committedBytes c' = Storage.committedBytes c - Maintenance.RemovedBytes r
    /\ pool_usage p' = pool_usage p - Maintenance.RemovedBytes r
    /\ (Storage.committedBytes c' <= Storage.LowBytes (Storage.SnapshotOf c) \/ forall key, entry_of p' key = None)
    /\ (forall key e, entry_of p' key = Some e -> entry_of p key = Some e)
    /\ (forall k1 e1 k2 e2, entry_of p k1 = Some e1 -> entry_of p' k1 = None -> entry_of p' k2 = Some e2 ->
          last_used e1 <= last_used e2)
    /\ (Maintenance.RemovedBytes r = 0 \/ exists key m b n, entry_of p key = Some (m, b, n)
          /\ entry_of p' key = None
          /\ Storage.LowBytes (Storage.SnapshotOf c) < Storage.committedBytes c' + size_of n).
Proof.
  intros Hun Hp Hc Hlow. unfold collectPressure. cbv zeta.
  set (low := Storage.LowBytes (Storage.SnapshotOf c)) in *.
  change (Storage.CommittedBytes (Storage.SnapshotOf c)) with (Storage.committedBytes c).
  destruct (po_budget p Hp c Hc) as [Hu1 Hu2]. pose proof (sum_bytes_nonneg (stores p)) as Hu0. fold (pool_usage p) in Hu0.
  rewrite wrap64_id by int64_lia. destruct (Z.leb_spec (Storage.committedBytes c - low) 0) as [Hle|Hgt].
  { exists Maintenance.zeroResult, p, c. cbn [Maintenance.RemovedBytes Maintenance.zeroResult].
    split_and!; [done|done|done|lia|lia|left; lia|done| |by left]. intros k1 e1 k2 e2 H1 H2. congruence. }
  destruct (pressure_candidates_spec env (stores p) 0 Hun (po_stores p Hp)) as (items & -> & Hnd & _ & Hitems).
  pose proof (merge_sort_Permutation older items) as Hperm. destruct (items_describe p items Hitems) as [Hcur Hall].
  destruct (pressure_loop_takes env (Storage.committedBytes c - low) 0 (merge_sort older items)
    Maintenance.zeroResult p Hun Hp) as (taken & rest & r & p' & E & -> & Ht & Er & He & Hl);
    [|by rewrite (Permutation_map key_of Hperm)|done|cbn; lia|].
  { rewrite Hperm. apply Forall_forall. intros item Hi. destruct (Hcur item Hi) as (m & n & H1 & H2 & _). by exists m, n. }
  cbn [Maintenance.RemovedBytes Maintenance.zeroResult] in Er, Hl. rewrite Z.add_0_l in Er. rewrite <- Er in Ht.
  destruct (tk_budget _ _ _ _ Ht c Hc) as (c' & Hc' & Ec'). pose proof (tk_entries _ _ _ _ Ht) as Hent.
  exists r, p', c'. split_and!; [done|apply Ht|done|done|apply Ht| | | |].
  - destruct He as [->|He]; [right|left; lia]. intros key. rewrite Hent. case_decide as Hk; [done|].
    destruct (entry_of p key) as [e|] eqn:Ek; [|done]. exfalso. apply Hk. destruct (Hall key e Ek) as (item & Hi & <- & _).
    apply list_elem_of_fmap_2. rewrite app_nil_r in E. by rewrite <- E, Hperm.
  - intros key e. rewrite Hent. by case_decide.
  - intros k1 e1 k2 e2 H1 H1' H2'. rewrite Hent in H1'. case_decide as K1; [|congruence].
    rewrite Hent in H2'. case_decide as K2; [done|]. apply list_elem_of_fmap in K1 as (i1 & -> & T1).
    destruct (Hall k2 e2 H2') as (i2 & Hi2 & <- & L2).
    assert (i1 ∈ items) as Hi1 by (rewrite <- Hperm, E; set_solver).
    destruct (Hcur i1 Hi1) as (m & n & Hm & _ & L1). rewrite Hm in H1. injection H1 as <-.
    cbn [last_used]. rewrite <- L1, <- L2. apply (older_sorted items taken rest E); [done|].
    assert (i2 ∈ (taken ++ rest)%list) as [Hin|]%elem_of_app by (by rewrite <- E, Hperm); [|done].
    exfalso. apply K2. by apply list_elem_of_fmap_2.
  - destruct (list_snoc_cases taken) as [->|(before & last & ->)]; [left; by rewrite Er|right].
    assert (last ∈ items) as Hi by (rewrite <- Hperm, E; set_solver).
    destruct (Hcur last Hi) as (m & n & Hm & Hsz & _). exists (key_of last), m, (Store.bodyPath (candidate last)), n.
    split; [done|]. split.
    + rewrite Hent, decide_True; [done|]. apply list_elem_of_fmap_2. set_solver.
    + specialize (Hl before last eq_refl). rewrite sum_items_snoc in Er. lia.
Qed.

(** *** By age *)

Definition kept_after (cutoff : Time) (from : nat) (key : nat * string) (e : option (Metadata * string * node))
    : option (Metadata * string * node) :=
  match e with
  | Some (m, b, n) => if (from <=? fst key)%nat && expired cutoff m then None else e
  | None => None
  end.

(** One store's collection: its expired entries go, with their bytes. *)
Lemma collect_one (env : Surroundings) (maxAge : Z) (s : Store.Store) :
  undisturbed env -> store_ok s -> 0 < maxAge -> usage_bytes (Store.files s) <= maxInt64 ->
  let cutoff := TimeAdd (sysNow env) (- maxAge) in
  exists g s', Store.GC (sysIO env) (sysNow env) (walkOf env s) s maxAge = (g, None, s')
    /\ store_ok s' /\ Store.controller s' = Store.controller s /\ Store.root s' = Store.root s
    /\ 0 <= Store.GCBytes g /\ usage_bytes (Store.files s') = usage_bytes (Store.files s) - Store.GCBytes g
    /\ forall path, entries (Store.files s') !! path = kept_after cutoff 0 (0%nat, path) (entries (Store.files s) !! path).
Proof.
  intros Hun Hok Hage Hmax cutoff. pose proof (undisturbed_reads _ Hun) as Hio.
  pose proof (un_walks env Hun s Hok) as Hw. pose proof (un_proper env Hun s Hok) as Hpr.
  pose proof (GC_effect (sysIO env) (sysNow env) (walkOf env s) s maxAge Hio Hok Hpr Hage) as H.
  destruct (GC_ok (sysIO env) (sysNow env) (walkOf env s) s maxAge Hio Hok Hpr) as [Hok' Htr].
  destruct (Store.GC _ _ _ _ _) as [[g err] s']. cbn [snd] in Hok', Htr. fold cutoff in H.
  destruct H as (Hkeep & Hsub & _ & _ & Hb & Hall). destruct (Hall (fun q => un_io env Hun _ q) Hw) as [-> Hgone].
  assert (usage_bytes (Store.files s') <= usage_bytes (Store.files s)) as Hle.
  { apply map_sum_subseteq; [|done]. intros k [[m b] n] _. unfold entry_size, size_of. cbn. lia. }
  pose proof (usage_nonneg s') as H0. rewrite wrap64_id in Hb by int64_lia.
  exists g, s'. split_and!; [done|done|apply Htr|apply Htr|lia|lia|].
  intros path. unfold kept_after. cbn [fst]. destruct (entries (Store.files s) !! path) as [[[m b] n]|] eqn:E.
  - cbn [Nat.leb andb]. destruct (expired cutoff m) eqn:Ex; [|by apply Hkeep].
    destruct (entries (Store.files s') !! path) as [[[m' b'] n']|] eqn:E'; [|done].
    pose proof (lookup_weaken _ _ _ _ E' Hsub) as E2. rewrite E in E2. injection E2 as <- <- <-.
    by rewrite (Hgone _ _ _ _ E') in Ex.
  - destruct (entries (Store.files s') !! path) as [e|] eqn:E'; [|done].
    pose proof (lookup_weaken _ _ _ _ E' Hsub). congruence.
Qed.

(** The loop over the stores from the [i]-th on. *)
Lemma collect_stores_from (env : Surroundings) (maxAge : Z) (n i : nat) (r : Maintenance.Result) (p : Pool) :
  undisturbed env -> 0 < maxAge -> pool_ok p -> (i + n = List.length (stores p))%nat ->
  0 <= Maintenance.RemovedBytes r -> Maintenance.RemovedBytes r + pool_usage p <= maxInt64 ->
  let cutoff := TimeAdd (sysNow env) (- maxAge) in
  exists r' p', collect_stores env maxAge n i r p = (r', None, p') /\ pool_ok p'
    /\ Maintenance.RemovedBytes r' = Maintenance.RemovedBytes r + (pool_usage p - pool_usage p')
    /\ pool_usage p' <= pool_usage p
    /\ (forall c, budget p = Some c -> exists c', budget p' = Some c'
          /\ Storage.committedBytes c' = Storage.committedBytes c - (pool_usage p - pool_usage p'))
    /\ shape p' = shape p
    /\ forall key, entry_of p' key = kept_after cutoff i key (entry_of p key).
Proof.
  intros Hun Hage Hp Hn Hr Hmax. cbv zeta. revert i r p Hp Hn Hr Hmax.
  induction n as [|n IH]; intros i r p Hp Hn Hr Hmax.
  { exists r, p. split_and!; [done|done|lia|lia|intros c Hc; exists c; split; [done|lia]|done|].
    intros [j path]. unfold entry_of, kept_after. cbn [fst snd].
    destruct (stores p !! j) as [m|] eqn:Ej; [|done]. apply lookup_lt_Some in Ej. cbn [mbind option_bind].
    destruct (entries _ !! path) as [[[? ?] ?]|]; [|done]. by rewrite (proj2 (Nat.leb_gt i j)) by lia. }
  cbn [collect_stores]. rewrite (un_alone env Hun), (un_context env Hun).
  destruct (lookup_lt_is_Some_2 (stores p) i ltac:(lia)) as [m Hi]. rewrite Hi.
  pose proof (Forall_lookup_1 _ _ _ _ (po_stores p Hp) Hi) as Hok. cbn beta in Hok.
  pose proof (Forall_lookup_1 _ _ _ _ (po_shared p Hp) Hi) as Hsh. cbn beta in Hsh.
  assert (usage_bytes (Store.files (store m)) <= pool_usage p) as Hle by (by eapply sum_bytes_elem).
  destruct (collect_one env maxAge (store m) Hun Hok Hage ltac:(lia)) as (g & s' & -> & Hok' & Hc & Hrt & Hg & Hu & He).
  destruct (pool_after p i m s' (Store.GCBytes g) Hp Hi Hok' Hg Hu ltac:(congruence) Hrt) as (A1 & A2 & A3 & A4 & _ & A5).
  set (p1 := budget_remove (Store.GCBytes g) (put_store i s' p)) in *.
  assert (Maintenance.RemovedBytes (add_result r g) = Maintenance.RemovedBytes r + Store.GCBytes g) as Er.
  { cbn. apply wrap64_id. pose proof (usage_nonneg s'). int64_lia. }
  destruct (IH (S i) (add_result r g) p1) as (r' & p' & E & B1 & B2 & B3 & B4 & B6 & B5); [done|lia|lia|lia|].
  exists r', p'. split_and!; [done|done|lia|lia| |congruence|].
  - intros c Hcb. destruct (A4 c Hcb) as (c1 & Hc1 & E1). destruct (B4 c1 Hc1) as (c' & Hc' & E2).
    exists c'. split; [done|lia].
  - intros [j path]. rewrite B5. unfold p1. rewrite entry_of_budget, (entry_of_put p i m) by done. cbn [fst snd].
    destruct (decide (j = i)) as [->|Hne].
    + rewrite He. unfold entry_of, kept_after. cbn [fst snd]. rewrite Hi. cbn [mbind option_bind].
      destruct (entries _ !! path) as [[[md b] nd]|]; [|done].
      rewrite !Nat.leb_refl, (proj2 (Nat.leb_gt (S i) i)) by lia. cbn [andb].
      by destruct (expired (TimeAdd (sysNow env) (- maxAge)) md).
    + unfold kept_after. cbn [fst]. destruct (entry_of p (j, path)) as [[[md b] nd]|]; [|done].
      replace (S i <=? j)%nat with (i <=? j)%nat; [done|]. apply eq_true_iff_eq. rewrite !Nat.leb_le. lia.
Qed.

(** C23: Without pressure every store loses exactly its entries that are too old, and the
    run and the budget count exactly the bytes they had. *)
Theorem collection_takes_expired (env : Surroundings) (maxAge : Z) (p : Pool) :
  undisturbed env -> 0 < maxAge -> pool_ok p -> pressure p = false -> pool_usage p <= maxInt64 ->
  exists r p', collect env maxAge p = (r, None, p') /\ pool_ok p'
    /\ Maintenance.RemovedBytes r = pool_usage p - pool_usage p' /\ 0 <= Maintenance.RemovedBytes r
    /\ (forall c, budget p = Some c -> exists c', budget p' = Some c'
          /\ Storage.committedBytes c' = Storage.committedBytes c - Maintenance.RemovedBytes r)
    /\ forall key, entry_of p' key
         = match entry_of p key with
           | Some (m, b, n) => if expired (TimeAdd (sysNow env) (- maxAge)) m then None else Some (m, b, n)
           | None => None
           end.
Proof.
  intros Hun Hage Hp Hpress Hmax.
  assert (collect env maxAge p = collect_stores env maxAge (List.length (stores p)) 0 Maintenance.zeroResult p) as ->.
  { unfold collect, pressure in *. destruct (budget p); [by rewrite Hpress|done]. }
  destruct (collect_stores_from env maxAge (List.length (stores p)) 0 Maintenance.zeroResult p)
    as (r & p' & E & B1 & B2 & B3 & B4 & _ & B5); [done..|].
  cbn [Maintenance.RemovedBytes Maintenance.zeroResult] in B2.
  exists r, p'. split_and!; [done|done|lia|lia| |].
  - intros c Hc. destruct (B4 c Hc) as (c' & Hc' & E'). exists c'. split; [done|lia].
  - intros key. rewrite B5. unfold kept_after. destruct (entry_of p key) as [[[m b] n]|]; [|done].
    cbn [Nat.leb andb]. by destruct (expired _ m).
Qed.

End Maintenance.

(** ** Who may start a collection *)

Section Operator.
Context {codec : MetadataCodec}.

(** The request the operator's endpoint obeys. *)
Definition authorized_gc (s : Server) (method path authorization : string) : Prop :=
  path = "/api/v1/operator/gc" /\ operatorToken s <> EmptyString /\ method = "POST"
  /\ authorization = "Bearer " ++ operatorToken s.

(** C25: A collection is started, or joined if one is running, exactly for a [POST] to the
    endpoint with the operator's token, of a server that has one; every other request
    changes nothing and is told 404, 405 or 401, and an accepted one 200, 409 or 500. *)
Theorem operator_gc_authorized (env : Now) (s : Server) (method path authorization : string) (h : Header) :
  let '(a, s') := operatorGC env s method path authorization h in
  (authorized_gc s method path authorization ->
     let '(run, accepted, after) := run_gc (collecting env) Maintenance.TriggerOperator (now env) (finish env) s in
     s' = after /\ body a = RunDocument run
     /\ code a = (if accepted then
                    (if match run with Some run => nonempty (Maintenance.Error run) | None => false end
                     then 500 else 200)
                  else 409))
  /\ (~ authorized_gc s method path authorization ->
     s' = s /\ code a = (if (path =? "/api/v1/operator/gc")%string && nonempty (operatorToken s)
                         then (if (method =? "POST")%string then 401 else 405) else 404)).
Proof.
  unfold operatorGC, authorized_gc. destruct (String.eqb_spec path "/api/v1/operator/gc") as [->|Hp]; cbn [negb orb andb].
  2:{ cbv beta iota zeta. split; [by intros (? & _)|]. done. }
  destruct (String.eqb_spec (operatorToken s) EmptyString) as [E|Ht]; cbn [negb].
  { cbv beta iota zeta. rewrite E. split; [by intros (_ & ? & _)|done]. }
  assert (nonempty (operatorToken s) = true) as -> by (by apply negb_true_iff, String.eqb_neq).
  destruct (String.eqb_spec method "POST") as [->|Hm]; cbn [negb].
  2:{ cbv beta iota zeta. split; [by intros (_ & _ & ? & _)|done]. }
  destruct (HasPrefix authorization "Bearer ") eqn:Eb; cbn [negb].
  2:{ cbv beta iota zeta. split; [|done]. intros (_ & _ & _ & ->). by rewrite (proj2 (HasPrefix_spec _ _)) in Eb by (by eexists). }
  apply HasPrefix_spec in Eb as [provided ->]. rewrite TrimPrefix_app.
  destruct (String.eqb_spec provided (operatorToken s)) as [->|Hne]; cbn [negb].
  - rewrite Nat.eqb_refl. cbn [negb orb]. destruct (run_gc _ _ _ _ _) as [[run accepted] after].
    cbv beta iota zeta. split; [|intros []; by split_and!]. intros _. split; [done|].
    destruct accepted; cbn [negb]; [|done]. by destruct (match run with Some _ => _ | None => false end).
  - rewrite orb_true_r. cbv beta iota zeta. split; [|done]. intros (_ & _ & _ & E). by apply app_inj_l in E.
Qed.

(** ** The security headers *)

Definition secured (h : Header) : Prop :=
  Get h "Content-Security-Policy" = "default-src 'self'; style-src 'unsafe-inline'; script-src 'unsafe-inline'"
  /\ Get h "Referrer-Policy" = "no-referrer" /\ Get h "X-Content-Type-Options" = "nosniff".

Lemma secured_set (h : Header) (k v : string) :
  CanonicalHeaderKey k <> "Content-Security-Policy" -> CanonicalHeaderKey k <> "Referrer-Policy" ->
  CanonicalHeaderKey k <> "X-Content-Type-Options" -> secured h -> secured (Set_ h k v).
Proof.
  intros H1 H2 H3 (S1 & S2 & S3). unfold secured. rewrite !Get_Set.
  change (CanonicalHeaderKey "Content-Security-Policy") with "Content-Security-Policy".
  change (CanonicalHeaderKey "Referrer-Policy") with "Referrer-Policy".
  change (CanonicalHeaderKey "X-Content-Type-Options") with "X-Content-Type-Options".
  by rewrite !decide_False by done.
Qed.

Lemma Get_Del (h : Header) (k k' : string) :
  CanonicalHeaderKey k <> CanonicalHeaderKey k' -> Get (Del h k) k' = Get h k'.
Proof. intros H. unfold Get, Del, Values, vals. by rewrite lookup_delete_ne. Qed.

Lemma secured_error (message : string) (status : Z) (h : Header) :
  secured h -> secured (answerHeader (error_answer message status h)).
Proof.
  intros (S1 & S2 & S3). unfold error_answer, secured. cbn [answerHeader].
  rewrite !Get_Set, !Get_Del by done.
  by split_and!; repeat (rewrite decide_False by done); rewrite ?decide_True by done.
Qed.

Lemma secured_json (status : Z) (document : payload) (h : Header) :
  secured h -> secured (answerHeader (writeJSON status document h)).
Proof. by apply secured_set. Qed.

(** Every answer of the server's own handlers, errors included, carries the three
    security headers; so does the header a repository's handler starts with. *)
Theorem answers_are_secured (env : Now) (s : Server) (request : Request) (url : URL) :
  match fst (ServeHTTP env s request url) with
  | Answered a => secured (answerHeader a)
  | Delegated _ h | Redirected _ h => secured h
  end.
Proof.
  assert (secured (securityHeaders ∅)) as H by (by split_and!).
  unfold ServeHTTP. generalize dependent (securityHeaders ∅). intros h H.
  destruct (decide_route (mux s) url) as [to|path|]; cbn [fst]; [|done|by apply secured_error].
  unfold own_handler. destruct to; cbn [fst].
  - done.
  - unfold health, not_found. destruct_ifs; [by apply secured_error|by apply secured_set].
  - unfold status, not_found. destruct_ifs; [by apply secured_error|by apply secured_json].
  - unfold operatorStatus, not_found.
    destruct (negb _); [by apply secured_error|].
    destruct (_ && _); [by apply secured_error, secured_set|by apply secured_json].
  - destruct (operatorGC _ _ _ _ _ _) as [a s'] eqn:E. cbn [fst]. revert E. unfold operatorGC, unauthorized, not_found.
    destruct (_ || _); [intros [= <- _]; by apply secured_error|].
    destruct (negb _); [intros [= <- _]; by apply secured_error, secured_set|].
    destruct (negb _); [intros [= <- _]; by apply secured_error, secured_set|].
    destruct (_ || _); [intros [= <- _]; by apply secured_error, secured_set|].
    destruct (run_gc _ _ _ _ _) as [[run accepted] after]. intros [= <- _].
    destruct (_ =? 200); [by apply secured_json|done].
  - unfold repositoryAPI, not_found. destruct (Cut _ _) as [[name action] ok].
    destruct (_ || _); [by apply secured_error|]. destruct (_ ≫= _); [by apply secured_set|by apply secured_error].
  - unfold metrics, not_found. destruct_ifs; [by apply secured_error|by apply secured_set].
  - unfold dashboard, not_found. destruct_ifs; [by apply secured_error|by apply secured_set].
Qed.

End Operator.
