(* ===== verification/ServerStart.v ===== *)
(** * Starting the server: theorems

    What a server that started is made of, and what it keeps from then on, whatever it is
    asked and whatever it collects. *)

From stdpp Require Import sorting.
From S2P Require Import Prelude GoStrings FilePath Url Origin Http Time Metadata Fs StoreFacts StoreOps StoreSystem StoreSafety StoreTheorems Handler Mux Server ServerNew ServerHttp ServerFacts ServerInvariant ServerTheorems.
From S2P Require Storage Maintenance Config Store LocalPackages Npm Oci PyPi.
From Stdlib Require Import Ascii String.
Local Open Scope string_scope.
Local Open Scope Z_scope.

Section Start.
Context {codec : MetadataCodec}.

Lemma list_lookup_snoc_cases {A : Type} (l : list A) (x y : A) (i : nat) :
  (l ++ [x])%list !! i = Some y -> l !! i = Some y \/ (i = List.length l /\ y = x).
Proof.
  intros [H|[Hi H]]%lookup_app_Some; [by left|right]. destruct (i - List.length l)%nat eqn:E; [|done].
  injection H as <-. split; [lia|done].
Qed.

(** ** Any collection *)

Lemma collectPressure_ok (env : Surroundings) (c : Storage.Controller) (p : Pool) :
  undisturbed env -> pool_ok p -> pool_usage p <= maxInt64 ->
  exists r p', collectPressure env c p = (r, None, p') /\ pool_ok p' /\ shape p' = shape p.
Proof.
  intros Hun Hp Hmax. unfold collectPressure. destruct (_ <=? 0); [by exists Maintenance.zeroResult, p|].
  destruct (pressure_candidates_spec env (stores p) 0 Hun (po_stores p Hp)) as (items & -> & Hnd & _ & Hitems).
  pose proof (merge_sort_Permutation older items) as Hperm. destruct (items_describe p items Hitems) as [Hcur _].
  edestruct (pressure_loop_takes env) as (taken & rest & r & p' & _ & -> & Ht & _);
    [done|exact Hp| |by rewrite (Permutation_map key_of Hperm)|done|cbn; lia|].
  - rewrite Hperm. apply Forall_forall. intros item Hi. destruct (Hcur item Hi) as (m & n & H1 & H2 & _). by exists m, n.
  - exists r, p'. split_and!; [done|apply Ht|apply Ht].
Qed.

Lemma collect_ok (env : Surroundings) (maxAge : Z) (p : Pool) :
  undisturbed env -> 0 < maxAge -> pool_ok p -> pool_usage p <= maxInt64 ->
  exists r p', collect env maxAge p = (r, None, p') /\ pool_ok p' /\ shape p' = shape p.
Proof.
  intros Hun Hage Hp Hmax. unfold collect.
  assert (exists r p', collect_stores env maxAge (List.length (stores p)) 0 Maintenance.zeroResult p = (r, None, p')
    /\ pool_ok p' /\ shape p' = shape p) as H.
  { destruct (collect_stores_from env maxAge (List.length (stores p)) 0 Maintenance.zeroResult p)
      as (r & p' & E & B1 & _ & _ & _ & B6 & _); [done..|]. by exists r, p'. }
  destruct (budget p) as [c|]; [|done]. destruct (Storage.Pressure _); [by apply collectPressure_ok|done].
Qed.

(** ** The repositories *)

Context (boot : Boot) (cfg : Config.Config).

(** The directories of the repositories as the server finds them. *)
Record disk_ok : Prop := {
  dk_around : undisturbed (around boot);
  dk_files : forall root, wf_files (disk boot root) /\ no_torn (disk boot root);
  dk_walk : forall root s, Store.files s = disk boot root -> full_walk (rootWalk boot root) s;
  dk_proper : forall root, Forall proper (Store.visited (rootWalk boot root))
}.

(** *** Directories and upstreams *)

Lemma root_clean (r : Config.Repository) :
  Config.usable cfg -> Config.valid_repository r -> clean_dir (storage_root cfg (Config.Name r)).
Proof. intros Hu Hr. apply clean_dir_Join; [apply Hu|]. apply Config.valid_name_plain, Hr. Qed.

Lemma private_clean (r : Config.Repository) :
  Config.usable cfg -> Config.valid_repository r -> clean_dir (private_path cfg r).
Proof.
  intros Hu Hr. pose proof (Config.us_path _ Hu) as Hp. pose proof (Config.vr_name _ Hr) as Hn%Config.valid_name_plain.
  unfold private_path. set (dir := Config.StoragePath (Config.storage cfg)) in *. set (name := Config.Name r) in *.
  assert (filepath_Join [dir; name; "private"] = filepath_Join [child dir name; "private"]) as ->.
  { unfold filepath_Join. cbn [List.filter]. pose proof (proj1 Hn) as Hn'. pose proof Hp as Hp'.
    apply String.eqb_neq in Hp', Hn'. rewrite Hp', Hn'. destruct (String.eqb_spec (child dir name) EmptyString) as [E|_].
    { by destruct dir. }
    change (negb ("private" =? EmptyString)%string) with true. cbn [negb].
    change (Join [dir; name; "private"] "/") with (dir ++ "/" ++ name ++ "/" ++ "private").
    change (Join [child dir name; "private"] "/") with ((dir ++ "/" ++ name) ++ "/" ++ "private").
    by rewrite !app_assoc_str. }
  apply clean_dir_Join; [by destruct dir|by split_and!].
Qed.

Lemma upstream_located (r : Config.Repository) (u : URL) :
  Config.valid_repository r -> Parse (Config.Upstream r) = Some u -> located u.
Proof.
  intros [_ _ _ _ _ _ (v & Ev & Hs & Hh & _) _ _] Eu. assert (v = u) as -> by congruence.
  eapply Parse_located; [exact Eu|]. apply andb_true_iff. split; apply Config.nonempty_spec; [|done].
  intros E. rewrite E in Hs. by apply list_elem_of_In in Hs as [?|[?|[]]].
Qed.

Lemma new_proxy_ok (r : Config.Repository) (p : Proxy) :
  Config.usable cfg -> Config.valid_repository r -> new_proxy boot cfg r = Ok p -> proxy_ok p.
Proof.
  intros Hu Hr. pose proof (upstream_located r) as Hup. unfold new_proxy.
  destruct (_ =? "npm")%string; [|destruct (_ =? "oci")%string; [|destruct (_ =? "pypi")%string; [|done]]].
  - unfold Npm.New. cbn [Npm.OptUpstream]. destruct (Parse _) as [u|]; [|done]. intros [= <-]. by apply Hup.
  - unfold Oci.New. cbn [Oci.OptUpstream]. destruct (Parse (Config.Upstream r)) as [u|]; [|done].
    destruct (_ || _); [done|]. destruct (Parse _) as [v|]; [|done].
    do 2 (destruct (_ =? _)%string; [try done|]); cbn; try done. intros [= <-]. by apply Hup.
  - destruct (fail_as PublishToken _) as [token|]; [|done]. cbn [result_bind]. unfold PyPi.New.
    cbn [PyPi.OptUpstream PyPi.OptLocalPath]. destruct (Parse _) as [u|]; [|done].
    destruct (negb _); [done|]. destruct (negb _); [done|]. destruct (_ && _); [done|]. destruct (_ && _); [done|].
    destruct (PyPi.allow_origins _ _) as [allowed|]; [|done]. intros [= <-]. split; [by apply Hup|by apply private_clean].
Qed.

(** The entry of the [i]-th repository. *)
Record installed (s : Server) (i : nat) (r : Config.Repository) : Prop := {
  in_proxy : exists repo, repositories s !! i = Some repo /\ new_proxy boot cfg r = Ok (proxy repo)
    /\ forall pattern, pattern ∈ proxy_routes r (proxy repo) -> (pattern, ToRepository i) ∈ mux s;
  in_store : shape (pool s) !! i = Some (Config.Name r, storage_root cfg (Config.Name r))
}.

Lemma new_store_ok (r : Config.Repository) (st : Store.Store) :
  disk_ok -> clean_dir (storage_root cfg (Config.Name r)) -> new_store boot cfg r = Ok st ->
  store_ok st /\ Store.root st = storage_root cfg (Config.Name r) /\ Store.controller st = None
  /\ usage_bytes (Store.files st) = usage_bytes (disk boot (storage_root cfg (Config.Name r))).
Proof.
  intros [Hun Hdisk Hwalk Hpr] Hr. unfold new_store. set (root := storage_root cfg (Config.Name r)).
  destruct (Store.New _ _ _ _) as [s|] eqn:En; [|done]. destruct (Hdisk root) as [Hwf Htorn].
  set (f := disk boot root) in *.
  set (s0 := Store.mkStore root (wrap64 (usage_bytes f)) (wrap64 (usage_objects f)) None ∅ f).
  assert (store_ok s0) as Hok0 by (split; [exact Hr|done|by split|done]).
  destruct (New_ok (io boot) (rootWalk boot root) s0 s) as (Hok & Hf & Hrt & Hc & _);
    [by apply undisturbed_reads|by apply Hwalk|done|done|]. cbn in Hf, Hrt.
  destruct (0 <? _); [|intros [= <-]; by rewrite Hf].
  pose proof (CleanupStaleTemps_ok (io boot) (sysNow (around boot)) (rootWalk boot root) s
    (Config.StaleTempAge (Config.storage cfg)) Hok (Hpr root)) as H. cbv zeta in H.
  destruct (Store.CleanupStaleTemps _ _ _ _ _) as [[g [e|]] s']; [done|]. intros [= <-]. cbn [snd] in H.
  destruct H as (Hok' & [(C1 & C2 & _) _ C4]). split_and!; [done|congruence|congruence|].
  unfold usage_bytes. by rewrite C4, Hf.
Qed.

(** *** Routes *)

Lemma register_all_spec (patterns : list string) (to : route) (m m' : list (string * route)) :
  register_all patterns to m = Ok m' ->
  m ⊆ m' /\ (forall pattern, pattern ∈ patterns -> (pattern, to) ∈ m')
  /\ forall entry, entry ∈ m' -> entry ∈ m \/ snd entry = to.
Proof.
  revert m. induction patterns as [|x patterns IH]; intros m; cbn [register_all].
  { intros [= <-]. split_and!; [done|by intros pattern H%elem_of_nil|by left]. }
  unfold register. destruct (existsb _ m) eqn:E; [done|]. intros H. destruct (IH _ H) as (H1 & H2 & H3). split_and!.
  - etrans; [|exact H1]. intros y Hy. by apply list_elem_of_further.
  - intros y [->|Hy]%elem_of_cons; [apply H1, list_elem_of_here|by apply H2].
  - intros y [[->|Hy]%elem_of_cons|Hy]%H3; [by right|by left|by right].
Qed.

Lemma register_distinct (pattern : string) (to : route) (m m' : list (string * route)) :
  register pattern to m = Some m' -> NoDup (map fst m) -> NoDup (map fst m').
Proof.
  unfold register. destruct (existsb _ m) eqn:E; [done|]. intros [= <-] Hm. cbn [map fst]. constructor; [|done].
  intros ([x to'] & -> & Hin)%list_elem_of_fmap. apply not_true_iff_false in E. apply E, existsb_exists.
  exists (x, to'). split; [by apply list_elem_of_In|]. apply String.eqb_refl.
Qed.

Lemma register_all_distinct (patterns : list string) (to : route) (m m' : list (string * route)) :
  register_all patterns to m = Ok m' -> NoDup (map fst m) -> NoDup (map fst m').
Proof.
  revert m. induction patterns as [|x patterns IH]; intros m; cbn [register_all]; [by intros [= <-]|].
  destruct (register x to m) as [m1|] eqn:E; [|done]. intros H Hm. eapply IH; [done|]. by eapply register_distinct.
Qed.

Lemma register_own_spec (rs m m' : list (string * route)) :
  register_own rs m = Ok m' ->
  m ⊆ m' /\ rs ⊆ m' /\ (NoDup (map fst m) -> NoDup (map fst m')) /\ forall entry, entry ∈ m' -> entry ∈ m \/ entry ∈ rs.
Proof.
  revert m. induction rs as [|[x to] rs IH]; intros m; cbn [register_own].
  { intros [= <-]. split_and!; [done|by intros y H%elem_of_nil|done|by left]. }
  destruct (register x to m) as [m1|] eqn:E; [|done]. intros H. destruct (IH _ H) as (H1 & H2 & H3 & H4).
  assert (m1 = (x, to) :: m) as -> by (unfold register in E; destruct (existsb _ m); congruence).
  split_and!.
  - intros y Hy. apply H1. by apply list_elem_of_further.
  - intros y [->|Hy]%elem_of_cons; [apply H1, list_elem_of_here|by apply H2].
  - intros Hm. apply H3. by eapply register_distinct.
  - intros y [[->|Hy]%elem_of_cons|Hy]%H4; [right; apply list_elem_of_here|by left|right; by apply list_elem_of_further].
Qed.

(** *** One after the other *)

Definition loaded_usage (rs : list Config.Repository) : Z :=
  foldr (fun r total => usage_bytes (disk boot (storage_root cfg (Config.Name r))) + total) 0 rs.

(** What is loaded once the repositories [rs] are. *)
Record loaded (s : Server) (rs : list Config.Repository) : Prop := {
  ld_length : List.length (repositories s) = List.length rs /\ List.length (stores (pool s)) = List.length rs;
  ld_installed : forall i r, rs !! i = Some r -> installed s i r;
  ld_names : NoDup (map Config.Name rs) -> forall i r, rs !! i = Some r -> byName s !! Config.Name r = Some i;
  ld_pool : pool_ok (pool s) /\ budget (pool s) = None /\ pool_usage (pool s) = loaded_usage rs;
  ld_routes : NoDup (map fst (mux s));
  ld_targets : forall pattern i, (pattern, ToRepository i) ∈ mux s -> (i < List.length rs)%nat;
  ld_proxies : Forall (fun r => proxy_ok (proxy r)) (repositories s)
}.

Lemma sum_bytes_app (ms ms' : list managedStore) : sum_bytes (ms ++ ms') = sum_bytes ms + sum_bytes ms'.
Proof. induction ms as [|m ms IH]; [done|]. cbn. unfold sum_bytes in *. rewrite IH. lia. Qed.

Lemma loaded_usage_snoc (rs : list Config.Repository) (r : Config.Repository) :
  loaded_usage (rs ++ [r]) = loaded_usage rs + usage_bytes (disk boot (storage_root cfg (Config.Name r))).
Proof. induction rs as [|x rs IH]; cbn; unfold loaded_usage in *; [lia|]. rewrite IH. lia. Qed.

Lemma installed_more (s s' : Server) (i : nat) (r : Config.Repository) :
  installed s i r -> repositories s' !! i = repositories s !! i -> mux s ⊆ mux s' ->
  shape (pool s') !! i = shape (pool s) !! i -> installed s' i r.
Proof.
  intros [(repo & H1 & H2 & H3) H4] E1 E2 E3. split; [|congruence].
  exists repo. split_and!; [congruence|done|]. intros pattern Hp. by apply E2, H3.
Qed.

Lemma add_repository_loaded (s s' : Server) (rs : list Config.Repository) (r : Config.Repository) :
  Config.usable cfg -> disk_ok -> r ∈ Config.Repositories cfg -> loaded s rs -> add_repository boot cfg s r = Ok s' ->
  loaded s' (rs ++ [r]).
Proof.
  intros Hu Hdisk Hr [[L1 L2] L3 L4 (L5 & L6 & L7) L8 L9 L10].
  pose proof (proj1 (Forall_forall _ _) (Config.us_repositories _ Hu) r Hr) as Hv. unfold add_repository, fail_as at 1.
  destruct (new_store boot cfg r) as [st|e] eqn:Es; [|done]. cbn [result_bind].
  destruct (new_proxy boot cfg r) as [p|e] eqn:Ep; [|done]. cbn [result_bind].
  destruct (register_all _ _ _) as [m|e] eqn:Em; [|done]. cbn [fail_as result_bind]. intros [= <-].
  destruct (new_store_ok r st Hdisk (root_clean r Hu Hv) Es) as (S1 & S2 & S3 & S4).
  destruct (register_all_spec _ _ _ _ Em) as (M1 & M2 & M4). pose proof (register_all_distinct _ _ _ _ Em L8) as M3.
  assert (shape (pool (with_repository r st p m s)) = (shape (pool s) ++ [(Config.Name r, Store.root st)])%list) as Esh
    by (unfold shape; cbn; by rewrite map_app).
  split.
  - cbn. rewrite !length_app. cbn. lia.
  - intros i x [Hi|[-> Hx]]%list_lookup_snoc_cases.
    + pose proof (lookup_lt_Some _ _ _ Hi). eapply installed_more; [by apply L3|..].
      * cbn. by rewrite lookup_app_l by lia.
      * exact M1.
      * rewrite Esh. apply lookup_app_l. unfold shape. rewrite length_map. lia.
    + subst x. split.
      * exists (mkRepo p zero_stats). cbn. rewrite <- L1, lookup_app_r, Nat.sub_diag by lia. by split_and!.
      * rewrite Esh, lookup_app_r by (unfold shape; rewrite length_map; lia).
        unfold shape. rewrite length_map, L2, Nat.sub_diag. cbn. by rewrite S2.
  - rewrite map_app. intros (N1 & N2 & _)%NoDup_app i x [Hi|[-> Hx]]%list_lookup_snoc_cases; cbn.
    + rewrite lookup_insert_ne; [by apply L4|]. intros E. apply (N2 (Config.Name x)).
      * apply list_elem_of_fmap_2. by eapply list_elem_of_lookup_2.
      * rewrite <- E. apply list_elem_of_here.
    + subst x. rewrite lookup_insert_eq. by rewrite L1.
  - cbn [pool with_repository]. split_and!.
    + destruct L5 as [P1 P2 P3]. split; cbn [stores budget].
      * apply Forall_app; split; [done|by constructor].
      * rewrite L6 in *. apply Forall_app; split; [done|by constructor].
      * intros c. by rewrite L6.
    + done.
    + unfold pool_usage in *. cbn [stores]. rewrite sum_bytes_app, L7, loaded_usage_snoc. cbn. rewrite S4. lia.
  - done.
  - intros pattern i Hin. cbn in Hin. rewrite length_app. destruct (M4 _ Hin) as [Hm|E].
    + pose proof (L9 _ _ Hm). lia.
    + injection E as ->. rewrite L1. cbn. lia.
  - cbn. apply Forall_app. split; [done|]. constructor; [|constructor]. exact (new_proxy_ok r p Hu Hv Ep).
Qed.

Lemma add_repositories_loaded (rs : list Config.Repository) (s s' : Server) (before : list Config.Repository) :
  Config.usable cfg -> disk_ok -> Config.Repositories cfg = (before ++ rs)%list -> loaded s before ->
  add_repositories boot cfg s rs = Ok s' -> loaded s' (Config.Repositories cfg).
Proof.
  intros Hu Hdisk. revert s before. induction rs as [|r rs IH]; intros s before E Hl; cbn [add_repositories].
  { intros [= <-]. by rewrite E, app_nil_r. }
  destruct (add_repository boot cfg s r) as [s1|e] eqn:Ea; [|done]. cbn [result_bind]. apply (IH s1 (before ++ [r])%list).
  - by rewrite E, <- app_assoc.
  - apply (add_repository_loaded s); [done|done| |done|done]. rewrite E. set_solver.
Qed.

(** What adding a repository leaves alone. *)
Lemma add_repositories_same (rs : list Config.Repository) (s s' : Server) :
  add_repositories boot cfg s rs = Ok s' ->
  operatorToken s' = operatorToken s /\ maxAge s' = maxAge s /\ gc s' = gc s.
Proof.
  revert s. induction rs as [|r rs IH]; intros s; cbn [add_repositories]; [by intros [= <-]|].
  destruct (add_repository boot cfg s r) as [s1|e] eqn:Ea; [|done]. cbn [result_bind]. intros H.
  destruct (IH _ H) as (-> & -> & ->). revert Ea. unfold add_repository.
  destruct (new_store boot cfg r); [|done]. cbn [result_bind]. destruct (new_proxy boot cfg r); [|done].
  cbn [result_bind]. destruct (register_all _ _ _); [|done]. by intros [= <-].
Qed.

(** ** The bytes on disk *)

Lemma add_bytes_min (total bytes : Z) :
  0 <= total <= maxInt64 -> 0 <= bytes <= maxInt64 -> add_bytes total bytes = Z.min maxInt64 (total + bytes).
Proof.
  intros H1 H2. unfold add_bytes. rewrite wrap64_id by int64_lia.
  destruct (Z.ltb_spec (maxInt64 - total) bytes); [lia|]. rewrite wrap64_id by int64_lia. lia.
Qed.

Lemma store_usage_exact (ms : list managedStore) (total : Z) :
  Forall (fun m => store_ok (store m)) ms -> 0 <= total -> total + sum_bytes ms <= maxInt64 ->
  foldl (fun total m => add_bytes total (fst (Store.Size (store m)))) total ms = total + sum_bytes ms.
Proof.
  revert total. induction ms as [|m ms IH]; intros total Hok H0 Hmax; [cbn; lia|].
  apply Forall_cons in Hok as [Hm Hok]. cbn [foldl].
  assert (sum_bytes (m :: ms) = usage_bytes (Store.files (store m)) + sum_bytes ms) as E by done.
  pose proof (usage_nonneg (store m)). pose proof (sum_bytes_nonneg ms).
  assert (fst (Store.Size (store m)) = usage_bytes (Store.files (store m))) as ->.
  { unfold Store.Size. cbn [fst]. destruct (ok_exact _ Hm) as [-> _]. apply wrap64_id. int64_lia. }
  rewrite add_bytes_min by lia. rewrite Z.min_r by lia. rewrite IH; [lia|done|lia|lia].
Qed.

Lemma size_walk_range (sysio : oracle) (f : fs) (paths : list string) (total : Z) :
  0 <= total <= maxInt64 -> 0 <= fst (LocalPackages.size_walk sysio f total paths) <= maxInt64.
Proof.
  revert total. induction paths as [|path paths IH]; intros total Ht; [done|]. cbn [LocalPackages.size_walk].
  destruct (LocalPackages.size_visit sysio f total path) as [total'|e] eqn:E; [|done]. apply IH. revert E.
  unfold LocalPackages.size_visit. destruct (_ || _); [by intros [= <-]|].
  destruct (Stat sysio path f) as [info|]; [|done]. destruct (is_regular info); [|by intros [= <-]].
  assert (0 <= size_of info) by (unfold size_of; lia).
  destruct (_ && _) eqn:Eo; [done|]. intros [= <-]. apply andb_false_iff in Eo as [Eo|Eo]; split_bool; lia.
Qed.

Lemma private_usage_range (s : Server) (i : nat) (p : PyPi.Proxy) (bytes : Z) :
  private_usage boot s i p = Ok bytes -> 0 <= bytes <= maxInt64.
Proof.
  unfold private_usage. set (f := match stores (pool s) !! i with Some m => _ | None => _ end). clearbody f.
  unfold LocalPackages.PrivateSize.
  pose proof (size_walk_range (io boot) f (Store.visited (rootWalk boot (PyPi.localPath p))) 0 ltac:(done)) as H.
  destruct (LocalPackages.size_walk _ _ _ _) as [total err]. cbn [fst] in H.
  destruct err as [e|]; [done|]. destruct (Store.walk_error (rootWalk boot (PyPi.localPath p))); [done|]. by intros [= <-].
Qed.

Lemma add_private_range (s : Server) (rs : list Repo) (i : nat) (total committed : Z) :
  0 <= total <= maxInt64 -> add_private boot s i rs total = Ok committed -> total <= committed <= maxInt64.
Proof.
  revert i total. induction rs as [|[p st] rs IH]; intros i total Ht; cbn [add_private]; [intros [= <-]; lia|].
  destruct p as [p|p|p]; [by apply IH|by apply IH|].
  destruct (private_usage boot s i p) as [bytes|e] eqn:E; [|done]. cbn [result_bind].
  apply private_usage_range in E. intros H. apply IH in H; rewrite add_bytes_min in * by done; lia.
Qed.

(** ** The server *)

(** Replacing the pool by one of the same shape changes no entry. *)
Lemma installed_pool (s : Server) (p : Pool) (i : nat) (r : Config.Repository) :
  shape p = shape (pool s) -> installed s i r -> installed (set_pool p s) i r.
Proof. intros E H. eapply installed_more; [exact H|done|done|]. cbn. by rewrite E. Qed.

Lemma new_budget_ok (committed : Z) (p : Pool) :
  pool_ok p -> budget p = None -> pool_usage p <= committed <= maxInt64 ->
  pool_ok (new_budget cfg committed p) /\ shape (new_budget cfg committed p) = shape p
  /\ pool_usage (new_budget cfg committed p) = pool_usage p
  /\ is_Some_b (budget (new_budget cfg committed p)) = bounded cfg.
Proof.
  intros [P1 P2 P3] Hb Hc. unfold new_budget. destruct (bounded cfg); [|by rewrite Hb].
  split_and!; [|by unfold shape; cbn; rewrite map_map|by apply sum_bytes_share|done].
  split; cbn [stores budget set_budget].
  - rewrite Forall_map. eapply Forall_impl; [exact P1|]. intros m H. by apply store_ok_controller.
  - rewrite Forall_map. by apply Forall_true.
  - intros c [= <-]. assert (pool_usage (set_budget (Some (Storage.NewController (Config.MaxBytes (Config.storage cfg))
      (Config.HighWatermark (Config.storage cfg)) (Config.LowWatermark (Config.storage cfg))
      (Config.MinFreeBytes (Config.storage cfg)) committed)) p) = pool_usage p) as -> by apply sum_bytes_share.
    exact Hc.
Qed.

Lemma startup_gc_ok (s s' : Server) :
  disk_ok -> pool_ok (pool s) -> pool_usage (pool s) <= maxInt64 -> startup_gc boot s = Ok s' ->
  pool_ok (pool s') /\ shape (pool s') = shape (pool s) /\ repositories s' = repositories s /\ byName s' = byName s
  /\ mux s' = mux s /\ operatorToken s' = operatorToken s.
Proof.
  intros Hdisk Hp Hmax. unfold startup_gc. destruct (Z.ltb_spec 0 (maxAge s)) as [Hage|]; [|intros [= <-]; by split_and!].
  unfold run_gc. destruct (Maintenance.current (gc s)).
  { destruct (Maintenance.coalesce (gc s)) as [run|]; [destruct (nonempty _)|]; intros [= <-]; by split_and!. }
  destruct (collect_ok (around boot) (maxAge s) (pool s) (dk_around Hdisk) Hage Hp Hmax) as (r & p' & -> & H1 & H2).
  destruct (Maintenance.RunOnce _ _ _ _ _) as [[run accepted] c].
  destruct run as [run|]; [destruct (nonempty _)|]; intros [= <-]; by split_and!.
Qed.

(** What [New] returns. *)
Record booted (s : Server) : Prop := {
  bt_token : operatorToken s = EmptyString \/ 32 <= Z.of_nat (String.length (operatorToken s)) <= 4096;
  bt_ok : server_ok s;
  bt_count : List.length (repositories s) = List.length (Config.Repositories cfg);
  bt_installed : forall i r, Config.Repositories cfg !! i = Some r -> installed s i r;
  bt_names : forall i r, Config.Repositories cfg !! i = Some r -> byName s !! Config.Name r = Some i;
  bt_own : own_routes ⊆ mux s;
  bt_routes : NoDup (map fst (mux s))
}.

Lemma optional_token_length (file token : string) :
  optional_token boot file = Ok token -> token = EmptyString \/ 32 <= Z.of_nat (String.length token) <= 4096.
Proof.
  unfold optional_token, read_token. destruct (nonempty file); [|intros [= <-]; by left].
  destruct (readToken boot file) as [text|]; [|done]. destruct (_ || _) eqn:E; [done|]. intros [= <-]. right.
  apply orb_false_iff in E as [E1 E2]. apply Nat.ltb_ge in E1. split_bool. lia.
Qed.

Lemma own_routes_own (pattern : string) (i : nat) : (pattern, ToRepository i) ∈ own_routes -> False.
Proof. intros H%list_elem_of_In. cbn in H. by repeat (destruct H as [[=]|H]). Qed.

(** The repositories with all of them added, and the budget over them. *)
Lemma loaded_booted (s1 s2 : Server) (m : list (string * route)) :
  Config.usable cfg -> loaded s1 (Config.Repositories cfg) ->
  shape (pool s2) = shape (pool s1) -> repositories s2 = repositories s1 -> byName s2 = byName s1 -> mux s2 = mux s1 ->
  pool_ok (pool s2) -> register_own own_routes (mux s2) = Ok m ->
  operatorToken s2 = EmptyString \/ 32 <= Z.of_nat (String.length (operatorToken s2)) <= 4096 ->
  booted (set_mux m s2).
Proof.
  intros Hu [[L1 L2] L3 L4 _ L8 L9 L10] E1 E2 E3 E4 Hp Em Ht.
  destruct (register_own_spec _ _ _ Em) as (M1 & M2 & M3 & M4). rewrite E4 in M1, M3, M4.
  split; cbn; try done.
  - split; cbn; [done|by rewrite E2| |].
    + rewrite E2, L1, <- L2. apply (f_equal List.length) in E1. unfold shape in E1. by rewrite !length_map in E1.
    + intros pattern i [Hin|Hin]%M4; [rewrite E2, L1; by eapply L9|by apply own_routes_own in Hin].
  - by rewrite E2.
  - intros i r Hi. eapply installed_more; [by apply L3|cbn; by rewrite E2|exact M1|cbn; by rewrite E1].
  - intros i r Hi. rewrite E3. apply L4; [apply Hu|done].
  - by apply M3.
Qed.

Lemma New_booted (version : string) (s : Server) :
  Config.usable cfg -> disk_ok -> loaded_usage (Config.Repositories cfg) <= maxInt64 ->
  New boot cfg version = Ok s -> booted s.
Proof.
  intros Hu Hdisk Hmax. unfold New.
  destruct (optional_token boot _) as [token|e] eqn:Et; [|done]. cbn [fail_as result_bind].
  set (s0 := set_operatorToken token (empty_server boot cfg version)).
  destruct (add_repositories boot cfg s0 _) as [s1|e] eqn:Ea; [|done]. cbn [result_bind].
  assert (loaded s0 []) as Hl0.
  { split; [done|by intros i r Hi|by intros _ i r Hi| |constructor|by intros ? ? H%elem_of_nil|constructor].
    split_and!; [|done|done]. split; [constructor|constructor|done]. }
  pose proof (add_repositories_loaded _ s0 s1 [] Hu Hdisk eq_refl Hl0 Ea) as Hl. pose proof (ld_pool _ _ Hl) as (L5 & L6 & L7).
  destruct (add_repositories_same _ _ _ Ea) as (Tok & _ & _).
  destruct (add_private boot s1 0 _ _) as [committed|e] eqn:Ec; [|done]. cbn [result_bind].
  assert (store_usage s1 = pool_usage (pool s1)) as Eu.
  { unfold store_usage. rewrite store_usage_exact; [done|apply L5|done|]. fold (pool_usage (pool s1)). lia. }
  pose proof (sum_bytes_nonneg (stores (pool s1))) as H0. fold (pool_usage (pool s1)) in H0.
  rewrite Eu in Ec. apply add_private_range in Ec; [|lia].
  destruct (new_budget_ok committed (pool s1) L5 L6 Ec) as (B1 & B2 & B3 & _).
  set (s2 := set_pool (new_budget cfg committed (pool s1)) s1).
  destruct (startup_gc boot s2) as [s3|e] eqn:Eg; [|done]. cbn [result_bind].
  destruct (startup_gc_ok s2 s3 Hdisk B1 ltac:(change (pool s2) with (new_budget cfg committed (pool s1)); lia) Eg)
    as (G1 & G2 & G3 & G4 & G5 & G6).
  destruct (register_own own_routes (mux s3)) as [m|e] eqn:Em; [|done]. cbn [result_bind]. intros [= <-].
  apply (loaded_booted s1 s3); [done|done|by rewrite G2; exact B2|exact G3|exact G4|exact G5|exact G1|exact Em|].
  rewrite G6. change (operatorToken s2) with (operatorToken s1). rewrite Tok. by apply optional_token_length in Et.
Qed.


(** ** A server that started *)


End Start.
