(* ===== verification/ServerExamples.v ===== *)
(** * The server at work

    A server over the demonstration store and an empty private index: it starts, evicts
    under pressure and collects by age.  Then a configuration that is accepted although no
    server starts from it, and a collection that fails half way. *)

From S2P Require Import Prelude GoStrings FilePath Url Http HttpPolicy Time Metadata Fs StoreFacts StoreOps StorePut StoreSystem StoreTheorems StoreExamples PyPiText Handler HandlerFacts HandlerExamples Order Mux Server ServerNew ServerHttp ServerFacts ServerKeeps ServerInvariant ServerTheorems ServerStart PyPiOrder PyPiExamples.
From S2P Require Storage Maintenance Config Store LocalPackages PyPi.
From Stdlib Require Import Ascii String.
Local Open Scope string_scope.
Local Open Scope Z_scope.

(** ** Undisturbed surroundings *)

Definition whole_walk (f : fs) : Store.Walk := Store.mkWalk (map fst (map_to_list f)) None.

Lemma whole_walk_full (s : Store.Store) (f : fs) : Store.files s = f -> full_walk (whole_walk f) s.
Proof.
  intros E. split_and!; [exact (NoDup_fst_map_to_list f)|done|]. rewrite E. intros p [n Hn]. cbn.
  apply list_elem_of_fmap. exists (p, n). split; [done|by apply elem_of_map_to_list].
Qed.

Lemma whole_walk_proper (f : fs) : wf_files f -> Forall proper (Store.visited (whole_walk f)).
Proof.
  intros Hwf. apply Forall_forall. cbn. intros p ([q n] & -> & Hn%elem_of_map_to_list)%list_elem_of_fmap.
  apply Hwf. by exists n.
Qed.

Definition quiet_env (now : Time) : Surroundings :=
  mkSurroundings calm now (fun s => whole_walk (Store.files s)) (fun _ => None) (fun _ p => p) (fun _ => "failed").

Lemma quiet_undisturbed (now : Time) : undisturbed (quiet_env now).
Proof.
  split; try done.
  - intros s _. by apply whole_walk_full.
  - intros s Hok. apply whole_walk_proper, Hok.
Qed.

(** ** Maintenance *)

(** The demonstration store under a budget of six bytes: its five bytes are above the
    low watermark of four. *)
Definition tight : Storage.Controller := Storage.mkController 6 9000 7500 0 5 0 0 0.

Definition one_store (s : Store.Store) (c : Storage.Controller) : Pool :=
  mkPool [mkManaged "c" (Store.set_controller (Some c) s)] (Some c).
Definition demo_pool : Storage.Controller -> Pool := one_store demo_after.

Lemma one_store_usage (s : Store.Store) (c : Storage.Controller) :
  pool_usage (one_store s c) = usage_bytes (Store.files s).
Proof. unfold pool_usage. cbn. lia. Qed.

Lemma one_store_entry (s : Store.Store) (c : Storage.Controller) (path : string) :
  entry_of (one_store s c) (0%nat, path) = entries (Store.files s) !! path.
Proof. done. Qed.

Lemma one_store_ok (s : Store.Store) (c : Storage.Controller) :
  store_ok s -> usage_bytes (Store.files s) <= Storage.committedBytes c <= maxInt64 -> pool_ok (one_store s c).
Proof.
  intros Hs Hc. split.
  - constructor; [by apply store_ok_controller|constructor].
  - by constructor.
  - intros ? [= <-]. by rewrite one_store_usage.
Qed.

Lemma demo_usage (c : Storage.Controller) : pool_usage (demo_pool c) = 5.
Proof.
  unfold demo_pool. rewrite one_store_usage. unfold usage_bytes. rewrite demo_entry. reflexivity.
Qed.

Lemma demo_pool_ok (c : Storage.Controller) : Storage.committedBytes c = 5 -> pool_ok (demo_pool c).
Proof.
  intros Hc. pose proof (demo_usage c) as Hu. unfold demo_pool in *. rewrite one_store_usage in Hu.
  apply one_store_ok; [apply demo_final_ok|]. rewrite Hu, Hc. int64_lia.
Qed.

Lemma pressure_evicts_oldest_witness :
  Storage.LowBytes (Storage.SnapshotOf tight) = 4
  /\ exists r p', collectPressure (quiet_env demo_time) tight (demo_pool tight) = (r, None, p')
       /\ (Maintenance.RemovedBytes r = 5 \/ forall key, entry_of p' key = None).
Proof.
  assert (Storage.LowBytes (Storage.SnapshotOf tight) = 4) as El by (vm_compute; reflexivity).
  split; [exact El|].
  destruct (pressure_evicts_oldest (quiet_env demo_time) (demo_pool tight) tight (quiet_undisturbed _)
    (demo_pool_ok tight eq_refl) eq_refl) as (r & p' & c' & E & _ & _ & _ & _ & [Hl|Hn] & _).
  - rewrite El. int64_lia.
  - exists r, p'. split; [exact E|]. left.
    assert (Maintenance.RemovedBytes (fst (fst (collectPressure (quiet_env demo_time) tight (demo_pool tight)))) = 5)
      as Er by (vm_compute; reflexivity).
    rewrite E in Er. exact Er.
  - exists r, p'. split; [exact E|by right].
Defined.

(** With room enough nothing is taken before its time. *)
Definition ample : Storage.Controller := Storage.mkController 100 9000 7500 0 5 0 0 0.

Lemma collection_takes_expired_witness :
  exists r p', collect (quiet_env (demo_time + 2 * minute)) minute (demo_pool ample) = (r, None, p')
    /\ entry_of p' (0%nat, demo_meta) = None.
Proof.
  destruct (collection_takes_expired (quiet_env (demo_time + 2 * minute)) minute (demo_pool ample))
    as (r & p' & E & _ & _ & _ & _ & He).
  - apply quiet_undisturbed.
  - done.
  - by apply demo_pool_ok.
  - vm_compute. reflexivity.
  - rewrite demo_usage. int64_lia.
  - exists r, p'. split; [exact E|]. rewrite He.
    assert (entry_of (demo_pool ample) (0%nat, demo_meta)
      = Some (demo_stored, demo_body, mkNode Regular "hello" demo_time)) as ->
      by (unfold demo_pool; rewrite one_store_entry, demo_entry; apply lookup_singleton_eq).
    assert (expired (TimeAdd (sysNow (quiet_env (demo_time + 2 * minute))) (- minute)) demo_stored = true) as ->
      by (vm_compute; reflexivity).
    reflexivity.
Defined.

(** A collection whose walk fails after it has removed an entry leaves the bytes of that
    entry committed. *)
Definition failing_env : Surroundings :=
  mkSurroundings calm (demo_time + 2 * minute) (fun _ => Store.mkWalk [demo_meta] (Some ErrIO)) (fun _ => None)
    (fun _ p => p) (fun _ => "input/output error").

Example failed_collection_keeps_bytes :
  let '(r, err, p) := collect failing_env minute (demo_pool ample) in
  (Maintenance.RemovedBytes r, err, Storage.committedBytes <$> budget p,
   fst (Store.Size (Store.mkStore "/c" 0 0 None ∅ ∅)),
   map (fun m => fst (Store.Size (store m))) (stores p))
  = (0, Some (repository_error "c" "input/output error"), Some 5, 0, [0]).
Proof. vm_compute. reflexivity. Qed.

(** ** A server that starts *)

Definition npm_repository : Config.Repository :=
  Config.mkRepository "c" "npm" "/c/" "https://up.test/" (24 * Config.hour) false EmptyString [].
Definition pypi_repository : Config.Repository :=
  Config.mkRepository "p" "pypi" "/pypi/simple/" "https://pypi.test/simple/" (24 * Config.hour) false "publish"
    ["https://files.test"].

Definition configured (rs : list Config.Repository) : Config.Config :=
  Config.mkConfig (Config.mkServer ":8080" "http://me:1/" "info")
    (Config.mkStorage "/" (30 * 24 * Config.hour) Config.hour Config.hour 100 Config.f64_0_90 Config.f64_0_75 0)
    (Config.mkOperator "operator") rs.

Definition demo_config : Config.Config := configured [npm_repository; pypi_repository].

Definition token_text : string := "0123456789abcdef0123456789abcdef".

Definition demo_disk (root : string) : fs := if (root =? "/c")%string then Store.files demo_after else ∅.

Definition demo_boot : Boot :=
  mkBoot (quiet_env demo_time) (fun _ => Some (" " ++ token_text)) demo_disk (fun root => whole_walk (demo_disk root))
    demo_time demo_time demo_time.

Example demo_config_valid : Config.Validate demo_config = Ok tt.
Proof. vm_compute. reflexivity. Qed.

Lemma demo_disk_wf (root : string) : wf_files (demo_disk root) /\ no_torn (demo_disk root).
Proof.
  unfold demo_disk. destruct (root =? "/c")%string.
  - split; [apply (ok_wf _ demo_final_ok)|apply (ok_torn _ demo_final_ok)].
  - pose proof (empty_ok "/c" None ltac:(by split_and!)) as H. split; [apply (ok_wf _ H)|apply (ok_torn _ H)].
Qed.

Lemma demo_disk_ok : disk_ok demo_boot.
Proof.
  split.
  - apply quiet_undisturbed.
  - apply demo_disk_wf.
  - intros root s Hs. by apply whole_walk_full.
  - intros root. apply whole_walk_proper, demo_disk_wf.
Qed.

Definition demo_server : Server :=
  match New demo_boot demo_config "dev" with Ok s => s | Err _ => empty_server demo_boot demo_config "dev" end.

Lemma demo_server_starts : New demo_boot demo_config "dev" = Ok demo_server.
Proof.
  unfold demo_server. assert (match New demo_boot demo_config "dev" with Ok _ => true | Err _ => false end = true) as H
    by (vm_compute; reflexivity).
  by destruct (New _ _ _).
Qed.

Lemma demo_usage_loaded : loaded_usage demo_boot demo_config (Config.Repositories demo_config) <= maxInt64.
Proof.
  assert (loaded_usage demo_boot demo_config (Config.Repositories demo_config) = 5) as -> by (vm_compute; reflexivity).
  int64_lia.
Qed.


(** *** A request and a collection *)

Lemma quiet_attended (K : Pool -> Prop) (now : Time) : attended (quiet_env now) K.
Proof. split; [exact reads_calm|intros s Hok; apply whole_walk_proper, Hok|done]. Qed.

(** The upstream cannot be reached. *)
Definition offline : Env := HandlerExamples.around (fun _ _ => Err (GoError "no route to host" None)).
Definition at_noon : Now := mkNow demo_time demo_time None (quiet_env demo_time).
Definition ask : Call := mkCall (PyPiExamples.get "/c/left-pad") (at_path "/c/left-pad") 0 None.

Definition asked : Server := snd (respond offline at_noon demo_server ask).
Definition tended : Server := maintenance_tick (quiet_env demo_time) ScheduleTick demo_time demo_time asked.

(** What the repository asked did, if it did nothing but send requests. *)
Definition only_sends (env : Env) (now : Now) (s : Server) (c : Call) : bool :=
  match fst (ServeHTTP now s (request c) (url c)) with
  | Delegated i h =>
      match stores (pool s) !! i, repositories s !! i with
      | Some m, Some r => forallb (fun e => match e with Putting _ => false | _ => true end) (events (handled env m r c h))
      | _, _ => false
      end
  | _ => false
  end.

Example asked_reply :
  (option_map (fun r => fst <$> sent r) (snd (fst (respond offline at_noon demo_server ask))),
   only_sends offline at_noon demo_server ask) = (Some (Some 502), true).
Proof. vm_compute. reflexivity. Qed.

Lemma only_sends_admissible (env : Env) (now : Now) (s : Server) (c : Call) (i : nat) (h : Header) (m : managedStore) (r : Repo) :
  (forall at_, reads_ok (ioAt env at_)) -> (forall at_ s, others env at_ s = s) ->
  HasPrefix (EscapedPath (url c)) "/" = true -> suffix_ok (Store.bodySuffix (putEnv env)) -> contentLength c <= maxInt64 -> form c = None ->
  only_sends env now s c = true -> fst (ServeHTTP now s (request c) (url c)) = Delegated i h ->
  stores (pool s) !! i = Some m -> repositories s !! i = Some r -> admissible env s i m r c h.
Proof.
  intros Hio Ho Hp Hs Hl Hf H Hd Hm Hr. unfold only_sends in H. rewrite Hd, Hm, Hr in H. split; [|done| |].
  - split; [done|]. intros at_ st. by rewrite Ho.
  - split; [done|done|]. intros values filename src E. congruence.
  - apply Forall_forall. intros e He%list_elem_of_In. rewrite forallb_forall in H. specialize (H e He). by destruct e.
Qed.

Lemma asked_steps : rtc server_step demo_server tended.
Proof.
  apply rtc_l with asked.
  - pose proof (surjective_pairing (respond offline at_noon demo_server ask)) as E.
    rewrite (surjective_pairing (fst (respond offline at_noon demo_server ask))) in E.
    eapply (step_request offline at_noon demo_server ask); [apply quiet_attended| |exact E].
    intros i h m r. apply only_sends_admissible; [intros; exact reads_calm|done|by vm_compute..| |].
    + by vm_compute.
    + vm_compute. reflexivity.
  - apply rtc_once. apply step_tick, quiet_attended.
Qed.


(** *** A private distribution *)

Definition private_text : node := mkNode Regular "hello" demo_time.
Definition private_at : string := child (child "/c/private" "demo-pkg") "demo-1.zip".
Definition with_private : Store.Store := Store.set_files (<[private_at := private_text]> (Store.files demo_after)) demo_after.
Definition private_server : Server := set_pool (one_store with_private tight) demo_server.

Lemma private_at_file : private_file "/c/private" "demo-pkg" "demo-1.zip" private_at.
Proof. split_and!; [by split_and!|by vm_compute..|by left]. Qed.

Lemma with_private_ok : store_ok with_private /\ usage_bytes (Store.files with_private) = 5.
Proof.
  destruct private_at_file as (Hd & Hp & Hf & Hn & _).
  destruct (distribution_foreign "/c/private" Hd "demo-pkg" "demo-1.zip" Hp Hf Hn) as [[H1 H2] _].
  pose proof demo_final_ok as Hok.
  assert (wf_files (<[private_at := private_text]> (Store.files demo_after))) as Hwf by (apply wf_insert; [apply Hok|exact H1]).
  assert (forall q, Store.files demo_after !! q = <[private_at := private_text]> (Store.files demo_after) !! q \/ foreign q) as Hq.
  { intros q. destruct (decide (q = private_at)) as [->|Hne]; [by right|left]. by rewrite lookup_insert_ne. }
  split; [by apply store_ok_foreign|].
  unfold usage_bytes, with_private. cbn [Store.files Store.set_files].
  rewrite (entries_foreign (Store.files demo_after)), demo_entry; [reflexivity|apply Hok|done|].
  intros q. destruct (Hq q) as [E|E]; [by left|by right].
Qed.

(** The server is under pressure and collects, but keeps the distribution. *)
Lemma maintenance_spares_private_witness :
  file_at (pool (RunMaintenance (quiet_env demo_time) [(PressureTick, demo_time, demo_time)] private_server)) 0 private_at
  = Some private_text.
Proof.
  rewrite (maintenance_spares_private (quiet_env demo_time) [(PressureTick, demo_time, demo_time)] private_server 0
    "/c/private" "demo-pkg" "demo-1.zip" private_at private_at_file).
  - apply lookup_insert_eq.
  - apply quiet_attended.
  - destruct with_private_ok as [H1 H2]. apply one_store_ok; [exact H1|]. rewrite H2. vm_compute. split; discriminate.
Defined.

(** ** A configuration no server starts from *)

(** The paths of uploads and packages are next to the index, where another repository
    may be configured to be. *)
Definition overlapping : Config.Config :=
  configured [pypi_repository;
              Config.mkRepository "u" "npm" "/pypi/legacy/" "https://up.test/" (24 * Config.hour) false EmptyString []].

(** A repository may be configured at the server's own paths too. *)
Definition usurping : Config.Config :=
  configured [Config.mkRepository "u" "npm" "/" "https://up.test/" (24 * Config.hour) false EmptyString []].

