(* ===== verification/Main.v ===== *)
(** * The command

    [run] and [main] of [cmd/n0ding]: the configuration is loaded, and checked only or
    served until the listener fails or the process is told to stop.  The flags, the
    signals and [net/http]'s server are what the system gives: [serve] takes the handler
    to what it is when serving ends, and says how it ended. *)

From S2P Require Import Prelude GoStrings Http Time Metadata Fs Mux Server ServerNew ServerInvariant ServerStart.
From S2P Require Strconv Config PyPi.
From Stdlib Require Import Ascii String.
Local Open Scope string_scope.
Local Open Scope Z_scope.

(** How serving ends: [ListenAndServe] returns, or a signal came and [Shutdown] returns. *)
Inductive serve_error := ErrServerClosed | ServeFailed (text : string).
Inductive ended := ListenEnded (e : serve_error) | Stopped (shutdown : option string).

Inductive run_error :=
  | LoadFailed (e : Config.config_error)
  | NewFailed (e : new_error)
  | ListenFailed (text : string)
  | ShutdownFailed (text : string).

(** The settings of [http.Server]. *)
Record HttpServer := mkHttpServer {
  Addr : string;
  ReadHeaderTimeout : Z;
  IdleTimeout : Z
}.

Definition http_server (cfg : Config.Config) : HttpServer :=
  mkHttpServer (Config.Listen (Config.server cfg)) (10 * Config.second) (90 * Config.second).

(** What a run comes to: its error, what it printed, and the server it left, if it had one. *)
Record outcome := mkOutcome {
  failure : option run_error;
  printed : option string;
  left_server : option Server
}.

Section Run.
Context {codec : MetadataCodec} {html : PyPi.HtmlLib}.
Context (getenv : string -> string) (version : string) (boot : Boot).
Context (serve : HttpServer -> Server -> Server * ended).

Definition ended_error (e : ended) : option run_error :=
  match e with
  | ListenEnded ErrServerClosed => None
  | ListenEnded (ServeFailed text) => Some (ListenFailed text)
  | Stopped None => None
  | Stopped (Some text) => Some (ShutdownFailed text)
  end.

Definition run (configPath : string) (file : option Config.Reader) (checkConfig : bool) : outcome :=
  match Config.Load getenv configPath file with
  | Err e => mkOutcome (Some (LoadFailed e)) None None
  | Ok cfg =>
      if checkConfig then
        mkOutcome None (Some ("configuration " ++ Strconv.Quote configPath ++ " is valid" ++ String "010" EmptyString)) None
      else
        match New boot cfg version with
        | Err e => mkOutcome (Some (NewFailed e)) None None
        | Ok handler =>
            let '(s, e) := serve (http_server cfg) handler in mkOutcome (ended_error e) None (Some s)
        end
  end.

(** The status the process exits with. *)
Definition main (configPath : string) (file : option Config.Reader) (checkConfig : bool) : Z :=
  match failure (run configPath file checkConfig) with Some _ => 1 | None => 0 end.

(** ** Theorems *)

(** All the listener and the maintenance do to the handler are its own steps. *)
Hypothesis serve_steps : forall settings s, rtc server_step s (fst (serve settings s)).


End Run.
