(* ===== verification/MainExamples.v ===== *)
(** * The command at work

    The sample configuration is checked, then served: one scheduled collection, then a
    signal.  And the failures of a run. *)

From S2P Require Import Prelude GoStrings Http HttpPolicy Time Metadata Fs StoreExamples PyPiExamples Mux Server ServerNew ServerKeeps ServerInvariant ServerStart ServerExamples Main.
From S2P Require Config.
From Stdlib Require Import Ascii String.
Local Open Scope string_scope.
Local Open Scope Z_scope.

Definition sample_path : string := "/srv/etc/n0ding.toml".

(** Serving until a signal comes, after one tick. *)
Definition one_tick (settings : HttpServer) (s : Server) : Server * ended :=
  (maintenance_tick (quiet_env demo_time) ScheduleTick demo_time demo_time s, Stopped None).

Definition sample_run (file : option Config.Reader) (checkConfig : bool) : outcome :=
  run Config.sample_env "dev" demo_boot one_tick sample_path file checkConfig.

Example sample_runs :
  (printed (sample_run (Some Config.sample_file) true), failure (sample_run (Some Config.sample_file) false),
   map (fun file => main Config.sample_env "dev" demo_boot one_tick sample_path file true)
     [Some Config.sample_file; None; Some (Config.mkReader "listen = x" false)],
   http_server Config.sample_loaded)
  = (Some ("configuration " ++ Strconv.Quote sample_path ++ " is valid" ++ String "010" EmptyString), None, [0; 1; 1],
     mkHttpServer (Config.Listen (Config.server Config.defaults)) 10000000000 90000000000).
Proof. vm_compute. reflexivity. Qed.

Lemma one_tick_steps (settings : HttpServer) (s : Server) : rtc server_step s (fst (one_tick settings s)).
Proof. apply rtc_once, step_tick, quiet_attended. Qed.

